(** * GradOrientConvolutionLayer: a shallow embedding of the CPU reference path

    Source: caffe/src/caffe/layers/grad_orient_conv_layer.cpp and
    caffe/include/caffe/layers/grad_orient_conv_layer.hpp.

    Conventions of the embedding.
    - C++ [int] is [Z]; [/] and [%] on ints are [Z.quot] and [Z.rem].
    - The template parameter [Dtype] (and the [double] of the Gaussian
      stencil) is a type [D] with the operations of the class [DtypeOps];
      arithmetic is exact.  Two instances are used: [Q] (reduced fractions,
      runs under [vm_compute]) and [R].
    - <cmath> functions are the class [Libm].
    - A buffer behind a [Dtype*] is a [list D]; a pointer is the buffer
      plus an integer base index, so [p += k] adds [k] to the base and
      [p[i]] accesses index [base + i].
    - A failed CHECK or LOG(FATAL) is [Fatal msg]; an access outside a
      buffer or a vector (undefined behaviour in C++) is [Undefined].
    - Overflow of int arithmetic is not part of the embedding: the
      functions compute in [Z].  Statements that a whole run completes
      carry the hypothesis that the sizes the run computes are ints
      ([fits_int], [output_dim_fits], [Reshape_sizes_fit]).
    - Blob is not among the sources.  Reshaping one to a negative extent
      is [Fatal] ([Blob_Reshape_to]); a Blob without values (an extent
      of 0) has no storage to hand out, so statements that a whole run
      completes take every extent to be at least 1.
    - Members of BaseConvolutionLayer that only size the scratch buffers
      of the im2col primitive (col_buffer_, col_offset_, output_offset_,
      conv_input_shape_, num_kernels_im2col_, num_kernels_col2im_,
      bias_multiplier_, is_1x1_, force_nd_im2col_, kernel_dim_,
      weight_offset_, conv_out_spatial_dim_, out_spatial_dim_) are not
      carried: nothing in this file's functions reads them back.
    - The source has a few spellings that are not C++ ([pushback],
      [blob_], [num_rotation_], [resize] on a Blob, [t op_dim_]); they are
      read as [push_back], [blobs_], [num_rotations_], [Reshape] and
      [top_dim_]. *)

From Stdlib Require Import String.
From Stdlib Require Import ZArith List Bool Lia.
From Stdlib Require Import QArith Qreduction.
From Stdlib Require Import Reals Lra.
Import ListNotations.

Close Scope R_scope.
Close Scope Q_scope.
Local Open Scope Z_scope.

Set Implicit Arguments.

(** ** Outcomes: normal return, fatal abort, undefined behaviour *)

Inductive outcome (A : Type) : Type :=
| Ok (a : A)
| Fatal (msg : string)
| Undefined.

Arguments Ok {A} a.
Arguments Fatal {A} msg%_string.
Arguments Undefined {A}.

Definition bind {A B : Type} (m : outcome A) (k : A -> outcome B) : outcome B :=
  match m with
  | Ok a => k a
  | Fatal msg => Fatal msg
  | Undefined => Undefined
  end.

Declare Scope outcome_scope.
Delimit Scope outcome_scope with outcome.
Notation "x <- m ;; k" := (bind m (fun x => k))
  (at level 61, m at next level, right associativity) : outcome_scope.
Notation "' pat <- m ;; k" := (bind m (fun x => match x with pat => k end))
  (at level 61, pat pattern, m at next level, right associativity) : outcome_scope.
Notation "m ;;; k" := (bind m (fun _ => k))
  (at level 61, right associativity) : outcome_scope.
Local Open Scope outcome_scope.

(** CHECK(b) << msg *)
Definition CHECK (b : bool) (msg : string) : outcome unit :=
  if b then Ok tt else Fatal msg.

Arguments CHECK b%_bool msg%_string.

(** ** Buffers and loops *)

Section Buffers.
Variable A : Type.

(** [buf[i]] *)
Definition rd (buf : list A) (i : Z) : outcome A :=
  if i <? 0 then Undefined
  else match nth_error buf (Z.to_nat i) with
       | Some x => Ok x
       | None => Undefined
       end.

Fixpoint upd (buf : list A) (n : nat) (x : A) : list A :=
  match buf, n with
  | [], _ => []
  | _ :: t, O => x :: t
  | h :: t, S n' => h :: upd t n' x
  end.

(** [buf[i] = x] *)
Definition wr (buf : list A) (i : Z) (x : A) : outcome (list A) :=
  if i <? 0 then Undefined
  else if i <? Z.of_nat (length buf) then Ok (upd buf (Z.to_nat i) x)
  else Undefined.

(** [v[i]] on a std::vector *)
Definition vec_at (v : list A) (i : Z) : outcome A := rd v i.
End Buffers.

Section Loops.
Variable S : Type.

Fixpoint for_nat (k : nat) (i : Z) (body : Z -> S -> outcome S) (s : S)
  : outcome S :=
  match k with
  | O => Ok s
  | Datatypes.S k' => s' <- body i s ;; for_nat k' (i + 1) body s'
  end.

(** [for (int i = lo; i < hi; ++i) body] *)
Definition for_range (lo hi : Z) (body : Z -> S -> outcome S) (s : S)
  : outcome S :=
  for_nat (Z.to_nat (hi - lo)) lo body s.
End Loops.

(** ** Scalars *)

(** The arithmetic the layer uses on [Dtype] and [double] values. *)
Class DtypeOps (D : Type) : Type := {
  dzero : D;
  dadd : D -> D -> D;
  dsub : D -> D -> D;
  dmul : D -> D -> D;
  ddiv : D -> D -> D;
  dopp : D -> D;
  dltb : D -> D -> bool;
  dleb : D -> D -> bool;
  (** int to Dtype conversion *)
  of_int : Z -> D;
  (** a decimal literal of the source *)
  of_lit : Q -> D;
  (** the constant M_PI of <cmath> *)
  M_PI : D
}.

(** The <cmath> functions the layer calls. *)
Class Libm (D : Type) : Type := {
  m_exp : D -> D;
  m_atan2 : D -> D -> D;
  m_sin : D -> D;
  m_cos : D -> D
}.

(** ** The tensor container *)

(** Modelled from the spec: the Blob class (caffe/blob.hpp) is not among
    the sources.  A tensor is "a dense, row-major, 4-axis numeric array
    indexed (batch, channel, row, column)"; it carries values and their
    gradients ([cpu_data] and [cpu_diff]).  An axis index outside the
    shape aborts, as every failure of this stage does ("failures are
    immediate, synchronous aborts").  The members of the layer are
    "persistent fields mutated in place": shaping a tensor again does not
    clear what it holds. *)
Record Blob (D : Type) : Type := mkBlob {
  shape_ : list Z;
  data_ : list D;
  diff_ : list D
}.

Definition len {A : Type} (l : list A) : Z := Z.of_nat (List.length l).

Definition count_of (shp : list Z) : Z := fold_right Z.mul 1 shp.

Fixpoint list_eqb (a b : list Z) : bool :=
  match a, b with
  | [], [] => true
  | x :: a', y :: b' => (x =? y) && list_eqb a' b'
  | _, _ => false
  end.

Section BlobOps.
Context {D : Type} {ops : DtypeOps D}.

Definition zeros (n : Z) : list D := repeat dzero (Z.to_nat n).

(** [new Blob<Dtype>(shape)]: storage starts zero-filled. *)
Definition Blob_new (shp : list Z) : Blob D :=
  {| shape_ := shp; data_ := zeros (count_of shp); diff_ := zeros (count_of shp) |}.

(** What [b.Reshape(shape)] leaves when it accepts the shape (the call
    itself is [Blob_Reshape_to]): the storage, with its contents, is kept
    while it is large enough and replaced by zero-filled storage when it
    is not. *)
Definition Blob_Reshape (b : Blob D) (shp : list Z) : Blob D :=
  {| shape_ := shp;
     data_ := if count_of shp <=? len (data_ b) then data_ b
              else zeros (count_of shp);
     diff_ := if count_of shp <=? len (diff_ b) then diff_ b
              else zeros (count_of shp) |}.

(** Modelled from the spec: a tensor is "a dense, row-major, 4-axis
    numeric array", which has no negative extent.  The call
    [b.Reshape(shape)] aborts on a negative extent and otherwise leaves
    [Blob_Reshape b shape]. *)
Definition Blob_Reshape_to (b : Blob D) (shp : list Z) : outcome (Blob D) :=
  CHECK (forallb (fun d => 0 <=? d) shp) "negative extent" ;;;
  Ok (Blob_Reshape b shp).

Definition num_axes (b : Blob D) : Z := len (shape_ b).

(** [b.shape(i)] *)
Definition shape (b : Blob D) (i : Z) : outcome Z :=
  match rd (shape_ b) i with
  | Ok v => Ok v
  | _ => Fatal "axis out of range"
  end.

(** [b.CanonicalAxisIndex(i)] *)
Definition CanonicalAxisIndex (b : Blob D) (i : Z) : outcome Z :=
  CHECK (- num_axes b <=? i) "axis out of range" ;;;
  CHECK (i <? num_axes b) "axis out of range" ;;;
  Ok (if i <? 0 then i + num_axes b else i).

(** [b.count()], [b.count(start)], [b.count(start, end)] *)
Definition count (b : Blob D) : Z := count_of (shape_ b).
Definition count_from (b : Blob D) (s : Z) : Z :=
  count_of (skipn (Z.to_nat s) (shape_ b)).
Definition count_range (b : Blob D) (s e : Z) : Z :=
  count_of (firstn (Z.to_nat (e - s)) (skipn (Z.to_nat s) (shape_ b))).

(** [b.offset(n, c, h, w)], row-major; absent trailing arguments are 0. *)
Definition offset (b : Blob D) (n c h w : Z) : Z :=
  let dim i := nth i (shape_ b) 1 in
  ((n * dim 1%nat + c) * dim 2%nat + h) * dim 3%nat + w.

(** [n] values starting at [base]. *)
Definition slice (buf : list D) (base n : Z) : outcome (list D) :=
  if (base <? 0) || (n <? 0) || (len buf <? base + n) then Undefined
  else Ok (firstn (Z.to_nat n) (skipn (Z.to_nat base) buf)).

(** The buffer [buf] after [vals] was written over its first values. *)
Definition overwrite (buf vals : list D) : list D :=
  map (fun i => nth i vals (nth i buf dzero)) (seq 0 (List.length buf)).

(** Overwrite the values starting at [base] by [vals]. *)
Definition store (buf : list D) (base : Z) (vals : list D) : outcome (list D) :=
  if (base <? 0) || (len buf <? base + len vals) then Undefined
  else Ok (firstn (Z.to_nat base) buf ++ vals
           ++ skipn (Z.to_nat (base + len vals)) buf).
End BlobOps.

(** ** Configuration and layer state *)

(** The fields of ConvolutionParameter (caffe.proto) the layer reads.  An
    optional field is an [option]; a repeated field is a list. *)
Record ConvolutionParameter : Type := {
  axis : Z;
  kernel_size : list Z;
  kernel_h : option Z;
  kernel_w : option Z;
  stride : list Z;
  stride_h : option Z;
  stride_w : option Z;
  pad : list Z;
  pad_h : option Z;
  pad_w : option Z;
  num_output : Z;
  group : Z;
  bias_term : bool
}.

Definition has (o : option Z) : bool :=
  match o with Some _ => true | None => false end.
Definition get (o : option Z) : Z :=
  match o with Some v => v | None => 0 end.

(** The members of the layer object.  [kernel_w_] is named by the Gaussian
    loop of LayerSetUp but declared nowhere in the class and assigned by
    no function; it is kept as a member that the functions only read. *)
Record Layer (D : Type) : Type := mkLayer {
  layer_param_ : ConvolutionParameter;
  kernel_w_ : Z;
  num_rotations_ : Z;
  channel_axis_ : Z;
  num_spatial_axes_ : Z;
  kernel_shape_ : list Z;
  stride_ : list Z;
  pad_ : list Z;
  channels_ : Z;
  num_output_ : Z;
  group_ : Z;
  conv_out_channels_ : Z;
  conv_in_channels_ : Z;
  bias_term_ : bool;
  blobs_ : list (Blob D);
  intermediate_kernels_ : list (Blob D);
  param_propagate_down_ : list bool;
  gauss_kernel_ : Blob D;
  num_ : Z;
  bottom_shape_ : list Z;
  output_shape_ : list Z;
  pooled_height_ : Z;
  pooled_width_ : Z;
  bottom_dim_ : Z;
  top_dim_ : Z;
  orientation_map_ : Blob D;
  intermediate_kernel_alphas_ : Blob D
}.

(** The collaborators of the layer that are not among the sources: the
    parameter fillers and the dense-convolution primitive of
    BaseConvolutionLayer.  Each works on the values behind the pointers it
    is given and returns the values it writes. *)
Class BaseConv (D : Type) : Type := {
  (** [weight_filler->Fill(blob)] on a blob of the given shape *)
  weight_filler : list Z -> list D;
  bias_filler : list Z -> list D;
  (** [forward_cpu_gemm(input, weights, output)]: the [top_dim_] values
      written to [output] *)
  forward_cpu_gemm : Layer D -> list D -> list D -> list D;
  (** [forward_cpu_bias(output, bias)]: [output] after the call *)
  forward_cpu_bias : Layer D -> list D -> list D -> list D;
  (** [backward_cpu_bias(bias_diff, top_diff)]: [bias_diff] after the call *)
  backward_cpu_bias : Layer D -> list D -> list D -> list D;
  (** [weight_cpu_gemm(input, top_diff, weight_diff)]: [weight_diff] after *)
  weight_cpu_gemm : Layer D -> list D -> list D -> list D -> list D;
  (** [backward_cpu_gemm(top_diff, weights, bottom_diff)]: the
      [bottom_dim_] values written to [bottom_diff] *)
  backward_cpu_gemm : Layer D -> list D -> list D -> list D
}.

(** ** math_functions helpers *)

Section MathFunctions.
Context {D : Type} {ops : DtypeOps D} {libm : Libm D}.

(** [caffe_set(n, alpha, Y)]: [Y[i] = alpha] *)
Definition caffe_set (n : Z) (alpha : D) (Y : list D) : outcome (list D) :=
  for_range 0 n (fun i y => wr y i alpha) Y.

(** [caffe_scal(n, alpha, X)]: [X[i] = alpha * X[i]] *)
Definition caffe_scal (n : Z) (alpha : D) (X : list D) : outcome (list D) :=
  for_range 0 n (fun i x => v <- rd x i ;; wr x i (dmul alpha v)) X.

(** Modelled from the spec: caffe_atan2, caffe_sin and caffe_cos are not
    among the sources.  "per spatial location, angle = four-quadrant
    arctangent(vertical component, horizontal component)" and the "sine
    and cosine of that angle": [caffe_atan2(n, y, x, out)] sets
    [out[i] = atan2(y[i], x[i])], [caffe_sin(n, a, out)] sets
    [out[i] = sin(a[i])], and likewise [caffe_cos].  A pointer argument
    is a buffer and a base index. *)
Definition caffe_atan2 (n : Z) (y : list D) (ybase : Z) (x : list D) (xbase : Z)
    (out : list D) (obase : Z) : outcome (list D) :=
  for_range 0 n (fun i o =>
    yi <- rd y (ybase + i) ;;
    xi <- rd x (xbase + i) ;;
    wr o (obase + i) (m_atan2 yi xi)) out.

Definition caffe_unary (f : D -> D) (n : Z) (a : list D) (abase : Z)
    (out : list D) (obase : Z) : outcome (list D) :=
  for_range 0 n (fun i o =>
    ai <- rd a (abase + i) ;;
    wr o (obase + i) (f ai)) out.

Definition caffe_sin := caffe_unary m_sin.
Definition caffe_cos := caffe_unary m_cos.

(** [pow(x, 2)] *)
Definition pow2 (x : D) : D := dmul x x.
End MathFunctions.

(** ** LayerSetUp *)

Section LayerCode.
Context {D : Type} {ops : DtypeOps D} {libm : Libm D} {base : BaseConv D}.

(** Lines 37-64: kernel_shape_. *)
Definition SetUp_kernel_shape (p : ConvolutionParameter) (nsa : Z)
  : outcome (list Z) :=
  let ksd0 := repeat 0 (Z.to_nat (Z.max nsa 2)) in
  ksd <- (if has (kernel_h p) || has (kernel_w p) then
            CHECK (nsa =? 2)
              "kernel_h & kernel_w can only be used for 2D convolution." ;;;
            CHECK (0 =? len (kernel_size p))
              "Either kernel_size or kernel_h/w should be specified; not both." ;;;
            k <- wr ksd0 0 (get (kernel_h p)) ;;
            wr k 1 (get (kernel_w p))
          else
            let num_kernel_dims := len (kernel_size p) in
            CHECK ((num_kernel_dims =? 1) || (num_kernel_dims =? nsa))
              "kernel_size must be specified once, or once per spatial dimension" ;;;
            for_range 0 nsa (fun i k =>
              v <- rd (kernel_size p) (if num_kernel_dims =? 1 then 0 else i) ;;
              wr k i v) ksd0) ;;
  for_range 0 nsa (fun i (_ : unit) =>
    v <- rd ksd i ;;
    CHECK (0 <? v) "Filter dimensions must be nonzero.") tt ;;;
  k0 <- rd ksd 0 ;;
  k1 <- rd ksd 1 ;;
  CHECK (k0 =? k1) "The Kernels should be square." ;;;
  Ok ksd.

(** Lines 66-89: stride_. *)
Definition SetUp_stride (p : ConvolutionParameter) (nsa : Z)
  : outcome (list Z) :=
  let sd0 := repeat 0 (Z.to_nat (Z.max nsa 2)) in
  if has (stride_h p) || has (stride_w p) then
    CHECK (nsa =? 2)
      "stride_h & stride_w can only be used for 2D convolution." ;;;
    CHECK (0 =? len (stride p))
      "Either stride or stride_h/w should be specified; not both." ;;;
    s <- wr sd0 0 (get (stride_h p)) ;;
    wr s 1 (get (stride_w p))
  else
    let num_stride_dims := len (stride p) in
    CHECK ((num_stride_dims =? 0) || (num_stride_dims =? 1)
           || (num_stride_dims =? nsa))
      "stride must be specified once, or once per spatial dimension" ;;;
    let kDefaultStride := 1 in
    for_range 0 nsa (fun i s =>
      v <- (if num_stride_dims =? 0 then Ok kDefaultStride
            else rd (stride p) (if num_stride_dims =? 1 then 0 else i)) ;;
      s' <- wr s i v ;;
      CHECK (0 <? v) "Stride dimensions must be nonzero." ;;;
      Ok s') sd0.

(** Lines 90-112: pad_. *)
Definition SetUp_pad (p : ConvolutionParameter) (nsa : Z)
  : outcome (list Z) :=
  let pd0 := repeat 0 (Z.to_nat (Z.max nsa 2)) in
  if has (pad_h p) || has (pad_w p) then
    CHECK (nsa =? 2)
      "pad_h & pad_w can only be used for 2D convolution." ;;;
    CHECK (0 =? len (pad p))
      "Either pad or pad_h/w should be specified; not both." ;;;
    s <- wr pd0 0 (get (pad_h p)) ;;
    wr s 1 (get (pad_w p))
  else
    let num_pad_dims := len (pad p) in
    CHECK ((num_pad_dims =? 0) || (num_pad_dims =? 1)
           || (num_pad_dims =? nsa))
      "pad must be specified once, or once per spatial dimension" ;;;
    let kDefaultPad := 0 in
    for_range 0 nsa (fun i s =>
      v <- (if num_pad_dims =? 0 then Ok kDefaultPad
            else rd (pad p) (if num_pad_dims =? 1 then 0 else i)) ;;
      wr s i v) pd0.

(** Lines 139-193: the parameter blobs and the rotated-kernel container.
    Returns [blobs_] and [intermediate_kernels_].  Each
    push_back of the dereferenced [blobs_[0]] stores a copy of the weight
    blob that owns its storage (the header calls them "Rotated copies of
    the kernel"). *)
Definition SetUp_blobs (L : Layer D) (weight_shape bias_shape : list Z)
    (bias_term : bool) (num_rotations : Z)
  : outcome (list (Blob D) * list (Blob D)) :=
  if 0 <? len (blobs_ L) then
    CHECK (1 + (if bias_term then 1 else 0) =? len (blobs_ L))
      "Incorrect number of weight blobs." ;;;
    w <- vec_at (blobs_ L) 0 ;;
    (if negb (list_eqb weight_shape (shape_ w))
     then Fatal "Incorrect weight shape" else Ok tt) ;;;
    (if bias_term then
       b <- vec_at (blobs_ L) 1 ;;
       if negb (list_eqb bias_shape (shape_ b))
       then Fatal "Incorrect bias shape" else Ok tt
     else Ok tt) ;;;
    Ok (blobs_ L, intermediate_kernels_ L)
  else
    let w := {| shape_ := weight_shape;
                data_ := weight_filler weight_shape;
                diff_ := zeros (count_of weight_shape) |} in
    let blobs :=
      if bias_term then
        [w; {| shape_ := bias_shape;
               data_ := bias_filler bias_shape;
               diff_ := zeros (count_of bias_shape) |}]
      else [w] in
    kernels <- for_range 0 num_rotations (fun i ks =>
                 b <- vec_at blobs 0 ;;
                 Ok (ks ++ [b])) (intermediate_kernels_ L) ;;
    Ok (blobs, kernels).

(** One entry of the stencil before scaling (lines 211-212). *)
Definition gauss_value (kernel_h kernel_w h w : Z) (sigma : D) : D :=
  ddiv
    (m_exp
       (ddiv
          (dopp (dadd (pow2 (dsub (of_int h) (ddiv (of_int kernel_h) (of_lit (2 # 1)))))
                      (pow2 (dsub (of_int w) (ddiv (of_int kernel_w) (of_lit (2 # 1)))))))
          (dmul (dmul (of_lit (2 # 1)) sigma) sigma)))
    (dmul (dmul (dmul (of_int 2) (of_lit (314159 # 100000))) sigma) sigma).

(** Lines 200-216: the Gaussian stencil; returns [gauss_kernel_]. *)
Definition SetUp_gauss_kernel (L : Layer D) (kernel_shape : list Z)
  : outcome (Blob D) :=
  kernel_h <- rd kernel_shape 0 ;;
  kernel_w <- rd kernel_shape 1 ;;
  let gk := Blob_Reshape (gauss_kernel_ L) [1; 1; kernel_h; kernel_w] in
  let sigma := ddiv (of_int (kernel_w + kernel_h)) (of_int 12) in
  '(gaussian, gauss_sum) <-
    for_range 0 kernel_h (fun h st =>
      for_range 0 kernel_w (fun w '(g, gauss_sum) =>
        g' <- wr g (h * kernel_w_ L + w) (gauss_value kernel_h kernel_w h w sigma) ;;
        x <- rd g' (h * kernel_w_ L + w) ;;
        Ok (g', dadd gauss_sum x)) st) (data_ gk, dzero) ;;
  gaussian' <- caffe_scal (count gk) (ddiv (of_lit (1 # 1)) gauss_sum) gaussian ;;
  Ok {| shape_ := shape_ gk; data_ := gaussian'; diff_ := diff_ gk |}.

(** [v.resize(n, true)] on a vector<bool> *)
Definition resize_true (v : list bool) (n : Z) : list bool :=
  firstn (Z.to_nat n) v ++ repeat true (Z.to_nat n - List.length v).

Definition LayerSetUp (L : Layer D) (bottom : list (Blob D)) : outcome (Layer D) :=
  let num_rotations := 4 in
  let conv_param := layer_param_ L in
  b0 <- vec_at bottom 0 ;;
  channel_axis <- CanonicalAxisIndex b0 (axis conv_param) ;;
  let first_spatial_axis := channel_axis + 1 in
  let num_spatial_axes := num_axes b0 - first_spatial_axis in
  CHECK (0 <=? num_spatial_axes) "num_spatial_axes_ >= 0" ;;;
  CHECK (num_spatial_axes =? 2) "GradOrient only supports 2D Convolutions." ;;;
  kernel_shape_data <- SetUp_kernel_shape conv_param num_spatial_axes ;;
  stride_data <- SetUp_stride conv_param num_spatial_axes ;;
  pad_data <- SetUp_pad conv_param num_spatial_axes ;;
  channels <- shape b0 channel_axis ;;
  let num_output := num_output conv_param in
  CHECK (0 <? num_output) "num_output_ > 0" ;;;
  let group := group conv_param in
  (if group =? 0 then Undefined else Ok tt) ;;;
  CHECK (Z.rem channels group =? 0) "channels_ % group_ == 0" ;;;
  CHECK (Z.rem num_output group =? 0)
    "Number of output should be multiples of group." ;;;
  let conv_out_channels := num_output in
  let conv_in_channels := channels in
  weight_shape <- for_range 0 num_spatial_axes (fun i ws =>
                    k <- rd kernel_shape_data i ;;
                    Ok (ws ++ [k]))
                  [conv_out_channels; Z.quot conv_in_channels group] ;;
  let bias_term := bias_term conv_param in
  let bias_shape := if bias_term then [num_output] else [] in
  '(blobs, kernels) <- SetUp_blobs L weight_shape bias_shape bias_term num_rotations ;;
  gk <- SetUp_gauss_kernel L kernel_shape_data ;;
  Ok {| layer_param_ := conv_param;
        kernel_w_ := kernel_w_ L;
        num_rotations_ := num_rotations;
        channel_axis_ := channel_axis;
        num_spatial_axes_ := num_spatial_axes;
        kernel_shape_ := kernel_shape_data;
        stride_ := stride_data;
        pad_ := pad_data;
        channels_ := channels;
        num_output_ := num_output;
        group_ := group;
        conv_out_channels_ := conv_out_channels;
        conv_in_channels_ := conv_in_channels;
        bias_term_ := bias_term;
        blobs_ := blobs;
        intermediate_kernels_ := kernels;
        param_propagate_down_ :=
          resize_true (param_propagate_down_ L) (len blobs);
        gauss_kernel_ := gk;
        num_ := num_ L;
        bottom_shape_ := bottom_shape_ L;
        output_shape_ := output_shape_ L;
        pooled_height_ := pooled_height_ L;
        pooled_width_ := pooled_width_ L;
        bottom_dim_ := bottom_dim_ L;
        top_dim_ := top_dim_ L;
        orientation_map_ := orientation_map_ L;
        intermediate_kernel_alphas_ := intermediate_kernel_alphas_ L |}.

(** ** compute_output_shape *)

(** [input_shape(i)] of BaseConvolutionLayer: entry [channel_axis_ + i]
    of the shape [bottom_shape_] points to. *)
Definition input_shape (L : Layer D) (bottom_shape : list Z) (i : Z) : outcome Z :=
  vec_at bottom_shape (channel_axis_ L + i).

(** Returns [output_shape_], [pooled_height_] and [pooled_width_]. *)
Definition compute_output_shape (L : Layer D) (bottom_shape : list Z)
  : outcome (list Z * Z * Z) :=
  output_shape <- for_range 0 (num_spatial_axes_ L) (fun i os =>
                    input_dim <- input_shape L bottom_shape (i + 1) ;;
                    p <- rd (pad_ L) i ;;
                    k <- rd (kernel_shape_ L) i ;;
                    s <- rd (stride_ L) i ;;
                    (if s =? 0 then Undefined else Ok tt) ;;;
                    let output_dim := Z.quot (input_dim + 2 * p - k) s + 1 in
                    Ok (os ++ [output_dim])) [] ;;
  pooled_width <- vec_at output_shape 1 ;;
  pooled_height <- vec_at output_shape 0 ;;
  Ok (output_shape, pooled_height, pooled_width).

(** ** Reshape *)

(** [bufs[i][idx] = x] for a vector of pointers [bufs] *)
Definition wr_at (bufs : list (list D)) (i idx : Z) (x : D)
  : outcome (list (list D)) :=
  b <- vec_at bufs i ;;
  b' <- wr b idx x ;;
  wr bufs i b'.

(** Lines 229-242: the shape checks; returns [num_]. *)
Definition Reshape_checks (L : Layer D) (bottom : list (Blob D)) : outcome Z :=
  let first_spatial_axis := channel_axis_ L + 1 in
  b0 <- vec_at bottom 0 ;;
  CHECK (num_axes b0 =? first_spatial_axis + num_spatial_axes_ L)
    "bottom num_axes may not change." ;;;
  let num := count_range b0 0 (channel_axis_ L) in
  c0 <- shape b0 (channel_axis_ L) ;;
  CHECK (c0 =? channels_ L)
    "Input size incompatible with convolution kernel." ;;;
  b1 <- vec_at bottom 1 ;;
  h0 <- shape b0 2 ;;
  h1 <- shape b1 2 ;;
  CHECK (h0 =? h1) "both bottoms ought to have the same height." ;;;
  w0 <- shape b0 3 ;;
  w1 <- shape b1 3 ;;
  CHECK (w0 =? w1) "both bottoms ought to have the same width." ;;;
  n0 <- shape b0 0 ;;
  n1 <- shape b1 0 ;;
  CHECK (n0 =? n1) "both bottoms ought to have the same num." ;;;
  c1 <- shape b1 1 ;;
  CHECK (c1 =? 2) "gradient map would have 2 channels, Gx and Gy." ;;;
  Ok num.

(** Lines 326-336: the index [r] read from [kernels] for rotated copy
    [i] at row [h] and column [w]; [s2] and [s3] are [shape(2)] and
    [shape(3)] of the weights. *)
Definition rot_index (i s2 s3 h w : Z) : Z :=
  if i =? 0 then h * s3 + w
  else if i =? 1 then w * s3 + s2 - h
  else if i =? 2 then (s2 - h) * s3 + s3 - w
  else (s3 - w) * s3 + h.

(** Lines 315-345: the rotated copies.  [kernels] is the data of
    [blobs_[0]] and is never advanced; the four [rot_kernel] pointers
    share one base index, advanced by [offset(0,1)] after each (n, c). *)
Definition Reshape_rotate (w0 : Blob D) (rot_kernel : list (list D))
  : outcome (list (list D)) :=
  let kernels := data_ w0 in
  s0 <- shape w0 0 ;;
  '(rot, _) <-
    for_range 0 s0 (fun n st =>
      s1 <- shape w0 1 ;;
      for_range 0 s1 (fun c '(rot, rbase) =>
        s2 <- shape w0 2 ;;
        rot' <- for_range 0 s2 (fun h rot =>
          s3 <- shape w0 3 ;;
          for_range 0 s3 (fun w rot =>
            let q := h * s3 + w in
            x <- rd kernels (rot_index 0 s2 s3 h w) ;;
            rot <- wr_at rot 0 (rbase + q) x ;;
            x <- rd kernels (rot_index 1 s2 s3 h w) ;;
            rot <- wr_at rot 1 (rbase + q) x ;;
            x <- rd kernels (rot_index 2 s2 s3 h w) ;;
            rot <- wr_at rot 2 (rbase + q) x ;;
            x <- rd kernels (rot_index 3 s2 s3 h w) ;;
            wr_at rot 3 (rbase + q) x) rot) rot ;;
        Ok (rot', rbase + offset w0 0 1 0 0)) st) (rot_kernel, 0) ;;
  Ok rot.

Definition set_data (b : Blob D) (d : list D) : Blob D :=
  {| shape_ := shape_ b; data_ := d; diff_ := diff_ b |}.
Definition set_diff (b : Blob D) (d : list D) : Blob D :=
  {| shape_ := shape_ b; data_ := data_ b; diff_ := d |}.

(** Pair each rotated buffer back with its blob. *)
Fixpoint set_datas (bs : list (Blob D)) (ds : list (list D)) : list (Blob D) :=
  match bs, ds with
  | b :: bs', d :: ds' => set_data b d :: set_datas bs' ds'
  | _, _ => bs
  end.

Definition Reshape (L : Layer D) (bottom top : list (Blob D))
  : outcome (Layer D * list (Blob D)) :=
  num <- Reshape_checks L bottom ;;
  b0 <- vec_at bottom 0 ;;
  (* Shape the tops. *)
  let bottom_shape := shape_ b0 in
  '(output_shape, pooled_height, pooled_width) <- compute_output_shape L bottom_shape ;;
  top_shape <- for_range 0 (num_spatial_axes_ L) (fun i ts =>
                 o <- vec_at output_shape i ;;
                 Ok (ts ++ [o]))
               (firstn (Z.to_nat (channel_axis_ L)) (shape_ b0) ++ [num_output_ L]) ;;
  t0 <- vec_at top 0 ;;
  t0 <- Blob_Reshape_to t0 top_shape ;;
  top_shape <- wr top_shape 1 2 ;;
  t1 <- vec_at top 1 ;;
  t1 <- Blob_Reshape_to t1 top_shape ;;
  t2 <- vec_at top 2 ;;
  t2 <- Blob_Reshape_to t2 top_shape ;;
  top <- wr top 0 t0 ;;
  top <- wr top 1 t1 ;;
  top <- wr top 2 t2 ;;
  let bottom_dim := count_from b0 (channel_axis_ L) in
  let top_dim := count_from t0 (channel_axis_ L) in
  (* orientation map would be top sized in n, h and w *)
  top_shape <- wr top_shape 1 1 ;;
  orientation_map <- Blob_Reshape_to (orientation_map_ L) top_shape ;;
  a0 <- vec_at top_shape 0 ;;
  a2 <- vec_at top_shape 2 ;;
  a3 <- vec_at top_shape 3 ;;
  let alpha_shape := [a0; 4; a2; a3] in
  alphas <- Blob_Reshape_to (intermediate_kernel_alphas_ L) alpha_shape ;;
  (* the rotated copies *)
  w0 <- vec_at (blobs_ L) 0 ;;
  rot_kernel <- for_range 0 (num_rotations_ L) (fun i rk =>
                  k <- vec_at (intermediate_kernels_ L) i ;;
                  Ok (rk ++ [data_ k])) [] ;;
  rot <- Reshape_rotate w0 rot_kernel ;;
  Ok ({| layer_param_ := layer_param_ L;
         kernel_w_ := kernel_w_ L;
         num_rotations_ := num_rotations_ L;
         channel_axis_ := channel_axis_ L;
         num_spatial_axes_ := num_spatial_axes_ L;
         kernel_shape_ := kernel_shape_ L;
         stride_ := stride_ L;
         pad_ := pad_ L;
         channels_ := channels_ L;
         num_output_ := num_output_ L;
         group_ := group_ L;
         conv_out_channels_ := conv_out_channels_ L;
         conv_in_channels_ := conv_in_channels_ L;
         bias_term_ := bias_term_ L;
         blobs_ := blobs_ L;
         intermediate_kernels_ := set_datas (intermediate_kernels_ L) rot;
         param_propagate_down_ := param_propagate_down_ L;
         gauss_kernel_ := gauss_kernel_ L;
         num_ := num;
         bottom_shape_ := bottom_shape;
         output_shape_ := output_shape;
         pooled_height_ := pooled_height;
         pooled_width_ := pooled_width;
         bottom_dim_ := bottom_dim;
         top_dim_ := top_dim;
         orientation_map_ := orientation_map;
         intermediate_kernel_alphas_ := alphas |}, top).

(** ** GaussConvolveHelper *)

(** [stride_data], [pad_data] and [kernel_shape_data] are the data of
    the members [stride_], [pad_] and [kernel_shape_].  Returns [out]. *)
Definition GaussConvolveHelper (L : Layer D) (inb out : Blob D)
  : outcome (Blob D) :=
  N <- shape inb 0 ;;
  H <- shape inb 2 ;;
  W <- shape inb 3 ;;
  PH <- shape out 2 ;;
  PW <- shape out 3 ;;
  stride_h <- rd (stride_ L) 0 ;;
  stride_w <- rd (stride_ L) 1 ;;
  pad_h <- rd (pad_ L) 0 ;;
  pad_w <- rd (pad_ L) 1 ;;
  kernel_h <- rd (kernel_shape_ L) 0 ;;
  kernel_w <- rd (kernel_shape_ L) 1 ;;
  let in_data := data_ inb in
  out_data <- caffe_set (count out) dzero (data_ out) ;;
  let gaussian := data_ (gauss_kernel_ L) in
  '(out_data, _, _) <-
    for_range 0 N (fun n st =>
      for_range 0 (channels_ L) (fun c '(out_data, ibase, obase) =>
        out_data <-
          for_range 0 PH (fun ph od =>
            for_range 0 PW (fun pw od =>
              let hstart := ph * stride_h - pad_h in
              let wstart := pw * stride_w - pad_w in
              let hend := Z.min (hstart + kernel_h) H in
              let wend := Z.min (wstart + kernel_w) W in
              let hstart := Z.max hstart 0 in
              let wstart := Z.max wstart 0 in
              for_range hstart hend (fun h od =>
                for_range wstart wend (fun w od =>
                  o <- rd od (obase + (ph * PW + pw)) ;;
                  g <- rd gaussian ((h - hstart) * kernel_w + (w - wstart)) ;;
                  x <- rd in_data (ibase + (h * W + w)) ;;
                  wr od (obase + (ph * PW + pw)) (dadd o (dmul g x))) od) od) od)
            out_data ;;
        Ok (out_data, ibase + offset inb 0 1 0 0, obase + offset out 0 1 0 0)) st)
      (out_data, 0, 0) ;;
  Ok (set_data out out_data).

(** ** Forward_cpu *)

(** Lines 420-430: the orientation map from [top[2]]; returns the data
    of [orientation_map_]. *)
Definition Forward_orientation (L : Layer D) (top2 : Blob D) : outcome (list D) :=
  let top2_x := 0 in
  let top2_y := 0 + offset top2 0 1 0 0 in
  let top_spatial_size := count_from top2 2 in
  N <- shape top2 0 ;;
  '(orientation, _, _, _) <-
    for_range 0 N (fun n '(orientation, obase, top2_x, top2_y) =>
      orientation <- caffe_atan2 top_spatial_size (data_ top2) top2_y
                       (data_ top2) top2_x orientation obase ;;
      Ok (orientation,
          obase + offset (orientation_map_ L) 1 0 0 0,
          top2_x + offset top2 1 0 0 0,
          top2_y + offset top2 1 0 0 0))
      (data_ (orientation_map_ L), 0, top2_x, top2_y) ;;
  Ok orientation.

(** Lines 432-443: sine and cosine into [top[1]]; [orientation] is the
    data of [orientation_map_]; returns the data of [top[1]]. *)
Definition Forward_sincos (L : Layer D) (orientation : list D) (top1 top2 : Blob D)
  : outcome (list D) :=
  let top1_0 := 0 in
  let top1_1 := 0 + offset top1 0 1 0 0 in
  let top_spatial_size := count_from top1 2 in
  N <- shape top2 0 ;;
  '(t1, _, _, _) <-
    for_range 0 N (fun n '(t1, obase, top1_0, top1_1) =>
      t1 <- caffe_sin top_spatial_size orientation obase t1 top1_0 ;;
      t1 <- caffe_cos top_spatial_size orientation obase t1 top1_1 ;;
      Ok (t1,
          obase + offset (orientation_map_ L) 1 0 0 0,
          top1_0 + offset top1 1 0 0 0,
          top1_1 + offset top1 1 0 0 0))
      (data_ top1, 0, top1_0, top1_1) ;;
  Ok t1.

(** Lines 455-484: the alpha entries written for one location. *)
Definition alpha_cell (angle : D) (alphas : list D) (r0 r1 r2 r3 : Z)
  : outcome (list D) :=
  if dleb (of_int (-180)) angle && dltb angle (of_int (-90)) then
    (* between 2 and 3 *)
    let wght := ddiv (dadd angle (of_int 180)) (of_int 90) in
    a <- wr alphas r2 (dsub (of_int 1) wght) ;;
    wr a r3 wght
  else if dleb (of_int (-90)) angle && dltb angle (of_int 0) then
    (* between 3 and 0 *)
    let wght := ddiv (dadd angle (of_int 90)) (of_int 90) in
    a <- wr alphas r3 (dsub (of_int 1) wght) ;;
    wr a r0 wght
  else if dleb (of_int 0) angle && dltb angle (of_int 90) then
    (* between 0 and 1 *)
    let wght := ddiv angle (of_int 90) in
    a <- wr alphas r0 (dsub (of_int 1) wght) ;;
    wr a r1 wght
  else if dleb (of_int 90) angle && dleb angle (of_int 180) then
    (* between 1 and 2 *)
    let wght := ddiv (dsub angle (of_int 90)) (of_int 90) in
    a <- wr alphas r1 (dsub (of_int 1) wght) ;;
    wr a r2 wght
  else Ok alphas.

(** Lines 445-490: the alpha field; [orient] is the data of
    [orientation_map_] and [alphas] the data of
    [intermediate_kernel_alphas_] as the previous calls left it. *)
Definition Forward_alphas (L : Layer D) (orient : list D) (alphas : list D)
  : outcome (list D) :=
  let om := orientation_map_ L in
  N <- shape om 0 ;;
  '(alphas, _, _) <-
    for_range 0 N (fun n '(alphas, obase, abase) =>
      s2 <- shape om 2 ;;
      alphas <-
        for_range 0 s2 (fun h alphas =>
          s3 <- shape om 3 ;;
          for_range 0 s3 (fun w alphas =>
            let q := h * s3 + w in
            o <- rd orient (obase + q) ;;
            let angle := ddiv (dmul (of_lit (180 # 1)) o) M_PI in
            let r0 := ((0 * s2) + h) * s3 + w in
            let r1 := ((1 * s2) + h) * s3 + w in
            let r2 := ((2 * s2) + h) * s3 + w in
            let r3 := ((3 * s2) + h) * s3 + w in
            alpha_cell angle alphas (abase + r0) (abase + r1) (abase + r2)
              (abase + r3)) alphas) alphas ;;
      Ok (alphas,
          obase + offset om 1 0 0 0,
          abase + offset (intermediate_kernel_alphas_ L) 1 0 0 0))
      (alphas, 0, 0) ;;
  Ok alphas.

(** Lines 521-525 are a sketch and not C++ ("alphas = alphas +",
    "temp indexed by channel", "caffe_mul( spatial ,temp,alphas,
    temp_output)"): whatever they compute from the cached convolution
    [temp] and the alpha field goes to [temp_output].  [scale_sketch L n
    i temp alphas] stands for that result. *)
Variable scale_sketch : Layer D -> Z -> Z -> list D -> list D -> list D.

(** Lines 492-536: the convolutions; [top_data] is the data of the
    primary output ([top[i]] at line 507, with no [i] in scope, is read as
    [top[0]]: the comment says "construct top[0]") and [alphas] the data
    of the alpha field.  At lines 529-530 [weight] is the outer one, the
    data of [blobs_[0]]; the inner [weight] of the rotated copy is out of
    scope there.  The vector [intermediate_results] is local to one batch
    element and is dropped at the end of its iteration. *)
Definition Forward_convolve (L : Layer D) (bottom0 : Blob D) (alphas : list D)
    (top_data : list D) : outcome (list D) :=
  w0 <- vec_at (blobs_ L) 0 ;;
  let weight := data_ w0 in
  let bottom_data := data_ bottom0 in
  out_shape <- for_range 0 (num_spatial_axes_ L) (fun i os =>
                 o <- vec_at (output_shape_ L) i ;;
                 Ok (os ++ [o])) [1; num_output_ L] ;;
  let output_shaped_blob : Blob D := Blob_new out_shape in
  '(top_data, _) <-
    for_range 0 (num_ L) (fun n '(top_data, osb) =>
      '(osb, _) <-
        for_range 0 (num_rotations_ L) (fun i '(osb, intermediate_results) =>
          k <- vec_at (intermediate_kernels_ L) i ;;
          let weight := data_ k in
          input <- slice bottom_data (n * bottom_dim_ L) (bottom_dim_ L) ;;
          temp_output <- store (data_ osb) 0 (forward_cpu_gemm L input weight) ;;
          let temp := temp_output in
          let temp_output := overwrite temp_output (scale_sketch L n i temp alphas) in
          let osb := set_data osb temp_output in
          Ok (osb, intermediate_results ++ [osb]))
          (osb, @nil (Blob D)) ;;
      (* Sum up all four and put in top *)
      input <- slice bottom_data (n * bottom_dim_ L) (bottom_dim_ L) ;;
      top_data <- store top_data (n * top_dim_ L) (forward_cpu_gemm L input weight) ;;
      top_data <-
        (if bias_term_ L then
           b <- vec_at (blobs_ L) 1 ;;
           let bias := data_ b in
           out <- slice top_data (n * top_dim_ L) (top_dim_ L) ;;
           store top_data (n * top_dim_ L) (forward_cpu_bias L out bias)
         else Ok top_data) ;;
      Ok (top_data, osb))
      (top_data, output_shaped_blob) ;;
  Ok top_data.

(** The layer after a forward pass wrote its two transient members. *)
Definition set_forward_buffers (L : Layer D) (orientation alphas : list D)
  : Layer D :=
  {| layer_param_ := layer_param_ L;
     kernel_w_ := kernel_w_ L;
     num_rotations_ := num_rotations_ L;
     channel_axis_ := channel_axis_ L;
     num_spatial_axes_ := num_spatial_axes_ L;
     kernel_shape_ := kernel_shape_ L;
     stride_ := stride_ L;
     pad_ := pad_ L;
     channels_ := channels_ L;
     num_output_ := num_output_ L;
     group_ := group_ L;
     conv_out_channels_ := conv_out_channels_ L;
     conv_in_channels_ := conv_in_channels_ L;
     bias_term_ := bias_term_ L;
     blobs_ := blobs_ L;
     intermediate_kernels_ := intermediate_kernels_ L;
     param_propagate_down_ := param_propagate_down_ L;
     gauss_kernel_ := gauss_kernel_ L;
     num_ := num_ L;
     bottom_shape_ := bottom_shape_ L;
     output_shape_ := output_shape_ L;
     pooled_height_ := pooled_height_ L;
     pooled_width_ := pooled_width_ L;
     bottom_dim_ := bottom_dim_ L;
     top_dim_ := top_dim_ L;
     orientation_map_ := set_data (orientation_map_ L) orientation;
     intermediate_kernel_alphas_ :=
       set_data (intermediate_kernel_alphas_ L) alphas |}.

Definition Forward_cpu (L : Layer D) (bottom top : list (Blob D))
  : outcome (Layer D * list (Blob D)) :=
  (* Gauss convolve bottom[1] and create top[2] *)
  b1 <- vec_at bottom 1 ;;
  t2 <- vec_at top 2 ;;
  t2 <- GaussConvolveHelper L b1 t2 ;;
  top <- wr top 2 t2 ;;
  (* Use top[2] to create the orientation map *)
  orientation <- Forward_orientation L t2 ;;
  (* Use the orientation map to create top[1] *)
  t1 <- vec_at top 1 ;;
  t1_data <- Forward_sincos L orientation t1 t2 ;;
  top <- wr top 1 (set_data t1 t1_data) ;;
  (* Fill up intermediate_kernel_alphas_ based on orientation map *)
  alphas <- Forward_alphas L orientation (data_ (intermediate_kernel_alphas_ L)) ;;
  let L2 := set_forward_buffers L orientation alphas in
  (* Do the convolutions and construct top[0] *)
  b0 <- vec_at bottom 0 ;;
  t0 <- vec_at top 0 ;;
  t0_data <- Forward_convolve L2 b0 alphas (data_ t0) ;;
  top <- wr top 0 (set_data t0 t0_data) ;;
  Ok (L2, top).

(** ** Backward_cpu *)

Definition set_blobs (L : Layer D) (blobs : list (Blob D)) : Layer D :=
  {| layer_param_ := layer_param_ L;
     kernel_w_ := kernel_w_ L;
     num_rotations_ := num_rotations_ L;
     channel_axis_ := channel_axis_ L;
     num_spatial_axes_ := num_spatial_axes_ L;
     kernel_shape_ := kernel_shape_ L;
     stride_ := stride_ L;
     pad_ := pad_ L;
     channels_ := channels_ L;
     num_output_ := num_output_ L;
     group_ := group_ L;
     conv_out_channels_ := conv_out_channels_ L;
     conv_in_channels_ := conv_in_channels_ L;
     bias_term_ := bias_term_ L;
     blobs_ := blobs;
     intermediate_kernels_ := intermediate_kernels_ L;
     param_propagate_down_ := param_propagate_down_ L;
     gauss_kernel_ := gauss_kernel_ L;
     num_ := num_ L;
     bottom_shape_ := bottom_shape_ L;
     output_shape_ := output_shape_ L;
     pooled_height_ := pooled_height_ L;
     pooled_width_ := pooled_width_ L;
     bottom_dim_ := bottom_dim_ L;
     top_dim_ := top_dim_ L;
     orientation_map_ := orientation_map_ L;
     intermediate_kernel_alphas_ := intermediate_kernel_alphas_ L |}.

(** Lines 545-568: the body of the loop over the top blobs.  The loop
    state is the gradient storage the calls write: the parameter blobs
    (their diffs) and the bottom blobs (their diffs). *)
Definition Backward_cpu_top (L : Layer D) (top : list (Blob D))
    (propagate_down : list bool) (weight : list D) (i : Z)
    (st : list (Blob D) * list (Blob D))
  : outcome (list (Blob D) * list (Blob D)) :=
  let '(blobs, bottom) := st in
  ti <- vec_at top i ;;
  let top_diff := diff_ ti in
  bi <- vec_at bottom i ;;
  let bottom_data := data_ bi in
  (* Bias gradient, if necessary. *)
  ppd1 <- (if bias_term_ L then rd (param_propagate_down_ L) 1 else Ok false) ;;
  blobs <-
    (if bias_term_ L && ppd1 then
       vec_at blobs 1 ;;;
       for_range 0 (num_ L) (fun n blobs =>
         b <- vec_at blobs 1 ;;
         td <- slice top_diff (n * top_dim_ L) (top_dim_ L) ;;
         wr blobs 1 (set_diff b (backward_cpu_bias L (diff_ b) td))) blobs
     else Ok blobs) ;;
  ppd0 <- rd (param_propagate_down_ L) 0 ;;
  pdi <- (if ppd0 then Ok false else rd propagate_down i) ;;
  if ppd0 || pdi then
    for_range 0 (num_ L) (fun n '(blobs, bottom) =>
      (* gradient w.r.t. weight. Note that we will accumulate diffs. *)
      blobs <-
        (if ppd0 then
           w <- vec_at blobs 0 ;;
           input <- slice bottom_data (n * bottom_dim_ L) (bottom_dim_ L) ;;
           td <- slice top_diff (n * top_dim_ L) (top_dim_ L) ;;
           wr blobs 0 (set_diff w (weight_cpu_gemm L input td (diff_ w)))
         else Ok blobs) ;;
      (* gradient w.r.t. bottom data, if necessary. *)
      pdi <- rd propagate_down i ;;
      bottom <-
        (if pdi then
           b <- vec_at bottom i ;;
           td <- slice top_diff (n * top_dim_ L) (top_dim_ L) ;;
           d <- store (diff_ b) (n * bottom_dim_ L) (backward_cpu_gemm L td weight) ;;
           wr bottom i (set_diff b d)
         else Ok bottom) ;;
      Ok (blobs, bottom)) (blobs, bottom)
  else Ok (blobs, bottom).

Definition Backward_cpu (L : Layer D) (top : list (Blob D))
    (propagate_down : list bool) (bottom : list (Blob D))
  : outcome (Layer D * list (Blob D)) :=
  w0 <- vec_at (blobs_ L) 0 ;;
  let weight := data_ w0 in
  '(blobs, bottom) <-
    for_range 0 (len top) (Backward_cpu_top L top propagate_down weight)
      (blobs_ L, bottom) ;;
  Ok (set_blobs L blobs, bottom).
End LayerCode.

(** ** Instances *)

(** Exact arithmetic on reduced fractions.  [M_PI] is the value of the
    double nearest to pi. *)
#[export] Instance Q_ops : DtypeOps Q := {|
  dzero := 0%Q;
  dadd a b := Qred (a + b)%Q;
  dsub a b := Qred (a - b)%Q;
  dmul a b := Qred (a * b)%Q;
  ddiv a b := Qred (a / b)%Q;
  dopp a := Qred (- a)%Q;
  dltb a b := match (a ?= b)%Q with Lt => true | _ => false end;
  dleb a b := Qle_bool a b;
  of_int z := (z # 1)%Q;
  of_lit q := Qred q;
  M_PI := (884279719003555 # 281474976710656)%Q
|}.

(** Modelled from the spec: the four-quadrant arctangent of <cmath>,
    "angle = four-quadrant arctangent(vertical component, horizontal
    component), range (-pi, pi]", "angle 0 along positive horizontal axis,
    increasing counter-clockwise". *)
Definition Ratan2 (y x : R) : R :=
  if Rlt_dec 0 x then atan (y / x)
  else if Rlt_dec x 0 then
         if Rle_dec 0 y then (atan (y / x) + PI)%R else (atan (y / x) - PI)%R
  else if Rlt_dec 0 y then (PI / 2)%R
  else if Rlt_dec y 0 then (- (PI / 2))%R
  else 0%R.

(** Real arithmetic. *)
#[export] Instance R_ops : DtypeOps R := {|
  dzero := 0%R;
  dadd := Rplus;
  dsub := Rminus;
  dmul := Rmult;
  ddiv := Rdiv;
  dopp := Ropp;
  dltb a b := if Rlt_dec a b then true else false;
  dleb a b := if Rle_dec a b then true else false;
  of_int := IZR;
  of_lit := Q2R;
  M_PI := PI
|}.

#[export] Instance R_libm : Libm R := {|
  m_exp := exp;
  m_atan2 := Ratan2;
  m_sin := sin;
  m_cos := cos
|}.

(** ** The dense-convolution primitive, for concrete runs *)

Section DenseConv.
Context {D : Type} {ops : DtypeOps D}.

Definition zrange (n : Z) : list Z := map Z.of_nat (seq 0 (Z.to_nat n)).

Definition dsum (l : list D) : D := fold_left dadd l dzero.

Definition at0 (buf : list D) (i : Z) : D :=
  match rd buf i with Ok x => x | _ => dzero end.

(** Modelled from the spec: forward_cpu_gemm of BaseConvolutionLayer is
    not among the sources.  It is "the shared dense-convolution primitive
    (the standard im2col + matrix-multiply formulation)": with one group,
    output channel [o] at (ph, pw) is the sum over input channels and
    kernel offsets of weight times input, the input being zero outside
    its extent. *)
Definition dense_conv (L : Layer D) (input weights : list D) : list D :=
  let C := conv_in_channels_ L in
  let KH := nth 0 (kernel_shape_ L) 0 in
  let KW := nth 1 (kernel_shape_ L) 0 in
  let H := nth (Z.to_nat (channel_axis_ L + 1)) (bottom_shape_ L) 0 in
  let W := nth (Z.to_nat (channel_axis_ L + 2)) (bottom_shape_ L) 0 in
  flat_map (fun o =>
    flat_map (fun ph =>
      map (fun pw =>
        dsum (flat_map (fun c =>
          flat_map (fun kh =>
            map (fun kw =>
              let h := ph * nth 0 (stride_ L) 0 - nth 0 (pad_ L) 0 + kh in
              let w := pw * nth 1 (stride_ L) 0 - nth 1 (pad_ L) 0 + kw in
              if (0 <=? h) && (h <? H) && (0 <=? w) && (w <? W)
              then dmul (at0 weights (((o * C + c) * KH + kh) * KW + kw))
                        (at0 input ((c * H + h) * W + w))
              else dzero) (zrange KW)) (zrange KH)) (zrange C)))
        (zrange (nth 1 (output_shape_ L) 0)))
      (zrange (nth 0 (output_shape_ L) 0)))
    (zrange (conv_out_channels_ L)).

(** Modelled from the spec: forward_cpu_bias, "add the bias vector
    broadcast over spatial locations". *)
Definition dense_bias (L : Layer D) (output bias : list D) : list D :=
  let spatial := nth 0 (output_shape_ L) 0 * nth 1 (output_shape_ L) 0 in
  flat_map (fun o =>
    map (fun s => dadd (at0 output (o * spatial + s)) (at0 bias o))
        (zrange spatial)) (zrange (conv_out_channels_ L)).

(** The collaborators [b] with the two forward primitives above. *)
Definition with_dense_conv (b : BaseConv D) : BaseConv D :=
  {| weight_filler := @weight_filler D b;
     bias_filler := @bias_filler D b;
     forward_cpu_gemm := dense_conv;
     forward_cpu_bias := dense_bias;
     backward_cpu_bias := @backward_cpu_bias D b;
     weight_cpu_gemm := @weight_cpu_gemm D b;
     backward_cpu_gemm := @backward_cpu_gemm D b |}.
End DenseConv.

(** ** The layer object before LayerSetUp *)

(** A default-constructed Blob: no shape, no storage. *)
Definition Blob_empty {D : Type} : Blob D :=
  {| shape_ := []; data_ := []; diff_ := [] |}.

(** The constructor (header lines 64-65) passes [param] to the base
    class, which keeps it and loads the parameter blobs stored in it, if
    any.  Containers start empty; the integer members are not
    initialised and are read by no function before LayerSetUp or Reshape
    assigns them, so they are taken as 0. *)
Definition Layer_new {D : Type} (param : ConvolutionParameter) (kernel_w : Z)
    (stored_blobs : list (Blob D)) : Layer D :=
  {| layer_param_ := param;
     kernel_w_ := kernel_w;
     num_rotations_ := 0;
     channel_axis_ := 0;
     num_spatial_axes_ := 0;
     kernel_shape_ := [];
     stride_ := [];
     pad_ := [];
     channels_ := 0;
     num_output_ := 0;
     group_ := 0;
     conv_out_channels_ := 0;
     conv_in_channels_ := 0;
     bias_term_ := false;
     blobs_ := stored_blobs;
     intermediate_kernels_ := [];
     param_propagate_down_ := [];
     gauss_kernel_ := Blob_empty;
     num_ := 0;
     bottom_shape_ := [];
     output_shape_ := [];
     pooled_height_ := 0;
     pooled_width_ := 0;
     bottom_dim_ := 0;
     top_dim_ := 0;
     orientation_map_ := Blob_empty;
     intermediate_kernel_alphas_ := Blob_empty |}.

(** A configuration with one kernel size, one stride and one pad for both
    axes, channel axis 1 and one group. *)
Definition square_param (k s p num_out : Z) (bias : bool) : ConvolutionParameter :=
  {| axis := 1;
     kernel_size := [k]; kernel_h := None; kernel_w := None;
     stride := [s]; stride_h := None; stride_w := None;
     pad := [p]; pad_h := None; pad_w := None;
     num_output := num_out;
     group := 1;
     bias_term := bias |}.

(** A tensor of the given shape and values, with zero gradients. *)
Definition tensor {D : Type} {ops : DtypeOps D} (shp : list Z) (d : list D) : Blob D :=
  {| shape_ := shp; data_ := d; diff_ := zeros (len d) |}.

(** The members a forward or backward pass reads, as LayerSetUp and
    Reshape assign them for a square kernel [k], stride [s], pad [p],
    [n] images of [c] channels and [h] x [w] pixels, and outputs of
    [ph] x [pw] pixels; the parameter blobs, rotated copies and stencil
    are given. *)
Definition Layer_reshaped {D : Type} {ops : DtypeOps D}
    (k s p num_out : Z) (bias : bool) (n c h w ph pw : Z)
    (blobs kernels : list (Blob D)) (gauss : list D) (alphas : list D) : Layer D :=
  {| layer_param_ := square_param k s p num_out bias;
     kernel_w_ := k;
     num_rotations_ := 4;
     channel_axis_ := 1;
     num_spatial_axes_ := 2;
     kernel_shape_ := [k; k];
     stride_ := [s; s];
     pad_ := [p; p];
     channels_ := c;
     num_output_ := num_out;
     group_ := 1;
     conv_out_channels_ := num_out;
     conv_in_channels_ := c;
     bias_term_ := bias;
     blobs_ := blobs;
     intermediate_kernels_ := kernels;
     param_propagate_down_ := repeat true (List.length blobs);
     gauss_kernel_ := tensor [1; 1; k; k] gauss;
     num_ := n;
     bottom_shape_ := [n; c; h; w];
     output_shape_ := [ph; pw];
     pooled_height_ := ph;
     pooled_width_ := pw;
     bottom_dim_ := c * h * w;
     top_dim_ := num_out * ph * pw;
     orientation_map_ := Blob_new [n; 1; ph; pw];
     intermediate_kernel_alphas_ := tensor [n; 4; ph; pw] alphas |}.

(** ** What the spec asks of the forward pass, in its own words *)

Section Blend.
Context {D : Type} {ops : DtypeOps D}.

(** Spec 4.7: "for each batch element and each of the 4 rotated kernels:
    run the shared dense-convolution primitive with that rotated kernel
    over the input ...; multiply that map element-wise by the Alpha
    Field's corresponding channel (broadcast across output channels);
    accumulate into the Primary Output.  After all 4 contributions are
    accumulated, if bias is enabled, add the bias vector". *)
Definition blended_forward (L : Layer D) (bottom0 : Blob D) (alphas : list D)
  : list D :=
  let spatial := nth 0 (output_shape_ L) 0 * nth 1 (output_shape_ L) 0 in
  flat_map (fun n =>
    let input := firstn (Z.to_nat (bottom_dim_ L))
                   (skipn (Z.to_nat (n * bottom_dim_ L)) (data_ bottom0)) in
    let acc :=
      fold_left (fun acc i =>
        let response :=
          dense_conv L input
            (data_ (nth (Z.to_nat i) (intermediate_kernels_ L) Blob_empty)) in
        flat_map (fun o =>
          map (fun s =>
            dadd (at0 acc (o * spatial + s))
                 (dmul (at0 alphas ((n * 4 + i) * spatial + s))
                       (at0 response (o * spatial + s))))
            (zrange spatial)) (zrange (num_output_ L)))
        (zrange 4) (zeros (top_dim_ L)) in
    if bias_term_ L
    then dense_bias L acc (data_ (nth 1 (blobs_ L) Blob_empty))
    else acc) (zrange (num_ L)).
End Blend.

(** ** Fixtures and auxiliary notions of the statements *)

(** [o] did not abort, and its result, if any, satisfies [P]. *)
Definition unless_undefined {A : Type} (P : A -> Prop) (o : outcome A) : Prop :=
  match o with
  | Ok a => P a
  | Fatal _ => False
  | Undefined => True
  end.

(** Entry [i] of the stencil of a layer. *)
Definition stencil {D : Type} {ops : DtypeOps D} (L : Layer D) (i : nat) : D :=
  nth i (data_ (gauss_kernel_ L)) dzero.

Definition Qs (l : list Z) : list Q := map (fun z => (z # 1)%Q) l.

(** One image of one channel and 2x2 pixels, one 2x2 filter [1 2; 3 4]
    with bias 10, stride 1 and no padding: one output pixel.  The rotated
    copies are the filter turned by 0, 90, 180 and 270 degrees. *)
Definition example_layer (alphas : list Q) : Layer Q :=
  Layer_reshaped 2 1 0 1 true 1 1 2 2 1 1
    [tensor [1; 1; 2; 2] (Qs [1; 2; 3; 4]); tensor [1] (Qs [10])]
    [tensor [1; 1; 2; 2] (Qs [1; 2; 3; 4]); tensor [1; 1; 2; 2] (Qs [2; 4; 1; 3]);
     tensor [1; 1; 2; 2] (Qs [4; 3; 2; 1]); tensor [1; 1; 2; 2] (Qs [3; 1; 4; 2])]
    [] alphas.

(** One image, one output pixel. *)
Definition one_pixel_layer : Layer Q :=
  Layer_reshaped 1 1 0 1 false 1 1 1 1 1 1 [] [] [] (Qs [0; 0; 0; 0]).

(** The messages of the checks of Reshape (lines 230-242) and of the
    tensor's axis check. *)
Definition Reshape_messages : list string :=
  ["bottom num_axes may not change.";
   "Input size incompatible with convolution kernel.";
   "both bottoms ought to have the same height.";
   "both bottoms ought to have the same width.";
   "both bottoms ought to have the same num.";
   "gradient map would have 2 channels, Gx and Gy.";
   "axis out of range"]%string.

(** One image, one output pixel, real arithmetic. *)
Definition orientation_layer : Layer R :=
  Layer_reshaped 1 1 0 1 false 1 1 1 1 1 1 [] [] [] [0; 0; 0; 0]%R.

(** The entries the Gaussian loop computes for a 3x3 kernel, before
    scaling. *)
Section Gauss3Values.
Context {D : Type} {ops : DtypeOps D} {libm : Libm D}.

Definition gauss_values_3x3 : list D :=
  let sigma := ddiv (of_int 6) (of_int 12) in
  [gauss_value 3 3 0 0 sigma; gauss_value 3 3 0 1 sigma; gauss_value 3 3 0 2 sigma;
   gauss_value 3 3 1 0 sigma; gauss_value 3 3 1 1 sigma; gauss_value 3 3 1 2 sigma;
   gauss_value 3 3 2 0 sigma; gauss_value 3 3 2 1 sigma; gauss_value 3 3 2 2 sigma].
End Gauss3Values.

(** Two runs end the same way, with results related by [R]. *)
Definition same_outcome {A B : Type} (R : A -> B -> Prop)
    (o : outcome A) (o' : outcome B) : Prop :=
  match o, o' with
  | Ok a, Ok b => R a b
  | Fatal m, Fatal m' => m = m'
  | Undefined, Undefined => True
  | _, _ => False
  end.

(** Modelled from the spec: the parameter-filler primitive
    ("random/constant initialization per configuration"), here the
    constant filler: every value of the new blob is [v]. *)
Definition with_constant_filler {D : Type} (v : D) (b : BaseConv D) : BaseConv D :=
  {| weight_filler := fun shp => repeat v (Z.to_nat (count_of shp));
     bias_filler := fun shp => repeat v (Z.to_nat (count_of shp));
     forward_cpu_gemm := @forward_cpu_gemm D b;
     forward_cpu_bias := @forward_cpu_bias D b;
     backward_cpu_bias := @backward_cpu_bias D b;
     weight_cpu_gemm := @weight_cpu_gemm D b;
     backward_cpu_gemm := @backward_cpu_gemm D b |}.

(** Entry [i], in row-major order, of the K x K stencil before scaling
    (lines 208-215 with [kernel_w_] = K), and the table of all entries. *)
Section GaussTable.
Context {D : Type} {ops : DtypeOps D} {libm : Libm D}.

Definition gauss_entry (K i : Z) : D :=
  gauss_value K K (i / K) (i mod K) (ddiv (of_int (K + K)) (of_int 12)).

Definition gauss_table (K : Z) : list D := map (gauss_entry K) (zrange (K * K)).
End GaussTable.

(** ** The blob counts the class declares *)

(** Header lines 77 and 80: [MinBottomBlobs()] and [MinTopBlobs()]. *)
Definition MinBottomBlobs : Z := 2.
Definition MinTopBlobs : Z := 1.

(** ** Sizes that are C++ ints *)

(** The extents, counts and offsets of the layer are C++ [int]s, kept
    here in [Z].  The two agree while every value stays in the range of
    an [int]; the predicates below name the values that have to, for the
    statements on whole runs. *)
Definition INT_MAX : Z := 2147483647.
Definition INT_MIN : Z := - 2147483648.
Definition fits_int (x : Z) : Prop := INT_MIN <= x <= INT_MAX.

(** Line 405 for one axis: the operands of
    [(input_dim + 2 * pad - kernel) / stride + 1] are ints, and so is the
    value of each of its sub-expressions. *)
Definition output_dim_fits (input_dim pad kernel stride : Z) : Prop :=
  fits_int input_dim /\ fits_int pad /\ fits_int kernel /\ fits_int stride /\
  fits_int (2 * pad) /\
  fits_int (input_dim + 2 * pad) /\
  fits_int (input_dim + 2 * pad - kernel) /\
  fits_int (Z.quot (input_dim + 2 * pad - kernel) stride) /\
  fits_int (Z.quot (input_dim + 2 * pad - kernel) stride + 1).

(** Lines 254-310 of Reshape, for a batch of [n] primary inputs of
    [c] x [h] x [w] values, outputs of [oh] x [ow] pixels and filters of
    [kernel_dim] weights per output channel: the counts of the tensors
    Reshape shapes (the tops, the column buffer, the orientation map and
    the alpha field) and the products it stores in members are ints. *)
Definition Reshape_sizes_fit {D : Type} (L : Layer D)
    (n c h w oh ow kernel_dim : Z) : Prop :=
  fits_int (n * num_output_ L * oh * ow) /\
  fits_int (n * 4 * oh * ow) /\
  fits_int (kernel_dim * (oh * ow)) /\
  fits_int (conv_out_channels_ L * (oh * ow)) /\
  fits_int (kernel_dim * group_ L) /\
  fits_int (kernel_dim * group_ L * oh * ow) /\
  fits_int (conv_in_channels_ L * (oh * ow)) /\
  fits_int (n * c * h * w).

(** ** Closed forms of the loops *)

(** The integers [lo], [lo + 1], ..., [hi - 1]: the values a
    [for (int i = lo; i < hi; ++i)] loop gives its counter. *)
Definition zrange_from (lo hi : Z) : list Z := map (fun i => lo + i) (zrange (hi - lo)).

(** What a backward pass may change of a vector of blobs: the
    gradients, and nothing else. *)
Definition same_values {D : Type} (bs bs' : list (Blob D)) : Prop :=
  map (@shape_ D) bs' = map (@shape_ D) bs /\ map (@data_ D) bs' = map (@data_ D) bs.

Section AlphaGood.
Context {D : Type} {ops : DtypeOps D}.

(** What lines 454-484 leave at location (h, w) of the image whose
    orientation plane starts at [ob] and whose four alpha planes start at
    [ab]: the four channels of [b] are [alpha_cell] of the four channels
    of [alphas0] and of the angle at the location. *)
Definition alpha_good (orient alphas0 : list D) (H W ob ab h w : Z) (b : list D) : Prop :=
  exists o a0 a1 a2 a3 b0 b1 b2 b3,
    rd orient (ob + (h * W + w)) = Ok o /\
    rd alphas0 (ab + ((0 * H + h) * W + w)) = Ok a0 /\
    rd alphas0 (ab + ((1 * H + h) * W + w)) = Ok a1 /\
    rd alphas0 (ab + ((2 * H + h) * W + w)) = Ok a2 /\
    rd alphas0 (ab + ((3 * H + h) * W + w)) = Ok a3 /\
    rd b (ab + ((0 * H + h) * W + w)) = Ok b0 /\
    rd b (ab + ((1 * H + h) * W + w)) = Ok b1 /\
    rd b (ab + ((2 * H + h) * W + w)) = Ok b2 /\
    rd b (ab + ((3 * H + h) * W + w)) = Ok b3 /\
    alpha_cell (ddiv (dmul (of_lit (180 # 1)) o) M_PI) [a0; a1; a2; a3] 0 1 2 3
    = Ok [b0; b1; b2; b3].
End AlphaGood.

Section GaussCell.
Context {D : Type} {ops : DtypeOps D}.

(** Lines 376-387 for one output cell (ph, pw) of one plane: the value
    the two inner loops add up, in loop order, starting from the cleared
    cell.  [ibase] is the index of the plane in [in_data]. *)
Definition gauss_cell (gaussian in_data : list D)
    (ibase H W kernel_h kernel_w stride_h stride_w pad_h pad_w ph pw : Z) : D :=
  let hstart := ph * stride_h - pad_h in
  let wstart := pw * stride_w - pad_w in
  let hend := Z.min (hstart + kernel_h) H in
  let wend := Z.min (wstart + kernel_w) W in
  let hstart := Z.max hstart 0 in
  let wstart := Z.max wstart 0 in
  fold_left (fun acc h =>
    fold_left (fun acc w =>
      dadd acc (dmul (at0 gaussian ((h - hstart) * kernel_w + (w - wstart)))
                     (at0 in_data (ibase + (h * W + w)))))
      (zrange_from wstart wend) acc)
    (zrange_from hstart hend) dzero.
End GaussCell.

(** ** LayerSetUp on a freshly constructed layer *)

Section SetUpFreshDefs.
Context {D : Type} {ops : DtypeOps D} {libm : Libm D} {base : BaseConv D}.

(** Lines 175-178: the weight blob the fresh path creates and fills. *)
Definition fresh_weight (weight_shape : list Z) : Blob D :=
  {| shape_ := weight_shape;
     data_ := weight_filler weight_shape;
     diff_ := zeros (count_of weight_shape) |}.

(** Lines 167-185: the parameter blobs of the fresh path. *)
Definition fresh_blobs (weight_shape bias_shape : list Z) (bias_term : bool)
  : list (Blob D) :=
  if bias_term then
    [fresh_weight weight_shape;
     {| shape_ := bias_shape;
        data_ := bias_filler bias_shape;
        diff_ := zeros (count_of bias_shape) |}]
  else [fresh_weight weight_shape].

(** The members LayerSetUp leaves on a layer without stored parameter
    blobs: channel axis [ca], kernel size [k], [c] input channels, strides
    [sd] and pads [pd]. *)
Definition Layer_set_up (L : Layer D) (ca k c : Z) (sd pd : list Z) : Layer D :=
  let p := layer_param_ L in
  let weight_shape := [num_output p; Z.quot c (group p); k; k] in
  let bias_shape := if bias_term p then [num_output p] else [] in
  let blobs := fresh_blobs weight_shape bias_shape (bias_term p) in
  {| layer_param_ := p;
     kernel_w_ := kernel_w_ L;
     num_rotations_ := 4;
     channel_axis_ := ca;
     num_spatial_axes_ := 2;
     kernel_shape_ := [k; k];
     stride_ := sd;
     pad_ := pd;
     channels_ := c;
     num_output_ := num_output p;
     group_ := group p;
     conv_out_channels_ := num_output p;
     conv_in_channels_ := c;
     bias_term_ := bias_term p;
     blobs_ := blobs;
     intermediate_kernels_ :=
       intermediate_kernels_ L ++ repeat (fresh_weight weight_shape) 4;
     param_propagate_down_ := resize_true (param_propagate_down_ L) (len blobs);
     gauss_kernel_ :=
       {| shape_ := [1; 1; k; k];
          data_ := map (dmul (ddiv (of_lit (1 # 1)) (dsum (gauss_table k))))
                     (gauss_table k);
          diff_ := zeros (k * k) |};
     num_ := num_ L;
     bottom_shape_ := bottom_shape_ L;
     output_shape_ := output_shape_ L;
     pooled_height_ := pooled_height_ L;
     pooled_width_ := pooled_width_ L;
     bottom_dim_ := bottom_dim_ L;
     top_dim_ := top_dim_ L;
     orientation_map_ := orientation_map_ L;
     intermediate_kernel_alphas_ := intermediate_kernel_alphas_ L |}.
End SetUpFreshDefs.

(** ** The rotated copies cell by cell *)

(** Buffer [a] of rotated copy [i] when the fill of lines 322-345 has
    reached flat position [pos] of the copies: the buffer had contents
    [r]; every cell before [pos] holds the entry of [kernels] at
    [rot_index] of its row and column, whatever its plane [m]; the cells
    from [pos] on are as they were. *)
Definition rot_filled {D : Type} (kernels : list D) (s2 s3 i pos : Z) (r a : list D)
  : Prop :=
  len a = len r /\
  (forall m h w, 0 <= m -> 0 <= h < s2 -> 0 <= w < s3 ->
     m * (s2 * s3) + (h * s3 + w) < pos ->
     rd a (m * (s2 * s3) + (h * s3 + w)) = rd kernels (rot_index i s2 s3 h w)) /\
  (forall j, pos <= j -> rd a j = rd r j).

(** The four copies at position [pos], from contents [r0], ..., [r3]. *)
Definition rot_all {D : Type} (kernels : list D) (s2 s3 : Z) (r0 r1 r2 r3 : list D)
    (pos : Z) (rot : list (list D)) : Prop :=
  exists a0 a1 a2 a3,
    rot = [a0; a1; a2; a3] /\
    rot_filled kernels s2 s3 0 pos r0 a0 /\
    rot_filled kernels s2 s3 1 pos r1 a1 /\
    rot_filled kernels s2 s3 2 pos r2 a2 /\
    rot_filled kernels s2 s3 3 pos r3 a3.

(** ** Reshape on well-shaped inputs *)

(** The members Reshape leaves (lines 232, 245-246, 288-289 and 300-310)
    for a primary input shaped [n, c, h, w] and outputs of [oh] x [ow]
    pixels; [kernels] are the rotated copies after lines 315-345. *)
Definition Layer_after_Reshape {D : Type} {ops : DtypeOps D} (L : Layer D)
    (n c h w oh ow : Z) (kernels : list (Blob D)) : Layer D :=
  {| layer_param_ := layer_param_ L;
     kernel_w_ := kernel_w_ L;
     num_rotations_ := num_rotations_ L;
     channel_axis_ := channel_axis_ L;
     num_spatial_axes_ := num_spatial_axes_ L;
     kernel_shape_ := kernel_shape_ L;
     stride_ := stride_ L;
     pad_ := pad_ L;
     channels_ := channels_ L;
     num_output_ := num_output_ L;
     group_ := group_ L;
     conv_out_channels_ := conv_out_channels_ L;
     conv_in_channels_ := conv_in_channels_ L;
     bias_term_ := bias_term_ L;
     blobs_ := blobs_ L;
     intermediate_kernels_ := kernels;
     param_propagate_down_ := param_propagate_down_ L;
     gauss_kernel_ := gauss_kernel_ L;
     num_ := n;
     bottom_shape_ := [n; c; h; w];
     output_shape_ := [oh; ow];
     pooled_height_ := oh;
     pooled_width_ := ow;
     bottom_dim_ := c * h * w;
     top_dim_ := num_output_ L * oh * ow;
     orientation_map_ := Blob_Reshape (orientation_map_ L) [n; 1; oh; ow];
     intermediate_kernel_alphas_ :=
       Blob_Reshape (intermediate_kernel_alphas_ L) [n; 4; oh; ow] |}.

(** ** The primary output image by image *)

(** Lines 529-534 for image [n]: what the dense convolution of the
    image with [weight], and with bias_term_ the bias addition, leave in
    the image's part of the primary output. *)
Definition convolved {D : Type} {base : BaseConv D} (L : Layer D)
    (bottom_data weight bias : list D) (n : Z) : list D :=
  let input := firstn (Z.to_nat (bottom_dim_ L))
                 (skipn (Z.to_nat (n * bottom_dim_ L)) bottom_data) in
  let out := forward_cpu_gemm L input weight in
  if bias_term_ L then forward_cpu_bias L out bias else out.

(** ** Collaborators for concrete runs *)

(** Constant fillers and the dense forward primitives.  The gradient
    primitives are not modelled: here each returns the gradient storage it
    is given, or zeros for the input gradient. *)
Definition dense_base {D : Type} {ops : DtypeOps D} (v : D) : BaseConv D :=
  {| weight_filler := fun shp => repeat v (Z.to_nat (count_of shp));
     bias_filler := fun shp => repeat v (Z.to_nat (count_of shp));
     forward_cpu_gemm := dense_conv;
     forward_cpu_bias := dense_bias;
     backward_cpu_bias := fun _ bias_diff _ => bias_diff;
     weight_cpu_gemm := fun _ _ _ weight_diff => weight_diff;
     backward_cpu_gemm := fun L _ _ => zeros (bottom_dim_ L) |}.

(** The sketched lines 521-525 read as leaving the cached convolution as
    it is. *)
Definition no_scaling {D : Type} (L : Layer D) (n i : Z) (temp alphas : list D)
  : list D := temp.

(** A tensor with a shape and no storage: enough for the functions that
    read shapes only. *)
Definition shaped {D : Type} (shp : list Z) : Blob D :=
  {| shape_ := shp; data_ := []; diff_ := [] |}.

(** Kernel 3, stride 2, pad 1 on 5x5 images; kernel 3, stride 4, no
    padding on 1x1 images. *)
Definition stride2_layer : Layer Q :=
  Layer_reshaped 3 2 1 1 false 1 1 5 5 3 3 [] [] [] [].
Definition oversized_kernel_layer : Layer Q :=
  Layer_reshaped 3 4 0 1 false 1 1 1 1 1 1 [] [] [] [].

(** Kernel 2, stride 1, no padding, two channels of 3x3 pixels, 2x2
    outputs, stencil [1 2; 3 4]. *)
Definition smoothing_layer : Layer Q :=
  Layer_reshaped 2 1 0 1 false 1 2 3 3 2 2 [] [] (Qs [1; 2; 3; 4]) [].

(** Two 2x2 filters with bias on one image of one channel and 2x2
    pixels, before Reshape. *)
Definition two_filter_layer : Layer Q :=
  Layer_reshaped 2 1 0 2 true 0 1 0 0 0 0
    [tensor [2; 1; 2; 2] (Qs [1; 2; 3; 4; 5; 6; 7; 8]); tensor [2] (Qs [10; 20])]
    [tensor [2; 1; 2; 2] (Qs [1; 2; 3; 4; 5; 6; 7; 8]);
     tensor [2; 1; 2; 2] (Qs [1; 2; 3; 4; 5; 6; 7; 8]);
     tensor [2; 1; 2; 2] (Qs [1; 2; 3; 4; 5; 6; 7; 8]);
     tensor [2; 1; 2; 2] (Qs [1; 2; 3; 4; 5; 6; 7; 8])]
    [] [].

(** Kernel 2 with a stride of zero. *)
Definition zero_stride_layer : Layer Q :=
  Layer_reshaped 2 0 0 1 false 1 1 2 2 1 1 [] [] [] [].

(** The configuration [square_param 2 1 0 1 false] with a group count of
    zero. *)
Definition zero_group_param : ConvolutionParameter :=
  {| axis := 1;
     kernel_size := [2]; kernel_h := None; kernel_w := None;
     stride := [1]; stride_h := None; stride_w := None;
     pad := [0]; pad_h := None; pad_w := None;
     num_output := 1;
     group := 0;
     bias_term := false |}.

(** One filter of two channels and 2x2 weights with bias 10 on one
    image of two channels and 2x2 pixels: one output pixel; real
    arithmetic. *)
Definition two_channel_layer : Layer R :=
  Layer_reshaped 2 1 0 1 true 1 2 2 2 1 1
    [tensor [1; 2; 2; 2] [1; 2; 3; 4; 5; 6; 7; 8]%R; tensor [1] [10]%R]
    [tensor [1; 2; 2; 2] [1; 2; 3; 4; 5; 6; 7; 8]%R;
     tensor [1; 2; 2; 2] [1; 2; 3; 4; 5; 6; 7; 8]%R;
     tensor [1; 2; 2; 2] [1; 2; 3; 4; 5; 6; 7; 8]%R;
     tensor [1; 2; 2; 2] [1; 2; 3; 4; 5; 6; 7; 8]%R]
    [1; 2; 3; 4]%R [0; 0; 0; 0]%R.


(** * Properties *)

(** ** Outcomes and loops *)

Lemma bind_Ok_inv (A B : Type) (m : outcome A) (k : A -> outcome B) (b : B) :
  bind m k = Ok b -> exists a, m = Ok a /\ k a = Ok b.
Proof.
  destruct m as [a | msg | ]; simpl; intros H; try discriminate.
  exists a; split; [reflexivity | exact H].
Qed.

Lemma CHECK_Ok_inv (b : bool) (msg : string) (u : unit) :
  CHECK b msg = Ok u -> b = true.
Proof. destruct b; simpl; [reflexivity | discriminate]. Qed.

Lemma unless_undefined_bind (A B : Type) (P : A -> Prop) (Q : B -> Prop)
    (m : outcome A) (k : A -> outcome B) :
  unless_undefined P m ->
  (forall a, P a -> unless_undefined Q (k a)) ->
  unless_undefined Q (bind m k).
Proof.
  destruct m as [a | msg | ]; simpl; intros Hm Hk; auto; contradiction.
Qed.

Lemma unless_undefined_weaken (A : Type) (P Q : A -> Prop) (o : outcome A) :
  unless_undefined P o -> (forall a, P a -> Q a) -> unless_undefined Q o.
Proof. destruct o; simpl; auto. Qed.

Lemma unless_undefined_for_nat (S : Type) (P : S -> Prop)
    (body : Z -> S -> outcome S) (k : nat) :
  (forall i s, P s -> unless_undefined P (body i s)) ->
  forall i s, P s -> unless_undefined P (for_nat k i body s).
Proof.
  intros Hbody. induction k as [| k IH]; intros i s Hs; simpl.
  - exact Hs.
  - apply unless_undefined_bind with (P := P); auto.
Qed.

Lemma unless_undefined_rd (A : Type) (buf : list A) (i : Z) :
  unless_undefined (fun _ => True) (rd buf i).
Proof.
  unfold rd. destruct (i <? 0); simpl; auto.
  destruct (nth_error buf (Z.to_nat i)); simpl; auto.
Qed.

Lemma length_upd (A : Type) (buf : list A) (n : nat) (x : A) :
  List.length (upd buf n x) = List.length buf.
Proof.
  revert n. induction buf as [| h t IH]; intros [| n]; simpl; auto.
Qed.

Lemma unless_undefined_wr (A : Type) (buf : list A) (i : Z) (x : A) :
  unless_undefined (fun b => List.length b = List.length buf) (wr buf i x).
Proof.
  unfold wr. destruct (i <? 0); simpl; auto.
  destruct (i <? Z.of_nat (List.length buf)); simpl; auto using length_upd.
Qed.

Lemma unless_undefined_slice (D : Type) (buf : list D) (b n : Z) :
  unless_undefined (fun _ => True) (slice buf b n).
Proof. unfold slice. destruct (_ || _); simpl; auto. Qed.

Lemma unless_undefined_store (D : Type) (buf : list D) (b : Z) (v : list D) :
  unless_undefined (fun _ => True) (store buf b v).
Proof. unfold store. destruct (_ || _); simpl; auto. Qed.

(** Each step of a chain either goes on or is undefined: it never aborts. *)
Ltac uu :=
  repeat first
    [ exact I
    | apply unless_undefined_rd
    | apply unless_undefined_slice
    | apply unless_undefined_store
    | eapply unless_undefined_weaken; [apply unless_undefined_wr | simpl; intros; exact I]
    | match goal with
      | |- unless_undefined _ (bind _ _) =>
          eapply unless_undefined_bind; [ | intros ? ? ]
      | |- unless_undefined _ (if ?b then _ else _) => destruct b
      | |- unless_undefined _ (Ok _) => simpl
      end ].

(** ** Buffers: reads after writes *)

Lemma for_nat_invariant (S : Type) (Inv : Z -> S -> Prop)
    (body : Z -> S -> outcome S) (k : nat) :
  forall (i0 : Z) (s0 : S),
    Inv i0 s0 ->
    (forall i s, i0 <= i < i0 + Z.of_nat k -> Inv i s ->
                 exists s', body i s = Ok s' /\ Inv (i + 1) s') ->
    exists s', for_nat k i0 body s0 = Ok s' /\ Inv (i0 + Z.of_nat k) s'.
Proof.
  induction k as [| k IH]; intros i0 s0 H0 Hstep.
  - exists s0. split; [reflexivity | ]. now replace (i0 + Z.of_nat 0) with i0 by lia.
  - destruct (Hstep i0 s0) as (s1 & Hb & H1); [lia | exact H0 | ].
    destruct (IH (i0 + 1) s1 H1) as (s' & Hf & Hs').
    { intros i s Hi. apply Hstep. lia. }
    exists s'. split.
    + cbn [for_nat]. rewrite Hb. exact Hf.
    + now replace (i0 + Z.of_nat (Datatypes.S k)) with (i0 + 1 + Z.of_nat k) by lia.
Qed.

Lemma for_range_invariant (S : Type) (Inv : Z -> S -> Prop)
    (body : Z -> S -> outcome S) (lo hi : Z) (s0 : S) :
  lo <= hi ->
  Inv lo s0 ->
  (forall i s, lo <= i < hi -> Inv i s ->
               exists s', body i s = Ok s' /\ Inv (i + 1) s') ->
  exists s', for_range lo hi body s0 = Ok s' /\ Inv hi s'.
Proof.
  intros Hle H0 Hstep. unfold for_range.
  destruct (@for_nat_invariant S Inv body (Z.to_nat (hi - lo)) lo s0 H0) as (s' & Hf & Hs').
  - intros i s Hi. apply Hstep. lia.
  - exists s'. split; [exact Hf | ].
    replace (lo + Z.of_nat (Z.to_nat (hi - lo))) with hi in Hs' by lia. exact Hs'.
Qed.

Lemma len_upd (A : Type) (buf : list A) (n : nat) (x : A) :
  len (upd buf n x) = len buf.
Proof. unfold len. now rewrite length_upd. Qed.

Lemma rd_in_range (A : Type) (buf : list A) (i : Z) :
  0 <= i < len buf -> exists x, rd buf i = Ok x.
Proof.
  intros Hi. unfold rd, len in *.
  destruct (i <? 0) eqn:E; [lia | ].
  destruct (nth_error buf (Z.to_nat i)) eqn:En; [eauto | ].
  apply nth_error_None in En. lia.
Qed.

Lemma wr_in_range (A : Type) (buf : list A) (i : Z) (x : A) :
  0 <= i < len buf -> wr buf i x = Ok (upd buf (Z.to_nat i) x).
Proof.
  intros Hi. unfold wr, len in *.
  destruct (i <? 0) eqn:E; [lia | ].
  destruct (i <? Z.of_nat (List.length buf)) eqn:E2; [reflexivity | lia].
Qed.

Lemma nth_error_upd_same (A : Type) (buf : list A) (n : nat) (x : A) :
  (n < List.length buf)%nat -> nth_error (upd buf n x) n = Some x.
Proof.
  revert n. induction buf as [| h t IH]; intros [| n] Hn; simpl in *; try lia; auto.
  apply IH. lia.
Qed.

Lemma nth_error_upd_other (A : Type) (buf : list A) (n m : nat) (x : A) :
  n <> m -> nth_error (upd buf n x) m = nth_error buf m.
Proof.
  revert n m. induction buf as [| h t IH]; intros [| n] [| m] Hn; simpl; auto; try lia.
Qed.

Lemma rd_upd_same (A : Type) (buf : list A) (i : Z) (x : A) :
  0 <= i < len buf -> rd (upd buf (Z.to_nat i) x) i = Ok x.
Proof.
  intros Hi. unfold rd, len in *.
  destruct (i <? 0) eqn:E; [lia | ].
  rewrite nth_error_upd_same; [reflexivity | lia].
Qed.

Lemma rd_upd_other (A : Type) (buf : list A) (i j : Z) (x : A) :
  0 <= i -> i <> j -> rd (upd buf (Z.to_nat i) x) j = rd buf j.
Proof.
  intros Hi Hij. unfold rd.
  destruct (j <? 0) eqn:E; [reflexivity | ].
  rewrite nth_error_upd_other; [reflexivity | lia].
Qed.

(** ** Buffers as lists *)

Lemma rd_nth_error (A : Type) (l : list A) (i : Z) (x : A) :
  rd l i = Ok x <-> 0 <= i /\ nth_error l (Z.to_nat i) = Some x.
Proof.
  unfold rd. destruct (i <? 0) eqn:E.
  - split; [discriminate | lia].
  - apply Z.ltb_ge in E. destruct (nth_error l (Z.to_nat i)); split;
      try discriminate; try (intros [_ H]; congruence).
    intros H. inversion H. auto.
Qed.

Lemma list_eq_by_rd (A : Type) (l l' : list A) :
  len l = len l' ->
  (forall i, 0 <= i < len l -> exists x, rd l i = Ok x /\ rd l' i = Ok x) ->
  l = l'.
Proof.
  intros Hl H. apply nth_error_ext. intros n.
  destruct (Nat.lt_ge_cases n (List.length l)) as [Hn | Hn].
  - destruct (H (Z.of_nat n)) as (x & H1 & H2); [unfold len; lia | ].
    apply rd_nth_error in H1, H2. rewrite Nat2Z.id in H1, H2.
    destruct H1 as [_ ->]. destruct H2 as [_ ->]. reflexivity.
  - assert (Hn' : (List.length l' <= n)%nat) by (unfold len in Hl; lia).
    apply nth_error_None in Hn, Hn'. congruence.
Qed.

Lemma len_zrange (n : Z) : 0 <= n -> len (zrange n) = n.
Proof. intros. unfold len, zrange. rewrite length_map, length_seq. lia. Qed.

Lemma len_map (A B : Type) (f : A -> B) (l : list A) : len (map f l) = len l.
Proof. unfold len. now rewrite length_map. Qed.

Lemma rd_map_zrange (A : Type) (f : Z -> A) (n i : Z) :
  0 <= i < n -> rd (map f (zrange n)) i = Ok (f i).
Proof.
  intros Hi. apply rd_nth_error. split; [lia | ].
  unfold zrange. rewrite map_map. rewrite nth_error_map.
  rewrite nth_error_seq. destruct (Nat.ltb_spec (Z.to_nat i) (Z.to_nat n)); [ | lia].
  simpl. f_equal. f_equal. lia.
Qed.

Lemma zrange_succ (n : Z) : 0 <= n -> zrange (n + 1) = zrange n ++ [n].
Proof.
  intros Hn. unfold zrange. replace (Z.to_nat (n + 1)) with (Datatypes.S (Z.to_nat n)) by lia.
  rewrite seq_S, map_app. simpl. f_equal. f_equal. lia.
Qed.

Lemma rd_map (A B : Type) (f : A -> B) (l : list A) (i : Z) (x : A) :
  rd l i = Ok x -> rd (map f l) i = Ok (f x).
Proof.
  rewrite !rd_nth_error. intros [Hi Hn]. split; [exact Hi | ].
  rewrite nth_error_map, Hn. reflexivity.
Qed.

(** ** The fixture is a state LayerSetUp and Reshape produce *)

(** For kernel 2, stride 1, no padding, two output channels with bias, a
    constant filler and one 1x2x2 image, LayerSetUp followed by Reshape
    succeed and leave exactly the members [Layer_reshaped] lists. *)
Lemma Layer_reshaped_is_reached :
  forall (D : Type) (ops : DtypeOps D) (libm : Libm D) (base : BaseConv D)
         (v x0 x1 x2 x3 g : D),
    let bottom := [tensor [1; 1; 2; 2] [x0; x1; x2; x3];
                   tensor [1; 2; 2; 2] [g; g; g; g; g; g; g; g]] in
    exists (L1 L2 : Layer D) (top : list (Blob D)),
      LayerSetUp (base := with_constant_filler v base)
        (Layer_new (square_param 2 1 0 2 true) 2 []) bottom = Ok L1 /\
      Reshape L1 bottom [Blob_empty; Blob_empty; Blob_empty] = Ok (L2, top) /\
      L2 = Layer_reshaped 2 1 0 2 true 1 1 2 2 1 1
             (blobs_ L1) (intermediate_kernels_ L2) (data_ (gauss_kernel_ L1))
             (zeros 4) /\
      top = [Blob_new [1; 2; 1; 1]; Blob_new [1; 2; 1; 1]; Blob_new [1; 2; 1; 1]].
Proof.
  intros. do 3 eexists. split; [vm_compute; reflexivity | ].
  split; [vm_compute; reflexivity | ]. split; vm_compute; reflexivity.
Qed.

(** ** LayerSetUp: the rotated-kernel container *)

Section SetUpFacts.
Context {D : Type} {ops : DtypeOps D} {libm : Libm D} {base : BaseConv D}.

Lemma SetUp_blobs_kernels (L : Layer D) (ws bs : list Z) (bias : bool)
    (blobs kernels : list (Blob D)) :
  SetUp_blobs L ws bs bias 4 = Ok (blobs, kernels) ->
  exists w, nth_error blobs 0 = Some w /\
    kernels = if 0 <? len (blobs_ L) then intermediate_kernels_ L
              else intermediate_kernels_ L ++ [w; w; w; w].
Proof.
  unfold SetUp_blobs. destruct (0 <? len (blobs_ L)) eqn:Hreload.
  - intros H.
    apply bind_Ok_inv in H. destruct H as (u & _ & H).
    apply bind_Ok_inv in H. destruct H as (w & Hw & H).
    apply bind_Ok_inv in H. destruct H as (u1 & _ & H).
    apply bind_Ok_inv in H. destruct H as (u2 & _ & H).
    inversion H; subst. exists w. split; [ | reflexivity].
    unfold vec_at, rd in Hw. simpl in Hw.
    destruct (blobs_ L); simpl in *; [discriminate | congruence].
  - unfold for_range. change (Z.to_nat (4 - 0)) with 4%nat.
    intros H. destruct bias; cbn [for_nat bind vec_at] in H;
      unfold rd in H; simpl in H; inversion H; subst;
      eexists; (split; [reflexivity | ]);
      rewrite <- !app_assoc; reflexivity.
Qed.

(** After a successful LayerSetUp the container gained four copies of
    the weights when the parameter blobs were created, and nothing when
    they were already there. *)
Lemma LayerSetUp_kernels (L L' : Layer D) (bottom : list (Blob D)) :
  LayerSetUp L bottom = Ok L' ->
  exists w, nth_error (blobs_ L') 0 = Some w /\
    intermediate_kernels_ L' =
      if 0 <? len (blobs_ L) then intermediate_kernels_ L
      else intermediate_kernels_ L ++ [w; w; w; w].
Proof.
  unfold LayerSetUp. intros H.
  repeat (apply bind_Ok_inv in H; destruct H as (? & ? & H)).
  match goal with
  | Hb : SetUp_blobs _ _ _ _ _ = Ok ?p |- _ => destruct p as [blobs kernels];
      apply SetUp_blobs_kernels in Hb; destruct Hb as (w & Hw & Hk)
  end.
  apply bind_Ok_inv in H; destruct H as (gk & _ & H).
  inversion H; subst; simpl. exists w. split; [exact Hw | reflexivity].
Qed.
End SetUpFacts.

(** C9.  (1) A layer constructed with stored parameter blobs (here two
    2x2 filters) passes LayerSetUp through the branch that skips parameter
    initialisation; that branch pushes nothing, so the container holds 0
    tensors, and the following Reshape indexes intermediate_kernels_[0]
    of an empty vector.  (2) The same configuration without stored blobs
    takes the other branch, which pushes four copies of the new weight
    blob, and Reshape completes. *)
Theorem LayerSetUp_reload_leaves_no_rotated_kernels :
  forall (D : Type) (ops : DtypeOps D) (libm : Libm D) (base : BaseConv D)
         (w0 w1 w2 w3 w4 w5 w6 w7 x0 x1 x2 x3 g v : D),
    let stored := tensor [2; 1; 2; 2] [w0; w1; w2; w3; w4; w5; w6; w7] in
    let bottom := [tensor [1; 1; 2; 2] [x0; x1; x2; x3];
                   tensor [1; 2; 2; 2] [g; g; g; g; g; g; g; g]] in
    let top := [Blob_empty; Blob_empty; Blob_empty] in
    (exists L : Layer D,
        LayerSetUp (Layer_new (square_param 2 1 0 2 false) 2 [stored]) bottom = Ok L
        /\ blobs_ L = [stored]
        /\ intermediate_kernels_ L = []
        /\ Reshape L bottom top = Undefined)
    /\
    (exists (L : Layer D) (fresh : Blob D),
        LayerSetUp (base := with_constant_filler v base)
          (Layer_new (square_param 2 1 0 2 false) 2 []) bottom = Ok L
        /\ blobs_ L = [fresh]
        /\ intermediate_kernels_ L = [fresh; fresh; fresh; fresh]
        /\ exists r, Reshape L bottom top = Ok r).
Proof.
  intros. split.
  - eexists. split; [vm_compute; reflexivity | ].
    repeat split; vm_compute; reflexivity.
  - do 2 eexists. split; [vm_compute; reflexivity | ].
    split; [reflexivity | split; [reflexivity | ]].
    eexists. vm_compute. reflexivity.
Qed.

(** ** LayerSetUp: the Gaussian stencil *)

Section ScalFacts.
Context {D : Type} {ops : DtypeOps D} {libm : Libm D}.

Lemma dsum_snoc (l : list D) (x : D) : dsum (l ++ [x]) = dadd (dsum l) x.
Proof. unfold dsum. rewrite fold_left_app. reflexivity. Qed.

Lemma caffe_scal_map (alpha : D) (X : list D) :
  caffe_scal (len X) alpha X = Ok (map (dmul alpha) X).
Proof.
  unfold caffe_scal.
  destruct (@for_range_invariant (list D)
    (fun i x => len x = len X /\
                (forall k v, 0 <= k < i -> rd X k = Ok v -> rd x k = Ok (dmul alpha v)) /\
                (forall k, i <= k -> rd x k = rd X k))
    (fun i x => v <- rd x i ;; wr x i (dmul alpha v)) 0 (len X) X) as (x' & Hf & Hl & Hin & _).
  - unfold len. lia.
  - split; [reflexivity | split]; [intros; lia | reflexivity].
  - intros i x Hi (Hl & Hin & Hout).
    destruct (@rd_in_range D X i Hi) as (v & Hv).
    rewrite Hout, Hv by lia. cbn [bind]. rewrite wr_in_range by lia.
    eexists. split; [reflexivity | ]. split; [now rewrite len_upd | split].
    + intros k v' Hk Hv'. destruct (Z.eq_dec k i) as [-> | Hne].
      * rewrite rd_upd_same by lia. congruence.
      * rewrite rd_upd_other by lia. apply Hin; [lia | exact Hv'].
    + intros k Hk. rewrite rd_upd_other by lia. apply Hout. lia.
  - rewrite Hf. f_equal. apply list_eq_by_rd; [now rewrite len_map | ].
    intros i Hi. rewrite Hl in Hi.
    destruct (@rd_in_range D X i Hi) as (v & Hv).
    exists (dmul alpha v). split; [apply Hin; [lia | exact Hv] | now apply rd_map].
Qed.
End ScalFacts.

Section GaussLoop.
Context {D : Type} {ops : DtypeOps D} {libm : Libm D}.

Lemma gauss_entry_at (K h w : Z) :
  0 <= w < K ->
  gauss_entry K (h * K + w)
  = gauss_value K K h w (ddiv (of_int (K + K)) (of_int 12)).
Proof.
  intros Hw. unfold gauss_entry.
  assert (Hq : (h * K + w) / K = h).
  { rewrite Z.div_add_l by lia. rewrite Z.div_small by lia. lia. }
  assert (Hr : (h * K + w) mod K = w).
  { rewrite Z.add_comm, Z.mod_add by lia. apply Z.mod_small. lia. }
  now rewrite Hq, Hr.
Qed.

Lemma len_zeros (n : Z) : 0 <= n -> len (zeros (D := D) n) = n.
Proof. intros. unfold len, zeros. rewrite repeat_length. lia. Qed.

Lemma SetUp_gauss_kernel_table (L : Layer D) (K : Z) :
  0 < K ->
  kernel_w_ L = K ->
  gauss_kernel_ L = Blob_empty ->
  SetUp_gauss_kernel L [K; K]
  = Ok {| shape_ := [1; 1; K; K];
          data_ := map (dmul (ddiv (of_lit (1 # 1)) (dsum (gauss_table K))))
                     (gauss_table K);
          diff_ := zeros (K * K) |}.
Proof.
  intros HK Hkw Hgk. unfold SetUp_gauss_kernel.
  change (rd [K; K] 0) with (Ok K). change (rd [K; K] 1) with (Ok K).
  cbn [bind]. rewrite Hkw, Hgk.
  assert (Hcount : count_of [1; 1; K; K] = K * K) by (unfold count_of; cbn [fold_right]; ring).
  assert (HKK : 0 < K * K) by nia.
  unfold Blob_Reshape, count. cbn [shape_ data_ diff_ Blob_empty].
  rewrite Hcount. change (len (@nil D)) with 0.
  destruct (K * K <=? 0) eqn:E; [apply Z.leb_le in E; lia | clear E].
  set (sigma := ddiv (of_int (K + K)) (of_int 12)).
  set (Inv := fun (i : Z) (st : list D * D) =>
                len (fst st) = K * K /\
                (forall k, 0 <= k < i -> rd (fst st) k = Ok (gauss_entry K k)) /\
                snd st = dsum (map (gauss_entry K) (zrange i))).
  destruct (@for_range_invariant (list D * D) (fun h st => Inv (h * K) st)
    (fun h st =>
       for_range 0 K (fun w '(g, gauss_sum) =>
         g' <- wr g (h * K + w) (gauss_value K K h w sigma) ;;
         x <- rd g' (h * K + w) ;;
         Ok (g', dadd gauss_sum x)) st)
    0 K (zeros (K * K), dzero)) as ([g s] & Hf & Hl & Hin & Hs).
  - lia.
  - split; [apply len_zeros; lia | split]; [intros; lia | reflexivity].
  - intros h st Hh Hst.
    destruct (@for_range_invariant (list D * D) (fun w st => Inv (h * K + w) st)
      (fun w '(g, gauss_sum) =>
         g' <- wr g (h * K + w) (gauss_value K K h w sigma) ;;
         x <- rd g' (h * K + w) ;;
         Ok (g', dadd gauss_sum x))
      0 K st) as (st' & Hf' & Hst').
    + lia.
    + now rewrite Z.add_0_r.
    + intros w [g s] Hw (Hl & Hin & Hs). cbn [fst snd] in *.
      assert (Hidx : 0 <= h * K + w < K * K) by nia.
      rewrite wr_in_range by lia. cbn [bind].
      rewrite rd_upd_same by lia. cbn [bind].
      eexists. split; [reflexivity | ]. split; [ | split]; cbn [fst snd].
      * now rewrite len_upd.
      * intros k Hk. destruct (Z.eq_dec k (h * K + w)) as [-> | Hne].
        -- rewrite rd_upd_same by lia. now rewrite gauss_entry_at.
        -- rewrite rd_upd_other by lia. apply Hin. lia.
      * replace (h * K + (w + 1)) with (h * K + w + 1) by ring.
        rewrite zrange_succ by lia. rewrite map_app. cbn [map].
        rewrite dsum_snoc, Hs, gauss_entry_at by lia. reflexivity.
    + exists st'. split; [exact Hf' | ].
      now replace ((h + 1) * K) with (h * K + K) by ring.
  - cbn [fst snd] in *. rewrite Hf. cbn [bind].
    assert (Hg : g = gauss_table K).
    { apply list_eq_by_rd.
      - unfold gauss_table. rewrite len_map, len_zrange; lia.
      - intros i Hi. rewrite Hl in Hi. exists (gauss_entry K i).
        split; [apply Hin; lia | unfold gauss_table; now apply rd_map_zrange]. }
    subst g. rewrite Hs.
    replace (K * K) with (len (gauss_table K)) at 1
      by (unfold gauss_table; rewrite len_map, len_zrange; lia).
    rewrite caffe_scal_map. reflexivity.
Qed.
End GaussLoop.

Section Gauss3.
Context {D : Type} {ops : DtypeOps D} {libm : Libm D}.

Lemma SetUp_gauss_kernel_3x3 :
  SetUp_gauss_kernel (Layer_new (square_param 3 1 1 1 false) 3 []) [3; 3]
  = Ok {| shape_ := [1; 1; 3; 3];
          data_ := map (dmul (ddiv (of_lit (1 # 1)) (dsum gauss_values_3x3)))
                     gauss_values_3x3;
          diff_ := zeros 9 |}.
Proof. vm_compute. reflexivity. Qed.
End Gauss3.

Lemma gauss_value_R (kh kw h w : Z) (sigma : R) :
  gauss_value kh kw h w sigma
  = (exp (- ((IZR h - IZR kh / 2) * (IZR h - IZR kh / 2)
             + (IZR w - IZR kw / 2) * (IZR w - IZR kw / 2))
          / (2 * sigma * sigma))
     / (2 * (314159 / 100000) * sigma * sigma))%R.
Proof.
  unfold gauss_value, pow2. cbn [dadd dsub dmul ddiv dopp of_int of_lit m_exp R_ops R_libm].
  replace (Q2R (2 # 1)) with 2%R by (unfold Q2R; simpl; lra).
  replace (Q2R (314159 # 100000)) with (314159 / 100000)%R by (unfold Q2R; simpl; lra).
  reflexivity.
Qed.

Lemma gauss_value_R_3x3 (h w : Z) (e : R) :
  (e = - (2 * ((IZR h - 3 / 2) * (IZR h - 3 / 2) + (IZR w - 3 / 2) * (IZR w - 3 / 2))))%R ->
  gauss_value (D := R) 3 3 h w (6 / 12)%R = (exp e / (314159 / 200000))%R.
Proof.
  intros ->. rewrite gauss_value_R. f_equal; [f_equal | ]; field.
Qed.

(** ** The stencil over the reals *)

Lemma dsum_R_acc (l : list R) (a : R) :
  fold_left Rplus l a = (a + fold_left Rplus l 0)%R.
Proof.
  revert a. induction l as [| x l IH]; intros a; simpl; [lra | ].
  rewrite IH. rewrite (IH (0 + x)%R). lra.
Qed.

Lemma dsum_R_cons (x : R) (l : list R) : dsum (x :: l) = (x + dsum l)%R.
Proof.
  unfold dsum. cbn [fold_left dadd dzero R_ops]. rewrite dsum_R_acc. lra.
Qed.

Lemma dsum_R_scale (c : R) (l : list R) :
  dsum (map (Rmult c) l) = (c * dsum l)%R.
Proof.
  induction l as [| x l IH]; [unfold dsum; simpl; lra | ].
  cbn [map]. rewrite !dsum_R_cons, IH. lra.
Qed.

Lemma dsum_R_pos (l : list R) :
  l <> [] -> (forall x, In x l -> (0 < x)%R) -> (0 < dsum l)%R.
Proof.
  induction l as [| x l IH]; intros Hne Hpos; [congruence | ].
  rewrite dsum_R_cons. assert (0 < x)%R by (apply Hpos; now left).
  destruct l as [| y l'].
  - unfold dsum. simpl. lra.
  - assert (0 < dsum (y :: l'))%R; [ | lra].
    apply IH; [discriminate | intros z Hz; apply Hpos; now right].
Qed.

Lemma gauss_entry_R (K i : Z) :
  gauss_entry (D := R) K i
  = (/ (2 * (314159 / 100000) * (IZR (K + K) / 12) * (IZR (K + K) / 12))
     * exp (- ((IZR (i / K) - IZR K / 2) * (IZR (i / K) - IZR K / 2)
               + (IZR (i mod K) - IZR K / 2) * (IZR (i mod K) - IZR K / 2))
            / (2 * (IZR (K + K) / 12) * (IZR (K + K) / 12))))%R.
Proof.
  unfold gauss_entry. rewrite gauss_value_R.
  cbn [ddiv of_int R_ops]. unfold Rdiv at 1. apply Rmult_comm.
Qed.

(** For every kernel size K > 0 the stencil is, in exact arithmetic,
    c * exp(-((h - K/2)^2 + (w - K/2)^2) / (2 sigma^2)) with
    sigma = (K + K)/12 and one positive c, and its entries sum to 1.  The
    offsets are taken from K/2: for K > 1 the first entry (0,0) is
    smaller than the last entry (K-1,K-1), its mirror image through the
    centre of the stencil. *)
Lemma SetUp_gauss_kernel_sums_to_one_off_centre :
  forall K : Z,
    0 < K ->
    let sigma := (IZR (K + K) / 12)%R in
    exists (c : R) (g : list R),
      (0 < c)%R /\
      SetUp_gauss_kernel (Layer_new (square_param K 1 0 1 false) K []) [K; K]
      = Ok {| shape_ := [1; 1; K; K]; data_ := g; diff_ := zeros (K * K) |} /\
      (forall h w, 0 <= h < K -> 0 <= w < K ->
         rd g (h * K + w)
         = Ok (c * exp (- ((IZR h - IZR K / 2) * (IZR h - IZR K / 2)
                          + (IZR w - IZR K / 2) * (IZR w - IZR K / 2))
                       / (2 * sigma * sigma)))%R) /\
      dsum g = 1%R /\
      (1 < K ->
       exists a b, rd g (0 * K + 0) = Ok a /\ rd g ((K - 1) * K + (K - 1)) = Ok b /\
                   (a < b)%R).
Proof.
  intros K HK. cbv zeta.
  assert (Hk : (0 < IZR K)%R) by (apply IZR_lt; exact HK).
  remember (IZR (K + K) / 12)%R as sigma eqn:Hsigma.
  assert (Hsig : (0 < sigma)%R).
  { rewrite Hsigma, plus_IZR. lra. }
  set (d := (2 * (314159 / 100000) * sigma * sigma)%R).
  assert (Hd : (0 < d)%R).
  { unfold d. repeat apply Rmult_lt_0_compat; lra. }
  assert (Htab : forall i, gauss_entry (D := R) K i
            = (/ d * exp (- ((IZR (i / K) - IZR K / 2) * (IZR (i / K) - IZR K / 2)
                            + (IZR (i mod K) - IZR K / 2) * (IZR (i mod K) - IZR K / 2))
                         / (2 * sigma * sigma)))%R).
  { intros i. rewrite gauss_entry_R, <- Hsigma. reflexivity. }
  set (S := dsum (gauss_table (D := R) K)).
  assert (HKK : 0 < K * K) by nia.
  assert (HS : (0 < S)%R).
  { apply dsum_R_pos.
    - unfold gauss_table, zrange. destruct (Z.to_nat (K * K)) eqn:E; [lia | discriminate].
    - intros x Hx. unfold gauss_table in Hx. apply in_map_iff in Hx.
      destruct Hx as (i & <- & _). rewrite Htab.
      apply Rmult_lt_0_compat; [now apply Rinv_0_lt_compat | apply exp_pos]. }
  pose proof (@SetUp_gauss_kernel_table R R_ops R_libm
                (Layer_new (square_param K 1 0 1 false) K []) K HK eq_refl eq_refl) as Hrun.
  fold S in Hrun. cbn [dmul ddiv of_lit R_ops] in Hrun.
  replace (Q2R (1 # 1)) with 1%R in Hrun by (unfold Q2R; simpl; lra).
  assert (Hentry : forall h w, 0 <= h < K -> 0 <= w < K ->
            rd (map (Rmult (1 / S)) (gauss_table K)) (h * K + w)
            = Ok (1 / S / d * exp (- ((IZR h - IZR K / 2) * (IZR h - IZR K / 2)
                                     + (IZR w - IZR K / 2) * (IZR w - IZR K / 2))
                                  / (2 * sigma * sigma)))%R).
  { intros h w Hh Hw. unfold gauss_table. rewrite map_map.
    rewrite rd_map_zrange by nia. f_equal.
    rewrite gauss_entry_at by lia. rewrite gauss_value_R.
    cbn [ddiv of_int R_ops]. rewrite <- Hsigma. fold d. field. lra. }
  exists (1 / S / d)%R, (map (Rmult (1 / S)) (gauss_table K)).
  assert (Hc : (0 < 1 / S / d)%R).
  { apply Rdiv_lt_0_compat; [apply Rdiv_lt_0_compat; lra | exact Hd]. }
  split; [exact Hc | split; [exact Hrun | split; [exact Hentry | split]]].
  - rewrite dsum_R_scale. fold S. field. lra.
  - intros HK1. eexists. eexists.
    split; [apply Hentry; lia | split; [apply Hentry; lia | ]].
    apply Rmult_lt_compat_l; [exact Hc | ]. apply exp_increasing.
    rewrite minus_IZR. unfold Rdiv.
    assert (Ht : (0 < / (2 * sigma * sigma))%R).
    { apply Rinv_0_lt_compat. repeat apply Rmult_lt_0_compat; lra. }
    assert (Hk1 : (1 < IZR K)%R) by (apply IZR_lt; exact HK1).
    set (t := (/ (2 * sigma * sigma))%R) in *.
    set (k := IZR K) in *.
    assert (Hdiff : ((k - 1 - k * / 2) * (k - 1 - k * / 2) + (k - 1 - k * / 2) * (k - 1 - k * / 2)
                     < (0 - k * / 2) * (0 - k * / 2) + (0 - k * / 2) * (0 - k * / 2))%R) by nra.
    nra.
Qed.

(** C6.  For a 3x3 kernel (sigma = 6/12, so 2 sigma^2 = 1/2) the stencil
    after scaling is c * exp(-2 ((h - 3/2)^2 + (w - 3/2)^2)) for one
    positive c, and its nine entries sum to 1.  The offsets are taken
    from 3/2, not from the centre cell 1: the centre cell (1,1) carries
    exp(-1) like the cells (1,2), (2,1) and (2,2), and the corner (0,0)
    carries exp(-9) while the opposite corner (2,2) carries exp(-1).  A
    stencil whose value depends on the offset from its centre has equal
    opposite corners and its largest value at the centre cell only. *)
Theorem SetUp_gauss_kernel_is_off_centre :
  exists c : R,
    (0 < c)%R /\
    SetUp_gauss_kernel (Layer_new (square_param 3 1 1 1 false) 3 []) [3; 3]
    = Ok {| shape_ := [1; 1; 3; 3];
            data_ := [c * exp (-9); c * exp (-5); c * exp (-5);
                      c * exp (-5); c * exp (-1); c * exp (-1);
                      c * exp (-5); c * exp (-1); c * exp (-1)]%R;
            diff_ := zeros 9 |}
    /\ (c * exp (-9) + c * exp (-5) + c * exp (-5)
        + c * exp (-5) + c * exp (-1) + c * exp (-1)
        + c * exp (-5) + c * exp (-1) + c * exp (-1) = 1)%R
    /\ (c * exp (-9) < c * exp (-1))%R.
Proof.
  pose proof (@SetUp_gauss_kernel_3x3 R R_ops R_libm) as Hk.
  unfold gauss_values_3x3 in Hk.
  cbn [map dsum fold_left dadd dmul ddiv of_int of_lit dzero R_ops] in Hk.
  replace (Q2R (1 # 1)) with 1%R in Hk by (unfold Q2R; simpl; lra).
  rewrite (@gauss_value_R_3x3 0 0 (-9)) in Hk by (simpl; lra).
  rewrite (@gauss_value_R_3x3 0 1 (-5)) in Hk by (simpl; lra).
  rewrite (@gauss_value_R_3x3 0 2 (-5)) in Hk by (simpl; lra).
  rewrite (@gauss_value_R_3x3 1 0 (-5)) in Hk by (simpl; lra).
  rewrite (@gauss_value_R_3x3 1 1 (-1)) in Hk by (simpl; lra).
  rewrite (@gauss_value_R_3x3 1 2 (-1)) in Hk by (simpl; lra).
  rewrite (@gauss_value_R_3x3 2 0 (-5)) in Hk by (simpl; lra).
  rewrite (@gauss_value_R_3x3 2 1 (-1)) in Hk by (simpl; lra).
  rewrite (@gauss_value_R_3x3 2 2 (-1)) in Hk by (simpl; lra).
  pose proof (exp_pos (-9)) as H9.
  pose proof (exp_pos (-5)) as H5.
  pose proof (exp_pos (-1)) as H1.
  assert (H91 : (exp (-9) < exp (-1))%R) by (apply exp_increasing; lra).
  set (E9 := exp (-9)) in *. set (E5 := exp (-5)) in *. set (E1 := exp (-1)) in *.
  set (d := (314159 / 200000)%R) in *.
  assert (Hd : (0 < d)%R) by (unfold d; lra).
  set (S := (0 + E9 / d + E5 / d + E5 / d + E5 / d + E1 / d + E1 / d
             + E5 / d + E1 / d + E1 / d)%R) in *.
  assert (HS : (S = (E9 + 4 * E5 + 4 * E1) / d)%R) by (unfold S; field; lra).
  assert (HS0 : (0 < S)%R).
  { rewrite HS. apply Rdiv_lt_0_compat; lra. }
  exists (1 / S / d)%R.
  assert (Hc : (0 < 1 / S / d)%R).
  { apply Rdiv_lt_0_compat; [apply Rdiv_lt_0_compat; lra | exact Hd]. }
  split; [exact Hc | split; [ | split]].
  - rewrite Hk. do 2 f_equal. repeat (f_equal; [field; lra | ]). f_equal. field; lra.
  - rewrite HS. field. lra.
  - apply Rmult_lt_compat_l; assumption.
Qed.

(** ** Reshape: the shape checks *)

Lemma shape_cases (D : Type) (b : Blob D) (i : Z) :
  (exists v, shape b i = Ok v) \/ shape b i = Fatal "axis out of range".
Proof.
  unfold shape. destruct (rd (shape_ b) i); [left; eauto | right .. ]; reflexivity.
Qed.

Ltac shape_step b i v :=
  let Hs := fresh "Hs" in
  destruct (shape_cases b i) as [[v Hs] | Hs]; rewrite Hs;
  [ cbn [bind] | eexists; split; [reflexivity | simpl; tauto] ].

Ltac check_step :=
  match goal with
  | |- context [CHECK ?c _] =>
      let E := fresh "E" in
      destruct c eqn:E; cbn [CHECK bind];
      [ | eexists; split; [reflexivity | simpl; tauto] ]
  end.

Lemma Reshape_checks_reject (D : Type) (L : Layer D) (b0 b1 : Blob D) :
  shape b1 1 <> Ok 2 \/ shape b0 0 <> shape b1 0 \/
  shape b0 2 <> shape b1 2 \/ shape b0 3 <> shape b1 3 ->
  exists msg, Reshape_checks L [b0; b1] = Fatal msg /\ In msg Reshape_messages.
Proof.
  intros Hbad. unfold Reshape_checks.
  change (vec_at [b0; b1] 0) with (Ok b0).
  change (vec_at [b0; b1] 1) with (Ok b1).
  cbn [bind].
  check_step.
  shape_step b0 (channel_axis_ L) ch0.
  check_step.
  shape_step b0 2 hh0. shape_step b1 2 hh1. check_step.
  shape_step b0 3 ww0. shape_step b1 3 ww1. check_step.
  shape_step b0 0 nn0. shape_step b1 0 nn1. check_step.
  shape_step b1 1 ch1. check_step.
  exfalso.
  repeat match goal with
         | H : (_ =? _) = true |- _ => apply Z.eqb_eq in H
         end.
  subst. destruct Hbad as [H | [H | [H | H]]]; apply H; congruence.
Qed.

(** C8.  When the gradient-field input does not have exactly 2 channels,
    or the two inputs differ in batch size, height or width, Reshape
    aborts with one of the messages of its checks; the checks are the
    first thing Reshape does, so the abort comes before any top is shaped
    and before any member other than [num_] is touched, whatever the
    layer state and the tops are. *)
Theorem Reshape_rejects_mismatched_bottoms :
  forall (D : Type) (ops : DtypeOps D) (L : Layer D) (b0 b1 : Blob D)
         (top : list (Blob D)),
    shape b1 1 <> Ok 2 \/ shape b0 0 <> shape b1 0 \/
    shape b0 2 <> shape b1 2 \/ shape b0 3 <> shape b1 3 ->
    exists msg,
      Reshape_checks L [b0; b1] = Fatal msg /\
      Reshape L [b0; b1] top = Fatal msg /\
      In msg Reshape_messages.
Proof.
  intros D ops L b0 b1 top Hbad.
  destruct (Reshape_checks_reject L b0 b1 Hbad) as (msg & Hc & Hin).
  exists msg. split; [exact Hc | split; [ | exact Hin]].
  unfold Reshape. rewrite Hc. reflexivity.
Qed.

(** A gradient field with 3 channels is rejected. *)
Lemma Reshape_rejects_three_gradient_channels :
  exists msg,
    Reshape_checks one_pixel_layer
      [tensor [1; 1; 1; 1] (Qs [5]); tensor [1; 3; 1; 1] (Qs [1; 0; 0])] = Fatal msg /\
    Reshape one_pixel_layer
      [tensor [1; 1; 1; 1] (Qs [5]); tensor [1; 3; 1; 1] (Qs [1; 0; 0])]
      [Blob_empty; Blob_empty; Blob_empty] = Fatal msg /\
    In msg Reshape_messages.
Proof.
  apply (@Reshape_rejects_mismatched_bottoms Q Q_ops one_pixel_layer
           (tensor [1; 1; 1; 1] (Qs [5])) (tensor [1; 3; 1; 1] (Qs [1; 0; 0]))
           [Blob_empty; Blob_empty; Blob_empty]).
  left. vm_compute. discriminate.
Defined.

(** ** Reshape: the rotated copies *)

(** For every kernel size the index arithmetic of copies 1, 2 and 3
    leaves the K x K plane [0, K*K) it reads from. *)
Lemma rot_index_leaves_plane (K : Z) :
  0 < K ->
  rot_index 1 K K 0 (K - 1) = K * K /\
  rot_index 2 K K 0 0 = K * K + K /\
  rot_index 3 K K (K - 1) 0 = K * K + K - 1.
Proof. intros HK. unfold rot_index. simpl. repeat split; lia. Qed.

Lemma rot_index_0_identity (s2 s3 h w : Z) :
  rot_index 0 s2 s3 h w = h * s3 + w.
Proof. reflexivity. Qed.

Lemma for_range_first_undefined (S : Type) (body : Z -> S -> outcome S)
    (lo hi : Z) (s : S) :
  lo < hi -> body lo s = Undefined -> for_range lo hi body s = Undefined.
Proof.
  intros Hlt Hb. unfold for_range.
  destruct (Z.to_nat (hi - lo)) as [| k] eqn:E; [lia | ].
  cbn [for_nat]. rewrite Hb. reflexivity.
Qed.

Lemma bind_undefined (A B : Type) (P : A -> Prop) (m : outcome A)
    (k : A -> outcome B) :
  unless_undefined P m -> (forall a, P a -> k a = Undefined) ->
  bind m k = Undefined.
Proof. destruct m; simpl; intros Hm Hk; auto; contradiction. Qed.

Lemma rd_past_end (A : Type) (buf : list A) (i : Z) :
  len buf <= i -> rd buf i = Undefined.
Proof.
  intros Hi. unfold rd, len in *. destruct (i <? 0); [reflexivity | ].
  destruct (nth_error buf (Z.to_nat i)) eqn:E; [ | reflexivity].
  assert (Z.to_nat i < List.length buf)%nat by (apply nth_error_Some; congruence). lia.
Qed.

Lemma unless_undefined_wr_at (D : Type) (bufs : list (list D)) (i idx : Z) (x : D) :
  unless_undefined (fun _ => True) (wr_at bufs i idx x).
Proof. unfold wr_at, vec_at. uu. Qed.

Lemma Reshape_rotate_single_plane (D : Type) (ops : DtypeOps D) (K : Z)
    (weights : list D) (rot : list (list D)) :
  0 < K -> len weights = K * K ->
  Reshape_rotate (tensor [1; 1; K; K] weights) rot = Undefined.
Proof.
  intros HK Hlen. unfold Reshape_rotate.
  change (shape (tensor [1; 1; K; K] weights) 0) with (@Ok Z 1). cbn [bind].
  rewrite for_range_first_undefined; [reflexivity | lia | ].
  change (shape (tensor [1; 1; K; K] weights) 1) with (@Ok Z 1). cbn [bind].
  apply for_range_first_undefined; [lia | ].
  change (shape (tensor [1; 1; K; K] weights) 2) with (@Ok Z K). cbn [bind].
  rewrite for_range_first_undefined; [reflexivity | exact HK | ].
  change (shape (tensor [1; 1; K; K] weights) 3) with (@Ok Z K). cbn [bind].
  apply for_range_first_undefined; [exact HK | ].
  cbn [data_ tensor].
  eapply bind_undefined; [apply unless_undefined_rd | intros x0 _].
  eapply bind_undefined; [apply unless_undefined_wr_at | intros r0 _].
  eapply bind_undefined; [apply unless_undefined_rd | intros x1 _].
  eapply bind_undefined; [apply unless_undefined_wr_at | intros r1 _].
  rewrite rd_past_end; [reflexivity | ].
  unfold rot_index. simpl. nia.
Qed.

(** C2.  The rotated copies are not index permutations of the filter
    planes.  (1) For every kernel size K, copy 1 at (h,w) = (0,K-1) reads
    index K*K, copy 2 at (0,0) reads index K*K + K and copy 3 at (K-1,0)
    reads index K*K + K - 1, all outside the plane [0, K*K); with a
    single K x K plane the fill reads outside the weights.  (2) With two
    2x2 planes [a b; c d] and [e f; g h] the fill completes, but every
    plane of every copy is read from the first plane onwards ([kernels]
    is never advanced): copy 0 repeats the first plane instead of
    reproducing the filter, and copies 1 to 3 mix values of both
    planes. *)
Theorem Reshape_rotate_is_not_a_permutation :
  forall (D : Type) (ops : DtypeOps D),
    (forall (K : Z) (weights : list D) (rot : list (list D)),
        0 < K -> len weights = K * K ->
        (rot_index 1 K K 0 (K - 1) = K * K /\
         rot_index 2 K K 0 0 = K * K + K /\
         rot_index 3 K K (K - 1) 0 = K * K + K - 1)
        /\ Reshape_rotate (tensor [1; 1; K; K] weights) rot = Undefined)
    /\
    (forall a b c d e f g h z : D,
        Reshape_rotate (tensor [2; 1; 2; 2] [a; b; c; d; e; f; g; h])
          [[z; z; z; z; z; z; z; z]; [z; z; z; z; z; z; z; z];
           [z; z; z; z; z; z; z; z]; [z; z; z; z; z; z; z; z]]
        = Ok [[a; b; c; d; a; b; c; d];
              [c; e; b; d; c; e; b; d];
              [g; f; e; d; g; f; e; d];
              [e; c; f; d; e; c; f; d]]).
Proof.
  intros D ops. split.
  - intros K weights rot HK Hlen. split.
    + now apply rot_index_leaves_plane.
    + now apply Reshape_rotate_single_plane.
  - intros. vm_compute. reflexivity.
Qed.

(** The first part on the 2x2 filter [1 2; 3 4]. *)
Lemma Reshape_rotate_on_one_2x2_plane :
  (rot_index 1 2 2 0 (2 - 1) = 2 * 2 /\
   rot_index 2 2 2 0 0 = 2 * 2 + 2 /\
   rot_index 3 2 2 (2 - 1) 0 = 2 * 2 + 2 - 1)
  /\ Reshape_rotate (tensor [1; 1; 2; 2] (Qs [1; 2; 3; 4]))
       [Qs [0; 0; 0; 0]; Qs [0; 0; 0; 0]; Qs [0; 0; 0; 0]; Qs [0; 0; 0; 0]]
     = Undefined.
Proof.
  apply (proj1 (@Reshape_rotate_is_not_a_permutation Q Q_ops) 2 (Qs [1; 2; 3; 4])
           [Qs [0; 0; 0; 0]; Qs [0; 0; 0; 0]; Qs [0; 0; 0; 0]; Qs [0; 0; 0; 0]]);
    [lia | reflexivity].
Defined.

(** ** GaussConvolveHelper *)

(** C4.  Kernel 2x2, stride 1, pad 1 on a 1x1 gradient field (x, y): the
    output is 2x2 and every window is clipped to the single input pixel.
    The window of output (0,0) starts at (-1,-1), so the pixel sits at
    stencil offset (1,1), entry 3; for (0,1) it sits at offset (1,0),
    entry 2; for (1,0) at (0,1), entry 1; for (1,1) at (0,0), entry 0.
    The code uses entry 0 at all four outputs: it indexes the stencil
    from the clipped start. *)
Theorem GaussConvolveHelper_indexes_stencil_from_clipped_start :
  forall (D : Type) (ops : DtypeOps D) (libm : Libm D) (base : BaseConv D)
         (p0 p1 x y : D),
    let bottom := [tensor [1; 2; 1; 1] [p0; p1]; tensor [1; 2; 1; 1] [x; y]] in
    exists L : Layer D,
      LayerSetUp (Layer_new (square_param 2 1 1 1 false) 2 []) bottom = Ok L
      /\ GaussConvolveHelper L (tensor [1; 2; 1; 1] [x; y]) (Blob_new [1; 2; 2; 2])
         = Ok (set_data (Blob_new [1; 2; 2; 2])
                 [dadd dzero (dmul (stencil L 0) x); dadd dzero (dmul (stencil L 0) x);
                  dadd dzero (dmul (stencil L 0) x); dadd dzero (dmul (stencil L 0) x);
                  dadd dzero (dmul (stencil L 0) y); dadd dzero (dmul (stencil L 0) y);
                  dadd dzero (dmul (stencil L 0) y); dadd dzero (dmul (stencil L 0) y)]).
Proof.
  intros. eexists. split; vm_compute; reflexivity.
Qed.

(** C10.  The channel loop runs [channels_] times per image, where
    [channels_] is the channel count of the primary input.  (1) With a
    three-channel primary input and a 1x1 kernel, the third pass
    addresses a third plane of the two-plane gradient field and of the
    two-plane output.  (2) With a one-channel primary input and two
    images, the two passes cover the two channels of the first image;
    the second image is never read and its output stays zero. *)
Theorem GaussConvolveHelper_channel_loop_follows_primary_input :
  forall (D : Type) (ops : DtypeOps D) (libm : Libm D) (base : BaseConv D)
         (p0 p1 p2 x y x' y' : D),
    (exists L : Layer D,
        LayerSetUp (Layer_new (square_param 1 1 0 1 false) 1 [])
          [tensor [1; 3; 1; 1] [p0; p1; p2]; tensor [1; 2; 1; 1] [x; y]] = Ok L
        /\ channels_ L = 3
        /\ GaussConvolveHelper L (tensor [1; 2; 1; 1] [x; y]) (Blob_new [1; 2; 1; 1])
           = Undefined)
    /\
    (exists L : Layer D,
        LayerSetUp (Layer_new (square_param 1 1 0 1 false) 1 [])
          [tensor [2; 1; 1; 1] [p0; p1]; tensor [2; 2; 1; 1] [x; y; x'; y']] = Ok L
        /\ channels_ L = 1
        /\ GaussConvolveHelper L (tensor [2; 2; 1; 1] [x; y; x'; y'])
             (Blob_new [2; 2; 1; 1])
           = Ok (set_data (Blob_new [2; 2; 1; 1])
                   [dadd dzero (dmul (stencil L 0) x);
                    dadd dzero (dmul (stencil L 0) y); dzero; dzero])).
Proof.
  intros. split; eexists; (split; [vm_compute; reflexivity | ]);
    split; vm_compute; reflexivity.
Qed.

(** ** Forward_cpu: orientation, sine and cosine *)

Section Fill.
Context {D : Type}.

(** A loop that writes [n] values from [obase] on, the value for step
    [i] being read by [val i] from buffers it does not write. *)
Lemma fill_spec (val : Z -> outcome D) (n obase : Z) (out : list D) :
  0 <= n -> 0 <= obase -> obase + n <= len out ->
  (forall i, 0 <= i < n -> exists v, val i = Ok v) ->
  exists out',
    for_range 0 n (fun i o => v <- val i ;; wr o (obase + i) v) out = Ok out' /\
    len out' = len out /\
    (forall i, 0 <= i < n -> exists v, val i = Ok v /\ rd out' (obase + i) = Ok v) /\
    (forall j, j < obase \/ obase + n <= j -> rd out' j = rd out j).
Proof.
  intros Hn Hob Hlen Hval.
  destruct (@for_range_invariant (list D)
    (fun i o => len o = len out /\
                (forall k, 0 <= k < i -> exists v, val k = Ok v /\ rd o (obase + k) = Ok v) /\
                (forall j, j < obase \/ obase + i <= j -> rd o j = rd out j))
    (fun i o => v <- val i ;; wr o (obase + i) v) 0 n out) as (out' & Hf & Hl & Hin & Hout).
  - exact Hn.
  - split; [reflexivity | split]; [intros k Hk; lia | reflexivity].
  - intros i o Hi (Hl & Hin & Hout).
    destruct (Hval i Hi) as (v & Hv). rewrite Hv. cbn [bind].
    rewrite wr_in_range by lia.
    eexists. split; [reflexivity | ]. split; [rewrite len_upd; exact Hl | ]. split.
    + intros k Hk. destruct (Z.eq_dec k i) as [-> | Hne].
      * exists v. split; [exact Hv | ]. apply rd_upd_same. lia.
      * destruct (Hin k) as (v' & Hv' & Hr); [lia | ].
        exists v'. split; [exact Hv' | ]. rewrite rd_upd_other by lia. exact Hr.
    + intros j Hj. rewrite rd_upd_other by lia. apply Hout. lia.
  - exists out'. auto.
Qed.
End Fill.

Lemma bind_assoc (A B C : Type) (m : outcome A) (k1 : A -> outcome B)
    (k2 : B -> outcome C) :
  bind (bind m k1) k2 = bind m (fun a => bind (k1 a) k2).
Proof. destruct m; reflexivity. Qed.

Lemma for_nat_ext (S : Type) (b1 b2 : Z -> S -> outcome S) (k : nat) :
  (forall i s, b1 i s = b2 i s) ->
  forall i s, for_nat k i b1 s = for_nat k i b2 s.
Proof.
  intros Hb. induction k as [| k IH]; intros i s; cbn [for_nat]; [reflexivity | ].
  rewrite Hb. destruct (b2 i s); cbn [bind]; auto.
Qed.

Section OrientationFacts.
Context {D : Type} {ops : DtypeOps D} {libm : Libm D}.

Lemma caffe_atan2_spec (n : Z) (y : list D) (ybase : Z) (x : list D) (xbase : Z)
    (out : list D) (obase : Z) :
  0 <= n ->
  0 <= ybase -> ybase + n <= len y ->
  0 <= xbase -> xbase + n <= len x ->
  0 <= obase -> obase + n <= len out ->
  exists out',
    caffe_atan2 n y ybase x xbase out obase = Ok out' /\
    len out' = len out /\
    (forall i, 0 <= i < n ->
       exists yi xi, rd y (ybase + i) = Ok yi /\ rd x (xbase + i) = Ok xi /\
                     rd out' (obase + i) = Ok (m_atan2 yi xi)) /\
    (forall j, j < obase \/ obase + n <= j -> rd out' j = rd out j).
Proof.
  intros Hn Hy0 Hy Hx0 Hx Ho0 Ho.
  pose (val := fun i => yi <- rd y (ybase + i) ;; xi <- rd x (xbase + i) ;;
                        Ok (m_atan2 yi xi)).
  assert (Hval : forall i, 0 <= i < n ->
            exists yi xi, rd y (ybase + i) = Ok yi /\ rd x (xbase + i) = Ok xi /\
                          val i = Ok (m_atan2 yi xi)).
  { intros i Hi. unfold val.
    destruct (@rd_in_range D y (ybase + i)) as (yi & Hyi); [lia | ].
    destruct (@rd_in_range D x (xbase + i)) as (xi & Hxi); [lia | ].
    exists yi, xi. rewrite Hyi, Hxi. auto. }
  destruct (@fill_spec D val n obase out Hn Ho0 Ho) as (out' & Hf & Hl & Hin & Hout).
  { intros i Hi. destruct (Hval i Hi) as (yi & xi & _ & _ & Hv). eauto. }
  exists out'. split; [ | split; [exact Hl | split; [ | exact Hout]]].
  - rewrite <- Hf. unfold caffe_atan2, for_range. apply for_nat_ext.
    intros i s. unfold val. rewrite !bind_assoc.
    destruct (rd y (ybase + i)); cbn [bind]; [ | reflexivity ..].
    destruct (rd x (xbase + i)); cbn [bind]; reflexivity.
  - intros i Hi. destruct (Hval i Hi) as (yi & xi & Hyi & Hxi & Hv).
    destruct (Hin i Hi) as (v & Hv' & Hr).
    exists yi, xi. repeat split; auto. congruence.
Qed.

Lemma caffe_unary_spec (f : D -> D) (n : Z) (a : list D) (abase : Z)
    (out : list D) (obase : Z) :
  0 <= n ->
  0 <= abase -> abase + n <= len a ->
  0 <= obase -> obase + n <= len out ->
  exists out',
    caffe_unary f n a abase out obase = Ok out' /\
    len out' = len out /\
    (forall i, 0 <= i < n ->
       exists ai, rd a (abase + i) = Ok ai /\ rd out' (obase + i) = Ok (f ai)) /\
    (forall j, j < obase \/ obase + n <= j -> rd out' j = rd out j).
Proof.
  intros Hn Ha0 Ha Ho0 Ho.
  pose (val := fun i => ai <- rd a (abase + i) ;; Ok (f ai)).
  assert (Hval : forall i, 0 <= i < n ->
            exists ai, rd a (abase + i) = Ok ai /\ val i = Ok (f ai)).
  { intros i Hi. unfold val.
    destruct (@rd_in_range D a (abase + i)) as (ai & Hai); [lia | ].
    exists ai. rewrite Hai. auto. }
  destruct (@fill_spec D val n obase out Hn Ho0 Ho) as (out' & Hf & Hl & Hin & Hout).
  { intros i Hi. destruct (Hval i Hi) as (ai & _ & Hv). eauto. }
  exists out'. split; [ | split; [exact Hl | split; [ | exact Hout]]].
  - rewrite <- Hf. unfold caffe_unary, for_range. apply for_nat_ext.
    intros i s. unfold val. rewrite !bind_assoc.
    destruct (rd a (abase + i)); cbn [bind]; reflexivity.
  - intros i Hi. destruct (Hval i Hi) as (ai & Hai & Hv).
    destruct (Hin i Hi) as (v & Hv' & Hr).
    exists ai. split; auto. congruence.
Qed.
End OrientationFacts.

Lemma mul_succ_le (n N P : Z) : 0 <= P -> n < N -> n * P + P <= N * P.
Proof. intros. nia. Qed.

Section OrientationLoops.
Context {D : Type} {ops : DtypeOps D} {libm : Libm D}.

Lemma shape_of (b : Blob D) (N C H W : Z) :
  shape_ b = [N; C; H; W] ->
  shape b 0 = Ok N /\ shape b 1 = Ok C /\ shape b 2 = Ok H /\ shape b 3 = Ok W /\
  count_from b 2 = H * W /\
  (forall n c h w, offset b n c h w = ((n * C + c) * H + h) * W + w).
Proof.
  intros Hs. unfold shape, rd, count_from, offset. rewrite Hs. simpl.
  repeat split; try reflexivity. lia.
Qed.

Lemma Forward_orientation_spec (L : Layer D) (top2 : Blob D) (N H W : Z) :
  0 <= N -> 0 <= H -> 0 <= W ->
  shape_ top2 = [N; 2; H; W] ->
  shape_ (orientation_map_ L) = [N; 1; H; W] ->
  N * (2 * (H * W)) <= len (data_ top2) ->
  N * (H * W) <= len (data_ (orientation_map_ L)) ->
  exists o,
    Forward_orientation L top2 = Ok o /\
    len o = len (data_ (orientation_map_ L)) /\
    forall n s, 0 <= n < N -> 0 <= s < H * W ->
      exists gy gx,
        rd (data_ top2) (n * (2 * (H * W)) + H * W + s) = Ok gy /\
        rd (data_ top2) (n * (2 * (H * W)) + s) = Ok gx /\
        rd o (n * (H * W) + s) = Ok (m_atan2 gy gx).
Proof.
  intros HN HH HW Ht2 Hom Hlen2 Hleno.
  destruct (shape_of top2 Ht2) as (Hs0 & _ & _ & _ & Hcnt & Hoff2).
  destruct (shape_of (orientation_map_ L) Hom) as (_ & _ & _ & _ & _ & Hoffo).
  set (P := H * W) in *.
  assert (HP : 0 <= P) by (subst P; nia).
  unfold Forward_orientation. rewrite Hs0, Hcnt, !Hoff2, !Hoffo. cbn [bind].
  replace (0 + (((0 * 2 + 1) * H + 0) * W + 0)) with P by (subst P; ring).
  replace (((1 * 1 + 0) * H + 0) * W + 0) with P by (subst P; ring).
  replace (((1 * 2 + 0) * H + 0) * W + 0) with (2 * P) by (subst P; ring).
  destruct (@for_range_invariant (list D * Z * Z * Z)
    (fun n st =>
       let '(o, ob, xb, yb) := st in
       ob = n * P /\ xb = n * (2 * P) /\ yb = P + n * (2 * P) /\
       len o = len (data_ (orientation_map_ L)) /\
       forall m s, 0 <= m < n -> 0 <= s < P ->
         exists gy gx,
           rd (data_ top2) (m * (2 * P) + P + s) = Ok gy /\
           rd (data_ top2) (m * (2 * P) + s) = Ok gx /\
           rd o (m * P + s) = Ok (m_atan2 gy gx))
    (fun (n : Z) '(orientation, obase, top2_x, top2_y) =>
       orientation <- caffe_atan2 P (data_ top2) top2_y (data_ top2) top2_x
                        orientation obase ;;
       Ok (orientation, obase + P, top2_x + 2 * P, top2_y + 2 * P))
    0 N (data_ (orientation_map_ L), 0, 0, P)) as ([[[o ob] xb] yb] & Hf & Hinv).
  - exact HN.
  - repeat split; try lia.
  - intros n [[[o ob] xb] yb] Hn (Hob & Hxb & Hyb & Hl & Hin). subst ob xb yb.
    pose proof (mul_succ_le HP (proj2 Hn)) as Hle.
    assert (Hn0 : 0 <= n * P) by nia.
    destruct (@caffe_atan2_spec D libm P (data_ top2) (P + n * (2 * P)) (data_ top2)
                (n * (2 * P)) o (n * P)) as (o' & Hc & Hl' & Hin' & Hout'); try lia.
    rewrite Hc. cbn [bind]. eexists. split; [reflexivity | ].
    split; [ring | split; [ring | split; [ring | split; [lia | ]]]].
    intros m s Hm Hs. destruct (Z.eq_dec m n) as [-> | Hne].
    + destruct (Hin' s Hs) as (gy & gx & Hgy & Hgx & Hr).
      exists gy, gx.
      replace (n * (2 * P) + P + s) with (P + n * (2 * P) + s) by ring.
      auto.
    + destruct (Hin m s) as (gy & gx & Hgy & Hgx & Hr); [lia | exact Hs | ].
      exists gy, gx. repeat split; auto. rewrite Hout'; [exact Hr | ].
      left. assert (m * P + P <= n * P) by (apply mul_succ_le; lia). lia.
  - rewrite Hf. cbn [bind]. destruct Hinv as (_ & _ & _ & Hl & Hin).
    exists o. auto.
Qed.
End OrientationLoops.

Section SinCosLoops.
Context {D : Type} {ops : DtypeOps D} {libm : Libm D}.

Lemma Forward_sincos_spec (L : Layer D) (orientation : list D) (top1 top2 : Blob D)
    (N H W : Z) :
  0 <= N -> 0 <= H -> 0 <= W ->
  shape_ top1 = [N; 2; H; W] ->
  shape_ top2 = [N; 2; H; W] ->
  shape_ (orientation_map_ L) = [N; 1; H; W] ->
  N * (2 * (H * W)) <= len (data_ top1) ->
  N * (H * W) <= len orientation ->
  exists t,
    Forward_sincos L orientation top1 top2 = Ok t /\
    len t = len (data_ top1) /\
    forall n s, 0 <= n < N -> 0 <= s < H * W ->
      exists a,
        rd orientation (n * (H * W) + s) = Ok a /\
        rd t (n * (2 * (H * W)) + s) = Ok (m_sin a) /\
        rd t (n * (2 * (H * W)) + H * W + s) = Ok (m_cos a).
Proof.
  intros HN HH HW Ht1 Ht2 Hom Hlen1 Hleno.
  destruct (shape_of top1 Ht1) as (_ & _ & _ & _ & Hcnt & Hoff1).
  destruct (shape_of top2 Ht2) as (Hs0 & _).
  destruct (shape_of (orientation_map_ L) Hom) as (_ & _ & _ & _ & _ & Hoffo).
  set (P := H * W) in *.
  assert (HP : 0 <= P) by (subst P; nia).
  unfold Forward_sincos. rewrite Hs0, Hcnt, !Hoff1, !Hoffo. cbn [bind].
  replace (0 + (((0 * 2 + 1) * H + 0) * W + 0)) with P by (subst P; ring).
  replace (((1 * 1 + 0) * H + 0) * W + 0) with P by (subst P; ring).
  replace (((1 * 2 + 0) * H + 0) * W + 0) with (2 * P) by (subst P; ring).
  destruct (@for_range_invariant (list D * Z * Z * Z)
    (fun n st =>
       let '(t, ob, p0, p1) := st in
       ob = n * P /\ p0 = n * (2 * P) /\ p1 = P + n * (2 * P) /\
       len t = len (data_ top1) /\
       forall m s, 0 <= m < n -> 0 <= s < P ->
         exists a,
           rd orientation (m * P + s) = Ok a /\
           rd t (m * (2 * P) + s) = Ok (m_sin a) /\
           rd t (m * (2 * P) + P + s) = Ok (m_cos a))
    (fun (n : Z) '(t1, obase, top1_0, top1_1) =>
       t1 <- caffe_sin P orientation obase t1 top1_0 ;;
       t1 <- caffe_cos P orientation obase t1 top1_1 ;;
       Ok (t1, obase + P, top1_0 + 2 * P, top1_1 + 2 * P))
    0 N (data_ top1, 0, 0, P)) as ([[[t ob] p0] p1] & Hf & Hinv).
  - exact HN.
  - repeat split; try lia.
  - intros n [[[t ob] p0] p1] Hn (Hob & Hp0 & Hp1 & Hl & Hin). subst ob p0 p1.
    pose proof (mul_succ_le HP (proj2 Hn)) as Hle.
    assert (Hn0 : 0 <= n * P) by nia.
    destruct (@caffe_unary_spec D m_sin P orientation (n * P) t (n * (2 * P)))
      as (ts & Hc & Hls & Hins & Houts); try lia.
    destruct (@caffe_unary_spec D m_cos P orientation (n * P) ts (P + n * (2 * P)))
      as (tc & Hc' & Hlc & Hinc & Houtc); try lia.
    unfold caffe_sin, caffe_cos. rewrite Hc. cbn [bind]. rewrite Hc'. cbn [bind].
    eexists. split; [reflexivity | ].
    split; [ring | split; [ring | split; [ring | split; [lia | ]]]].
    intros m s Hm Hs. destruct (Z.eq_dec m n) as [-> | Hne].
    + destruct (Hins s Hs) as (a & Ha & Hrs).
      destruct (Hinc s Hs) as (a' & Ha' & Hrc).
      assert (a' = a) by congruence. subst a'.
      exists a. split; [exact Ha | split].
      * rewrite Houtc; [exact Hrs | left; lia].
      * replace (n * (2 * P) + P + s) with (P + n * (2 * P) + s) by ring. exact Hrc.
    + assert (Hm' : m * P + P <= n * P) by (apply mul_succ_le; lia).
      destruct (Hin m s) as (a & Ha & Hrs & Hrc); [lia | exact Hs | ].
      exists a. split; [exact Ha | split].
      * rewrite Houtc, Houts; [exact Hrs | left; lia | left; lia].
      * rewrite Houtc, Houts; [exact Hrc | left; lia | left; lia].
  - rewrite Hf. cbn [bind]. destruct Hinv as (_ & _ & _ & Hl & Hin).
    exists t. auto.
Qed.
End SinCosLoops.

(** ** The four-quadrant arctangent *)

Lemma Ratan2_range (y x : R) : (- PI < Ratan2 y x <= PI)%R.
Proof.
  pose proof PI_RGT_0 as Hpi.
  pose proof (atan_bound (y / x)) as Hb.
  unfold Ratan2.
  destruct (Rlt_dec 0 x) as [Hx | Hx]; [lra | ].
  destruct (Rlt_dec x 0) as [Hx' | Hx'].
  - destruct (Rle_dec 0 y) as [Hy | Hy].
    + assert (atan (y / x) <= 0)%R; [ | lra].
      destruct (Req_dec y 0) as [-> | Hy0].
      * unfold Rdiv. rewrite Rmult_0_l, atan_0. lra.
      * rewrite <- atan_0. left. apply atan_increasing.
        unfold Rdiv. apply Rmult_pos_neg; [lra | now apply Rinv_neg].
    + assert (0 < atan (y / x))%R; [ | lra].
      rewrite <- atan_0. apply atan_increasing.
      unfold Rdiv. replace (y * / x)%R with ((- y) * / (- x))%R by (field; lra).
      apply Rlt_mult_inv_pos; lra.
  - destruct (Rlt_dec 0 y); [lra | ].
    destruct (Rlt_dec y 0); lra.
Qed.

Lemma Ratan2_axes :
  (forall x, 0 < x -> Ratan2 0 x = 0)%R /\
  (forall y, 0 < y -> Ratan2 y 0 = PI / 2)%R /\
  (forall x, x < 0 -> Ratan2 0 x = PI)%R /\
  (forall y, y < 0 -> Ratan2 y 0 = - (PI / 2))%R.
Proof.
  unfold Ratan2. repeat split; intros v Hv.
  - destruct (Rlt_dec 0 v); [ | lra]. unfold Rdiv. now rewrite Rmult_0_l, atan_0.
  - destruct (Rlt_dec 0 0); [lra | ]. destruct (Rlt_dec 0 0); [lra | ].
    destruct (Rlt_dec 0 v); [reflexivity | lra].
  - destruct (Rlt_dec 0 v); [lra | ]. destruct (Rlt_dec v 0); [ | lra].
    destruct (Rle_dec 0 0); [ | lra]. unfold Rdiv. rewrite Rmult_0_l, atan_0. lra.
  - destruct (Rlt_dec 0 0); [lra | ]. destruct (Rlt_dec 0 0); [lra | ].
    destruct (Rlt_dec 0 v); [lra | ]. destruct (Rlt_dec v 0); [reflexivity | lra].
Qed.

Lemma spatial_index (H W h w : Z) :
  0 <= h < H -> 0 <= w < W -> 0 <= h * W + w < H * W.
Proof. intros. nia. Qed.

(** ** Forward_cpu: the alpha field *)

Lemma Q_dltb_spec (a b : Q) : dltb a b = true <-> (a < b)%Q.
Proof.
  cbn [dltb Q_ops]. rewrite Qlt_alt. destruct (a ?= b)%Q; split; congruence.
Qed.

Lemma Q_dleb_spec (a b : Q) : dleb a b = true <-> (a <= b)%Q.
Proof. cbn [dleb Q_ops]. apply Qle_bool_iff. Qed.

Lemma Q_dltb_false (a b : Q) : dltb a b = false <-> (b <= a)%Q.
Proof.
  split; intros H.
  - apply Qnot_lt_le. intros Hlt. apply Q_dltb_spec in Hlt. congruence.
  - destruct (dltb a b) eqn:E; [ | reflexivity].
    apply Q_dltb_spec in E. exfalso. exact (Qlt_not_le _ _ E H).
Qed.

Lemma Q_dleb_false (a b : Q) : dleb a b = false <-> (b < a)%Q.
Proof.
  split; intros H.
  - apply Qnot_le_lt. intros Hle. apply Q_dleb_spec in Hle. congruence.
  - destruct (dleb a b) eqn:E; [ | reflexivity].
    apply Q_dleb_spec in E. exfalso. exact (Qlt_not_le _ _ H E).
Qed.

Lemma alpha_cell_on_zero_storage (angle : Q) :
  (-180 <= angle)%Q -> (angle <= 180)%Q ->
  exists a0 a1 a2 a3 : Q,
    alpha_cell angle [0; 0; 0; 0]%Q 0 1 2 3 = Ok [a0; a1; a2; a3] /\
    (a0 + a1 + a2 + a3 == 1)%Q /\
    ((a0 == 0 /\ a1 == 0) \/ (a1 == 0 /\ a2 == 0) \/
     (a2 == 0 /\ a3 == 0) \/ (a3 == 0 /\ a0 == 0))%Q.
Proof.
  intros Hlo Hhi. unfold alpha_cell.
  change (of_int (-180)) with (-180 # 1)%Q. change (of_int (-90)) with (-90 # 1)%Q.
  change (of_int 0) with 0%Q. change (of_int 90) with (90 # 1)%Q.
  change (of_int 180) with (180 # 1)%Q. change (of_int 1) with 1%Q.
  destruct (dleb (-180 # 1)%Q angle) eqn:E1;
    [ | apply Q_dleb_false in E1; exfalso; apply (Qlt_not_le _ _ E1); exact Hlo].
  destruct (dltb angle (-90 # 1)%Q) eqn:E2; cbn [andb].
  { do 4 eexists. split; [reflexivity | ]. cbn [dsub ddiv dadd Q_ops].
    split; [rewrite !Qred_correct; ring | left; split; reflexivity]. }
  apply Q_dltb_false in E2.
  destruct (dleb (-90 # 1)%Q angle) eqn:E3;
    [ | apply Q_dleb_false in E3; exfalso; apply (Qlt_not_le _ _ E3); exact E2].
  destruct (dltb angle 0%Q) eqn:E4; cbn [andb].
  { do 4 eexists. split; [reflexivity | ]. cbn [dsub ddiv dadd Q_ops].
    split; [rewrite !Qred_correct; ring | right; left; split; reflexivity]. }
  apply Q_dltb_false in E4.
  destruct (dleb 0%Q angle) eqn:E5;
    [ | apply Q_dleb_false in E5; exfalso; apply (Qlt_not_le _ _ E5); exact E4].
  destruct (dltb angle (90 # 1)%Q) eqn:E6; cbn [andb].
  { do 4 eexists. split; [reflexivity | ]. cbn [dsub ddiv dadd Q_ops].
    split; [rewrite !Qred_correct; ring | right; right; left; split; reflexivity]. }
  apply Q_dltb_false in E6.
  destruct (dleb (90 # 1)%Q angle) eqn:E7;
    [ | apply Q_dleb_false in E7; exfalso; apply (Qlt_not_le _ _ E7); exact E6].
  destruct (dleb angle (180 # 1)%Q) eqn:E8;
    [ | apply Q_dleb_false in E8; exfalso; apply (Qlt_not_le _ _ E8); exact Hhi].
  cbn [andb].
  do 4 eexists. split; [reflexivity | ]. cbn [dsub ddiv dadd Q_ops].
  split; [rewrite !Qred_correct; ring | right; right; right; split; reflexivity].
Qed.

(** C3.  On zero-filled storage an orientation of pi/4 (45 degrees)
    gives the alpha channels (1/2, 1/2, 0, 0).  The Reshape before the
    next pass shapes the alpha field again and keeps what it holds.  A
    second forward pass on the same layer with orientation -3pi/4
    (-135 degrees) writes channels 2 and 3 only and leaves the values of
    the first pass in channels 0 and 1: the four channels are
    (1/2, 1/2, 1/2, 1/2), their sum is 2 and all four are non-zero. *)
Theorem Forward_alphas_keeps_the_previous_pass :
  let first := [ddiv M_PI (of_int 4)] in
  let second := [ddiv (dmul (of_int (-3)) M_PI) (of_int 4)] in
  let after_first := [(1 # 2)%Q; (1 # 2)%Q; 0%Q; 0%Q] in
  Forward_alphas one_pixel_layer first (Qs [0; 0; 0; 0]) = Ok after_first
  /\ data_ (Blob_Reshape (tensor [1; 4; 1; 1] after_first) [1; 4; 1; 1]) = after_first
  /\ Forward_alphas one_pixel_layer second after_first
     = Ok [(1 # 2)%Q; (1 # 2)%Q; (1 # 2)%Q; (1 # 2)%Q]
  /\ ((1 # 2) + (1 # 2) + (1 # 2) + (1 # 2) == 2)%Q.
Proof.
  repeat split; vm_compute; reflexivity.
Qed.

(** ** Forward_cpu: the convolutions do not read the alpha field *)

Lemma same_outcome_bind (A A' B B' : Type) (R : A -> A' -> Prop) (Q : B -> B' -> Prop)
    (m : outcome A) (m' : outcome A') (k : A -> outcome B) (k' : A' -> outcome B') :
  same_outcome R m m' ->
  (forall a a', R a a' -> same_outcome Q (k a) (k' a')) ->
  same_outcome Q (bind m k) (bind m' k').
Proof.
  destruct m, m'; simpl; intros Hm Hk; auto; contradiction.
Qed.

Lemma same_outcome_refl (A : Type) (o : outcome A) : same_outcome eq o o.
Proof. destruct o; simpl; auto. Qed.

Lemma same_outcome_eq (A : Type) (o o' : outcome A) : same_outcome eq o o' -> o = o'.
Proof. destruct o, o'; simpl; intros H; subst; auto; contradiction. Qed.

Lemma same_outcome_for_nat (S S' : Type) (R : S -> S' -> Prop)
    (b : Z -> S -> outcome S) (b' : Z -> S' -> outcome S') (k : nat) :
  (forall i s s', R s s' -> same_outcome R (b i s) (b' i s')) ->
  forall i s s', R s s' -> same_outcome R (for_nat k i b s) (for_nat k i b' s').
Proof.
  intros Hb. induction k as [| k IH]; intros i s s' Hs; cbn [for_nat].
  - exact Hs.
  - eapply same_outcome_bind; [apply Hb; exact Hs | ]. intros a a' Ha. now apply IH.
Qed.

Lemma len_app (A : Type) (l1 l2 : list A) : len (l1 ++ l2) = len l1 + len l2.
Proof. unfold len. rewrite length_app. lia. Qed.

Lemma same_outcome_store_len (D : Type) (buf buf' vals : list D) (base : Z) :
  len buf = len buf' ->
  same_outcome (fun r r' => len r = len r') (store buf base vals) (store buf' base vals).
Proof.
  intros Hl. unfold store. rewrite <- Hl.
  destruct ((base <? 0) || (len buf <? base + len vals)) eqn:E; simpl; [exact I | ].
  apply orb_false_iff in E. destruct E as [E1 E2].
  apply Z.ltb_ge in E1, E2.
  rewrite !len_app. unfold len in *.
  rewrite !length_firstn, !length_skipn. lia.
Qed.

Lemma len_overwrite (D : Type) (ops : DtypeOps D) (buf vals : list D) :
  len (overwrite buf vals) = len buf.
Proof. unfold overwrite, len. now rewrite length_map, length_seq. Qed.

Section ConvolveFacts.
Context {D : Type} {ops : DtypeOps D} {base : BaseConv D}.

Lemma Forward_convolve_ignores_alphas
    (sketch sketch' : Layer D -> Z -> Z -> list D -> list D -> list D)
    (L : Layer D) (bottom0 : Blob D) (alphas alphas' top_data : list D) :
  Forward_convolve sketch L bottom0 alphas top_data
  = Forward_convolve sketch' L bottom0 alphas' top_data.
Proof.
  apply same_outcome_eq. unfold Forward_convolve.
  eapply same_outcome_bind; [apply same_outcome_refl | intros w0 ? <-].
  eapply same_outcome_bind; [apply same_outcome_refl | intros out_shape ? <-].
  eapply same_outcome_bind with
    (R := fun (s s' : list D * Blob D) =>
            fst s = fst s' /\ len (data_ (snd s)) = len (data_ (snd s'))).
  - unfold for_range. apply same_outcome_for_nat; [ | split; reflexivity].
    intros n [t osb] [t' osb'] [Ht Hosb]. simpl in Ht, Hosb. subst t'.
    eapply same_outcome_bind with
      (R := fun (s s' : Blob D * list (Blob D)) =>
              len (data_ (fst s)) = len (data_ (fst s'))).
    + apply same_outcome_for_nat; [ | exact Hosb].
      intros i [o r] [o' r'] Ho. simpl in Ho.
      eapply same_outcome_bind; [apply same_outcome_refl | intros k ? <-].
      eapply same_outcome_bind; [apply same_outcome_refl | intros input ? <-].
      eapply same_outcome_bind; [apply same_outcome_store_len; exact Ho | ].
      intros temp temp' Htemp. simpl. now rewrite !len_overwrite.
    + intros [o r] [o' r'] Ho. simpl in Ho.
      eapply same_outcome_bind; [apply same_outcome_refl | intros input ? <-].
      eapply same_outcome_bind; [apply same_outcome_refl | intros t1 ? <-].
      eapply same_outcome_bind; [apply same_outcome_refl | intros t2 ? <-].
      simpl. auto.
  - intros [t o] [t' o'] [Ht _]. simpl in *. now subst.
Qed.
End ConvolveFacts.

(** ** Forward_cpu: the primary output *)

(** C1.  (1) The primary output does not depend on the alpha field nor
    on what the sketched lines 521-525 leave in the scratch buffer: the
    values written to top[0] are forward_cpu_gemm of the input with the
    base weights blobs_[0], plus bias.  (2) On the image [1 0; 0 0] the
    four rotated filters respond with 1, 2, 4 and 3; the code writes
    1 + 10 = 11, the response of the base filter plus bias, for every
    alpha field.  (3) For the alpha field (0, 0, 1, 0) the alpha-weighted
    accumulation the spec describes is 4 + 10 = 14. *)
Theorem Forward_convolve_writes_the_plain_convolution :
  (forall (D : Type) (ops : DtypeOps D) (base : BaseConv D)
          (sketch sketch' : Layer D -> Z -> Z -> list D -> list D -> list D)
          (L : Layer D) (bottom0 : Blob D) (alphas alphas' top_data : list D),
      Forward_convolve sketch L bottom0 alphas top_data
      = Forward_convolve sketch' L bottom0 alphas' top_data)
  /\
  (forall (base : BaseConv Q)
          (sketch : Layer Q -> Z -> Z -> list Q -> list Q -> list Q)
          (alphas : list Q),
      Forward_convolve (base := with_dense_conv base) sketch
        (example_layer alphas) (tensor [1; 1; 2; 2] (Qs [1; 0; 0; 0])) alphas (Qs [0])
      = Ok (Qs [11]))
  /\
  blended_forward (example_layer (Qs [0; 0; 1; 0]))
    (tensor [1; 1; 2; 2] (Qs [1; 0; 0; 0])) (Qs [0; 0; 1; 0]) = Qs [14].
Proof.
  split; [intros; apply Forward_convolve_ignores_alphas | ].
  split; [intros; vm_compute; reflexivity | vm_compute; reflexivity].
Qed.

(** ** Backward_cpu *)

Section BackwardFacts.
Context {D : Type} {base : BaseConv D}.

Lemma Backward_cpu_top_keeps_bottoms (L : Layer D) (top : list (Blob D))
    (pd : list bool) (weight : list D) (i : Z) (blobs bottom : list (Blob D)) :
  unless_undefined (fun st => List.length (snd st) = List.length bottom)
    (Backward_cpu_top L top pd weight i (blobs, bottom)).
Proof.
  unfold Backward_cpu_top, vec_at.
  eapply unless_undefined_bind; [apply unless_undefined_rd | intros ti _].
  eapply unless_undefined_bind; [apply unless_undefined_rd | intros bi _].
  eapply unless_undefined_bind with (P := fun _ => True).
  { destruct (bias_term_ L); [apply unless_undefined_rd | exact I]. }
  intros ppd1 _.
  eapply unless_undefined_bind with (P := fun _ => True).
  { destruct (bias_term_ L && ppd1); [ | exact I].
    eapply unless_undefined_bind; [apply unless_undefined_rd | intros ? _].
    unfold for_range. apply unless_undefined_for_nat; [ | exact I].
    intros n bs _. uu. }
  intros blobs' _.
  eapply unless_undefined_bind; [apply unless_undefined_rd | intros ppd0 _].
  eapply unless_undefined_bind with (P := fun _ => True).
  { destruct ppd0; [exact I | apply unless_undefined_rd]. }
  intros pdi _.
  destruct (ppd0 || pdi); [ | reflexivity].
  unfold for_range.
  apply unless_undefined_for_nat with (P := fun st => List.length (snd st) = List.length bottom);
    [ | reflexivity].
  intros n [bs bt] Hlen. simpl in Hlen.
  eapply unless_undefined_bind with (P := fun _ => True).
  { destruct ppd0; uu. }
  intros bs' _.
  eapply unless_undefined_bind; [apply unless_undefined_rd | intros pdn _].
  eapply unless_undefined_bind with (P := fun b => List.length b = List.length bottom).
  { destruct pdn; [ | exact Hlen].
    eapply unless_undefined_bind; [apply unless_undefined_rd | intros ? _].
    eapply unless_undefined_bind; [apply unless_undefined_slice | intros ? _].
    eapply unless_undefined_bind; [apply unless_undefined_store | intros ? _].
    eapply unless_undefined_weaken; [apply unless_undefined_wr | ].
    simpl. intros ? ->. exact Hlen. }
  intros bt' Hbt'. exact Hbt'.
Qed.

Lemma Backward_cpu_three_tops_two_bottoms :
  forall (L : Layer D) (t0 t1 t2 : Blob D) (propagate_down : list bool)
         (b0 b1 : Blob D),
    Backward_cpu L [t0; t1; t2] propagate_down [b0; b1] = Undefined.
Proof.
  intros. unfold Backward_cpu.
  destruct (vec_at (blobs_ L) 0) as [w0 | msg | ] eqn:Hw; simpl; auto.
  { pose proof (unless_undefined_rd (blobs_ L) 0) as H. unfold vec_at in Hw. rewrite Hw in H. 
    assert (Hstep: forall st, List.length (snd st) = 2%nat -> Backward_cpu_top L [t0; t1; t2] propagate_down (data_ w0) 2 st = Undefined).
    { intros [bs bt] Hl. simpl in Hl. unfold Backward_cpu_top.
      destruct bt as [| x [| y [| z bt]]]; try discriminate. reflexivity. }
    unfold for_range.
    change (Z.to_nat (len [t0; t1; t2] - 0)) with 3%nat.
    cbn [for_nat]. change (0 + 1 + 1) with 2. change (0 + 1) with 1.
    pose proof (Backward_cpu_top_keeps_bottoms L [t0;t1;t2] propagate_down (data_ w0) 0 (blobs_ L) [b0;b1]) as H0.
    destruct (Backward_cpu_top L [t0; t1; t2] propagate_down (data_ w0) 0 (blobs_ L, [b0; b1])) as [[bs1 bt1] | |]; cbn [bind unless_undefined snd] in *; try tauto.
    pose proof (Backward_cpu_top_keeps_bottoms L [t0;t1;t2] propagate_down (data_ w0) 1 bs1 bt1) as H1.
    destruct (Backward_cpu_top L [t0; t1; t2] propagate_down (data_ w0) 1 (bs1, bt1)) as [[bs2 bt2] | |]; cbn [bind unless_undefined snd] in *; try tauto.
    rewrite Hstep; [reflexivity | simpl in *; congruence]. }
  { pose proof (unless_undefined_rd (blobs_ L) 0) as H. unfold vec_at in Hw. rewrite Hw in H. contradiction. }
Qed.
End BackwardFacts.

(** C5.  Backward_cpu loops over every top blob and pairs top[i] with
    bottom[i].  The layer has three tops and two bottoms, so the third
    pass indexes bottom[2], which does not exist: no backward invocation
    completes.  Before that, the second pass has treated the sine/cosine
    output and the gradient field as one more convolution pair: with one
    1x1 filter on one pixel, the weight gradient after the passes for
    top[0] and top[1] is the weight-gemm of the primary pair followed by
    the weight-gemm of the gradient-field value [gx] with the side-output
    gradient [ds]. *)
Theorem Backward_cpu_pairs_every_top_with_a_bottom :
  forall (D : Type) (ops : DtypeOps D) (base : BaseConv D),
    (forall (L : Layer D) (t0 t1 t2 : Blob D) (propagate_down : list bool)
            (b0 b1 : Blob D),
        Backward_cpu L [t0; t1; t2] propagate_down [b0; b1] = Undefined)
    /\
    (forall (w x gx gy d0 ds dc dg dh wd : D),
        let weights := {| shape_ := [1; 1; 1; 1]; data_ := [w]; diff_ := [wd] |} in
        let L := Layer_reshaped 1 1 0 1 false 1 1 1 1 1 1 [weights] [] [] [] in
        let t0 := {| shape_ := [1; 1; 1; 1]; data_ := [dzero]; diff_ := [d0] |} in
        let t1 := {| shape_ := [1; 2; 1; 1]; data_ := [dzero; dzero]; diff_ := [ds; dc] |} in
        let t2 := {| shape_ := [1; 2; 1; 1]; data_ := [dzero; dzero]; diff_ := [dg; dh] |} in
        let b0 := tensor [1; 1; 1; 1] [x] in
        let b1 := tensor [1; 2; 1; 1] [gx; gy] in
        for_range 0 2 (Backward_cpu_top L [t0; t1; t2] [false; false] [w])
          ([weights], [b0; b1])
        = Ok ([set_diff weights
                 (weight_cpu_gemm L [gx] [ds] (weight_cpu_gemm L [x] [d0] [wd]))],
              [b0; b1])).
Proof.
  intros D ops base. split.
  - apply Backward_cpu_three_tops_two_bottoms.
  - intros. vm_compute. reflexivity.
Qed.

(** * Auxiliary lemmas for the further properties *)

(** ** Evaluation of accesses; the configuration blocks of LayerSetUp *)

Lemma len_cons (A : Type) (x : A) (l : list A) : len (x :: l) = 1 + len l.
Proof. unfold len. simpl List.length. lia. Qed.

Lemma len_nonneg (A : Type) (l : list A) : 0 <= len l.
Proof. unfold len. lia. Qed.

Lemma rd_0 (A : Type) (x : A) (l : list A) : rd (x :: l) 0 = Ok x.
Proof. reflexivity. Qed.

Lemma rd_1 (A : Type) (x y : A) (l : list A) : rd (x :: y :: l) 1 = Ok y.
Proof. reflexivity. Qed.

Lemma wr_0 (A : Type) (a x : A) (l : list A) : wr (a :: l) 0 x = Ok (x :: l).
Proof. rewrite wr_in_range; [reflexivity | rewrite len_cons; pose proof (len_nonneg l); lia]. Qed.

Lemma wr_1 (A : Type) (a b x : A) (l : list A) : wr (a :: b :: l) 1 x = Ok (a :: x :: l).
Proof. rewrite wr_in_range; [reflexivity | rewrite !len_cons; pose proof (len_nonneg l); lia]. Qed.

Lemma for_range_0_2 (S : Type) (body : Z -> S -> outcome S) (s : S) :
  for_range 0 2 body s = bind (body 0 s) (fun s1 => body 1 s1).
Proof.
  unfold for_range. change (Z.to_nat (2 - 0)) with 2%nat. cbn [for_nat].
  change (0 + 1) with 1. destruct (body 0 s); cbn [bind]; [ | reflexivity ..].
  destruct (body 1 a); reflexivity.
Qed.

Ltac run :=
  repeat first
    [ rewrite for_range_0_2
    | rewrite rd_0 | rewrite rd_1 | rewrite wr_0 | rewrite wr_1
    | progress cbn [bind CHECK] ].

Ltac step :=
  repeat first
    [ rewrite rd_0 | rewrite rd_1 | rewrite wr_0 | rewrite wr_1
    | progress cbn [bind CHECK] ].

(** A two-step loop that copies [src[f i]] to entry [i]. *)
Lemma copy_0_2 (src : list Z) (f : Z -> Z) (a b : Z) :
  for_range 0 2 (fun i k => v <- rd src (f i) ;; wr k i v) [a; b]
  = (v0 <- rd src (f 0) ;; v1 <- rd src (f 1) ;; Ok [v0; v1]).
Proof.
  rewrite for_range_0_2.
  destruct (rd src (f 0)) as [v0 | | ]; cbn [bind]; [ | reflexivity ..].
  rewrite wr_0. cbn [bind].
  destruct (rd src (f 1)) as [v1 | | ]; cbn [bind]; [ | reflexivity ..].
  now rewrite wr_1.
Qed.

Ltac zcases :=
  repeat match goal with
         | |- context [?a =? ?b] => destruct (Z.eqb_spec a b)
         | |- context [?a <? ?b] => destruct (Z.ltb_spec a b)
         | |- context [?a <=? ?b] => destruct (Z.leb_spec a b)
         end.

(** The checks of lines 59-64 on a two-entry kernel shape. *)
Lemma kernel_shape_checks (k1 k2 : Z) (ksd : list Z) :
  (for_range 0 2 (fun i (_ : unit) =>
     v <- rd [k1; k2] i ;;
     CHECK (0 <? v) "Filter dimensions must be nonzero.") tt ;;;
   k0 <- rd [k1; k2] 0 ;;
   k1' <- rd [k1; k2] 1 ;;
   CHECK (k0 =? k1') "The Kernels should be square." ;;;
   Ok [k1; k2]) = Ok ksd
  <-> 0 < k1 /\ k2 = k1 /\ ksd = [k1; k1].
Proof.
  run. zcases; run; zcases; run; subst;
    (split; [intros Hrun; try discriminate; inversion Hrun; auto with zarith
            | intros (? & ? & ?); subst; try lia; try reflexivity; try congruence ]).
Qed.

Lemma SetUp_kernel_shape_spec :
  forall (p : ConvolutionParameter) (ksd : list Z),
    SetUp_kernel_shape p 2 = Ok ksd <->
    exists k, 0 < k /\ ksd = [k; k] /\
      (if has (kernel_h p) || has (kernel_w p)
       then kernel_size p = [] /\ kernel_h p = Some k /\ kernel_w p = Some k
       else kernel_size p = [k] \/ kernel_size p = [k; k]).
Proof.
  intros p ksd. unfold SetUp_kernel_shape.
  change (repeat 0 (Z.to_nat (Z.max 2 2))) with [0; 0].
  destruct (has (kernel_h p) || has (kernel_w p)) eqn:Hhw.
  - change (2 =? 2) with true. cbn [CHECK bind].
    destruct (kernel_size p) as [| k1 ks].
    + change (0 =? len (@nil Z)) with true. step. rewrite kernel_shape_checks.
      split.
      * intros (Hk & Hw & ->). exists (get (kernel_h p)). 
        destruct (kernel_h p), (kernel_w p); cbn [get] in *; try lia; subst; auto.
      * intros (k & Hk & -> & _ & -> & ->). cbn [get]. auto.
    + rewrite len_cons. pose proof (len_nonneg ks) as Hks.
      destruct (Z.eqb_spec 0 (1 + len ks)); [lia | ]. cbn [CHECK bind].
      split; [discriminate | intros (k & _ & _ & Hc & _); discriminate].
  - destruct (kernel_size p) as [| k1 [| k2 [| k3 ks]]].
    + cbn [CHECK bind len List.length Z.of_nat Z.eqb orb].
      split; [discriminate | intros (k & _ & _ & [Hc | Hc]); discriminate].
    + change (len [k1] =? 1) with true. cbn [orb CHECK bind].
      rewrite (copy_0_2 [k1] (fun _ => 0)). step.
      rewrite kernel_shape_checks. split.
      * intros (Hk & _ & ->). eauto.
      * intros (k & Hk & -> & [Hc | Hc]); inversion Hc; subst. auto.
    + change (len [k1; k2] =? 1) with false. change (len [k1; k2] =? 2) with true.
      cbn [orb CHECK bind].
      rewrite (copy_0_2 [k1; k2] (fun i => i)). step.
      rewrite kernel_shape_checks. split.
      * intros (Hk & -> & ->). eauto.
      * intros (k & Hk & -> & [Hc | Hc]); inversion Hc; subst. auto.
    + rewrite !len_cons. pose proof (len_nonneg ks) as Hks.
      destruct (Z.eqb_spec (1 + (1 + (1 + len ks))) 1); [lia | ].
      destruct (Z.eqb_spec (1 + (1 + (1 + len ks))) 2); [lia | ].
      cbn [orb CHECK bind].
      split; [discriminate | intros (k & _ & _ & [Hc | Hc]); discriminate].
Qed.

(** A two-step loop of the stride block (lines 84-88). *)
Lemma stride_0_2 (val : Z -> outcome Z) (a b : Z) :
  for_range 0 2 (fun i s =>
    v <- val i ;;
    s' <- wr s i v ;;
    CHECK (0 <? v) "Stride dimensions must be nonzero." ;;;
    Ok s') [a; b]
  = (v0 <- val 0 ;;
     CHECK (0 <? v0) "Stride dimensions must be nonzero." ;;;
     v1 <- val 1 ;;
     CHECK (0 <? v1) "Stride dimensions must be nonzero." ;;;
     Ok [v0; v1]).
Proof.
  rewrite for_range_0_2.
  destruct (val 0) as [v0 | | ]; cbn [bind]; [ | reflexivity ..].
  rewrite wr_0. cbn [bind]. destruct (0 <? v0); cbn [CHECK bind]; [ | reflexivity].
  destruct (val 1) as [v1 | | ]; cbn [bind]; [ | reflexivity ..].
  rewrite wr_1. cbn [bind]. destruct (0 <? v1); reflexivity.
Qed.

Lemma SetUp_stride_spec (p : ConvolutionParameter) (sd : list Z) :
  SetUp_stride p 2 = Ok sd <->
  exists s1 s2, sd = [s1; s2] /\
    (if has (stride_h p) || has (stride_w p)
     then stride p = [] /\ s1 = get (stride_h p) /\ s2 = get (stride_w p)
     else 0 < s1 /\ 0 < s2 /\
          (stride p = [] /\ s1 = 1 /\ s2 = 1 \/
           stride p = [s1] /\ s2 = s1 \/
           stride p = [s1; s2])).
Proof.
  unfold SetUp_stride.
  change (repeat 0 (Z.to_nat (Z.max 2 2))) with [0; 0].
  destruct (has (stride_h p) || has (stride_w p)) eqn:Hhw.
  - change (2 =? 2) with true. cbn [CHECK bind].
    destruct (stride p) as [| k1 ks].
    + change (0 =? len (@nil Z)) with true. step.
      split.
      * intros Hrun. inversion Hrun. eauto 6.
      * intros (s1 & s2 & -> & _ & -> & ->). reflexivity.
    + rewrite len_cons. pose proof (len_nonneg ks) as Hks.
      destruct (Z.eqb_spec 0 (1 + len ks)); [lia | ]. cbn [CHECK bind].
      split; [discriminate | intros (s1 & s2 & _ & Hc & _); discriminate].
  - destruct (stride p) as [| k1 [| k2 [| k3 ks]]].
    + change (len (@nil Z) =? 0) with true. cbn [orb CHECK bind].
      rewrite (stride_0_2 (fun _ => Ok 1)). step. change (0 <? 1) with true. step.
      split.
      * intros Hrun. inversion Hrun. exists 1, 1. split; [reflexivity | ]. split; [lia | split; [lia | auto]].
      * intros (s1 & s2 & -> & _ & _ & [(_ & -> & ->) | [(Hc & _) | Hc]]);
          try discriminate. reflexivity.
    + change (len [k1] =? 0) with false. change (len [k1] =? 1) with true.
      cbn [orb CHECK bind].
      rewrite (stride_0_2 (fun _ => rd [k1] 0)). step.
      destruct (Z.ltb_spec 0 k1); step.
      * split.
        -- intros Hrun. inversion Hrun. exists k1, k1. split; [reflexivity | ]. auto 6.
        -- intros (s1 & s2 & -> & _ & _ & [(Hc & _) | [(Hc & ->) | Hc]]);
             try discriminate. inversion Hc. reflexivity.
      * split; [discriminate | ].
        intros (s1 & s2 & -> & H1 & _ & [(Hc & _) | [(Hc & ->) | Hc]]);
          try discriminate. inversion Hc. lia.
    + change (len [k1; k2] =? 0) with false. change (len [k1; k2] =? 1) with false.
      change (len [k1; k2] =? 2) with true.
      cbn [orb CHECK bind].
      rewrite (stride_0_2 (fun i => rd [k1; k2] i)). step.
      destruct (Z.ltb_spec 0 k1); step.
      * destruct (Z.ltb_spec 0 k2); step.
        -- split.
           ++ intros Hrun. inversion Hrun. exists k1, k2. split; [reflexivity | ]. auto 6.
           ++ intros (s1 & s2 & -> & _ & _ & [(Hc & _) | [(Hc & _) | Hc]]);
                try discriminate. inversion Hc. reflexivity.
        -- split; [discriminate | ].
           intros (s1 & s2 & -> & _ & H2 & [(Hc & _) | [(Hc & _) | Hc]]);
             try discriminate. inversion Hc. lia.
      * split; [discriminate | ].
        intros (s1 & s2 & -> & H1 & _ & [(Hc & _) | [(Hc & _) | Hc]]);
          try discriminate. inversion Hc. lia.
    + rewrite !len_cons. pose proof (len_nonneg ks) as Hks.
      destruct (Z.eqb_spec (1 + (1 + (1 + len ks))) 0); [lia | ].
      destruct (Z.eqb_spec (1 + (1 + (1 + len ks))) 1); [lia | ].
      destruct (Z.eqb_spec (1 + (1 + (1 + len ks))) 2); [lia | ].
      cbn [orb CHECK bind].
      split; [discriminate | ].
      intros (s1 & s2 & _ & _ & _ & [(Hc & _) | [(Hc & _) | Hc]]); discriminate.
Qed.

(** A two-step loop of the pad block (lines 108-111). *)
Lemma pad_0_2 (val : Z -> outcome Z) (a b : Z) :
  for_range 0 2 (fun i s => v <- val i ;; wr s i v) [a; b]
  = (v0 <- val 0 ;; v1 <- val 1 ;; Ok [v0; v1]).
Proof.
  rewrite for_range_0_2.
  destruct (val 0) as [v0 | | ]; cbn [bind]; [ | reflexivity ..].
  rewrite wr_0. cbn [bind].
  destruct (val 1) as [v1 | | ]; cbn [bind]; [ | reflexivity ..].
  now rewrite wr_1.
Qed.

Lemma SetUp_pad_spec (p : ConvolutionParameter) (pd : list Z) :
  SetUp_pad p 2 = Ok pd <->
  exists p1 p2, pd = [p1; p2] /\
    (if has (pad_h p) || has (pad_w p)
     then pad p = [] /\ p1 = get (pad_h p) /\ p2 = get (pad_w p)
     else pad p = [] /\ p1 = 0 /\ p2 = 0 \/
          pad p = [p1] /\ p2 = p1 \/
          pad p = [p1; p2]).
Proof.
  unfold SetUp_pad.
  change (repeat 0 (Z.to_nat (Z.max 2 2))) with [0; 0].
  destruct (has (pad_h p) || has (pad_w p)) eqn:Hhw.
  - change (2 =? 2) with true. cbn [CHECK bind].
    destruct (pad p) as [| k1 ks].
    + change (0 =? len (@nil Z)) with true. step.
      split.
      * intros Hrun. inversion Hrun. eauto 6.
      * intros (s1 & s2 & -> & _ & -> & ->). reflexivity.
    + rewrite len_cons. pose proof (len_nonneg ks) as Hks.
      destruct (Z.eqb_spec 0 (1 + len ks)); [lia | ]. cbn [CHECK bind].
      split; [discriminate | intros (s1 & s2 & _ & Hc & _); discriminate].
  - destruct (pad p) as [| k1 [| k2 [| k3 ks]]].
    + change (len (@nil Z) =? 0) with true. cbn [orb CHECK bind].
      rewrite (pad_0_2 (fun _ => Ok 0)). step.
      split.
      * intros Hrun. inversion Hrun. exists 0, 0. auto.
      * intros (s1 & s2 & -> & [(_ & -> & ->) | [(Hc & _) | Hc]]);
          try discriminate. reflexivity.
    + change (len [k1] =? 0) with false. change (len [k1] =? 1) with true.
      cbn [orb CHECK bind].
      rewrite (pad_0_2 (fun _ => rd [k1] 0)). step.
      split.
      * intros Hrun. inversion Hrun. exists k1, k1. auto.
      * intros (s1 & s2 & -> & [(Hc & _) | [(Hc & ->) | Hc]]);
          try discriminate. inversion Hc. reflexivity.
    + change (len [k1; k2] =? 0) with false. change (len [k1; k2] =? 1) with false.
      change (len [k1; k2] =? 2) with true.
      cbn [orb CHECK bind].
      rewrite (pad_0_2 (fun i => rd [k1; k2] i)). step.
      split.
      * intros Hrun. inversion Hrun. exists k1, k2. auto.
      * intros (s1 & s2 & -> & [(Hc & _) | [(Hc & _) | Hc]]);
          try discriminate. inversion Hc. reflexivity.
    + rewrite !len_cons. pose proof (len_nonneg ks) as Hks.
      destruct (Z.eqb_spec (1 + (1 + (1 + len ks))) 0); [lia | ].
      destruct (Z.eqb_spec (1 + (1 + (1 + len ks))) 1); [lia | ].
      destruct (Z.eqb_spec (1 + (1 + (1 + len ks))) 2); [lia | ].
      cbn [orb CHECK bind].
      split; [discriminate | ].
      intros (s1 & s2 & _ & [(Hc & _) | [(Hc & _) | Hc]]); discriminate.
Qed.

(** ** The output-shape arithmetic *)

(** [compute_output_shape] on a layer with two spatial axes. *)
Lemma compute_output_shape_2d (D : Type) (L : Layer D) (bottom_shape : list Z)
    (kh kw sh sw pdh pdw h w : Z) :
  num_spatial_axes_ L = 2 ->
  kernel_shape_ L = [kh; kw] -> stride_ L = [sh; sw] -> pad_ L = [pdh; pdw] ->
  vec_at bottom_shape (channel_axis_ L + 1) = Ok h ->
  vec_at bottom_shape (channel_axis_ L + 2) = Ok w ->
  compute_output_shape L bottom_shape
  = if sh =? 0 then Undefined
    else if sw =? 0 then Undefined
    else Ok ([Z.quot (h + 2 * pdh - kh) sh + 1; Z.quot (w + 2 * pdw - kw) sw + 1],
             Z.quot (h + 2 * pdh - kh) sh + 1, Z.quot (w + 2 * pdw - kw) sw + 1).
Proof.
  intros Hn Hk Hs Hp Hh Hw. unfold compute_output_shape, input_shape.
  rewrite Hn, Hk, Hs, Hp, for_range_0_2.
  change (0 + 1) with 1. change (1 + 1) with 2. rewrite Hh. step.
  destruct (sh =? 0); [reflexivity | ]. step. rewrite Hw. step.
  destruct (sw =? 0); [reflexivity | ]. step. reflexivity.
Qed.

Lemma quot_window (a s : Z) :
  0 < s -> 0 <= a -> 0 <= Z.quot a s /\ Z.quot a s * s <= a < (Z.quot a s + 1) * s.
Proof.
  intros Hs Ha. rewrite Z.quot_div_nonneg by lia.
  pose proof (Z.div_pos a s Ha Hs). 
  pose proof (Z.mul_div_le a s Hs). pose proof (Z.mul_succ_div_gt a s Hs). nia.
Qed.

Lemma quot_small_neg (a s : Z) : 0 < s -> - s < a <= 0 -> Z.quot a s = 0.
Proof.
  intros Hs Ha. replace a with (- (- a)) by lia.
  rewrite Z.quot_opp_l by lia. rewrite Z.quot_small by lia. reflexivity.
Qed.

Lemma compute_output_shape_fit :
  forall (D : Type) (L : Layer D) (bottom_shape : list Z)
         (kh kw sh sw pdh pdw h w : Z),
    num_spatial_axes_ L = 2 ->
    kernel_shape_ L = [kh; kw] -> stride_ L = [sh; sw] -> pad_ L = [pdh; pdw] ->
    vec_at bottom_shape (channel_axis_ L + 1) = Ok h ->
    vec_at bottom_shape (channel_axis_ L + 2) = Ok w ->
    0 < sh -> 0 < sw -> kh <= h + 2 * pdh -> kw <= w + 2 * pdw ->
    output_dim_fits h pdh kh sh -> output_dim_fits w pdw kw sw ->
    exists oh ow,
      compute_output_shape L bottom_shape = Ok ([oh; ow], oh, ow) /\
      1 <= oh /\ (oh - 1) * sh + kh <= h + 2 * pdh < oh * sh + kh /\
      1 <= ow /\ (ow - 1) * sw + kw <= w + 2 * pdw < ow * sw + kw /\
      fits_int oh /\ fits_int ow.
Proof.
  intros D L bs kh kw sh sw pdh pdw h w Hn Hk Hs Hp Hh Hw Hsh Hsw Hkh Hkw Fh Fw.
  rewrite (compute_output_shape_2d L bs Hn Hk Hs Hp Hh Hw).
  destruct (Z.eqb_spec sh 0); [lia | ]. destruct (Z.eqb_spec sw 0); [lia | ].
  do 2 eexists. split; [reflexivity | ].
  destruct (@quot_window (h + 2 * pdh - kh) sh) as (H1 & H2 & H3); [lia | lia | ].
  destruct (@quot_window (w + 2 * pdw - kw) sw) as (H4 & H5 & H6); [lia | lia | ].
  split; [lia | ]. split; [lia | ]. split; [lia | ]. split; [lia | ].
  split; [apply Fh | apply Fw].
Qed.

Lemma compute_output_shape_truncates :
  forall (D : Type) (L : Layer D) (bottom_shape : list Z)
         (kh kw sh sw pdh pdw h w : Z),
    num_spatial_axes_ L = 2 ->
    kernel_shape_ L = [kh; kw] -> stride_ L = [sh; sw] -> pad_ L = [pdh; pdw] ->
    vec_at bottom_shape (channel_axis_ L + 1) = Ok h ->
    vec_at bottom_shape (channel_axis_ L + 2) = Ok w ->
    0 < sh -> 0 < sw ->
    kh - sh < h + 2 * pdh < kh -> kw - sw < w + 2 * pdw < kw ->
    compute_output_shape L bottom_shape = Ok ([1; 1], 1, 1).
Proof.
  intros D L bs kh kw sh sw pdh pdw h w Hn Hk Hs Hp Hh Hw Hsh Hsw Hkh Hkw.
  rewrite (compute_output_shape_2d L bs Hn Hk Hs Hp Hh Hw).
  destruct (Z.eqb_spec sh 0); [lia | ]. destruct (Z.eqb_spec sw 0); [lia | ].
  rewrite !quot_small_neg by lia. reflexivity.
Qed.

(** ** What LayerSetUp establishes *)

Lemma list_eqb_eq (a b : list Z) : list_eqb a b = true -> a = b.
Proof.
  revert b. induction a as [| x a IH]; intros [| y b]; simpl; try discriminate; auto.
  intros H. apply andb_true_iff in H. destruct H as [Hx Hr].
  apply Z.eqb_eq in Hx. f_equal; auto.
Qed.

Lemma vec_at_nth_error (A : Type) (v : list A) (i : nat) (x : A) :
  vec_at v (Z.of_nat i) = Ok x -> nth_error v i = Some x.
Proof.
  unfold vec_at. intros H. apply rd_nth_error in H. rewrite Nat2Z.id in H. tauto.
Qed.

Tactic Notation "bind_inv" ident(H) "as" ident(x) ident(Hx) :=
  apply bind_Ok_inv in H; destruct H as (x & Hx & H).

Ltac layer_fields :=
  cbn [layer_param_ kernel_w_ num_rotations_ channel_axis_ num_spatial_axes_
       kernel_shape_ stride_ pad_ channels_ num_output_ group_ conv_out_channels_
       conv_in_channels_ bias_term_ blobs_ intermediate_kernels_
       param_propagate_down_ gauss_kernel_ num_ bottom_shape_ output_shape_
       pooled_height_ pooled_width_ bottom_dim_ top_dim_ orientation_map_
       intermediate_kernel_alphas_].

Section SetUpPost.
Context {D : Type} {ops : DtypeOps D} {libm : Libm D} {base : BaseConv D}.

Lemma SetUp_blobs_shapes (L : Layer D) (ws bs : list Z) (bias : bool) (n : Z)
    (blobs kernels : list (Blob D)) :
  SetUp_blobs L ws bs bias n = Ok (blobs, kernels) ->
  len blobs = (if bias then 2 else 1) /\
  (exists W, nth_error blobs 0 = Some W /\ shape_ W = ws) /\
  (bias = true -> exists B, nth_error blobs 1 = Some B /\ shape_ B = bs) /\
  (0 < len (blobs_ L) -> blobs = blobs_ L).
Proof.
  unfold SetUp_blobs. destruct (0 <? len (blobs_ L)) eqn:Hreload.
  - intros H. bind_inv H as u Hn. apply CHECK_Ok_inv in Hn. apply Z.eqb_eq in Hn.
    bind_inv H as W HW.
    bind_inv H as u1 Hws. destruct (list_eqb ws (shape_ W)) eqn:Ews; [ | discriminate].
    apply list_eqb_eq in Ews.
    bind_inv H as u2 Hbs. inversion H; subst blobs kernels. clear H.
    apply (@vec_at_nth_error _ _ 0%nat) in HW.
    split; [destruct bias; lia | ]. split; [eauto | ]. split; [ | auto].
    intros ->. bind_inv Hbs as B HB.
    destruct (list_eqb bs (shape_ B)) eqn:Ebs; [ | discriminate].
    apply list_eqb_eq in Ebs. apply (@vec_at_nth_error _ _ 1%nat) in HB. eauto.
  - apply Z.ltb_ge in Hreload. intros H. bind_inv H as ks Hks. inversion H; subst. clear H.
    destruct bias; (split; [reflexivity | split; [eexists; split; reflexivity | split ]]);
      try discriminate; try lia.
    intros _. eexists. split; reflexivity.
Qed.

Lemma SetUp_gauss_kernel_shape (L : Layer D) (kh kw : Z) (gk : Blob D) :
  SetUp_gauss_kernel L [kh; kw] = Ok gk -> shape_ gk = [1; 1; kh; kw].
Proof.
  unfold SetUp_gauss_kernel. step. intros H.
  bind_inv H as gs Hgs. destruct gs as [g s]. bind_inv H as g' Hg'. inversion H. reflexivity.
Qed.

Lemma CanonicalAxisIndex_range (b : Blob D) (i ca : Z) :
  CanonicalAxisIndex b i = Ok ca ->
  0 <= ca < num_axes b /\ (ca = i \/ ca = i + num_axes b).
Proof.
  unfold CanonicalAxisIndex. intros H.
  bind_inv H as u1 H1. apply CHECK_Ok_inv in H1. apply Z.leb_le in H1.
  bind_inv H as u2 H2. apply CHECK_Ok_inv in H2. apply Z.ltb_lt in H2.
  inversion H. destruct (Z.ltb_spec i 0); lia.
Qed.

Lemma length_resize_true (v : list bool) (n : Z) :
  0 <= n -> len (resize_true v n) = n.
Proof.
  intros Hn. unfold resize_true, len.
  rewrite length_app, length_firstn, repeat_length. lia.
Qed.

Lemma LayerSetUp_post (L L' : Layer D) (bottom : list (Blob D)) :
  LayerSetUp L bottom = Ok L' ->
  exists b0 k s1 s2 p1 p2 W,
    nth_error bottom 0 = Some b0 /\
    layer_param_ L' = layer_param_ L /\
    num_rotations_ L' = 4 /\
    num_spatial_axes_ L' = 2 /\
    0 <= channel_axis_ L' /\
    num_axes b0 = channel_axis_ L' + 3 /\
    kernel_shape_ L' = [k; k] /\ 0 < k /\
    stride_ L' = [s1; s2] /\
    pad_ L' = [p1; p2] /\
    shape b0 (channel_axis_ L') = Ok (channels_ L') /\
    num_output_ L' = num_output (layer_param_ L) /\
    0 < num_output_ L' /\
    group_ L' = group (layer_param_ L) /\
    group_ L' <> 0 /\
    Z.rem (channels_ L') (group_ L') = 0 /\
    Z.rem (num_output_ L') (group_ L') = 0 /\
    conv_out_channels_ L' = num_output_ L' /\
    conv_in_channels_ L' = channels_ L' /\
    bias_term_ L' = bias_term (layer_param_ L) /\
    len (blobs_ L') = (if bias_term_ L' then 2 else 1) /\
    nth_error (blobs_ L') 0 = Some W /\
    shape_ W = [num_output_ L'; Z.quot (channels_ L') (group_ L'); k; k] /\
    (bias_term_ L' = true ->
     exists B, nth_error (blobs_ L') 1 = Some B /\ shape_ B = [num_output_ L']) /\
    (0 < len (blobs_ L) -> blobs_ L' = blobs_ L) /\
    len (param_propagate_down_ L') = len (blobs_ L') /\
    shape_ (gauss_kernel_ L') = [1; 1; k; k].
Proof.
  unfold LayerSetUp. intros H.
  bind_inv H as b0 Hb0.
  bind_inv H as ca Hca. apply CanonicalAxisIndex_range in Hca. destruct Hca as [Hca _].
  bind_inv H as u1 Hge.
  bind_inv H as u2 H2d. apply CHECK_Ok_inv in H2d. apply Z.eqb_eq in H2d. rewrite H2d in H.
  bind_inv H as ksd Hksd. apply SetUp_kernel_shape_spec in Hksd.
  destruct Hksd as (k & Hk & -> & _).
  bind_inv H as sd Hsd. apply SetUp_stride_spec in Hsd. destruct Hsd as (s1 & s2 & -> & _).
  bind_inv H as pd Hpd. apply SetUp_pad_spec in Hpd. destruct Hpd as (p1 & p2 & -> & _).
  bind_inv H as channels Hch.
  bind_inv H as u3 Hno. apply CHECK_Ok_inv in Hno. apply Z.ltb_lt in Hno.
  bind_inv H as u4 Hg0.
  destruct (Z.eqb_spec (group (layer_param_ L)) 0) as [ | Hg]; [discriminate | ].
  bind_inv H as u5 Hr1. apply CHECK_Ok_inv in Hr1. apply Z.eqb_eq in Hr1.
  bind_inv H as u6 Hr2. apply CHECK_Ok_inv in Hr2. apply Z.eqb_eq in Hr2.
  bind_inv H as ws Hws. rewrite for_range_0_2 in Hws. revert Hws. step. intros Hws.
  inversion Hws; subst ws; clear Hws. cbn [app] in H.
  bind_inv H as bk Hbk. destruct bk as [blobs kernels]. apply SetUp_blobs_shapes in Hbk.
  destruct Hbk as (Hlen & (W & HW & HWs) & Hbias & Hre).
  bind_inv H as gk Hgk. apply SetUp_gauss_kernel_shape in Hgk.
  inversion H; subst L'; clear H. layer_fields.
  exists b0, k, s1, s2, p1, p2, W.
  apply (@vec_at_nth_error _ _ 0%nat) in Hb0.
  repeat (split; [first [assumption | reflexivity | lia] | ]).
  split.
  { intros Hb. destruct (Hbias Hb) as (B & HB & HBs). exists B. split; [exact HB | ].
    rewrite HBs, Hb. reflexivity. }
  split; [assumption | ].
  split; [ | assumption].
  apply length_resize_true. destruct (bias_term (layer_param_ L)); lia.
Qed.
End SetUpPost.

(** ** The blobs Reshape and Forward_cpu need *)

Lemma vec_at_Ok_len (A : Type) (v : list A) (i : Z) (x : A) :
  vec_at v i = Ok x -> 0 <= i < len v.
Proof.
  unfold vec_at. intros H. apply rd_nth_error in H. destruct H as [Hi Hn].
  assert (Z.to_nat i < List.length v)%nat by (apply nth_error_Some; congruence).
  unfold len. lia.
Qed.

Lemma wr_Ok_len (A : Type) (v v' : list A) (i : Z) (x : A) :
  wr v i x = Ok v' -> len v' = len v /\ 0 <= i < len v.
Proof.
  unfold wr. destruct (Z.ltb_spec i 0) as [Hi | Hi]; [discriminate | ].
  destruct (Z.ltb_spec i (Z.of_nat (List.length v))) as [Hj | Hj]; [ | discriminate].
  intros Hw. inversion Hw. rewrite len_upd. unfold len. lia.
Qed.

Section ReshapeArity.
Context {D : Type} {ops : DtypeOps D}.

Lemma Reshape_checks_needs_two_bottoms (L : Layer D) (bottom : list (Blob D)) (n : Z) :
  Reshape_checks L bottom = Ok n -> 2 <= len bottom.
Proof.
  unfold Reshape_checks. intros H.
  bind_inv H as b0 Hb0. bind_inv H as u1 H1. bind_inv H as c0 Hc0.
  bind_inv H as u2 H2. bind_inv H as b1 Hb1.
  apply vec_at_Ok_len in Hb1. lia.
Qed.

Lemma Blob_Reshape_to_Ok (b b' : Blob D) (shp : list Z) :
  Blob_Reshape_to b shp = Ok b' ->
  b' = Blob_Reshape b shp /\ forallb (fun d => 0 <=? d) shp = true.
Proof.
  unfold Blob_Reshape_to, CHECK.
  destruct (forallb (fun d => 0 <=? d) shp); cbn [bind]; intros H;
    [inversion H; split; reflexivity | discriminate].
Qed.

Lemma Blob_Reshape_to_nonneg (b : Blob D) (shp : list Z) :
  forallb (fun d => 0 <=? d) shp = true ->
  Blob_Reshape_to b shp = Ok (Blob_Reshape b shp).
Proof.
  unfold Blob_Reshape_to, CHECK. intros ->. reflexivity.
Qed.

Lemma Reshape_needs_blobs (L : Layer D) (bottom top : list (Blob D))
    (r : Layer D * list (Blob D)) :
  Reshape L bottom top = Ok r -> 2 <= len bottom /\ 3 <= len top.
Proof.
  unfold Reshape. intros H.
  bind_inv H as num Hnum. apply Reshape_checks_needs_two_bottoms in Hnum.
  split; [exact Hnum | ].
  bind_inv H as b0 Hb0. bind_inv H as os Hos. destruct os as [[os ph] pw].
  bind_inv H as ts Hts. bind_inv H as t0 Ht0. bind_inv H as t0' Ht0'.
  bind_inv H as ts' Hts'. bind_inv H as t1 Ht1. bind_inv H as t1' Ht1'.
  bind_inv H as t2 Ht2.
  apply vec_at_Ok_len in Ht2. lia.
Qed.
End ReshapeArity.

(** A 3x3 kernel on one pixel without padding: the output size of line
    405 is (1 - 3) / 1 + 1 = -1, and top[0]->Reshape aborts. *)
Example Reshape_rejects_a_negative_extent :
  Reshape (Layer_reshaped (D := Q) 3 1 0 1 false 0 1 0 0 0 0 [] [] [] [])
    [tensor [1; 1; 1; 1] (Qs [0]); tensor [1; 2; 1; 1] (Qs [0; 0])]
    [Blob_empty; Blob_empty; Blob_empty]
  = Fatal "negative extent".
Proof. vm_compute. reflexivity. Qed.

Section ForwardArity.
Context {D : Type} {ops : DtypeOps D} {libm : Libm D} {base : BaseConv D}.
Variable scale_sketch : Layer D -> Z -> Z -> list D -> list D -> list D.

Lemma Forward_cpu_needs_blobs (L : Layer D) (bottom top : list (Blob D)) :
  len bottom < 2 \/ len top < 3 ->
  Forward_cpu scale_sketch L bottom top = Undefined.
Proof.
  intros Hlen. unfold Forward_cpu, vec_at.
  destruct (rd bottom 1) as [b1 | msg | ] eqn:Hb1; cbn [bind].
  - rewrite rd_past_end; [reflexivity | ].
    apply (@vec_at_Ok_len _ bottom 1 b1) in Hb1. lia.
  - pose proof (unless_undefined_rd bottom 1) as Hu. rewrite Hb1 in Hu. contradiction.
  - reflexivity.
Qed.
End ForwardArity.

(** ** What Reshape establishes *)

Lemma shape_Ok_rd (D : Type) (b : Blob D) (i v : Z) :
  shape b i = Ok v <-> rd (shape_ b) i = Ok v.
Proof.
  unfold shape. destruct (rd (shape_ b) i); split; intros H; try discriminate; auto.
Qed.

Lemma vec_at_cons (A : Type) (v : list A) (x : A) :
  vec_at v 0 = Ok x -> exists t, v = x :: t.
Proof.
  destruct v as [| y t]; [discriminate | ]. intros H. inversion H. eauto.
Qed.

Lemma vec_at_succ (A : Type) (y : A) (t : list A) (i : Z) :
  0 < i -> vec_at (y :: t) i = vec_at t (i - 1).
Proof.
  intros Hi. unfold vec_at, rd.
  destruct (Z.ltb_spec i 0); [lia | ]. destruct (Z.ltb_spec (i - 1) 0); [lia | ].
  replace (Z.to_nat i) with (S (Z.to_nat (i - 1))) by lia. reflexivity.
Qed.

Lemma len_4 (A : Type) (l : list A) :
  len l = 4 -> exists a b c d, l = [a; b; c; d].
Proof.
  destruct l as [| a [| b [| c [| d [| e l]]]]]; unfold len; simpl; intros H; try lia.
  eauto.
Qed.

Section ReshapePost.
Context {D : Type} {ops : DtypeOps D}.

Lemma Reshape_checks_4d (L : Layer D) (bottom : list (Blob D)) (num : Z) :
  channel_axis_ L = 1 -> num_spatial_axes_ L = 2 ->
  Reshape_checks L bottom = Ok num ->
  exists n c h w b0 b1 brest,
    bottom = b0 :: b1 :: brest /\
    shape_ b0 = [n; c; h; w] /\ c = channels_ L /\ num = n /\
    shape b1 0 = Ok n /\ shape b1 1 = Ok 2 /\ shape b1 2 = Ok h /\ shape b1 3 = Ok w.
Proof.
  intros Hca Hnsa. unfold Reshape_checks. rewrite Hca, Hnsa. intros H.
  bind_inv H as b0 Hb0. destruct (vec_at_cons _ Hb0) as (t & ->). clear Hb0.
  bind_inv H as u1 Hax. apply CHECK_Ok_inv in Hax. apply Z.eqb_eq in Hax.
  change (1 + 1 + 2) with 4 in Hax. destruct (len_4 _ Hax) as (n & c & h & w & Hs).
  unfold shape, count_range in H. rewrite Hs in H. revert H. step.
  change (rd [n; c; h; w] 2) with (Ok h). change (rd [n; c; h; w] 3) with (Ok w). step.
  intros H.
  bind_inv H as u2 Hc. apply CHECK_Ok_inv in Hc. apply Z.eqb_eq in Hc.
  bind_inv H as b1 Hb1. rewrite vec_at_succ in Hb1 by lia.
  destruct (vec_at_cons _ Hb1) as (brest & ->). clear Hb1.
  bind_inv H as h1 Hh1. bind_inv H as u3 Hh. apply CHECK_Ok_inv in Hh. apply Z.eqb_eq in Hh.
  bind_inv H as w1 Hw1. bind_inv H as u4 Hw. apply CHECK_Ok_inv in Hw. apply Z.eqb_eq in Hw.
  bind_inv H as n1 Hn1. bind_inv H as u5 Hn. apply CHECK_Ok_inv in Hn. apply Z.eqb_eq in Hn.
  bind_inv H as c1 Hc1. bind_inv H as u6 Hc2. apply CHECK_Ok_inv in Hc2. apply Z.eqb_eq in Hc2.
  inversion H. subst.
  exists n1, (channels_ L), h1, w1, b0, b1, brest.
  repeat split; auto. lia.
Qed.

Lemma Reshape_post (L L' : Layer D) (bottom top top' : list (Blob D))
    (k1 k2 s1 s2 p1 p2 : Z) :
  channel_axis_ L = 1 -> num_spatial_axes_ L = 2 ->
  kernel_shape_ L = [k1; k2] -> stride_ L = [s1; s2] -> pad_ L = [p1; p2] ->
  Reshape L bottom top = Ok (L', top') ->
  exists n c h w b0 b1 brest t0 t1 t2 trest,
    bottom = b0 :: b1 :: brest /\ top = t0 :: t1 :: t2 :: trest /\
    shape_ b0 = [n; c; h; w] /\ c = channels_ L /\
    shape b1 0 = Ok n /\ shape b1 1 = Ok 2 /\ shape b1 2 = Ok h /\ shape b1 3 = Ok w /\
    s1 <> 0 /\ s2 <> 0 /\
    let oh := Z.quot (h + 2 * p1 - k1) s1 + 1 in
    let ow := Z.quot (w + 2 * p2 - k2) s2 + 1 in
    top' = Blob_Reshape t0 [n; num_output_ L; oh; ow]
           :: Blob_Reshape t1 [n; 2; oh; ow]
           :: Blob_Reshape t2 [n; 2; oh; ow] :: trest /\
    num_ L' = n /\
    bottom_shape_ L' = [n; c; h; w] /\
    output_shape_ L' = [oh; ow] /\
    pooled_height_ L' = oh /\ pooled_width_ L' = ow /\
    bottom_dim_ L' = c * h * w /\
    top_dim_ L' = num_output_ L * oh * ow /\
    orientation_map_ L' = Blob_Reshape (orientation_map_ L) [n; 1; oh; ow] /\
    intermediate_kernel_alphas_ L'
    = Blob_Reshape (intermediate_kernel_alphas_ L) [n; 4; oh; ow] /\
    blobs_ L' = blobs_ L /\
    gauss_kernel_ L' = gauss_kernel_ L /\
    kernel_shape_ L' = kernel_shape_ L /\ stride_ L' = stride_ L /\ pad_ L' = pad_ L /\
    channels_ L' = channels_ L /\ num_output_ L' = num_output_ L /\
    bias_term_ L' = bias_term_ L /\
    param_propagate_down_ L' = param_propagate_down_ L.
Proof.
  intros Hca Hnsa Hk Hs Hp. unfold Reshape. intros H.
  bind_inv H as num Hnum.
  destruct (Reshape_checks_4d L bottom Hca Hnsa Hnum)
    as (n & c & h & w & b0 & b1 & brest & -> & Hs0 & Hc & -> & Hn1 & Hc1 & Hh1 & Hw1).
  revert H. step. intros H.
  bind_inv H as os Hos. destruct os as [[os ph] pw].
  rewrite (@compute_output_shape_2d D L (shape_ b0) k1 k2 s1 s2 p1 p2 h w) in Hos;
    try assumption; try (rewrite Hca, Hs0; reflexivity).
  destruct (Z.eqb_spec s1 0) as [ | Hs1]; [discriminate | ].
  destruct (Z.eqb_spec s2 0) as [ | Hs2]; [discriminate | ].
  set (oh := Z.quot (h + 2 * p1 - k1) s1 + 1) in *.
  set (ow := Z.quot (w + 2 * p2 - k2) s2 + 1) in *.
  injection Hos as <- <- <-.
  rewrite Hnsa, Hca, Hs0 in H.
  bind_inv H as ts Hts. rewrite for_range_0_2 in Hts. unfold vec_at in Hts.
  revert Hts. step. intros Hts. inversion Hts; subst ts; clear Hts.
  cbn [firstn Z.to_nat Pos.to_nat Pos.iter_op app] in H.
  change (firstn (Z.to_nat 1) [n; c; h; w]) with [n] in H. cbn [app] in H.
  bind_inv H as t0 Ht0. destruct (vec_at_cons _ Ht0) as (tr0 & ->). clear Ht0.
  bind_inv H as t0' Ht0'. apply Blob_Reshape_to_Ok in Ht0'. destruct Ht0' as [-> _].
  revert H. step. intros H.
  bind_inv H as t1 Ht1. rewrite vec_at_succ in Ht1 by lia.
  destruct (vec_at_cons _ Ht1) as (tr1 & ->). clear Ht1.
  bind_inv H as t1' Ht1'. apply Blob_Reshape_to_Ok in Ht1'. destruct Ht1' as [-> _].
  bind_inv H as t2 Ht2. rewrite !vec_at_succ in Ht2 by lia.
  destruct (vec_at_cons _ Ht2) as (trest & ->). clear Ht2.
  bind_inv H as t2' Ht2'. apply Blob_Reshape_to_Ok in Ht2'. destruct Ht2' as [-> _].
  revert H. step. intros H.
  exists n, c, h, w, b0, b1, brest, t0, t1, t2, trest.
  assert (Hfields :
    forall top2 : list (Blob D),
      wr (Blob_Reshape t0 [n; num_output_ L; oh; ow] :: Blob_Reshape t1 [n; 2; oh; ow]
            :: t2 :: trest) 2 (Blob_Reshape t2 [n; 2; oh; ow]) = Ok top2 ->
      top2 = Blob_Reshape t0 [n; num_output_ L; oh; ow] :: Blob_Reshape t1 [n; 2; oh; ow]
             :: Blob_Reshape t2 [n; 2; oh; ow] :: trest).
  { intros top2 Hw2. rewrite wr_in_range in Hw2.
    - inversion Hw2. reflexivity.
    - rewrite !len_cons. pose proof (len_nonneg trest). lia. }
  bind_inv H as top2 Htop2. apply Hfields in Htop2. subst top2.
  revert H. step. intros H.
  bind_inv H as om Hom. apply Blob_Reshape_to_Ok in Hom. destruct Hom as [-> _].
  revert H. unfold vec_at. step.
  change (rd [n; 1; oh; ow] 2) with (Ok oh). change (rd [n; 1; oh; ow] 3) with (Ok ow). step.
  intros H.
  bind_inv H as al Hal. apply Blob_Reshape_to_Ok in Hal. destruct Hal as [-> _].
  bind_inv H as w0 Hw0. bind_inv H as rk Hrk. bind_inv H as rot Hrot.
  injection H as <- <-. layer_fields. cbv zeta. fold oh ow.
  repeat (split; [first [assumption | reflexivity ] | ]).
  split.
  { unfold count_from. rewrite Hs0. change (skipn (Z.to_nat 1) [n; c; h; w]) with [c; h; w].
    unfold count_of. cbn [fold_right]. ring. }
  split.
  { unfold count_from. cbn [shape_ Blob_Reshape].
    change (skipn (Z.to_nat 1) [n; num_output_ L; oh; ow]) with [num_output_ L; oh; ow].
    unfold count_of. cbn [fold_right]. ring. }
  repeat (split; [first [assumption | reflexivity ] | ]). reflexivity.
Qed.
End ReshapePost.

(** ** Loops whose steps write disjoint regions of one buffer *)

Section RegionLoop.
Variables (S E : Type).
Variable buf : S -> list E.
Variable Aux : Z -> S -> Prop.
Variable touch : Z -> Z -> Prop.
Variable Good : Z -> list E -> Prop.
Variable body : Z -> S -> outcome S.
Variables lo hi : Z.
Variable s0 : S.

Hypothesis touch_disjoint :
  forall i i' j, lo <= i < hi -> lo <= i' < hi -> i <> i' -> touch i j -> ~ touch i' j.
Hypothesis Good_local :
  forall i b b', (forall j, touch i j -> rd b' j = rd b j) -> Good i b -> Good i b'.
Hypothesis body_step :
  forall i s, lo <= i < hi -> Aux i s -> len (buf s) = len (buf s0) ->
    (forall j, touch i j -> rd (buf s) j = rd (buf s0) j) ->
    exists s', body i s = Ok s' /\ Aux (i + 1) s' /\ len (buf s') = len (buf s0) /\
               Good i (buf s') /\
               (forall j, ~ touch i j -> rd (buf s') j = rd (buf s) j).

Lemma region_loop :
  lo <= hi -> Aux lo s0 ->
  exists s', for_range lo hi body s0 = Ok s' /\ Aux hi s' /\
             len (buf s') = len (buf s0) /\
             (forall i, lo <= i < hi -> Good i (buf s')) /\
             (forall j, (forall i, lo <= i < hi -> ~ touch i j) ->
                        rd (buf s') j = rd (buf s0) j).
Proof.
  intros Hle H0.
  destruct (@for_range_invariant S
    (fun i s => lo <= i <= hi /\ Aux i s /\ len (buf s) = len (buf s0) /\
                (forall i', lo <= i' < i -> Good i' (buf s)) /\
                (forall j, (forall i', lo <= i' < i -> ~ touch i' j) ->
                           rd (buf s) j = rd (buf s0) j))
    body lo hi s0 Hle) as (s' & Hf & Hr & Ha & Hl & Hg & Hu).
  - split; [lia | ]. split; [exact H0 | ]. split; [reflexivity | ].
    split; [intros; lia | reflexivity].
  - intros i s Hi (_ & Ha & Hl & Hg & Hu).
    destruct (@body_step i s Hi Ha Hl) as (s' & Hb & Ha' & Hl' & Hg' & Hu').
    { intros j Hj. apply Hu. intros i' Hi'. apply (@touch_disjoint i i' j); auto; lia. }
    exists s'. split; [exact Hb | ]. split; [lia | ]. split; [exact Ha' | ].
    split; [exact Hl' | ]. split.
    + intros i' Hi'. destruct (Z.eq_dec i' i) as [-> | Hne]; [exact Hg' | ].
      apply Good_local with (b := buf s); [ | apply Hg; lia].
      intros j Hj. apply Hu'. apply (@touch_disjoint i' i j); auto; lia.
    + intros j Hj. rewrite Hu'; [ | apply Hj; lia]. apply Hu. intros i' Hi'. apply Hj. lia.
  - exists s'. split; [exact Hf | ]. split; [exact Ha | ]. split; [exact Hl | ].
    split; [intros i Hi; apply Hg; lia | ]. intros j Hj. apply Hu. intros i' Hi'. apply Hj. lia.
Qed.
End RegionLoop.

(** ** Loops that accumulate into one cell *)

Lemma zrange_from_nil (lo hi : Z) : hi <= lo -> zrange_from lo hi = [].
Proof.
  intros H. unfold zrange_from, zrange.
  replace (Z.to_nat (hi - lo)) with 0%nat by lia. reflexivity.
Qed.

Lemma zrange_from_succ (lo i : Z) :
  lo <= i -> zrange_from lo (i + 1) = zrange_from lo i ++ [i].
Proof.
  intros H. unfold zrange_from.
  replace (i + 1 - lo) with (i - lo + 1) by ring.
  rewrite zrange_succ by lia. rewrite map_app. cbn [map]. do 2 f_equal. ring.
Qed.

Section CellLoop.
Variable E : Type.
Variable step : Z -> E -> E.
Variable body : Z -> list E -> outcome (list E).
Variables lo hi idx : Z.
Variable od : list E.
Variable o0 : E.

Hypothesis body_step :
  forall i od1 o, lo <= i < hi -> len od1 = len od -> rd od1 idx = Ok o ->
    exists od2, body i od1 = Ok od2 /\ len od2 = len od1 /\
                rd od2 idx = Ok (step i o) /\
                (forall j, j <> idx -> rd od2 j = rd od1 j).

Lemma cell_loop :
  rd od idx = Ok o0 ->
  exists od', for_range lo hi body od = Ok od' /\ len od' = len od /\
              rd od' idx = Ok (fold_left (fun acc i => step i acc) (zrange_from lo hi) o0) /\
              (forall j, j <> idx -> rd od' j = rd od j).
Proof.
  intros H0. destruct (Z.le_gt_cases lo hi) as [Hle | Hgt].
  - destruct (@for_range_invariant (list E)
      (fun i b => lo <= i <= hi /\ len b = len od /\
                  rd b idx = Ok (fold_left (fun acc i => step i acc) (zrange_from lo i) o0) /\
                  (forall j, j <> idx -> rd b j = rd od j))
      body lo hi od Hle) as (od' & Hf & _ & Hl & Hv & Hu).
    + split; [lia | ]. split; [reflexivity | ]. split; [ | reflexivity].
      rewrite zrange_from_nil by lia. exact H0.
    + intros i b Hi (_ & Hl & Hv & Hu).
      destruct (@body_step i b _ Hi Hl Hv) as (b' & Hb & Hl' & Hv' & Hu').
      exists b'. split; [exact Hb | ]. split; [lia | ]. split; [lia | ]. split.
      * rewrite zrange_from_succ by lia. rewrite fold_left_app. exact Hv'.
      * intros j Hj. rewrite Hu' by exact Hj. now apply Hu.
    + exists od'. auto.
  - exists od. unfold for_range. replace (Z.to_nat (hi - lo)) with 0%nat by lia.
    rewrite zrange_from_nil by lia. cbn [for_nat fold_left]. auto.
Qed.
End CellLoop.

(** ** The loops of GaussConvolveHelper *)

Section CaffeSet.
Context {D : Type}.

Lemma caffe_set_spec (n : Z) (alpha : D) (Y : list D) :
  0 <= n <= len Y ->
  exists Y', caffe_set n alpha Y = Ok Y' /\ len Y' = len Y /\
             (forall i, 0 <= i < n -> rd Y' i = Ok alpha) /\
             (forall j, n <= j -> rd Y' j = rd Y j).
Proof.
  intros Hn.
  destruct (@fill_spec D (fun _ => Ok alpha) n 0 Y) as (Y' & Hf & Hl & Hin & Hout);
    try lia.
  { intros. eauto. }
  exists Y'. split; [exact Hf | ]. split; [exact Hl | ]. split.
  - intros i Hi. destruct (Hin i Hi) as (v & Hv & Hr). inversion Hv. subst v. exact Hr.
  - intros j Hj. apply Hout. lia.
Qed.
End CaffeSet.

Lemma at0_Ok (D : Type) (ops : DtypeOps D) (buf : list D) (i : Z) (x : D) :
  rd buf i = Ok x -> at0 buf i = x.
Proof. unfold at0. now intros ->. Qed.

Section GaussLoops.
Context {D : Type} {ops : DtypeOps D}.
Variables G X : list D.
Variables H W PH PW kh kw sh sw pdh pdw : Z.
Hypothesis kh_nonneg : 0 <= kh.
Hypothesis kw_nonneg : 0 <= kw.
Hypothesis G_len : kh * kw <= len G.
Hypothesis H_nonneg : 0 <= H.
Hypothesis W_nonneg : 0 <= W.
Hypothesis PH_nonneg : 0 <= PH.
Hypothesis PW_nonneg : 0 <= PW.

(** Lines 376-387: one output cell. *)
Lemma gauss_cell_loop (ib ob ph pw : Z) (od : list D) :
  0 <= ib -> ib + H * W <= len X ->
  0 <= ob + (ph * PW + pw) < len od ->
  rd od (ob + (ph * PW + pw)) = Ok dzero ->
  exists od',
    (let hstart := ph * sh - pdh in
     let wstart := pw * sw - pdw in
     let hend := Z.min (hstart + kh) H in
     let wend := Z.min (wstart + kw) W in
     let hstart := Z.max hstart 0 in
     let wstart := Z.max wstart 0 in
     for_range hstart hend (fun h od =>
       for_range wstart wend (fun w od =>
         o <- rd od (ob + (ph * PW + pw)) ;;
         g <- rd G ((h - hstart) * kw + (w - wstart)) ;;
         x <- rd X (ib + (h * W + w)) ;;
         wr od (ob + (ph * PW + pw)) (dadd o (dmul g x))) od) od) = Ok od' /\
    len od' = len od /\
    rd od' (ob + (ph * PW + pw))
    = Ok (gauss_cell G X ib H W kh kw sh sw pdh pdw ph pw) /\
    (forall j, j <> ob + (ph * PW + pw) -> rd od' j = rd od j).
Proof.
  intros Hib HX Hidx H0. cbv zeta. unfold gauss_cell. cbv zeta.
  set (hs := Z.max (ph * sh - pdh) 0).
  set (ws := Z.max (pw * sw - pdw) 0).
  set (he := Z.min (ph * sh - pdh + kh) H).
  set (we := Z.min (pw * sw - pdw + kw) W).
  set (idx := ob + (ph * PW + pw)) in *.
  apply (@cell_loop D
    (fun h acc => fold_left (fun acc w =>
       dadd acc (dmul (at0 G ((h - hs) * kw + (w - ws))) (at0 X (ib + (h * W + w)))))
       (zrange_from ws we) acc)); [ | exact H0].
  intros h od1 o Hh Hl1 Hr1.
  apply (@cell_loop D
    (fun w acc =>
       dadd acc (dmul (at0 G ((h - hs) * kw + (w - ws))) (at0 X (ib + (h * W + w)))))); 
    [ | exact Hr1].
  intros w od2 o' Hw Hl2 Hr2.
  rewrite Hr2. cbn [bind].
  destruct (@rd_in_range D G ((h - hs) * kw + (w - ws))) as (g & Hg).
  { subst hs ws he we. nia. }
  destruct (@rd_in_range D X (ib + (h * W + w))) as (x & Hx).
  { subst hs ws he we. nia. }
  rewrite Hg, Hx. cbn [bind]. rewrite (@at0_Ok D ops _ _ _ Hg), (@at0_Ok D ops _ _ _ Hx).
  rewrite wr_in_range by lia.
  eexists. split; [reflexivity | ]. split; [apply len_upd | ]. split.
  - apply rd_upd_same. lia.
  - intros j Hj. apply rd_upd_other; lia.
Qed.

(** Lines 375-388: one row of output cells. *)
Lemma gauss_row_loop (ib ob ph : Z) (od : list D) :
  0 <= ib -> ib + H * W <= len X ->
  0 <= ob + ph * PW -> ob + (ph + 1) * PW <= len od ->
  (forall pw, 0 <= pw < PW -> rd od (ob + (ph * PW + pw)) = Ok dzero) ->
  exists od',
    for_range 0 PW (fun pw od =>
      let hstart := ph * sh - pdh in
      let wstart := pw * sw - pdw in
      let hend := Z.min (hstart + kh) H in
      let wend := Z.min (wstart + kw) W in
      let hstart := Z.max hstart 0 in
      let wstart := Z.max wstart 0 in
      for_range hstart hend (fun h od =>
        for_range wstart wend (fun w od =>
          o <- rd od (ob + (ph * PW + pw)) ;;
          g <- rd G ((h - hstart) * kw + (w - wstart)) ;;
          x <- rd X (ib + (h * W + w)) ;;
          wr od (ob + (ph * PW + pw)) (dadd o (dmul g x))) od) od) od = Ok od' /\
    len od' = len od /\
    (forall pw, 0 <= pw < PW ->
       rd od' (ob + (ph * PW + pw))
       = Ok (gauss_cell G X ib H W kh kw sh sw pdh pdw ph pw)) /\
    (forall j, j < ob + ph * PW \/ ob + (ph + 1) * PW <= j -> rd od' j = rd od j).
Proof.
  intros Hib HX Hlo Hhi Hzero.
  destruct (@region_loop (list D) D (fun s => s) (fun _ _ => True)
    (fun pw j => j = ob + (ph * PW + pw))
    (fun pw b => rd b (ob + (ph * PW + pw))
                 = Ok (gauss_cell G X ib H W kh kw sh sw pdh pdw ph pw))
    (fun pw od =>
      let hstart := ph * sh - pdh in
      let wstart := pw * sw - pdw in
      let hend := Z.min (hstart + kh) H in
      let wend := Z.min (wstart + kw) W in
      let hstart := Z.max hstart 0 in
      let wstart := Z.max wstart 0 in
      for_range hstart hend (fun h od =>
        for_range wstart wend (fun w od =>
          o <- rd od (ob + (ph * PW + pw)) ;;
          g <- rd G ((h - hstart) * kw + (w - wstart)) ;;
          x <- rd X (ib + (h * W + w)) ;;
          wr od (ob + (ph * PW + pw)) (dadd o (dmul g x))) od) od)
    0 PW od) as (od' & Hf & _ & Hl & Hg & Hu).
  - intros i i' j Hi Hi' Hne -> . lia.
  - intros i b b' Hb Hgood. rewrite Hb by reflexivity. exact Hgood.
  - intros pw s Hpw _ Hl Hs.
    destruct (@gauss_cell_loop ib ob ph pw s) as (s' & Hb & Hl' & Hv & Hfr); try assumption.
    + rewrite Hl. nia.
    + rewrite Hs by reflexivity. now apply Hzero.
    + exists s'. split; [exact Hb | ]. split; [exact I | ]. split; [lia | ].
      split; [exact Hv | exact Hfr].
  - exact PW_nonneg.
  - exact I.
  - exists od'. split; [exact Hf | ]. split; [exact Hl | ]. split; [exact Hg | ].
    intros j Hj. apply Hu. intros i Hi. nia.
Qed.

(** Lines 374-389: one output plane. *)
Lemma gauss_plane_loop (ib ob : Z) (od : list D) :
  0 <= ib -> ib + H * W <= len X ->
  0 <= ob -> ob + PH * PW <= len od ->
  (forall k, 0 <= k < PH * PW -> rd od (ob + k) = Ok dzero) ->
  exists od',
    for_range 0 PH (fun ph od =>
      for_range 0 PW (fun pw od =>
        let hstart := ph * sh - pdh in
        let wstart := pw * sw - pdw in
        let hend := Z.min (hstart + kh) H in
        let wend := Z.min (wstart + kw) W in
        let hstart := Z.max hstart 0 in
        let wstart := Z.max wstart 0 in
        for_range hstart hend (fun h od =>
          for_range wstart wend (fun w od =>
            o <- rd od (ob + (ph * PW + pw)) ;;
            g <- rd G ((h - hstart) * kw + (w - wstart)) ;;
            x <- rd X (ib + (h * W + w)) ;;
            wr od (ob + (ph * PW + pw)) (dadd o (dmul g x))) od) od) od) od = Ok od' /\
    len od' = len od /\
    (forall ph pw, 0 <= ph < PH -> 0 <= pw < PW ->
       rd od' (ob + (ph * PW + pw))
       = Ok (gauss_cell G X ib H W kh kw sh sw pdh pdw ph pw)) /\
    (forall j, j < ob \/ ob + PH * PW <= j -> rd od' j = rd od j).
Proof.
  intros Hib HX Hlo Hhi Hzero.
  destruct (@region_loop (list D) D (fun s => s) (fun _ _ => True)
    (fun ph j => ob + ph * PW <= j < ob + (ph + 1) * PW)
    (fun ph b => forall pw, 0 <= pw < PW ->
                 rd b (ob + (ph * PW + pw))
                 = Ok (gauss_cell G X ib H W kh kw sh sw pdh pdw ph pw))
    (fun ph od =>
      for_range 0 PW (fun pw od =>
        let hstart := ph * sh - pdh in
        let wstart := pw * sw - pdw in
        let hend := Z.min (hstart + kh) H in
        let wend := Z.min (wstart + kw) W in
        let hstart := Z.max hstart 0 in
        let wstart := Z.max wstart 0 in
        for_range hstart hend (fun h od =>
          for_range wstart wend (fun w od =>
            o <- rd od (ob + (ph * PW + pw)) ;;
            g <- rd G ((h - hstart) * kw + (w - wstart)) ;;
            x <- rd X (ib + (h * W + w)) ;;
            wr od (ob + (ph * PW + pw)) (dadd o (dmul g x))) od) od) od)
    0 PH od) as (od' & Hf & _ & Hl & Hg & Hu).
  - intros i i' j Hi Hi' Hne Hj. nia.
  - intros i b b' Hb Hgood pw Hpw. rewrite Hb by nia. now apply Hgood.
  - intros ph s Hph _ Hl Hs.
    destruct (@gauss_row_loop ib ob ph s) as (s' & Hb & Hl' & Hv & Hfr); try assumption.
    + nia.
    + rewrite Hl. nia.
    + intros pw Hpw. rewrite Hs by nia. apply Hzero. nia.
    + exists s'. split; [exact Hb | ]. split; [exact I | ]. split; [lia | ].
      split; [exact Hv | ]. intros j Hj. apply Hfr. lia.
  - exact PH_nonneg.
  - exact I.
  - exists od'. split; [exact Hf | ]. split; [exact Hl | ]. split.
    + intros ph pw Hph Hpw. now apply Hg.
    + intros j Hj. apply Hu. intros i Hi. nia.
Qed.

(** Lines 373-392: the planes [j0], ..., [j0 + C - 1], the pointers
    advancing by one plane after each. *)
Lemma gauss_planes_loop (C j0 : Z) (od : list D) :
  0 <= C -> 0 <= j0 ->
  (j0 + C) * (H * W) <= len X ->
  (j0 + C) * (PH * PW) <= len od ->
  (forall k, j0 * (PH * PW) <= k < (j0 + C) * (PH * PW) -> rd od k = Ok dzero) ->
  exists od',
    for_range 0 C (fun c '(out_data, ibase, obase) =>
      out_data <-
        for_range 0 PH (fun ph od =>
          for_range 0 PW (fun pw od =>
            let hstart := ph * sh - pdh in
            let wstart := pw * sw - pdw in
            let hend := Z.min (hstart + kh) H in
            let wend := Z.min (wstart + kw) W in
            let hstart := Z.max hstart 0 in
            let wstart := Z.max wstart 0 in
            for_range hstart hend (fun h od =>
              for_range wstart wend (fun w od =>
                o <- rd od (obase + (ph * PW + pw)) ;;
                g <- rd G ((h - hstart) * kw + (w - wstart)) ;;
                x <- rd X (ibase + (h * W + w)) ;;
                wr od (obase + (ph * PW + pw)) (dadd o (dmul g x))) od) od) od)
          out_data ;;
      Ok (out_data, ibase + H * W, obase + PH * PW))
      (od, j0 * (H * W), j0 * (PH * PW))
    = Ok (od', (j0 + C) * (H * W), (j0 + C) * (PH * PW)) /\
    len od' = len od /\
    (forall c ph pw, 0 <= c < C -> 0 <= ph < PH -> 0 <= pw < PW ->
       rd od' ((j0 + c) * (PH * PW) + (ph * PW + pw))
       = Ok (gauss_cell G X ((j0 + c) * (H * W)) H W kh kw sh sw pdh pdw ph pw)) /\
    (forall j, j < j0 * (PH * PW) \/ (j0 + C) * (PH * PW) <= j -> rd od' j = rd od j).
Proof.
  intros HC Hj0 HX Hod Hzero.
  assert (HHW : 0 <= H * W) by nia.
  assert (HP : 0 <= PH * PW) by nia.
  destruct (@region_loop (list D * Z * Z) D (fun s => fst (fst s))
    (fun c s => snd (fst s) = (j0 + c) * (H * W) /\ snd s = (j0 + c) * (PH * PW))
    (fun c j => (j0 + c) * (PH * PW) <= j < (j0 + c + 1) * (PH * PW))
    (fun c b => forall ph pw, 0 <= ph < PH -> 0 <= pw < PW ->
                rd b ((j0 + c) * (PH * PW) + (ph * PW + pw))
                = Ok (gauss_cell G X ((j0 + c) * (H * W)) H W kh kw sh sw pdh pdw ph pw))
    (fun c '(out_data, ibase, obase) =>
      out_data <-
        for_range 0 PH (fun ph od =>
          for_range 0 PW (fun pw od =>
            let hstart := ph * sh - pdh in
            let wstart := pw * sw - pdw in
            let hend := Z.min (hstart + kh) H in
            let wend := Z.min (wstart + kw) W in
            let hstart := Z.max hstart 0 in
            let wstart := Z.max wstart 0 in
            for_range hstart hend (fun h od =>
              for_range wstart wend (fun w od =>
                o <- rd od (obase + (ph * PW + pw)) ;;
                g <- rd G ((h - hstart) * kw + (w - wstart)) ;;
                x <- rd X (ibase + (h * W + w)) ;;
                wr od (obase + (ph * PW + pw)) (dadd o (dmul g x))) od) od) od)
          out_data ;;
      Ok (out_data, ibase + H * W, obase + PH * PW))
    0 C (od, j0 * (H * W), j0 * (PH * PW))) as ([[od' ib'] ob'] & Hf & Ha & Hl & Hg & Hu).
  - intros i i' j Hi Hi' Hne Hj. nia.
  - intros i b b' Hb Hgood ph pw Hph Hpw. rewrite Hb by nia. now apply Hgood.
  - intros c [[s ib] ob] Hc [Hib Hob] Hl Hs. cbn [fst snd] in *. subst ib ob.
    destruct (@gauss_plane_loop ((j0 + c) * (H * W)) ((j0 + c) * (PH * PW)) s)
      as (s' & Hb & Hl' & Hv & Hfr).
    + nia.
    + nia.
    + nia.
    + rewrite Hl. nia.
    + intros k Hk. rewrite Hs by nia. apply Hzero. nia.
    + cbv beta iota zeta in Hb |- *. rewrite Hb. cbn [bind]. eexists. split; [reflexivity | ]. cbn [fst snd].
      split; [split; ring | ]. split; [lia | ]. split; [exact Hv | ].
      intros j Hj. apply Hfr. lia.
  - exact HC.
  - cbn [fst snd]. split; ring.
  - cbn [fst snd] in *. destruct Ha as [-> ->].
    exists od'. split; [exact Hf | ]. split; [exact Hl | ]. split.
    + intros c ph pw Hc Hph Hpw. now apply Hg.
    + intros j Hj. apply Hu. intros i Hi. nia.
Qed.
End GaussLoops.

Section GaussBatch.
Context {D : Type} {ops : DtypeOps D}.
Variables G X : list D.
Variables H W PH PW kh kw sh sw pdh pdw : Z.
Hypothesis kh_nonneg : 0 <= kh.
Hypothesis kw_nonneg : 0 <= kw.
Hypothesis G_len : kh * kw <= len G.
Hypothesis H_nonneg : 0 <= H.
Hypothesis W_nonneg : 0 <= W.
Hypothesis PH_nonneg : 0 <= PH.
Hypothesis PW_nonneg : 0 <= PW.

(** Lines 372-393: all images. *)
Lemma gauss_batch_loop (N C : Z) (od : list D) :
  0 <= N -> 0 <= C ->
  N * C * (H * W) <= len X ->
  N * C * (PH * PW) <= len od ->
  (forall k, 0 <= k < N * C * (PH * PW) -> rd od k = Ok dzero) ->
  exists od' ib' ob',
    for_range 0 N (fun n st =>
      for_range 0 C (fun c '(out_data, ibase, obase) =>
        out_data <-
          for_range 0 PH (fun ph od =>
            for_range 0 PW (fun pw od =>
              let hstart := ph * sh - pdh in
              let wstart := pw * sw - pdw in
              let hend := Z.min (hstart + kh) H in
              let wend := Z.min (wstart + kw) W in
              let hstart := Z.max hstart 0 in
              let wstart := Z.max wstart 0 in
              for_range hstart hend (fun h od =>
                for_range wstart wend (fun w od =>
                  o <- rd od (obase + (ph * PW + pw)) ;;
                  g <- rd G ((h - hstart) * kw + (w - wstart)) ;;
                  x <- rd X (ibase + (h * W + w)) ;;
                  wr od (obase + (ph * PW + pw)) (dadd o (dmul g x))) od) od) od)
            out_data ;;
        Ok (out_data, ibase + H * W, obase + PH * PW)) st)
      (od, 0, 0)
    = Ok (od', ib', ob') /\
    len od' = len od /\
    (forall n c ph pw, 0 <= n < N -> 0 <= c < C -> 0 <= ph < PH -> 0 <= pw < PW ->
       rd od' ((n * C + c) * (PH * PW) + (ph * PW + pw))
       = Ok (gauss_cell G X ((n * C + c) * (H * W)) H W kh kw sh sw pdh pdw ph pw)) /\
    (forall j, N * C * (PH * PW) <= j -> rd od' j = rd od j).
Proof.
  intros HN HC HX Hod Hzero.
  assert (HHW : 0 <= H * W) by nia.
  assert (HP : 0 <= PH * PW) by nia.
  destruct (@region_loop (list D * Z * Z) D (fun s => fst (fst s))
    (fun n s => snd (fst s) = n * C * (H * W) /\ snd s = n * C * (PH * PW))
    (fun n j => n * C * (PH * PW) <= j < (n + 1) * C * (PH * PW))
    (fun n b => forall c ph pw, 0 <= c < C -> 0 <= ph < PH -> 0 <= pw < PW ->
                rd b ((n * C + c) * (PH * PW) + (ph * PW + pw))
                = Ok (gauss_cell G X ((n * C + c) * (H * W)) H W kh kw sh sw pdh pdw ph pw))
    (fun n st =>
      for_range 0 C (fun c '(out_data, ibase, obase) =>
        out_data <-
          for_range 0 PH (fun ph od =>
            for_range 0 PW (fun pw od =>
              let hstart := ph * sh - pdh in
              let wstart := pw * sw - pdw in
              let hend := Z.min (hstart + kh) H in
              let wend := Z.min (wstart + kw) W in
              let hstart := Z.max hstart 0 in
              let wstart := Z.max wstart 0 in
              for_range hstart hend (fun h od =>
                for_range wstart wend (fun w od =>
                  o <- rd od (obase + (ph * PW + pw)) ;;
                  g <- rd G ((h - hstart) * kw + (w - wstart)) ;;
                  x <- rd X (ibase + (h * W + w)) ;;
                  wr od (obase + (ph * PW + pw)) (dadd o (dmul g x))) od) od) od)
            out_data ;;
        Ok (out_data, ibase + H * W, obase + PH * PW)) st)
    0 N (od, 0, 0)) as ([[od' ib'] ob'] & Hf & Ha & Hl & Hg & Hu).
  - intros i i' j Hi Hi' Hne Hj. nia.
  - intros i b b' Hb Hgood c ph pw Hc Hph Hpw. rewrite Hb by nia. now apply Hgood.
  - intros n [[s ib] ob] Hn [Hib Hob] Hl Hs. cbn [fst snd] in Hib, Hob, Hl, Hs.
    subst ib ob.
    destruct (@gauss_planes_loop D ops G X H W PH PW kh kw sh sw pdh pdw
                kh_nonneg kw_nonneg G_len H_nonneg W_nonneg PH_nonneg PW_nonneg
                C (n * C) s) as (s' & Hb & Hl' & Hv & Hfr).
    + exact HC.
    + nia.
    + nia.
    + rewrite Hl. nia.
    + intros k Hk. rewrite Hs by nia. apply Hzero. nia.
    + cbv beta. rewrite Hb. eexists. split; [reflexivity | ]. cbn [fst snd].
      split; [split; ring | ]. split; [lia | ]. split; [exact Hv | ].
      intros j Hj. apply Hfr. nia.
  - exact HN.
  - cbn [fst snd]. split; ring.
  - cbn [fst snd] in *.
    exists od', ib', ob'. split; [exact Hf | ]. split; [exact Hl | ]. split.
    + intros n c ph pw Hn Hc Hph Hpw. now apply Hg.
    + intros j Hj. apply Hu. intros i Hi. nia.
Qed.
End GaussBatch.

Section GaussSpec.
Context {D : Type} {ops : DtypeOps D}.

Lemma count_4 (b : Blob D) (N C H W : Z) :
  shape_ b = [N; C; H; W] -> count b = N * C * (H * W).
Proof. intros Hs. unfold count, count_of. rewrite Hs. cbn [fold_right]. ring. Qed.

Lemma GaussConvolveHelper_spec (L : Layer D) (inb out : Blob D)
    (N H W PH PW kh kw sh sw pdh pdw : Z) :
  shape_ inb = [N; channels_ L; H; W] ->
  shape_ out = [N; channels_ L; PH; PW] ->
  stride_ L = [sh; sw] -> pad_ L = [pdh; pdw] -> kernel_shape_ L = [kh; kw] ->
  0 <= N -> 0 <= channels_ L -> 0 <= H -> 0 <= W -> 0 <= PH -> 0 <= PW ->
  0 <= kh -> 0 <= kw ->
  kh * kw <= len (data_ (gauss_kernel_ L)) ->
  count inb <= len (data_ inb) ->
  count out <= len (data_ out) ->
  exists od,
    GaussConvolveHelper L inb out = Ok (set_data out od) /\
    len od = len (data_ out) /\
    (forall n c ph pw,
       0 <= n < N -> 0 <= c < channels_ L -> 0 <= ph < PH -> 0 <= pw < PW ->
       rd od (offset out n c ph pw)
       = Ok (gauss_cell (data_ (gauss_kernel_ L)) (data_ inb) (offset inb n c 0 0)
               H W kh kw sh sw pdh pdw ph pw)) /\
    (forall j, count out <= j -> rd od j = rd (data_ out) j).
Proof.
  intros Hin Hout Hs Hp Hk HN HC HH HW HPH HPW Hkh Hkw HG Hci Hco.
  destruct (shape_of inb Hin) as (Hi0 & _ & Hi2 & Hi3 & _ & Hoffi).
  destruct (shape_of out Hout) as (_ & _ & Ho2 & Ho3 & _ & Hoffo).
  rewrite (count_4 _ Hin) in Hci. rewrite (count_4 _ Hout) in Hco.
  assert (HP : 0 <= PH * PW) by nia.
  assert (HNC : 0 <= N * channels_ L) by nia.
  unfold GaussConvolveHelper.
  rewrite Hi0, Hi2, Hi3, Ho2, Ho3, Hs, Hp, Hk. step.
  rewrite (count_4 _ Hout).
  destruct (@caffe_set_spec D (N * channels_ L * (PH * PW)) dzero (data_ out))
    as (od0 & Hset & Hl0 & Hz0 & Hu0); [nia | ].
  rewrite Hset. cbn [bind].
  rewrite (Hoffi 0 1 0 0), (Hoffo 0 1 0 0).
  replace (((0 * channels_ L + 1) * H + 0) * W + 0) with (H * W) by ring.
  replace (((0 * channels_ L + 1) * PH + 0) * PW + 0) with (PH * PW) by ring.
  destruct (@gauss_batch_loop D ops (data_ (gauss_kernel_ L)) (data_ inb)
              H W PH PW kh kw sh sw pdh pdw Hkh Hkw HG HH HW HPH HPW
              N (channels_ L) od0) as (od' & ib' & ob' & Hf & Hl & Hg & Hu);
    try assumption; try lia.
  cbv beta zeta in Hf |- *. rewrite Hf. cbn [bind].
  exists od'. split; [reflexivity | ]. split; [lia | ]. split.
  - intros n c ph pw Hn Hc Hph Hpw. rewrite Hoffo, Hoffi.
    replace (((n * channels_ L + c) * PH + ph) * PW + pw)
      with ((n * channels_ L + c) * (PH * PW) + (ph * PW + pw)) by ring.
    replace (((n * channels_ L + c) * H + 0) * W + 0)
      with ((n * channels_ L + c) * (H * W)) by ring.
    now apply Hg.
  - intros j Hj. rewrite Hu by lia. apply Hu0. lia.
Qed.
End GaussSpec.

(** ** The loops of the alpha fill *)

Lemma radix_unique (b q1 r1 q2 r2 : Z) :
  0 <= r1 < b -> 0 <= r2 < b -> q1 * b + r1 = q2 * b + r2 -> q1 = q2 /\ r1 = r2.
Proof. intros H1 H2 He. assert (q1 = q2) by nia. subst. lia. Qed.

Lemma cell_index_unique (H W c h w c' h' w' : Z) :
  0 <= h < H -> 0 <= w < W -> 0 <= h' < H -> 0 <= w' < W ->
  (c * H + h) * W + w = (c' * H + h') * W + w' ->
  c = c' /\ h = h' /\ w = w'.
Proof.
  intros Hh Hw Hh' Hw' He.
  destruct (@radix_unique W (c * H + h) w (c' * H + h') w' Hw Hw' He) as [Hq ->].
  destruct (@radix_unique H c h c' h' Hh Hh' Hq) as [-> ->]. auto.
Qed.

Ltac alpha_done Hu :=
  repeat split;
  first [ eassumption | reflexivity
        | rewrite Hu by lia; eassumption
        | intros; apply Hu; lia ].

Section AlphaCell.
Context {D : Type} {ops : DtypeOps D}.

(** Two writes at distinct cells of a buffer. *)
Lemma wr_wr (buf : list D) (i j : Z) (x y : D) :
  0 <= i < len buf -> 0 <= j < len buf -> i <> j ->
  exists buf',
    (a <- wr buf i x ;; wr a j y) = Ok buf' /\ len buf' = len buf /\
    rd buf' i = Ok x /\ rd buf' j = Ok y /\
    (forall k, k <> i -> k <> j -> rd buf' k = rd buf k).
Proof.
  intros Hi Hj Hne. rewrite wr_in_range by lia. cbn [bind].
  rewrite wr_in_range by (rewrite len_upd; lia).
  eexists. split; [reflexivity | ]. split; [now rewrite !len_upd | ]. split.
  - rewrite rd_upd_other by lia. apply rd_upd_same. lia.
  - split; [apply rd_upd_same; rewrite len_upd; lia | ].
    intros k Hki Hkj. rewrite !rd_upd_other by lia. reflexivity.
Qed.

(** [alpha_cell] at four distinct cells of a buffer does to them what it
    does to the four-entry buffer of their values, and touches nothing
    else. *)
Lemma alpha_cell_at (angle : D) (alphas : list D) (r0 r1 r2 r3 : Z) :
  0 <= r0 < len alphas -> 0 <= r1 < len alphas ->
  0 <= r2 < len alphas -> 0 <= r3 < len alphas ->
  r0 <> r1 -> r0 <> r2 -> r0 <> r3 -> r1 <> r2 -> r1 <> r3 -> r2 <> r3 ->
  exists a0 a1 a2 a3 b0 b1 b2 b3 alphas',
    rd alphas r0 = Ok a0 /\ rd alphas r1 = Ok a1 /\
    rd alphas r2 = Ok a2 /\ rd alphas r3 = Ok a3 /\
    alpha_cell angle alphas r0 r1 r2 r3 = Ok alphas' /\
    len alphas' = len alphas /\
    rd alphas' r0 = Ok b0 /\ rd alphas' r1 = Ok b1 /\
    rd alphas' r2 = Ok b2 /\ rd alphas' r3 = Ok b3 /\
    alpha_cell angle [a0; a1; a2; a3] 0 1 2 3 = Ok [b0; b1; b2; b3] /\
    (forall k, k <> r0 -> k <> r1 -> k <> r2 -> k <> r3 -> rd alphas' k = rd alphas k).
Proof.
  intros H0 H1 H2 H3 N01 N02 N03 N12 N13 N23.
  destruct (@rd_in_range D alphas r0 H0) as (a0 & Ha0).
  destruct (@rd_in_range D alphas r1 H1) as (a1 & Ha1).
  destruct (@rd_in_range D alphas r2 H2) as (a2 & Ha2).
  destruct (@rd_in_range D alphas r3 H3) as (a3 & Ha3).
  exists a0, a1, a2, a3. unfold alpha_cell.
  destruct (dleb (of_int (-180)) angle && dltb angle (of_int (-90))).
  { destruct (@wr_wr alphas r2 r3 (dsub (of_int 1) (ddiv (dadd angle (of_int 180)) (of_int 90)))
                (ddiv (dadd angle (of_int 180)) (of_int 90))) as (b & Hb & Hl & Hx & Hy & Hu);
      try assumption.
    do 4 eexists. exists b. rewrite Hb. alpha_done Hu. }
  destruct (dleb (of_int (-90)) angle && dltb angle (of_int 0)).
  { destruct (@wr_wr alphas r3 r0 (dsub (of_int 1) (ddiv (dadd angle (of_int 90)) (of_int 90)))
                (ddiv (dadd angle (of_int 90)) (of_int 90))) as (b & Hb & Hl & Hx & Hy & Hu);
      try assumption; try lia.
    do 4 eexists. exists b. rewrite Hb. alpha_done Hu. }
  destruct (dleb (of_int 0) angle && dltb angle (of_int 90)).
  { destruct (@wr_wr alphas r0 r1 (dsub (of_int 1) (ddiv angle (of_int 90)))
                (ddiv angle (of_int 90))) as (b & Hb & Hl & Hx & Hy & Hu);
      try assumption.
    do 4 eexists. exists b. rewrite Hb. alpha_done Hu. }
  destruct (dleb (of_int 90) angle && dleb angle (of_int 180)).
  { destruct (@wr_wr alphas r1 r2 (dsub (of_int 1) (ddiv (dsub angle (of_int 90)) (of_int 90)))
                (ddiv (dsub angle (of_int 90)) (of_int 90))) as (b & Hb & Hl & Hx & Hy & Hu);
      try assumption.
    do 4 eexists. exists b. rewrite Hb. alpha_done Hu. }
  do 4 eexists. exists alphas.
  repeat (split; [first [eassumption | reflexivity] | ]). auto.
Qed.
End AlphaCell.

Section AlphaLoops.
Context {D : Type} {ops : DtypeOps D}.
Variables orient alphas0 : list D.
Variables H W : Z.
Hypothesis H_nonneg : 0 <= H.
Hypothesis W_nonneg : 0 <= W.

Lemma alpha_good_local (ob ab h w : Z) (b b' : list D) :
  (forall c, 0 <= c < 4 -> rd b' (ab + ((c * H + h) * W + w)) = rd b (ab + ((c * H + h) * W + w))) ->
  alpha_good orient alphas0 H W ob ab h w b -> alpha_good orient alphas0 H W ob ab h w b'.
Proof.
  intros Hb (o & a0 & a1 & a2 & a3 & b0 & b1 & b2 & b3 & Ho & A0 & A1 & A2 & A3
             & B0 & B1 & B2 & B3 & Hc).
  exists o, a0, a1, a2, a3, b0, b1, b2, b3.
  rewrite !Hb by lia. repeat split; assumption.
Qed.

Lemma alphas_row_loop (ob ab h : Z) (od : list D) :
  0 <= h < H -> 0 <= ob -> ob + H * W <= len orient ->
  0 <= ab -> ab + 4 * (H * W) <= len od ->
  (forall c w, 0 <= c < 4 -> 0 <= w < W ->
     rd od (ab + ((c * H + h) * W + w)) = rd alphas0 (ab + ((c * H + h) * W + w))) ->
  exists od',
    for_range 0 W (fun w alphas =>
      o <- rd orient (ob + (h * W + w)) ;;
      alpha_cell (ddiv (dmul (of_lit (180 # 1)) o) M_PI) alphas
        (ab + ((0 * H + h) * W + w)) (ab + ((1 * H + h) * W + w))
        (ab + ((2 * H + h) * W + w)) (ab + ((3 * H + h) * W + w))) od = Ok od' /\
    len od' = len od /\
    (forall w, 0 <= w < W -> alpha_good orient alphas0 H W ob ab h w od') /\
    (forall j, (forall c w, 0 <= c < 4 -> 0 <= w < W -> j <> ab + ((c * H + h) * W + w)) ->
               rd od' j = rd od j).
Proof.
  intros Hh Hob Ho Hab Ha Hsame.
  destruct (@region_loop (list D) D (fun s => s) (fun _ _ => True)
    (fun w j => exists c, 0 <= c < 4 /\ j = ab + ((c * H + h) * W + w))
    (fun w b => alpha_good orient alphas0 H W ob ab h w b)
    (fun w alphas =>
      o <- rd orient (ob + (h * W + w)) ;;
      alpha_cell (ddiv (dmul (of_lit (180 # 1)) o) M_PI) alphas
        (ab + ((0 * H + h) * W + w)) (ab + ((1 * H + h) * W + w))
        (ab + ((2 * H + h) * W + w)) (ab + ((3 * H + h) * W + w)))
    0 W od) as (od' & Hf & _ & Hl & Hg & Hu).
  - intros i i' j Hi Hi' Hne (c & Hc & ->) (c' & Hc' & He).
    assert (E : (c * H + h) * W + i = (c' * H + h) * W + i') by lia.
    apply cell_index_unique with (H := H) in E; lia.
  - intros i b b' Hb. apply alpha_good_local. intros c Hc. apply Hb. eauto.
  - intros w s Hw _ Hl Hs.
    destruct (@rd_in_range D orient (ob + (h * W + w))) as (o & Hro); [nia | ].
    rewrite Hro. cbn [bind].
    destruct (@alpha_cell_at D ops (ddiv (dmul (of_lit (180 # 1)) o) M_PI) s
                (ab + ((0 * H + h) * W + w)) (ab + ((1 * H + h) * W + w))
                (ab + ((2 * H + h) * W + w)) (ab + ((3 * H + h) * W + w)))
      as (a0 & a1 & a2 & a3 & b0 & b1 & b2 & b3 & s' & A0 & A1 & A2 & A3 & Hc & Hl'
          & B0 & B1 & B2 & B3 & Hsmall & Hfr); try (rewrite Hl; nia); try nia.
    exists s'. split; [exact Hc | ]. split; [exact I | ]. split; [lia | ]. split.
    + exists o, a0, a1, a2, a3, b0, b1, b2, b3.
      rewrite <- !Hsame by lia.
      rewrite <- (Hs (ab + ((0 * H + h) * W + w))) by (exists 0; split; [lia | reflexivity]).
      rewrite <- (Hs (ab + ((1 * H + h) * W + w))) by (exists 1; split; [lia | reflexivity]).
      rewrite <- (Hs (ab + ((2 * H + h) * W + w))) by (exists 2; split; [lia | reflexivity]).
      rewrite <- (Hs (ab + ((3 * H + h) * W + w))) by (exists 3; split; [lia | reflexivity]).
      repeat split; assumption.
    + intros j Hj. apply Hfr; intros ->; apply Hj; eexists; (split; [ | reflexivity]); lia.
  - exact W_nonneg.
  - exact I.
  - exists od'. split; [exact Hf | ]. split; [exact Hl | ]. split; [exact Hg | ].
    intros j Hj. apply Hu. intros i Hi (c & Hc & ->). now apply (Hj c i).
Qed.

Lemma alphas_plane_loop (ob ab : Z) (od : list D) :
  0 <= ob -> ob + H * W <= len orient ->
  0 <= ab -> ab + 4 * (H * W) <= len od ->
  (forall k, ab <= k < ab + 4 * (H * W) -> rd od k = rd alphas0 k) ->
  exists od',
    for_range 0 H (fun h alphas =>
      for_range 0 W (fun w alphas =>
        o <- rd orient (ob + (h * W + w)) ;;
        alpha_cell (ddiv (dmul (of_lit (180 # 1)) o) M_PI) alphas
          (ab + ((0 * H + h) * W + w)) (ab + ((1 * H + h) * W + w))
          (ab + ((2 * H + h) * W + w)) (ab + ((3 * H + h) * W + w))) alphas) od
    = Ok od' /\
    len od' = len od /\
    (forall h w, 0 <= h < H -> 0 <= w < W -> alpha_good orient alphas0 H W ob ab h w od') /\
    (forall j, j < ab \/ ab + 4 * (H * W) <= j -> rd od' j = rd od j).
Proof.
  intros Hob Ho Hab Ha Hsame.
  destruct (@region_loop (list D) D (fun s => s) (fun _ _ => True)
    (fun h j => exists c w, 0 <= c < 4 /\ 0 <= w < W /\ j = ab + ((c * H + h) * W + w))
    (fun h b => forall w, 0 <= w < W -> alpha_good orient alphas0 H W ob ab h w b)
    (fun h alphas =>
      for_range 0 W (fun w alphas =>
        o <- rd orient (ob + (h * W + w)) ;;
        alpha_cell (ddiv (dmul (of_lit (180 # 1)) o) M_PI) alphas
          (ab + ((0 * H + h) * W + w)) (ab + ((1 * H + h) * W + w))
          (ab + ((2 * H + h) * W + w)) (ab + ((3 * H + h) * W + w))) alphas)
    0 H od) as (od' & Hf & _ & Hl & Hg & Hu).
  - intros i i' j Hi Hi' Hne (c & w & Hc & Hw & ->) (c' & w' & Hc' & Hw' & He).
    assert (E : (c * H + i) * W + w = (c' * H + i') * W + w') by lia.
    apply cell_index_unique with (H := H) in E; lia.
  - intros i b b' Hb Hgood w Hw. apply alpha_good_local with (b := b); [ | now apply Hgood].
    intros c Hc. apply Hb. eauto.
  - intros h s Hh _ Hl Hs.
    destruct (@alphas_row_loop ob ab h s) as (s' & Hb & Hl' & Hv & Hfr); try assumption.
    + lia.
    + intros c w Hc Hw. rewrite Hs by eauto. apply Hsame. nia.
    + exists s'. split; [exact Hb | ]. split; [exact I | ]. split; [lia | ].
      split; [exact Hv | ]. intros j Hj. apply Hfr. intros c w Hc Hw ->. apply Hj. eauto.
  - exact H_nonneg.
  - exact I.
  - exists od'. split; [exact Hf | ]. split; [exact Hl | ]. split.
    + intros h w Hh Hw. now apply Hg.
    + intros j Hj. apply Hu. intros i Hi (c & w & Hc & Hw & ->). nia.
Qed.

Lemma alphas_batch_loop (N : Z) :
  0 <= N -> N * (H * W) <= len orient -> N * (4 * (H * W)) <= len alphas0 ->
  exists od' ob' ab',
    for_range 0 N (fun n '(alphas, obase, abase) =>
      alphas <-
        for_range 0 H (fun h alphas =>
          for_range 0 W (fun w alphas =>
            o <- rd orient (obase + (h * W + w)) ;;
            alpha_cell (ddiv (dmul (of_lit (180 # 1)) o) M_PI) alphas
              (abase + ((0 * H + h) * W + w)) (abase + ((1 * H + h) * W + w))
              (abase + ((2 * H + h) * W + w)) (abase + ((3 * H + h) * W + w)))
            alphas) alphas ;;
      Ok (alphas, obase + H * W, abase + 4 * (H * W)))
      (alphas0, 0, 0)
    = Ok (od', ob', ab') /\
    len od' = len alphas0 /\
    (forall n h w, 0 <= n < N -> 0 <= h < H -> 0 <= w < W ->
       alpha_good orient alphas0 H W (n * (H * W)) (n * (4 * (H * W))) h w od') /\
    (forall j, N * (4 * (H * W)) <= j -> rd od' j = rd alphas0 j).
Proof.
  intros HN Ho Ha.
  assert (HHW : 0 <= H * W) by nia.
  destruct (@region_loop (list D * Z * Z) D (fun s => fst (fst s))
    (fun n s => snd (fst s) = n * (H * W) /\ snd s = n * (4 * (H * W)))
    (fun n j => n * (4 * (H * W)) <= j < (n + 1) * (4 * (H * W)))
    (fun n b => forall h w, 0 <= h < H -> 0 <= w < W ->
                alpha_good orient alphas0 H W (n * (H * W)) (n * (4 * (H * W))) h w b)
    (fun n '(alphas, obase, abase) =>
      alphas <-
        for_range 0 H (fun h alphas =>
          for_range 0 W (fun w alphas =>
            o <- rd orient (obase + (h * W + w)) ;;
            alpha_cell (ddiv (dmul (of_lit (180 # 1)) o) M_PI) alphas
              (abase + ((0 * H + h) * W + w)) (abase + ((1 * H + h) * W + w))
              (abase + ((2 * H + h) * W + w)) (abase + ((3 * H + h) * W + w)))
            alphas) alphas ;;
      Ok (alphas, obase + H * W, abase + 4 * (H * W)))
    0 N (alphas0, 0, 0)) as ([[od' ob'] ab'] & Hf & _ & Hl & Hg & Hu).
  - intros i i' j Hi Hi' Hne Hj. nia.
  - intros i b b' Hb Hgood h w Hh Hw.
    apply alpha_good_local with (b := b); [ | now apply Hgood].
    intros c Hc. apply Hb. nia.
  - intros n [[s ob] ab] Hn [Hob Hab] Hl Hs. cbn [fst snd] in Hob, Hab, Hl, Hs. subst ob ab.
    destruct (@alphas_plane_loop (n * (H * W)) (n * (4 * (H * W))) s)
      as (s' & Hb & Hl' & Hv & Hfr).
    + nia.
    + nia.
    + nia.
    + rewrite Hl. nia.
    + intros k Hk. apply Hs. nia.
    + cbv beta iota. rewrite Hb. cbn [bind]. eexists. split; [reflexivity | ]. cbn [fst snd].
      split; [split; ring | ]. split; [lia | ]. split; [exact Hv | ].
      intros j Hj. apply Hfr. nia.
  - exact HN.
  - cbn [fst snd]. split; ring.
  - cbn [fst snd] in *.
    exists od', ob', ab'. split; [exact Hf | ]. split; [exact Hl | ]. split.
    + intros n h w Hn Hh Hw. now apply Hg.
    + intros j Hj. apply Hu. intros i Hi. nia.
Qed.
End AlphaLoops.

Section AlphaSpec.
Context {D : Type} {ops : DtypeOps D}.

Lemma Forward_alphas_spec (L : Layer D) (orient alphas : list D) (N H W : Z) :
  shape_ (orientation_map_ L) = [N; 1; H; W] ->
  shape_ (intermediate_kernel_alphas_ L) = [N; 4; H; W] ->
  0 <= N -> 0 <= H -> 0 <= W ->
  N * (H * W) <= len orient ->
  N * (4 * (H * W)) <= len alphas ->
  exists alphas',
    Forward_alphas L orient alphas = Ok alphas' /\
    len alphas' = len alphas /\
    (forall n h w, 0 <= n < N -> 0 <= h < H -> 0 <= w < W ->
       exists o a0 a1 a2 a3 b0 b1 b2 b3,
         rd orient (offset (orientation_map_ L) n 0 h w) = Ok o /\
         rd alphas (offset (intermediate_kernel_alphas_ L) n 0 h w) = Ok a0 /\
         rd alphas (offset (intermediate_kernel_alphas_ L) n 1 h w) = Ok a1 /\
         rd alphas (offset (intermediate_kernel_alphas_ L) n 2 h w) = Ok a2 /\
         rd alphas (offset (intermediate_kernel_alphas_ L) n 3 h w) = Ok a3 /\
         rd alphas' (offset (intermediate_kernel_alphas_ L) n 0 h w) = Ok b0 /\
         rd alphas' (offset (intermediate_kernel_alphas_ L) n 1 h w) = Ok b1 /\
         rd alphas' (offset (intermediate_kernel_alphas_ L) n 2 h w) = Ok b2 /\
         rd alphas' (offset (intermediate_kernel_alphas_ L) n 3 h w) = Ok b3 /\
         alpha_cell (ddiv (dmul (of_lit (180 # 1)) o) M_PI) [a0; a1; a2; a3] 0 1 2 3
         = Ok [b0; b1; b2; b3]) /\
    (forall j, N * (4 * (H * W)) <= j -> rd alphas' j = rd alphas j).
Proof.
  intros Hom Hal HN HH HW Ho Ha.
  destruct (shape_of (orientation_map_ L) Hom) as (Hs0 & _ & Hs2 & Hs3 & _ & Hoffo).
  destruct (shape_of (intermediate_kernel_alphas_ L) Hal) as (_ & _ & _ & _ & _ & Hoffa).
  unfold Forward_alphas. rewrite Hs0, Hs2, Hs3. cbn [bind].
  rewrite (Hoffo 1 0 0 0), (Hoffa 1 0 0 0).
  replace (((1 * 1 + 0) * H + 0) * W + 0) with (H * W) by ring.
  replace (((1 * 4 + 0) * H + 0) * W + 0) with (4 * (H * W)) by ring.
  destruct (@alphas_batch_loop D ops orient alphas H W HH HW N HN Ho Ha)
    as (od' & ob' & ab' & Hf & Hl & Hg & Hu).
  cbv beta zeta in Hf |- *. rewrite Hf. cbn [bind].
  exists od'. split; [reflexivity | ]. split; [exact Hl | ]. split; [ | exact Hu].
  intros n h w Hn Hh Hw.
  destruct (Hg n h w Hn Hh Hw)
    as (o & a0 & a1 & a2 & a3 & b0 & b1 & b2 & b3 & Hro & A0 & A1 & A2 & A3
        & B0 & B1 & B2 & B3 & Hc).
  exists o, a0, a1, a2, a3, b0, b1, b2, b3. rewrite !Hoffo, !Hoffa.
  replace (((n * 1 + 0) * H + h) * W + w) with (n * (H * W) + (h * W + w)) by ring.
  replace (((n * 4 + 0) * H + h) * W + w) with (n * (4 * (H * W)) + ((0 * H + h) * W + w)) by ring.
  replace (((n * 4 + 1) * H + h) * W + w) with (n * (4 * (H * W)) + ((1 * H + h) * W + w)) by ring.
  replace (((n * 4 + 2) * H + h) * W + w) with (n * (4 * (H * W)) + ((2 * H + h) * W + w)) by ring.
  replace (((n * 4 + 3) * H + h) * W + w) with (n * (4 * (H * W)) + ((3 * H + h) * W + w)) by ring.
  repeat split; assumption.
Qed.
End AlphaSpec.

(** ** What Backward_cpu leaves alone *)

Lemma for_nat_preserves (S : Type) (P : S -> Prop) (body : Z -> S -> outcome S) (k : nat) :
  (forall i s s', P s -> body i s = Ok s' -> P s') ->
  forall i s s', P s -> for_nat k i body s = Ok s' -> P s'.
Proof.
  intros Hb. induction k as [| k IH]; intros i s s' Hs Hf; cbn [for_nat] in Hf.
  - inversion Hf. now subst.
  - apply bind_Ok_inv in Hf. destruct Hf as (s1 & H1 & Hf). eauto.
Qed.

Lemma for_nat_each (S : Type) (P : S -> Prop) (body : Z -> S -> outcome S) (k : nat) :
  (forall i s s', P s -> body i s = Ok s' -> P s') ->
  forall i s s', P s -> for_nat k i body s = Ok s' ->
  forall j, i <= j < i + Z.of_nat k -> exists s1 s2, P s1 /\ body j s1 = Ok s2.
Proof.
  intros Hb. induction k as [| k IH]; intros i s s' Hs Hf j Hj; cbn [for_nat] in Hf.
  - lia.
  - apply bind_Ok_inv in Hf. destruct Hf as (s1 & H1 & Hf).
    destruct (Z.eq_dec j i) as [-> | Hne]; [eauto | ].
    apply (IH (i + 1) s1 s'); eauto. lia.
Qed.

Lemma map_upd_same (A B : Type) (f : A -> B) (l : list A) (n : nat) (x b : A) :
  nth_error l n = Some b -> f x = f b -> map f (upd l n x) = map f l.
Proof.
  revert n. induction l as [| a l IH]; intros [| n] Hn Hf; cbn in *; try discriminate.
  - inversion Hn. subst. now rewrite Hf.
  - f_equal. now apply IH.
Qed.

Lemma wr_map_same (A B : Type) (f : A -> B) (l l' : list A) (i : Z) (x b : A) :
  vec_at l i = Ok b -> wr l i x = Ok l' -> f x = f b -> map f l' = map f l.
Proof.
  intros Hb Hw Hf. unfold vec_at in Hb. apply rd_nth_error in Hb. destruct Hb as [Hi Hn].
  unfold wr in Hw. destruct (i <? 0); [discriminate | ].
  destruct (i <? Z.of_nat (List.length l)); [ | discriminate].
  inversion Hw. eapply map_upd_same; eauto.
Qed.

Section BackwardFrame.
Context {D : Type} {base : BaseConv D}.

Lemma same_values_wr (bs bs' : list (Blob D)) (i : Z) (b : Blob D) (d : list D) :
  vec_at bs i = Ok b -> wr bs i (set_diff b d) = Ok bs' -> same_values bs bs'.
Proof.
  intros Hb Hw. split; eapply wr_map_same; eauto.
Qed.

Lemma same_values_trans (a b c : list (Blob D)) :
  same_values a b -> same_values b c -> same_values a c.
Proof. intros [H1 H2] [H3 H4]. split; congruence. Qed.

Lemma Backward_cpu_top_frame (L : Layer D) (top : list (Blob D)) (pd : list bool)
    (weight : list D) (i : Z) (blobs bottom blobs' bottom' : list (Blob D)) :
  Backward_cpu_top L top pd weight i (blobs, bottom) = Ok (blobs', bottom') ->
  same_values blobs blobs' /\ same_values bottom bottom'.
Proof.
  unfold Backward_cpu_top. intros H.
  bind_inv H as ti Hti. bind_inv H as bi Hbi. bind_inv H as ppd1 Hppd1.
  bind_inv H as blobs1 Hb1.
  assert (S1 : same_values blobs blobs1).
  { destruct (bias_term_ L && ppd1).
    - bind_inv Hb1 as u Hu. unfold for_range in Hb1.
      eapply (@for_nat_preserves _ (fun bs => same_values blobs bs)); [ | | exact Hb1].
      + intros n s s' Hs Hstep. bind_inv Hstep as b Hb. bind_inv Hstep as td Htd.
        eapply same_values_trans; [exact Hs | eapply same_values_wr; eauto].
      + split; reflexivity.
    - inversion Hb1. split; reflexivity. }
  bind_inv H as ppd0 Hppd0. bind_inv H as pdi Hpdi.
  destruct (ppd0 || pdi).
  - unfold for_range in H.
    assert (Hinv : same_values blobs1 blobs' /\ same_values bottom bottom').
    { refine (@for_nat_preserves _
        (fun st : list (Blob D) * list (Blob D) =>
           same_values blobs1 (fst st) /\ same_values bottom (snd st))
        _ _ _ _ _ (blobs', bottom') _ H).
      - intros n [bs bt] [bs' bt'] [Hs Ht] Hstep. cbn [fst snd] in *.
        bind_inv Hstep as bs2 Hbs2. bind_inv Hstep as pdn Hpdn.
        bind_inv Hstep as bt2 Hbt2. inversion Hstep; subst bs' bt'. split.
        + destruct ppd0.
          * bind_inv Hbs2 as w Hw. bind_inv Hbs2 as inp Hinp. bind_inv Hbs2 as td Htd.
            eapply same_values_trans; [exact Hs | eapply same_values_wr; eauto].
          * inversion Hbs2. now subst.
        + destruct pdn.
          * bind_inv Hbt2 as b Hb. bind_inv Hbt2 as td Htd. bind_inv Hbt2 as d Hd.
            eapply same_values_trans; [exact Ht | eapply same_values_wr; eauto].
          * inversion Hbt2. now subst.
      - cbn [fst snd]. split; split; reflexivity. }
    destruct Hinv as [Hs Ht]. split; [eapply same_values_trans; eauto | exact Ht].
  - inversion H; subst. split; [exact S1 | split; reflexivity].
Qed.

Lemma Backward_cpu_frame (L L' : Layer D) (top : list (Blob D)) (pd : list bool)
    (bottom bottom' : list (Blob D)) :
  Backward_cpu L top pd bottom = Ok (L', bottom') ->
  L' = set_blobs L (blobs_ L') /\
  map (@shape_ D) (blobs_ L') = map (@shape_ D) (blobs_ L) /\
  map (@data_ D) (blobs_ L') = map (@data_ D) (blobs_ L) /\
  map (@shape_ D) bottom' = map (@shape_ D) bottom /\
  map (@data_ D) bottom' = map (@data_ D) bottom /\
  len top <= len bottom.
Proof.
  unfold Backward_cpu. intros H.
  bind_inv H as w0 Hw0. bind_inv H as st Hst. destruct st as [blobs bt].
  inversion H; subst L' bottom'. clear H. cbn [blobs_ set_blobs].
  split; [reflexivity | ].
  assert (Hinv : (same_values (blobs_ L) blobs /\ same_values bottom bt)).
  { unfold for_range in Hst.
    refine (@for_nat_preserves _
      (fun st : list (Blob D) * list (Blob D) =>
         same_values (blobs_ L) (fst st) /\ same_values bottom (snd st))
      _ _ _ _ _ (blobs, bt) _ Hst).
    - intros i [bs b] [bs' b'] [Hs Hb] Hstep. cbn [fst snd] in *.
      apply Backward_cpu_top_frame in Hstep. destruct Hstep as [Hs' Hb'].
      split; eapply same_values_trans; eauto.
    - cbn [fst snd]. split; split; reflexivity. }
  destruct Hinv as [[H1 H2] [H3 H4]].
  repeat (split; [assumption | ]).
  destruct (Z.le_gt_cases (len top) 0) as [Hle | Hgt]; [pose proof (len_nonneg bottom); lia | ].
  unfold for_range in Hst.
  assert (Hpres : forall (i : Z) (s s' : list (Blob D) * list (Blob D)),
            same_values bottom (snd s) ->
            Backward_cpu_top L top pd (data_ w0) i s = Ok s' ->
            same_values bottom (snd s')).
  { intros i [bs b] [bs' b'] Hs Hstep. cbn [snd] in *.
    apply Backward_cpu_top_frame in Hstep. destruct Hstep as [_ Hb'].
    eapply same_values_trans; eauto. }
  assert (Hinit : same_values bottom (snd (blobs_ L, bottom))) by (split; reflexivity).
  destruct (@for_nat_each _ _ _ _ Hpres _ _ _ Hinit Hst (len top - 1))
    as ([bs1 bt1] & [bs2 bt2] & [Hm _] & Hrun); [lia | ].
  unfold Backward_cpu_top in Hrun. bind_inv Hrun as ti Hti. bind_inv Hrun as bi Hbi.
  apply vec_at_Ok_len in Hbi. cbn [snd] in Hm.
  assert (len bt1 = len bottom).
  { unfold len. rewrite <- (length_map (@shape_ D) bt1), Hm, length_map. reflexivity. }
  lia.
Qed.
End BackwardFrame.

(** ** The alpha weights over the reals *)

Lemma degrees_of_Ratan2 (y x : R) :
  (-180 < 180 * Ratan2 y x / PI <= 180)%R.
Proof.
  pose proof PI_RGT_0 as Hpi. pose proof (Ratan2_range y x) as [Hlo Hhi].
  split.
  - apply Rmult_lt_reg_r with (r := PI); [exact Hpi | ].
    unfold Rdiv. rewrite Rmult_assoc, Rinv_l by lra. lra.
  - apply Rmult_le_reg_r with (r := PI); [exact Hpi | ].
    unfold Rdiv. rewrite Rmult_assoc, Rinv_l by lra. lra.
Qed.

Lemma R_dleb (a b : R) : dleb a b = true <-> (a <= b)%R.
Proof. cbn [dleb R_ops]. destruct (Rle_dec a b); split; auto; discriminate. Qed.

Lemma R_dltb (a b : R) : dltb a b = true <-> (a < b)%R.
Proof. cbn [dltb R_ops]. destruct (Rlt_dec a b); split; auto; discriminate. Qed.

Lemma alpha_cell_R (angle a0 a1 a2 a3 : R) :
  (-180 <= angle <= 180)%R ->
  exists w : R,
    (0 <= w <= 1)%R /\
    ((-180 <= angle < -90)%R /\ w = ((angle + 180) / 90)%R /\
     alpha_cell angle [a0; a1; a2; a3] 0 1 2 3 = Ok [a0; a1; (1 - w)%R; w]
     \/
     (-90 <= angle < 0)%R /\ w = ((angle + 90) / 90)%R /\
     alpha_cell angle [a0; a1; a2; a3] 0 1 2 3 = Ok [w; a1; a2; (1 - w)%R]
     \/
     (0 <= angle < 90)%R /\ w = (angle / 90)%R /\
     alpha_cell angle [a0; a1; a2; a3] 0 1 2 3 = Ok [(1 - w)%R; w; a2; a3]
     \/
     (90 <= angle <= 180)%R /\ w = ((angle - 90) / 90)%R /\
     alpha_cell angle [a0; a1; a2; a3] 0 1 2 3 = Ok [a0; (1 - w)%R; w; a3]).
Proof.
  intros [Hlo Hhi]. unfold alpha_cell.
  change (of_int (-180)) with (-180)%R. change (of_int (-90)) with (-90)%R.
  change (of_int 0) with 0%R. change (of_int 90) with 90%R.
  change (of_int 180) with 180%R. change (of_int 1) with 1%R.
  cbn [dleb dltb dsub dadd ddiv R_ops].
  destruct (Rle_dec (-180) angle) as [_ | Hn]; [ | lra].
  destruct (Rlt_dec angle (-90)) as [H1 | H1]; cbn [andb].
  { exists ((angle + 180) / 90)%R. split; [lra | ]. left. repeat split; lra. }
  destruct (Rle_dec (-90) angle) as [_ | Hn]; [ | lra].
  destruct (Rlt_dec angle 0) as [H2 | H2]; cbn [andb].
  { exists ((angle + 90) / 90)%R. split; [lra | ]. right; left. repeat split; lra. }
  destruct (Rle_dec 0 angle) as [_ | Hn]; [ | lra].
  destruct (Rlt_dec angle 90) as [H3 | H3]; cbn [andb].
  { exists (angle / 90)%R. split; [lra | ]. right; right; left. repeat split; lra. }
  destruct (Rle_dec 90 angle) as [_ | Hn]; [ | lra].
  destruct (Rle_dec angle 180) as [_ | Hn]; [ | lra]. cbn [andb].
  exists ((angle - 90) / 90)%R. split; [lra | ]. right; right; right. repeat split; lra.
Qed.

(** ** Aborts and undefined configurations of LayerSetUp *)

Lemma SetUp_kernel_shape_defined (p : ConvolutionParameter) :
  SetUp_kernel_shape p 2 <> Undefined.
Proof.
  unfold SetUp_kernel_shape.
  change (repeat 0 (Z.to_nat (Z.max 2 2))) with [0; 0].
  assert (Hchecks : forall k1 k2 : Z,
    (for_range 0 2 (fun i (_ : unit) =>
       v <- rd [k1; k2] i ;;
       CHECK (0 <? v) "Filter dimensions must be nonzero.") tt ;;;
     k0 <- rd [k1; k2] 0 ;;
     k1' <- rd [k1; k2] 1 ;;
     CHECK (k0 =? k1') "The Kernels should be square." ;;;
     Ok [k1; k2]) <> Undefined).
  { intros k1 k2. run. destruct (0 <? k1); run; [ | discriminate].
    destruct (0 <? k2); run; [ | discriminate]. destruct (k1 =? k2); discriminate. }
  destruct (has (kernel_h p) || has (kernel_w p)).
  - change (2 =? 2) with true. cbn [CHECK bind].
    destruct (0 =? len (kernel_size p)); cbn [CHECK bind]; [ | discriminate].
    step. apply Hchecks.
  - destruct (kernel_size p) as [| k1 [| k2 [| k3 ks]]].
    + cbn [CHECK bind len List.length Z.of_nat Z.eqb orb]. discriminate.
    + change (len [k1] =? 1) with true. cbn [orb CHECK bind].
      rewrite (copy_0_2 [k1] (fun _ => 0)). step. apply Hchecks.
    + change (len [k1; k2] =? 1) with false. change (len [k1; k2] =? 2) with true.
      cbn [orb CHECK bind]. rewrite (copy_0_2 [k1; k2] (fun i => i)). step. apply Hchecks.
    + rewrite !len_cons. pose proof (len_nonneg ks) as Hks.
      destruct (Z.eqb_spec (1 + (1 + (1 + len ks))) 1); [lia | ].
      destruct (Z.eqb_spec (1 + (1 + (1 + len ks))) 2); [lia | ].
      cbn [orb CHECK bind]. discriminate.
Qed.

Lemma SetUp_stride_defined (p : ConvolutionParameter) :
  SetUp_stride p 2 <> Undefined.
Proof.
  unfold SetUp_stride.
  change (repeat 0 (Z.to_nat (Z.max 2 2))) with [0; 0].
  destruct (has (stride_h p) || has (stride_w p)).
  - change (2 =? 2) with true. cbn [CHECK bind].
    destruct (0 =? len (stride p)); cbn [CHECK bind]; [ | discriminate].
    step. discriminate.
  - destruct (stride p) as [| k1 [| k2 [| k3 ks]]].
    + change (len (@nil Z) =? 0) with true. cbn [orb CHECK bind].
      rewrite (stride_0_2 (fun _ => Ok 1)). step. discriminate.
    + change (len [k1] =? 0) with false. change (len [k1] =? 1) with true.
      cbn [orb CHECK bind]. rewrite (stride_0_2 (fun _ => rd [k1] 0)). step.
      destruct (0 <? k1); step; discriminate.
    + change (len [k1; k2] =? 0) with false. change (len [k1; k2] =? 1) with false.
      change (len [k1; k2] =? 2) with true. cbn [orb CHECK bind].
      rewrite (stride_0_2 (fun i => rd [k1; k2] i)). step.
      destruct (0 <? k1); step; [ | discriminate]. destruct (0 <? k2); step; discriminate.
    + rewrite !len_cons. pose proof (len_nonneg ks) as Hks.
      destruct (Z.eqb_spec (1 + (1 + (1 + len ks))) 0); [lia | ].
      destruct (Z.eqb_spec (1 + (1 + (1 + len ks))) 1); [lia | ].
      destruct (Z.eqb_spec (1 + (1 + (1 + len ks))) 2); [lia | ].
      cbn [orb CHECK bind]. discriminate.
Qed.

Lemma SetUp_pad_defined (p : ConvolutionParameter) :
  SetUp_pad p 2 <> Undefined.
Proof.
  unfold SetUp_pad.
  change (repeat 0 (Z.to_nat (Z.max 2 2))) with [0; 0].
  destruct (has (pad_h p) || has (pad_w p)).
  - change (2 =? 2) with true. cbn [CHECK bind].
    destruct (0 =? len (pad p)); cbn [CHECK bind]; [ | discriminate].
    step. discriminate.
  - destruct (pad p) as [| k1 [| k2 [| k3 ks]]].
    + change (len (@nil Z) =? 0) with true. cbn [orb CHECK bind].
      rewrite (pad_0_2 (fun _ => Ok 0)). step. discriminate.
    + change (len [k1] =? 0) with false. change (len [k1] =? 1) with true.
      cbn [orb CHECK bind]. rewrite (pad_0_2 (fun _ => rd [k1] 0)). step. discriminate.
    + change (len [k1; k2] =? 0) with false. change (len [k1; k2] =? 1) with false.
      change (len [k1; k2] =? 2) with true. cbn [orb CHECK bind].
      rewrite (pad_0_2 (fun i => rd [k1; k2] i)). step. discriminate.
    + rewrite !len_cons. pose proof (len_nonneg ks) as Hks.
      destruct (Z.eqb_spec (1 + (1 + (1 + len ks))) 0); [lia | ].
      destruct (Z.eqb_spec (1 + (1 + (1 + len ks))) 1); [lia | ].
      destruct (Z.eqb_spec (1 + (1 + (1 + len ks))) 2); [lia | ].
      cbn [orb CHECK bind]. discriminate.
Qed.

Lemma not_Ok_not_Undefined (A : Type) (o : outcome A) :
  (forall a, o <> Ok a) -> o <> Undefined -> exists msg, o = Fatal msg.
Proof. destruct o; intros H1 H2; [now destruct (H1 a) | eauto | congruence]. Qed.

Lemma Ok_or_Fatal (A : Type) (o : outcome A) :
  o <> Undefined -> (exists a, o = Ok a) \/ (exists msg, o = Fatal msg).
Proof. destruct o; intros H; eauto. congruence. Qed.

Lemma CanonicalAxisIndex_defined (D : Type) (b : Blob D) (i : Z) :
  CanonicalAxisIndex b i <> Undefined.
Proof.
  unfold CanonicalAxisIndex.
  destruct (- num_axes b <=? i); cbn [CHECK bind]; [ | discriminate].
  destruct (i <? num_axes b); cbn [CHECK bind]; discriminate.
Qed.

Lemma shape_in_range (D : Type) (b : Blob D) (i : Z) :
  0 <= i < num_axes b -> exists v, shape b i = Ok v.
Proof.
  intros Hi. unfold shape. destruct (@rd_in_range Z (shape_ b) i Hi) as (v & ->). eauto.
Qed.

Section SetUpRejects.
Context {D : Type} {ops : DtypeOps D} {libm : Libm D} {base : BaseConv D}.

(** The configuration errors LayerSetUp checks, in the order of its checks. *)
Lemma LayerSetUp_rejects (L : Layer D) (b0 : Blob D) (rest : list (Blob D)) :
  (forall ca, CanonicalAxisIndex b0 (axis (layer_param_ L)) = Ok ca ->
              num_axes b0 - (ca + 1) <> 2) \/
  (forall ksd, SetUp_kernel_shape (layer_param_ L) 2 <> Ok ksd) \/
  (forall sd, SetUp_stride (layer_param_ L) 2 <> Ok sd) \/
  (forall pd, SetUp_pad (layer_param_ L) 2 <> Ok pd) \/
  num_output (layer_param_ L) <= 0 \/
  (group (layer_param_ L) <> 0 /\
   forall ca c, CanonicalAxisIndex b0 (axis (layer_param_ L)) = Ok ca ->
                shape b0 ca = Ok c -> Z.rem c (group (layer_param_ L)) <> 0) \/
  (group (layer_param_ L) <> 0 /\
   Z.rem (num_output (layer_param_ L)) (group (layer_param_ L)) <> 0) ->
  exists msg, LayerSetUp L (b0 :: rest) = Fatal msg.
Proof.
  intros Hbad. unfold LayerSetUp. step.
  destruct (Ok_or_Fatal (@CanonicalAxisIndex_defined D b0 (axis (layer_param_ L))))
    as [(ca & Hca) | (msg & Hca)]; rewrite Hca; cbn [bind]; [ | eauto].
  destruct (0 <=? num_axes b0 - (ca + 1)); cbn [CHECK bind]; [ | eauto].
  destruct (Z.eqb_spec (num_axes b0 - (ca + 1)) 2) as [E | E]; cbn [CHECK bind]; [ | eauto].
  rewrite E.
  destruct Hbad as [Hbad | Hbad]; [exfalso; exact (Hbad ca Hca E) | ].
  destruct (Ok_or_Fatal (@SetUp_kernel_shape_defined (layer_param_ L)))
    as [(ksd & Hk) | (msg & Hk)]; rewrite Hk; cbn [bind]; [ | eauto].
  destruct Hbad as [Hbad | Hbad]; [exfalso; exact (Hbad ksd Hk) | ].
  destruct (Ok_or_Fatal (@SetUp_stride_defined (layer_param_ L)))
    as [(sd & Hs) | (msg & Hs)]; rewrite Hs; cbn [bind]; [ | eauto].
  destruct Hbad as [Hbad | Hbad]; [exfalso; exact (Hbad sd Hs) | ].
  destruct (Ok_or_Fatal (@SetUp_pad_defined (layer_param_ L)))
    as [(pd & Hp) | (msg & Hp)]; rewrite Hp; cbn [bind]; [ | eauto].
  destruct Hbad as [Hbad | Hbad]; [exfalso; exact (Hbad pd Hp) | ].
  pose proof Hca as Hca'.
  apply CanonicalAxisIndex_range in Hca. destruct Hca as [Hca _].
  destruct (@shape_in_range D b0 ca Hca) as (c & Hc). rewrite Hc. cbn [bind].
  destruct (Z.ltb_spec 0 (num_output (layer_param_ L))) as [Hno | Hno]; cbn [CHECK bind];
    [ | eauto].
  destruct Hbad as [Hbad | Hbad]; [lia | ].
  assert (Hg : group (layer_param_ L) <> 0) by (destruct Hbad as [[Hg _] | [Hg _]]; exact Hg).
  destruct (Z.eqb_spec (group (layer_param_ L)) 0) as [E0 | _]; [contradiction | ].
  cbn [bind].
  destruct (Z.eqb_spec (Z.rem c (group (layer_param_ L))) 0) as [Ec | Ec]; cbn [CHECK bind];
    [ | eauto].
  destruct Hbad as [[_ Hbad] | [_ Hbad]]; [exfalso; exact (Hbad ca c Hca' Hc Ec) | ].
  destruct (Z.eqb_spec (Z.rem (num_output (layer_param_ L)) (group (layer_param_ L))) 0)
    as [En | En]; cbn [CHECK bind]; [contradiction | eauto].
Qed.

(** A group count of zero reaches [channels_ % group_]. *)
Lemma LayerSetUp_group_zero (L : Layer D) (b0 : Blob D) (rest : list (Blob D))
    (ca : Z) (ksd sd pd : list Z) :
  CanonicalAxisIndex b0 (axis (layer_param_ L)) = Ok ca ->
  num_axes b0 - (ca + 1) = 2 ->
  SetUp_kernel_shape (layer_param_ L) 2 = Ok ksd ->
  SetUp_stride (layer_param_ L) 2 = Ok sd ->
  SetUp_pad (layer_param_ L) 2 = Ok pd ->
  0 < num_output (layer_param_ L) ->
  group (layer_param_ L) = 0 ->
  LayerSetUp L (b0 :: rest) = Undefined.
Proof.
  intros Hca E Hk Hs Hp Hn Hg. unfold LayerSetUp. step. rewrite Hca. cbn [bind].
  rewrite E. change (0 <=? 2) with true. change (2 =? 2) with true. cbn [CHECK bind].
  rewrite Hk, Hs, Hp. cbn [bind].
  apply CanonicalAxisIndex_range in Hca. destruct Hca as [Hca _].
  destruct (@shape_in_range D b0 ca Hca) as (c & Hc). rewrite Hc. cbn [bind].
  destruct (Z.ltb_spec 0 (num_output (layer_param_ L))); [ | lia]. cbn [CHECK bind].
  rewrite Hg. reflexivity.
Qed.
End SetUpRejects.

(** A zero stride reaches the division of compute_output_shape. *)
Lemma compute_output_shape_zero_stride (D : Type) (L : Layer D) (bottom_shape : list Z)
    (kh kw sh sw pdh pdw h w : Z) :
  num_spatial_axes_ L = 2 ->
  kernel_shape_ L = [kh; kw] -> stride_ L = [sh; sw] -> pad_ L = [pdh; pdw] ->
  vec_at bottom_shape (channel_axis_ L + 1) = Ok h ->
  vec_at bottom_shape (channel_axis_ L + 2) = Ok w ->
  sh = 0 \/ sw = 0 ->
  compute_output_shape L bottom_shape = Undefined.
Proof.
  intros Hn Hk Hs Hp Hh Hw Hz.
  rewrite (compute_output_shape_2d L bottom_shape Hn Hk Hs Hp Hh Hw).
  destruct Hz as [-> | ->]; [reflexivity | ]. now destruct (sh =? 0).
Qed.

(** ** Output cells of GaussConvolveHelper by flat index *)

Lemma split_index (b k : Z) :
  0 < b -> 0 <= k -> exists q r, k = q * b + r /\ 0 <= q /\ 0 <= r < b.
Proof.
  intros Hb Hk. exists (k / b), (k mod b).
  pose proof (Z.div_mod k b ltac:(lia)). pose proof (Z.mod_pos_bound k b Hb).
  pose proof (Z.div_pos k b Hk Hb). nia.
Qed.

(** A flat index of an N x C x P x Q tensor names one cell. *)
Lemma flat_index_cell (N C P Q k : Z) :
  0 <= N -> 0 <= C -> 0 <= P -> 0 <= Q -> 0 <= k < N * C * (P * Q) ->
  exists n c p q, 0 <= n < N /\ 0 <= c < C /\ 0 <= p < P /\ 0 <= q < Q /\
                  k = (n * C + c) * (P * Q) + (p * Q + q).
Proof.
  intros HN HC HP HQ Hk.
  assert (HPQ0 : 0 <= P * Q) by nia.
  assert (HPQ : 0 < P * Q).
  { destruct (Z.eq_dec (P * Q) 0) as [E | E]; [rewrite E in Hk; lia | lia]. }
  assert (HQ0 : 0 < Q).
  { destruct (Z.eq_dec Q 0) as [E | E]; [rewrite E in HPQ; lia | lia]. }
  assert (HC0 : 0 < C).
  { destruct (Z.eq_dec C 0) as [E | E]; [rewrite E in Hk; lia | lia]. }
  destruct (@split_index (P * Q) k HPQ) as (j & r & -> & Hj & Hr); [lia | ].
  destruct (@split_index C j HC0 Hj) as (n & c & -> & Hn & Hc).
  destruct (@split_index Q r HQ0) as (p & q & -> & Hp & Hq); [lia | ].
  exists n, c, p, q.
  assert (Hj' : n * C + c < N * C) by nia.
  assert (Hn' : n < N) by nia.
  assert (Hp' : p < P) by nia.
  repeat split; lia.
Qed.

Section GaussIgnoresOutput.
Context {D : Type} {ops : DtypeOps D}.

Lemma GaussConvolveHelper_same_output (L : Layer D) (inb out : Blob D) (d d' : list D)
    (N H W PH PW kh kw sh sw pdh pdw : Z) :
  shape_ inb = [N; channels_ L; H; W] ->
  shape_ out = [N; channels_ L; PH; PW] ->
  stride_ L = [sh; sw] -> pad_ L = [pdh; pdw] -> kernel_shape_ L = [kh; kw] ->
  0 <= N -> 0 <= channels_ L -> 0 <= H -> 0 <= W -> 0 <= PH -> 0 <= PW ->
  0 <= kh -> 0 <= kw ->
  kh * kw <= len (data_ (gauss_kernel_ L)) ->
  count inb <= len (data_ inb) ->
  len d = count out -> len d' = count out ->
  exists od,
    GaussConvolveHelper L inb (set_data out d) = Ok (set_data out od) /\
    GaussConvolveHelper L inb (set_data out d') = Ok (set_data out od).
Proof.
  intros Hin Hout Hs Hp Hk HN HC HH HW HPH HPW Hkh Hkw HG Hci Hd Hd'.
  destruct (@GaussConvolveHelper_spec D ops L inb (set_data out d)
              N H W PH PW kh kw sh sw pdh pdw) as (od & Hr & Hl & Hv & _);
    try assumption; [cbn [data_ set_data]; unfold count in *; cbn [shape_ set_data]; lia | ].
  destruct (@GaussConvolveHelper_spec D ops L inb (set_data out d')
              N H W PH PW kh kw sh sw pdh pdw) as (od' & Hr' & Hl' & Hv' & _);
    try assumption; [cbn [data_ set_data]; unfold count in *; cbn [shape_ set_data]; lia | ].
  assert (E : od' = od).
  { apply list_eq_by_rd.
    - cbn [data_ set_data] in Hl, Hl'. lia.
    - intros k Hk'. cbn [data_ set_data] in Hl, Hl'.
      rewrite Hl', Hd', (count_4 _ Hout) in Hk'.
      destruct (@flat_index_cell N (channels_ L) PH PW k)
        as (n & c & ph & pw & Hn & Hc & Hph & Hpw & ->); try assumption.
      destruct (shape_of _ Hout) as (_ & _ & _ & _ & _ & Hoff).
      assert (Hoff' : forall dd n c h w,
                offset (set_data out dd) n c h w = offset out n c h w) by reflexivity.
      specialize (Hv n c ph pw Hn Hc Hph Hpw). specialize (Hv' n c ph pw Hn Hc Hph Hpw).
      rewrite Hoff', Hoff in Hv, Hv'.
      replace (((n * channels_ L + c) * PH + ph) * PW + pw)
        with ((n * channels_ L + c) * (PH * PW) + (ph * PW + pw)) in Hv, Hv' by ring.
      eexists. split; [exact Hv' | exact Hv]. }
  subst od'. exists od. split; [exact Hr | exact Hr'].
Qed.
End GaussIgnoresOutput.

(** ** LayerSetUp on a fresh layer *)

Section SetUpFresh.
Context {D : Type} {ops : DtypeOps D} {libm : Libm D} {base : BaseConv D}.

Lemma push_4 (b : Blob D) (blobs ks : list (Blob D)) :
  vec_at blobs 0 = Ok b ->
  for_range 0 4 (fun (i : Z) (ks : list (Blob D)) =>
                   b <- vec_at blobs 0 ;; Ok (ks ++ [b])) ks
  = Ok (ks ++ [b; b; b; b]).
Proof.
  intros Hb. unfold for_range. change (Z.to_nat (4 - 0)) with 4%nat.
  cbn [for_nat]. rewrite Hb. cbn [bind]. rewrite <- !app_assoc. reflexivity.
Qed.

Lemma SetUp_blobs_fresh (L : Layer D) (ws bs : list Z) (bias : bool) :
  blobs_ L = [] ->
  SetUp_blobs L ws bs bias 4 = Ok (fresh_blobs ws bs bias, 
                                   intermediate_kernels_ L ++ repeat (fresh_weight ws) 4).
Proof.
  intros Hb. unfold SetUp_blobs. rewrite Hb. change (0 <? len (@nil (Blob D))) with false.
  cbv iota. unfold fresh_blobs, fresh_weight.
  destruct bias; rewrite (@push_4 _ _ _ (rd_0 _ _)); cbn [bind repeat]; reflexivity.
Qed.

Lemma LayerSetUp_fresh (L : Layer D) (b0 : Blob D) (rest : list (Blob D))
    (ca k c : Z) (sd pd : list Z) :
  blobs_ L = [] -> gauss_kernel_ L = Blob_empty -> kernel_w_ L = k ->
  CanonicalAxisIndex b0 (axis (layer_param_ L)) = Ok ca ->
  num_axes b0 = ca + 3 ->
  SetUp_kernel_shape (layer_param_ L) 2 = Ok [k; k] ->
  SetUp_stride (layer_param_ L) 2 = Ok sd ->
  SetUp_pad (layer_param_ L) 2 = Ok pd ->
  shape b0 ca = Ok c ->
  0 < num_output (layer_param_ L) ->
  group (layer_param_ L) <> 0 ->
  Z.rem c (group (layer_param_ L)) = 0 ->
  Z.rem (num_output (layer_param_ L)) (group (layer_param_ L)) = 0 ->
  LayerSetUp L (b0 :: rest) = Ok (Layer_set_up L ca k c sd pd).
Proof.
  intros Hblobs Hgk Hkw Hca Hax Hks Hsd Hpd Hc Hno Hg Hr1 Hr2.
  assert (Hk : 0 < k).
  { apply SetUp_kernel_shape_spec in Hks. destruct Hks as (k' & Hk' & E & _).
    injection E as ->. exact Hk'. }
  unfold LayerSetUp. rewrite rd_0. cbn [bind]. rewrite Hca. cbn [bind].
  replace (num_axes b0 - (ca + 1)) with 2 by lia.
  change (0 <=? 2) with true. change (2 =? 2) with true. cbn [CHECK bind].
  rewrite Hks, Hsd, Hpd, Hc. cbn [bind].
  destruct (Z.ltb_spec 0 (num_output (layer_param_ L))) as [_ | ]; [ | lia].
  cbn [CHECK bind].
  destruct (Z.eqb_spec (group (layer_param_ L)) 0) as [ | _]; [contradiction | ].
  cbn [bind]. rewrite Hr1, Hr2. change (0 =? 0) with true. cbn [CHECK bind].
  rewrite for_range_0_2. step. cbn [app].
  rewrite SetUp_blobs_fresh by exact Hblobs. cbn [bind].
  rewrite (@SetUp_gauss_kernel_table D ops libm L k Hk Hkw Hgk). cbn [bind].
  reflexivity.
Qed.
End SetUpFresh.

(** ** The loops of the rotated copies *)

Lemma rd_2 (A : Type) (x y z : A) (l : list A) : rd (x :: y :: z :: l) 2 = Ok z.
Proof. reflexivity. Qed.

Lemma rd_3 (A : Type) (x y z t : A) (l : list A) : rd (x :: y :: z :: t :: l) 3 = Ok t.
Proof. reflexivity. Qed.

Lemma wr_2 (A : Type) (a b c x : A) (l : list A) :
  wr (a :: b :: c :: l) 2 x = Ok (a :: b :: x :: l).
Proof. rewrite wr_in_range; [reflexivity | rewrite !len_cons; pose proof (len_nonneg l); lia]. Qed.

Lemma wr_3 (A : Type) (a b c d x : A) (l : list A) :
  wr (a :: b :: c :: d :: l) 3 x = Ok (a :: b :: c :: x :: l).
Proof. rewrite wr_in_range; [reflexivity | rewrite !len_cons; pose proof (len_nonneg l); lia]. Qed.

(** [for_range_invariant], with the body read off the goal. *)
Lemma for_range_establishes (S : Type) (Inv : Z -> S -> Prop) (P : S -> Prop)
    (body : Z -> S -> outcome S) (lo hi : Z) (s0 : S) :
  lo <= hi ->
  Inv lo s0 ->
  (forall i s, lo <= i < hi -> Inv i s ->
               exists s', body i s = Ok s' /\ Inv (i + 1) s') ->
  (forall s', Inv hi s' -> P s') ->
  exists s', for_range lo hi body s0 = Ok s' /\ P s'.
Proof.
  intros Hle H0 Hstep Hend.
  destruct (@for_range_invariant S Inv body lo hi s0 Hle H0 Hstep) as (s' & Hf & Hs').
  exists s'. auto.
Qed.

Section RotateLoops.
Context {D : Type} {ops : DtypeOps D}.
Variable kernels : list D.
Variables s2 s3 : Z.
Variables r0 r1 r2 r3 : list D.
Hypothesis s2_nonneg : 0 <= s2.
Hypothesis s3_nonneg : 0 <= s3.
Hypothesis reads_fit_a : s2 * s3 + s3 < len kernels.
Hypothesis reads_fit_b : s3 * s3 + s2 <= len kernels.

Lemma rot_index_in_range (i h w : Z) :
  0 <= h < s2 -> 0 <= w < s3 -> 0 <= rot_index i s2 s3 h w < len kernels.
Proof.
  intros Hh Hw. unfold rot_index.
  destruct (i =? 0); [nia | ]. destruct (i =? 1); [nia | ]. destruct (i =? 2); nia.
Qed.

Lemma rot_filled_weaken (i pos : Z) (r a : list D) :
  rot_filled kernels s2 s3 i pos r a -> len a = len r.
Proof. intros (Hl & _). exact Hl. Qed.

(** One write of lines 328-337. *)
Lemma rot_filled_step (i m h w : Z) (r a : list D) :
  0 <= m -> 0 <= h < s2 -> 0 <= w < s3 ->
  m * (s2 * s3) + (h * s3 + w) < len r ->
  rot_filled kernels s2 s3 i (m * (s2 * s3) + (h * s3 + w)) r a ->
  exists x a',
    rd kernels (rot_index i s2 s3 h w) = Ok x /\
    wr a (m * (s2 * s3) + (h * s3 + w)) x = Ok a' /\
    rot_filled kernels s2 s3 i (m * (s2 * s3) + (h * s3 + w) + 1) r a'.
Proof.
  intros Hm Hh Hw Hfit (Hl & Hdone & Hrest).
  destruct (@rd_in_range D kernels (rot_index i s2 s3 h w)) as (x & Hx).
  { now apply rot_index_in_range. }
  set (pos := m * (s2 * s3) + (h * s3 + w)) in *.
  assert (Hpos : 0 <= pos < len a) by (unfold pos; nia).
  exists x, (upd a (Z.to_nat pos) x). split; [exact Hx | ].
  split; [now apply wr_in_range | ].
  split; [now rewrite len_upd | ]. split.
  - intros m' h' w' Hm' Hh' Hw' Hlt.
    destruct (Z.eq_dec (m' * (s2 * s3) + (h' * s3 + w')) pos) as [E | Hne].
    + rewrite E. rewrite rd_upd_same by exact Hpos. rewrite <- Hx.
      assert (E' : (m' * s2 + h') * s3 + w' = (m * s2 + h) * s3 + w) by (unfold pos in E; lia).
      destruct (@radix_unique s3 (m' * s2 + h') w' (m * s2 + h) w Hw' Hw E') as [Eq ->].
      destruct (@radix_unique s2 m' h' m h Hh' Hh Eq) as [_ ->]. reflexivity.
    + rewrite rd_upd_other by lia. apply Hdone; auto. lia.
  - intros j Hj. rewrite rd_upd_other by lia. apply Hrest. lia.
Qed.

Variable bound : Z.
Hypothesis r0_fits : bound <= len r0.
Hypothesis r1_fits : bound <= len r1.
Hypothesis r2_fits : bound <= len r2.
Hypothesis r3_fits : bound <= len r3.

(** Lines 326-337 at one (h, w). *)
Lemma rotate_cell (m h w : Z) (rot : list (list D)) :
  0 <= m -> 0 <= h < s2 -> 0 <= w < s3 ->
  m * (s2 * s3) + (h * s3 + w) < bound ->
  rot_all kernels s2 s3 r0 r1 r2 r3 (m * (s2 * s3) + (h * s3 + w)) rot ->
  exists rot',
    (let q := h * s3 + w in
     x <- rd kernels (rot_index 0 s2 s3 h w) ;;
     rot <- wr_at rot 0 (m * (s2 * s3) + q) x ;;
     x <- rd kernels (rot_index 1 s2 s3 h w) ;;
     rot <- wr_at rot 1 (m * (s2 * s3) + q) x ;;
     x <- rd kernels (rot_index 2 s2 s3 h w) ;;
     rot <- wr_at rot 2 (m * (s2 * s3) + q) x ;;
     x <- rd kernels (rot_index 3 s2 s3 h w) ;;
     wr_at rot 3 (m * (s2 * s3) + q) x) = Ok rot' /\
    rot_all kernels s2 s3 r0 r1 r2 r3 (m * (s2 * s3) + (h * s3 + w) + 1) rot'.
Proof.
  intros Hm Hh Hw Hb (a0 & a1 & a2 & a3 & -> & H0 & H1 & H2 & H3).
  destruct (@rot_filled_step 0 m h w r0 a0) as (x0 & a0' & Hx0 & Hw0 & H0'); auto; [lia | ].
  destruct (@rot_filled_step 1 m h w r1 a1) as (x1 & a1' & Hx1 & Hw1 & H1'); auto; [lia | ].
  destruct (@rot_filled_step 2 m h w r2 a2) as (x2 & a2' & Hx2 & Hw2 & H2'); auto; [lia | ].
  destruct (@rot_filled_step 3 m h w r3 a3) as (x3 & a3' & Hx3 & Hw3 & H3'); auto; [lia | ].
  exists [a0'; a1'; a2'; a3']. split.
  - cbv zeta. unfold wr_at, vec_at.
    rewrite Hx0. cbn [bind]. rewrite rd_0. cbn [bind]. rewrite Hw0. cbn [bind].
    rewrite wr_0. cbn [bind].
    rewrite Hx1. cbn [bind]. rewrite rd_1. cbn [bind]. rewrite Hw1. cbn [bind].
    rewrite wr_1. cbn [bind].
    rewrite Hx2. cbn [bind]. rewrite rd_2. cbn [bind]. rewrite Hw2. cbn [bind].
    rewrite wr_2. cbn [bind].
    rewrite Hx3. cbn [bind]. rewrite rd_3. cbn [bind]. rewrite Hw3. cbn [bind].
    rewrite wr_3. reflexivity.
  - exists a0', a1', a2', a3'. auto.
Qed.

(** Lines 325-338: one row. *)
Lemma rotate_row (m h : Z) (rot : list (list D)) :
  0 <= m -> 0 <= h < s2 ->
  m * (s2 * s3) + (h * s3 + s3) <= bound ->
  rot_all kernels s2 s3 r0 r1 r2 r3 (m * (s2 * s3) + h * s3) rot ->
  exists rot',
    for_range 0 s3 (fun w rot =>
      let q := h * s3 + w in
      x <- rd kernels (rot_index 0 s2 s3 h w) ;;
      rot <- wr_at rot 0 (m * (s2 * s3) + q) x ;;
      x <- rd kernels (rot_index 1 s2 s3 h w) ;;
      rot <- wr_at rot 1 (m * (s2 * s3) + q) x ;;
      x <- rd kernels (rot_index 2 s2 s3 h w) ;;
      rot <- wr_at rot 2 (m * (s2 * s3) + q) x ;;
      x <- rd kernels (rot_index 3 s2 s3 h w) ;;
      wr_at rot 3 (m * (s2 * s3) + q) x) rot = Ok rot' /\
    rot_all kernels s2 s3 r0 r1 r2 r3 (m * (s2 * s3) + (h + 1) * s3) rot'.
Proof.
  intros Hm Hh Hb H0.
  eapply for_range_establishes
    with (Inv := fun w rot => rot_all kernels s2 s3 r0 r1 r2 r3 (m * (s2 * s3) + (h * s3 + w)) rot).
  - exact s3_nonneg.
  - replace (m * (s2 * s3) + (h * s3 + 0)) with (m * (s2 * s3) + h * s3) by ring. exact H0.
  - intros w rt Hw Hrt.
    destruct (@rotate_cell m h w rt) as (rt' & Hc & Hrt'); auto; [lia | ].
    exists rt'. split; [exact Hc | ].
    replace (m * (s2 * s3) + (h * s3 + (w + 1))) with (m * (s2 * s3) + (h * s3 + w) + 1)
      by ring. exact Hrt'.
  - intros rot' Hr.
    replace (m * (s2 * s3) + (h + 1) * s3) with (m * (s2 * s3) + (h * s3 + s3)) by ring.
    exact Hr.
Qed.

(** Lines 324-339: one plane. *)
Lemma rotate_plane (w0 : Blob D) (N C m : Z) (rot : list (list D)) :
  shape_ w0 = [N; C; s2; s3] ->
  0 <= m -> (m + 1) * (s2 * s3) <= bound ->
  rot_all kernels s2 s3 r0 r1 r2 r3 (m * (s2 * s3)) rot ->
  exists rot',
    for_range 0 s2 (fun h rot =>
      s3' <- shape w0 3 ;;
      for_range 0 s3' (fun w rot =>
        let q := h * s3' + w in
        x <- rd kernels (rot_index 0 s2 s3' h w) ;;
        rot <- wr_at rot 0 (m * (s2 * s3) + q) x ;;
        x <- rd kernels (rot_index 1 s2 s3' h w) ;;
        rot <- wr_at rot 1 (m * (s2 * s3) + q) x ;;
        x <- rd kernels (rot_index 2 s2 s3' h w) ;;
        rot <- wr_at rot 2 (m * (s2 * s3) + q) x ;;
        x <- rd kernels (rot_index 3 s2 s3' h w) ;;
        wr_at rot 3 (m * (s2 * s3) + q) x) rot) rot = Ok rot' /\
    rot_all kernels s2 s3 r0 r1 r2 r3 ((m + 1) * (s2 * s3)) rot'.
Proof.
  intros Hs Hm Hb H0.
  destruct (shape_of w0 Hs) as (_ & _ & _ & Hs3 & _).
  eapply for_range_establishes
    with (Inv := fun h rot => rot_all kernels s2 s3 r0 r1 r2 r3 (m * (s2 * s3) + h * s3) rot).
  - exact s2_nonneg.
  - replace (m * (s2 * s3) + 0 * s3) with (m * (s2 * s3)) by ring. exact H0.
  - intros h rt Hh Hrt. rewrite Hs3. cbn [bind].
    destruct (@rotate_row m h rt) as (rt' & Hc & Hrt'); auto; [nia | ].
    exists rt'. split; [exact Hc | exact Hrt'].
  - intros rot' Hr.
    replace ((m + 1) * (s2 * s3)) with (m * (s2 * s3) + s2 * s3) by ring. exact Hr.
Qed.
End RotateLoops.

Section RotateSpec.
Context {D : Type} {ops : DtypeOps D}.

Lemma rot_filled_start (kernels : list D) (s2 s3 i : Z) (r : list D) :
  0 <= s2 -> 0 <= s3 -> rot_filled kernels s2 s3 i 0 r r.
Proof.
  intros H2 H3. split; [reflexivity | ]. split; [ | reflexivity].
  intros m h w Hm Hh Hw Hlt. nia.
Qed.

(** Lines 315-345. *)
Lemma Reshape_rotate_spec (w0 : Blob D) (r0 r1 r2 r3 : list D) (N C s2 s3 : Z) :
  shape_ w0 = [N; C; s2; s3] ->
  0 <= N -> 0 <= C -> 0 <= s2 -> 0 <= s3 ->
  s2 * s3 + s3 < len (data_ w0) ->
  s3 * s3 + s2 <= len (data_ w0) ->
  N * C * (s2 * s3) <= len r0 -> N * C * (s2 * s3) <= len r1 ->
  N * C * (s2 * s3) <= len r2 -> N * C * (s2 * s3) <= len r3 ->
  exists a0 a1 a2 a3,
    Reshape_rotate w0 [r0; r1; r2; r3] = Ok [a0; a1; a2; a3] /\
    rot_filled (data_ w0) s2 s3 0 (N * C * (s2 * s3)) r0 a0 /\
    rot_filled (data_ w0) s2 s3 1 (N * C * (s2 * s3)) r1 a1 /\
    rot_filled (data_ w0) s2 s3 2 (N * C * (s2 * s3)) r2 a2 /\
    rot_filled (data_ w0) s2 s3 3 (N * C * (s2 * s3)) r3 a3.
Proof.
  intros Hs HN HC H2 H3 Hra Hrb Hf0 Hf1 Hf2 Hf3.
  destruct (shape_of w0 Hs) as (Hs0 & Hs1 & Hs2 & Hs3 & _ & Hoff).
  unfold Reshape_rotate. rewrite Hs0. cbn [bind].
  set (P := s2 * s3). set (bound := N * C * P) in *.
  cbv zeta.
  match goal with
  | |- context [for_range 0 N ?body ?s0] =>
      assert (Hloop : exists st,
                for_range 0 N body s0 = Ok st /\
                rot_all (data_ w0) s2 s3 r0 r1 r2 r3 bound (fst st))
  end.
  { eapply for_range_establishes
      with (Inv := fun n st => snd st = n * C * P /\
                     rot_all (data_ w0) s2 s3 r0 r1 r2 r3 (n * C * P) (fst st)).
    - exact HN.
    - cbn [fst snd]. split; [ring | ].
      replace (0 * C * P) with 0 by ring.
      exists r0, r1, r2, r3. split; [reflexivity | ].
      repeat split; try reflexivity; intros; unfold P in *; nia.
    - intros n [rot rb] Hn (Hrb' & Hrot). cbn [fst snd] in Hrb', Hrot.
      rewrite Hs1. cbn [bind].
      eapply for_range_establishes
        with (Inv := fun c st => snd st = (n * C + c) * P /\
                       rot_all (data_ w0) s2 s3 r0 r1 r2 r3 ((n * C + c) * P) (fst st)).
      + exact HC.
      + cbn [fst snd]. replace ((n * C + 0) * P) with (n * C * P) by ring. auto.
      + intros c [rt b] Hc (Hb & Hrt). cbn [fst snd] in Hb, Hrt. subst b.
        rewrite Hs2. cbn [bind].
        destruct (@rotate_plane D (data_ w0) s2 s3 r0 r1 r2 r3 H2 H3 Hra Hrb bound
                    Hf0 Hf1 Hf2 Hf3 w0 N C (n * C + c) rt Hs) as (rt' & Hp & Hrt').
        { nia. }
        { unfold bound, P.
          assert (Hm : n * C + c + 1 <= N * C) by nia.
          assert (HP : 0 <= s2 * s3) by nia.
          replace (N * C * (s2 * s3)) with ((N * C) * (s2 * s3)) by ring.
          apply Z.mul_le_mono_nonneg_r; assumption. }
        { exact Hrt. }
        fold P in Hp. cbv beta iota zeta in Hp |- *. rewrite Hp. cbn [bind]. eexists. split; [reflexivity | ].
        cbn [fst snd]. split; [ | replace ((n * C + (c + 1)) * P)
                                    with ((n * C + c + 1) * P) by ring; exact Hrt'].
        rewrite Hoff. unfold P. ring.
      + intros [rot' rb'] (Hb & Hr). cbn [fst snd] in *.
        replace ((n + 1) * C * P) with ((n * C + C) * P) by ring. auto.
    - intros st (_ & Hr). exact Hr. }
  destruct Hloop as ([rot rb] & Hf & Hr). cbn [fst] in Hr.
  rewrite Hf. cbn [bind].
  destruct Hr as (a0 & a1 & a2 & a3 & -> & Ha0 & Ha1 & Ha2 & Ha3).
  exists a0, a1, a2, a3. auto.
Qed.
End RotateSpec.

(** ** Reshape on well-shaped inputs *)

Lemma for_range_0_4 (S : Type) (body : Z -> S -> outcome S) (s : S) :
  for_range 0 4 body s
  = (s1 <- body 0 s ;; s2 <- body 1 s1 ;; s3 <- body 2 s2 ;; body 3 s3).
Proof.
  unfold for_range. change (Z.to_nat (4 - 0)) with 4%nat. cbn [for_nat].
  change (0 + 1) with 1. change (1 + 1) with 2. change (2 + 1) with 3.
  destruct (body 0 s) as [s1 | | ]; cbn [bind]; [ | reflexivity ..].
  destruct (body 1 s1) as [s2 | | ]; cbn [bind]; [ | reflexivity ..].
  destruct (body 2 s2) as [s3 | | ]; cbn [bind]; [ | reflexivity ..].
  destruct (body 3 s3); reflexivity.
Qed.

Ltac step4 :=
  repeat first
    [ rewrite rd_0 | rewrite rd_1 | rewrite rd_2 | rewrite rd_3
    | rewrite wr_0 | rewrite wr_1 | rewrite wr_2 | rewrite wr_3
    | progress cbn [bind CHECK] ].

Section ReshapeComplete.
Context {D : Type} {ops : DtypeOps D}.

Lemma Reshape_checks_accepts (L : Layer D) (b0 b1 : Blob D) (brest : list (Blob D))
    (n h w : Z) :
  channel_axis_ L = 1 -> num_spatial_axes_ L = 2 ->
  shape_ b0 = [n; channels_ L; h; w] ->
  shape b1 0 = Ok n -> shape b1 1 = Ok 2 -> shape b1 2 = Ok h -> shape b1 3 = Ok w ->
  Reshape_checks L (b0 :: b1 :: brest) = Ok n.
Proof.
  intros Hca Hnsa Hs0 Hn1 Hc1 Hh1 Hw1.
  unfold Reshape_checks, vec_at, num_axes, count_range. rewrite Hca, Hnsa.
  rewrite rd_0, rd_1. cbn [bind].
  destruct (shape_of b0 Hs0) as (E0 & E1 & E2 & E3 & _).
  rewrite Hs0 at 1.
  change (len [n; channels_ L; h; w] =? 1 + 1 + 2) with true.
  repeat first [ rewrite E0 | rewrite E1 | rewrite E2 | rewrite E3
               | rewrite Hn1 | rewrite Hc1 | rewrite Hh1 | rewrite Hw1
               | rewrite Z.eqb_refl | progress cbn [bind CHECK] ].
  rewrite Hs0. f_equal. change (firstn (Z.to_nat (1 - 0)) (skipn (Z.to_nat 0) [n; channels_ L; h; w]))
    with [n]. unfold count_of. cbn [fold_right]. ring.
Qed.

Lemma Blob_Reshape_to_4 (b : Blob D) (a0 a1 a2 a3 : Z) :
  0 <= a0 -> 0 <= a1 -> 0 <= a2 -> 0 <= a3 ->
  Blob_Reshape_to b [a0; a1; a2; a3] = Ok (Blob_Reshape b [a0; a1; a2; a3]).
Proof.
  intros H0 H1 H2 H3. apply Blob_Reshape_to_nonneg. cbn [forallb].
  repeat (rewrite (proj2 (Z.leb_le 0 _)) by assumption). reflexivity.
Qed.

Lemma Reshape_complete (L : Layer D) (b0 b1 : Blob D) (brest : list (Blob D))
    (t0 t1 t2 : Blob D) (trest : list (Blob D))
    (W : Blob D) (wrest : list (Blob D))
    (i0 i1 i2 i3 : Blob D) (irest : list (Blob D))
    (n h w k1 k2 s1 s2 p1 p2 N C K2 K3 : Z) :
  channel_axis_ L = 1 -> num_spatial_axes_ L = 2 -> num_rotations_ L = 4 ->
  kernel_shape_ L = [k1; k2] -> stride_ L = [s1; s2] -> pad_ L = [p1; p2] ->
  s1 <> 0 -> s2 <> 0 ->
  0 <= n -> 0 <= num_output_ L ->
  0 <= Z.quot (h + 2 * p1 - k1) s1 + 1 -> 0 <= Z.quot (w + 2 * p2 - k2) s2 + 1 ->
  shape_ b0 = [n; channels_ L; h; w] ->
  shape b1 0 = Ok n -> shape b1 1 = Ok 2 -> shape b1 2 = Ok h -> shape b1 3 = Ok w ->
  blobs_ L = W :: wrest ->
  shape_ W = [N; C; K2; K3] ->
  0 <= N -> 0 <= C -> 0 <= K2 -> 0 <= K3 ->
  K2 * K3 + K3 < len (data_ W) ->
  K3 * K3 + K2 <= len (data_ W) ->
  intermediate_kernels_ L = i0 :: i1 :: i2 :: i3 :: irest ->
  N * C * (K2 * K3) <= len (data_ i0) -> N * C * (K2 * K3) <= len (data_ i1) ->
  N * C * (K2 * K3) <= len (data_ i2) -> N * C * (K2 * K3) <= len (data_ i3) ->
  exists a0 a1 a2 a3,
    let oh := Z.quot (h + 2 * p1 - k1) s1 + 1 in
    let ow := Z.quot (w + 2 * p2 - k2) s2 + 1 in
    Reshape L (b0 :: b1 :: brest) (t0 :: t1 :: t2 :: trest)
    = Ok (Layer_after_Reshape L n (channels_ L) h w oh ow
            (set_data i0 a0 :: set_data i1 a1 :: set_data i2 a2 :: set_data i3 a3
             :: irest),
          Blob_Reshape t0 [n; num_output_ L; oh; ow]
          :: Blob_Reshape t1 [n; 2; oh; ow]
          :: Blob_Reshape t2 [n; 2; oh; ow] :: trest) /\
    rot_filled (data_ W) K2 K3 0 (N * C * (K2 * K3)) (data_ i0) a0 /\
    rot_filled (data_ W) K2 K3 1 (N * C * (K2 * K3)) (data_ i1) a1 /\
    rot_filled (data_ W) K2 K3 2 (N * C * (K2 * K3)) (data_ i2) a2 /\
    rot_filled (data_ W) K2 K3 3 (N * C * (K2 * K3)) (data_ i3) a3.
Proof.
  intros Hca Hnsa Hnr Hk Hs Hp Hs1 Hs2 Hn Hno Hoh How Hs0 Hn1 Hc1 Hh1 Hw1 Hbl HW HN HC HK2 HK3
         Hra Hrb Hik Hf0 Hf1 Hf2 Hf3.
  destruct (@Reshape_rotate_spec D W (data_ i0) (data_ i1) (data_ i2) (data_ i3)
              N C K2 K3 HW HN HC HK2 HK3 Hra Hrb Hf0 Hf1 Hf2 Hf3)
    as (a0 & a1 & a2 & a3 & Hrot & Ha0 & Ha1 & Ha2 & Ha3).
  exists a0, a1, a2, a3. cbv zeta.
  set (oh := Z.quot (h + 2 * p1 - k1) s1 + 1) in *.
  set (ow := Z.quot (w + 2 * p2 - k2) s2 + 1) in *.
  unfold Reshape.
  rewrite (@Reshape_checks_accepts L b0 b1 brest n h w) by assumption. cbn [bind].
  unfold vec_at at 1. rewrite rd_0. cbn [bind].
  rewrite (@compute_output_shape_2d D L (shape_ b0) k1 k2 s1 s2 p1 p2 h w);
    try assumption; try (rewrite Hca, Hs0; reflexivity).
  destruct (Z.eqb_spec s1 0) as [ | _]; [contradiction | ].
  destruct (Z.eqb_spec s2 0) as [ | _]; [contradiction | ].
  fold oh ow. cbn [bind].
  rewrite Hnsa, Hca, Hs0, Hnr, Hbl, Hik.
  rewrite for_range_0_2. unfold vec_at. step.
  change (firstn (Z.to_nat 1) [n; channels_ L; h; w]) with [n]. cbn [app].
  repeat first [ progress step4 | rewrite Blob_Reshape_to_4 by lia ].
  rewrite for_range_0_4. step4. cbn [app].
  rewrite Hrot. cbn [bind].
  split; [ | auto]. cbn [set_datas].
  replace (set_datas irest []) with irest by (destruct irest; reflexivity).
  unfold Layer_after_Reshape. rewrite Hbl, Hca, Hnsa, Hnr. do 2 f_equal.
  f_equal.
  - unfold count_from. rewrite Hs0.
    change (skipn (Z.to_nat 1) [n; channels_ L; h; w]) with [channels_ L; h; w].
    unfold count_of. cbn [fold_right]. ring.
  - unfold count_from. cbn [shape_ Blob_Reshape].
    change (skipn (Z.to_nat 1) [n; num_output_ L; oh; ow]) with [num_output_ L; oh; ow].
    unfold count_of. cbn [fold_right]. ring.
Qed.
End ReshapeComplete.

(** ** Reshape twice *)

Section ReshapeTwice.
Context {D : Type} {ops : DtypeOps D}.

Lemma Blob_Reshape_idem (b : Blob D) (shp : list Z) :
  Blob_Reshape (Blob_Reshape b shp) shp = Blob_Reshape b shp.
Proof.
  unfold Blob_Reshape. cbn [shape_ data_ diff_]. f_equal.
  - destruct (count_of shp <=? len (data_ b)) eqn:E; [now rewrite E | ].
    now destruct (count_of shp <=? len (zeros (count_of shp))).
  - destruct (count_of shp <=? len (diff_ b)) eqn:E; [now rewrite E | ].
    now destruct (count_of shp <=? len (zeros (count_of shp))).
Qed.

(** Filling copies that are already filled changes nothing. *)
Lemma rot_filled_again (kernels : list D) (s2 s3 i M : Z) (r a a' : list D) :
  0 <= s2 -> 0 <= s3 -> 0 <= M ->
  rot_filled kernels s2 s3 i (M * (s2 * s3)) r a ->
  rot_filled kernels s2 s3 i (M * (s2 * s3)) a a' ->
  a' = a.
Proof.
  intros H2 H3 HM (Hl & Hdone & _) (Hl' & Hdone' & Hrest').
  apply list_eq_by_rd; [exact Hl' | ].
  intros j Hj.
  destruct (@rd_in_range D a j) as (x & Hx); [lia | ].
  exists x. split; [ | exact Hx]. rewrite <- Hx.
  destruct (Z.lt_ge_cases j (M * (s2 * s3))) as [Hlt | Hge]; [ | now apply Hrest'].
  assert (HP : 0 < s2 * s3) by nia.
  assert (H3' : 0 < s3) by nia.
  destruct (@split_index (s2 * s3) j HP) as (m & q & -> & Hm & Hq); [lia | ].
  destruct (@split_index s3 q H3') as (h & w & -> & Hh & Hw); [lia | ].
  assert (Hh' : 0 <= h < s2) by nia.
  rewrite Hdone' by (auto; lia). rewrite Hdone by (auto; lia). reflexivity.
Qed.

Lemma Reshape_twice (L : Layer D) (b0 b1 : Blob D) (brest : list (Blob D))
    (t0 t1 t2 : Blob D) (trest : list (Blob D))
    (W : Blob D) (wrest : list (Blob D))
    (i0 i1 i2 i3 : Blob D) (irest : list (Blob D))
    (n h w k1 k2 s1 s2 p1 p2 N C K2 K3 : Z) :
  channel_axis_ L = 1 -> num_spatial_axes_ L = 2 -> num_rotations_ L = 4 ->
  kernel_shape_ L = [k1; k2] -> stride_ L = [s1; s2] -> pad_ L = [p1; p2] ->
  s1 <> 0 -> s2 <> 0 ->
  0 <= n -> 0 <= num_output_ L ->
  0 <= Z.quot (h + 2 * p1 - k1) s1 + 1 -> 0 <= Z.quot (w + 2 * p2 - k2) s2 + 1 ->
  shape_ b0 = [n; channels_ L; h; w] ->
  shape b1 0 = Ok n -> shape b1 1 = Ok 2 -> shape b1 2 = Ok h -> shape b1 3 = Ok w ->
  blobs_ L = W :: wrest ->
  shape_ W = [N; C; K2; K3] ->
  0 <= N -> 0 <= C -> 0 <= K2 -> 0 <= K3 ->
  K2 * K3 + K3 < len (data_ W) ->
  K3 * K3 + K2 <= len (data_ W) ->
  intermediate_kernels_ L = i0 :: i1 :: i2 :: i3 :: irest ->
  N * C * (K2 * K3) <= len (data_ i0) -> N * C * (K2 * K3) <= len (data_ i1) ->
  N * C * (K2 * K3) <= len (data_ i2) -> N * C * (K2 * K3) <= len (data_ i3) ->
  exists L' top',
    Reshape L (b0 :: b1 :: brest) (t0 :: t1 :: t2 :: trest) = Ok (L', top') /\
    Reshape L' (b0 :: b1 :: brest) top' = Ok (L', top').
Proof.
  intros Hca Hnsa Hnr Hk Hs Hp Hs1 Hs2 Hn Hno Hoh How Hs0 Hn1 Hc1 Hh1 Hw1 Hbl HW HN HC HK2 HK3
         Hra Hrb Hik Hf0 Hf1 Hf2 Hf3.
  destruct (@Reshape_complete D ops L b0 b1 brest t0 t1 t2 trest W wrest i0 i1 i2 i3 irest
              n h w k1 k2 s1 s2 p1 p2 N C K2 K3)
    as (a0 & a1 & a2 & a3 & Hrun & F0 & F1 & F2 & F3); try assumption.
  cbv zeta in Hrun.
  set (oh := Z.quot (h + 2 * p1 - k1) s1 + 1) in *.
  set (ow := Z.quot (w + 2 * p2 - k2) s2 + 1) in *.
  set (L' := Layer_after_Reshape L n (channels_ L) h w oh ow
               (set_data i0 a0 :: set_data i1 a1 :: set_data i2 a2 :: set_data i3 a3
                :: irest)) in *.
  eexists. eexists. split; [exact Hrun | ].
  destruct (@Reshape_complete D ops L' b0 b1 brest
              (Blob_Reshape t0 [n; num_output_ L; oh; ow])
              (Blob_Reshape t1 [n; 2; oh; ow]) (Blob_Reshape t2 [n; 2; oh; ow]) trest
              W wrest (set_data i0 a0) (set_data i1 a1) (set_data i2 a2) (set_data i3 a3)
              irest n h w k1 k2 s1 s2 p1 p2 N C K2 K3)
    as (a0' & a1' & a2' & a3' & Hrun' & F0' & F1' & F2' & F3'); try assumption;
    try reflexivity;
    try (cbn [data_ set_data];
         first [ rewrite (rot_filled_weaken F0) | rewrite (rot_filled_weaken F1)
               | rewrite (rot_filled_weaken F2) | rewrite (rot_filled_weaken F3) ];
         assumption).
  cbv zeta in Hrun'. fold oh ow in Hrun'. cbn [data_ set_data] in F0', F1', F2', F3'.
  replace (N * C * (K2 * K3)) with ((N * C) * (K2 * K3)) in * by ring.
  assert (HNC : 0 <= N * C) by nia.
  rewrite (rot_filled_again HK2 HK3 HNC F0 F0'), (rot_filled_again HK2 HK3 HNC F1 F1'),
    (rot_filled_again HK2 HK3 HNC F2 F2'), (rot_filled_again HK2 HK3 HNC F3 F3') in Hrun'.
  rewrite Hrun'. unfold L'. unfold Layer_after_Reshape. layer_fields.
  rewrite !Blob_Reshape_idem. reflexivity.
Qed.
End ReshapeTwice.

(** ** Slices and stores; the loops of the convolution block *)

Lemma rd_app_l (A : Type) (a b : list A) (i : Z) :
  0 <= i < len a -> rd (a ++ b) i = rd a i.
Proof.
  intros Hi. unfold rd. destruct (Z.ltb_spec i 0); [lia | ].
  rewrite nth_error_app1; [reflexivity | unfold len in Hi; lia].
Qed.

Lemma rd_app_r (A : Type) (a b : list A) (i : Z) :
  len a <= i -> rd (a ++ b) i = rd b (i - len a).
Proof.
  intros Hi. pose proof (len_nonneg a) as Ha. unfold rd.
  destruct (Z.ltb_spec i 0); [lia | ]. destruct (Z.ltb_spec (i - len a) 0); [lia | ].
  rewrite nth_error_app2 by (unfold len in Hi; lia).
  replace (Z.to_nat (i - len a)) with (Z.to_nat i - length a)%nat
    by (unfold len; lia).
  reflexivity.
Qed.

Lemma rd_firstn (A : Type) (buf : list A) (n i : Z) :
  0 <= i < n -> rd (firstn (Z.to_nat n) buf) i = rd buf i.
Proof.
  intros Hi. unfold rd. destruct (Z.ltb_spec i 0); [lia | ].
  rewrite nth_error_firstn.
  destruct (Nat.ltb_spec (Z.to_nat i) (Z.to_nat n)); [reflexivity | lia].
Qed.

Lemma rd_skipn (A : Type) (buf : list A) (n i : Z) :
  0 <= n -> 0 <= i -> rd (skipn (Z.to_nat n) buf) i = rd buf (n + i).
Proof.
  intros Hn Hi. unfold rd.
  destruct (Z.ltb_spec i 0); [lia | ]. destruct (Z.ltb_spec (n + i) 0); [lia | ].
  rewrite nth_error_skipn. replace (Z.to_nat (n + i)) with (Z.to_nat n + Z.to_nat i)%nat
    by lia.
  reflexivity.
Qed.

Section StoreFacts.
Context {D : Type} {ops : DtypeOps D}.

Lemma slice_in_range (buf : list D) (base n : Z) :
  0 <= base -> 0 <= n -> base + n <= len buf ->
  slice buf base n = Ok (firstn (Z.to_nat n) (skipn (Z.to_nat base) buf)).
Proof.
  intros Hb Hn Hl. unfold slice.
  destruct (Z.ltb_spec base 0); [lia | ]. destruct (Z.ltb_spec n 0); [lia | ].
  destruct (Z.ltb_spec (len buf) (base + n)); [lia | ]. reflexivity.
Qed.

Lemma store_in_range (buf vals : list D) (base : Z) :
  0 <= base -> base + len vals <= len buf ->
  exists buf',
    store buf base vals = Ok buf' /\
    len buf' = len buf /\
    slice buf' base (len vals) = Ok vals /\
    (forall j, 0 <= j < len vals -> rd buf' (base + j) = rd vals j) /\
    (forall j, j < base \/ base + len vals <= j -> rd buf' j = rd buf j).
Proof.
  intros Hb Hl. unfold store.
  destruct (Z.ltb_spec base 0); [lia | ].
  destruct (Z.ltb_spec (len buf) (base + len vals)); [lia | ]. cbn [orb].
  pose proof (len_nonneg vals) as Hv.
  assert (Hfl : len (firstn (Z.to_nat base) buf) = base).
  { unfold len in *. rewrite length_firstn. lia. }
  assert (Hsl : len (skipn (Z.to_nat (base + len vals)) buf) = len buf - (base + len vals)).
  { unfold len in *. rewrite length_skipn. lia. }
  assert (Hlen : len (firstn (Z.to_nat base) buf ++ vals
                      ++ skipn (Z.to_nat (base + len vals)) buf) = len buf).
  { rewrite !len_app. lia. }
  eexists. split; [reflexivity | ]. split; [exact Hlen | ]. split; [ | split].
  - rewrite slice_in_range; [ | lia | lia | rewrite Hlen; lia ]. f_equal.
    rewrite skipn_app.
    replace (Z.to_nat base - length (firstn (Z.to_nat base) buf))%nat with 0%nat
      by (unfold len in Hfl; lia).
    rewrite skipn_all2 by (unfold len in Hfl; lia). cbn [skipn app].
    rewrite firstn_app.
    replace (Z.to_nat (len vals) - length vals)%nat with 0%nat by (unfold len; lia).
    rewrite firstn_all2 by (unfold len; lia). cbn [firstn]. apply app_nil_r.
  - intros j Hj. rewrite rd_app_r by lia. rewrite Hfl.
    replace (base + j - base) with j by ring. apply rd_app_l. exact Hj.
  - intros j [Hj | Hj].
    + destruct (Z.ltb_spec j 0) as [Hneg | Hpos].
      * unfold rd. destruct (Z.ltb_spec j 0); [reflexivity | lia].
      * rewrite rd_app_l by lia. apply rd_firstn. lia.
    + rewrite rd_app_r by lia. rewrite Hfl. rewrite rd_app_r by lia.
      rewrite rd_skipn by lia. f_equal. lia.
Qed.
End StoreFacts.

Section ConvolveLoops.
Context {D : Type} {ops : DtypeOps D} {base : BaseConv D}.
Variable scale_sketch : Layer D -> Z -> Z -> list D -> list D -> list D.
Variable L : Layer D.
Variable bottom_data : list D.
Variable alphas : list D.
Variables i0 i1 i2 i3 : Blob D.
Variable irest : list (Blob D).

Hypothesis rotations : num_rotations_ L = 4.
Hypothesis kernels : intermediate_kernels_ L = i0 :: i1 :: i2 :: i3 :: irest.
Hypothesis bottom_dim_nonneg : 0 <= bottom_dim_ L.
Hypothesis gemm_writes_top_dim :
  forall input weight, len (forward_cpu_gemm L input weight) = top_dim_ L.

(** Lines 511-527: the four cached convolutions of image [n]. *)
Lemma convolve_rotations (n : Z) (osb : Blob D) :
  0 <= n -> (n + 1) * bottom_dim_ L <= len bottom_data ->
  top_dim_ L <= len (data_ osb) ->
  exists osb' results,
    for_range 0 (num_rotations_ L) (fun i '(osb, intermediate_results) =>
      k <- vec_at (intermediate_kernels_ L) i ;;
      let weight := data_ k in
      input <- slice bottom_data (n * bottom_dim_ L) (bottom_dim_ L) ;;
      temp_output <- store (data_ osb) 0 (forward_cpu_gemm L input weight) ;;
      let temp := temp_output in
      let temp_output := overwrite temp_output (scale_sketch L n i temp alphas) in
      let osb := set_data osb temp_output in
      Ok (osb, intermediate_results ++ [osb])) (osb, @nil (Blob D))
    = Ok (osb', results) /\
    len (data_ osb') = len (data_ osb).
Proof.
  intros Hn Hfit Hosb.
  assert (Hloop : exists st,
    for_range 0 (num_rotations_ L) (fun i '(osb, intermediate_results) =>
      k <- vec_at (intermediate_kernels_ L) i ;;
      let weight := data_ k in
      input <- slice bottom_data (n * bottom_dim_ L) (bottom_dim_ L) ;;
      temp_output <- store (data_ osb) 0 (forward_cpu_gemm L input weight) ;;
      let temp := temp_output in
      let temp_output := overwrite temp_output (scale_sketch L n i temp alphas) in
      let osb := set_data osb temp_output in
      Ok (osb, intermediate_results ++ [osb])) (osb, @nil (Blob D)) = Ok st /\
    len (data_ (fst st)) = len (data_ osb)).
  { eapply for_range_establishes
      with (Inv := fun (_ : Z) (st : Blob D * list (Blob D)) =>
                     len (data_ (fst st)) = len (data_ osb)).
    - rewrite rotations. lia.
    - reflexivity.
    - intros i [b rs] Hi Hb. cbn [fst] in Hb. rewrite rotations in Hi.
      destruct (@rd_in_range (Blob D) (intermediate_kernels_ L) i) as (k & Hk).
      { rewrite kernels, !len_cons. pose proof (len_nonneg irest). lia. }
      unfold vec_at. rewrite Hk. cbn [bind]. cbv zeta.
      rewrite slice_in_range by nia. cbn [bind].
      destruct (@store_in_range D (data_ b)
                  (forward_cpu_gemm L
                     (firstn (Z.to_nat (bottom_dim_ L))
                        (skipn (Z.to_nat (n * bottom_dim_ L)) bottom_data)) (data_ k)) 0)
        as (t & Ht & Hlt & _); [lia | rewrite gemm_writes_top_dim; lia | ].
      rewrite Ht. cbn [bind]. eexists. split; [reflexivity | ].
      cbn [fst data_ set_data]. rewrite len_overwrite. lia.
    - intros st Hst. exact Hst. }
  destruct Hloop as ([osb' rs] & Hf & Hl). exists osb', rs. auto.
Qed.
End ConvolveLoops.

Section ConvolveSpec.
Context {D : Type} {ops : DtypeOps D} {base : BaseConv D}.
Variable scale_sketch : Layer D -> Z -> Z -> list D -> list D -> list D.

(** Lines 492-536. *)
Lemma Forward_convolve_spec (L : Layer D) (bottom0 : Blob D) (alphas top_data : list D)
    (W B : Blob D) (i0 i1 i2 i3 : Blob D) (irest : list (Blob D)) (oh ow : Z) :
  vec_at (blobs_ L) 0 = Ok W ->
  (bias_term_ L = true -> vec_at (blobs_ L) 1 = Ok B) ->
  num_spatial_axes_ L = 2 -> output_shape_ L = [oh; ow] ->
  num_rotations_ L = 4 ->
  intermediate_kernels_ L = i0 :: i1 :: i2 :: i3 :: irest ->
  0 <= num_ L -> 0 <= bottom_dim_ L -> 0 <= top_dim_ L ->
  top_dim_ L <= num_output_ L * (oh * ow) ->
  num_ L * bottom_dim_ L <= len (data_ bottom0) ->
  num_ L * top_dim_ L <= len top_data ->
  (forall input weight, len (forward_cpu_gemm L input weight) = top_dim_ L) ->
  (forall out bias, len out = top_dim_ L ->
                    len (forward_cpu_bias L out bias) = top_dim_ L) ->
  exists top',
    Forward_convolve scale_sketch L bottom0 alphas top_data = Ok top' /\
    len top' = len top_data /\
    (forall n j, 0 <= n < num_ L -> 0 <= j < top_dim_ L ->
       rd top' (n * top_dim_ L + j)
       = rd (convolved L (data_ bottom0) (data_ W) (data_ B) n) j) /\
    (forall j, num_ L * top_dim_ L <= j -> rd top' j = rd top_data j).
Proof.
  intros HW HB Hnsa Hos Hnr Hik Hnum Hbd Htd Hosb Hbot Htop Hgemm Hbias.
  unfold Forward_convolve. rewrite HW. cbn [bind]. rewrite Hnsa, Hos, for_range_0_2.
  unfold vec_at at 1 2. step. cbn [app].
  set (osb0 := Blob_new [1; num_output_ L; oh; ow]).
  assert (Hosb0 : top_dim_ L <= len (data_ osb0)).
  { unfold osb0, Blob_new. cbn [data_]. rewrite len_zeros.
    - unfold count_of. cbn [fold_right]. lia.
    - unfold count_of. cbn [fold_right]. lia. }
  match goal with
  | |- context [for_range 0 (num_ L) ?body ?s0] =>
      destruct (@region_loop (list D * Blob D) D fst
        (fun (_ : Z) st => top_dim_ L <= len (data_ (snd st)))
        (fun n j => n * top_dim_ L <= j < (n + 1) * top_dim_ L)
        (fun n b => forall j, 0 <= j < top_dim_ L ->
                      rd b (n * top_dim_ L + j)
                      = rd (convolved L (data_ bottom0) (data_ W) (data_ B) n) j)
        body 0 (num_ L) s0) as ([top' osb'] & Hf & _ & Hl & Hg & Hu)
  end.
  - intros i i' j Hi Hi' Hne Hj Hj'. nia.
  - intros i b b' Hsame Hgood j Hj. rewrite Hsame by nia. now apply Hgood.
  - intros n [td osb] Hn Haux Hlen Hsame. cbn [fst snd] in Haux, Hlen, Hsame.
    cbv beta iota.
    destruct (@convolve_rotations D ops base scale_sketch L (data_ bottom0) alphas
                i0 i1 i2 i3 irest Hnr Hik Hbd Hgemm n osb)
      as (osb1 & rs & Hrot & Hl1); [lia | nia | exact Haux | ].
    cbv zeta in Hrot. rewrite Hrot. cbn [bind].
    rewrite slice_in_range by nia. cbn [bind].
    set (input := firstn (Z.to_nat (bottom_dim_ L))
                    (skipn (Z.to_nat (n * bottom_dim_ L)) (data_ bottom0))).
    set (g := forward_cpu_gemm L input (data_ W)).
    assert (Hg : len g = top_dim_ L) by apply Hgemm.
    destruct (@store_in_range D td g (n * top_dim_ L))
      as (t1 & Ht1 & Hl1' & Hs1 & Hin1 & Hout1); [nia | rewrite Hg; nia | ].
    rewrite Ht1. cbn [bind].
    unfold convolved. fold input. fold g.
    destruct (bias_term_ L) eqn:Ebias.
    + rewrite (HB eq_refl). cbn [bind].
      replace (slice t1 (n * top_dim_ L) (top_dim_ L))
        with (slice t1 (n * top_dim_ L) (len g)) by (now rewrite Hg).
      rewrite Hs1. cbn [bind].
      set (gb := forward_cpu_bias L g (data_ B)).
      assert (Hgb : len gb = top_dim_ L) by (unfold gb; apply Hbias; exact Hg).
      destruct (@store_in_range D t1 gb (n * top_dim_ L))
        as (t2 & Ht2 & Hl2 & _ & Hin2 & Hout2); [nia | rewrite Hgb; nia | ].
      rewrite Ht2. cbn [bind]. eexists. split; [reflexivity | ]. cbn [fst snd].
      split; [lia | ]. split; [lia | ]. split.
      * intros j Hj. apply Hin2. lia.
      * intros j Hj. rewrite Hout2 by (rewrite Hgb; lia). apply Hout1. rewrite Hg. lia.
    + cbn [bind]. eexists. split; [reflexivity | ]. cbn [fst snd].
      split; [lia | ]. split; [lia | ]. split.
      * intros j Hj. apply Hin1. lia.
      * intros j Hj. apply Hout1. rewrite Hg. lia.
  - exact Hnum.
  - exact Hosb0.
  - rewrite Hf. cbn [bind]. cbn [fst] in Hl, Hg, Hu.
    exists top'. split; [reflexivity | ]. split; [exact Hl | ]. split.
    + intros n j Hn Hj. now apply Hg.
    + intros j Hj. apply Hu. intros i Hi. nia.
Qed.
End ConvolveSpec.

(** ** The forward pass stage by stage *)

Section ForwardSpec.
Context {D : Type} {ops : DtypeOps D} {libm : Libm D} {base : BaseConv D}.
Variable scale_sketch : Layer D -> Z -> Z -> list D -> list D -> list D.

(** Lines 413-537 on tensors shaped as Reshape shapes them. *)
Lemma Forward_cpu_spec (L : Layer D) (b0 b1 : Blob D) (brest : list (Blob D))
    (t0 t1 t2 : Blob D) (trest : list (Blob D))
    (W B : Blob D) (i0 i1 i2 i3 : Blob D) (irest : list (Blob D))
    (N H Wd PH PW kh kw sh sw pdh pdw : Z) :
  channels_ L = 2 ->
  shape_ b1 = [N; 2; H; Wd] ->
  shape_ t1 = [N; 2; PH; PW] ->
  shape_ t2 = [N; 2; PH; PW] ->
  shape_ (orientation_map_ L) = [N; 1; PH; PW] ->
  shape_ (intermediate_kernel_alphas_ L) = [N; 4; PH; PW] ->
  stride_ L = [sh; sw] -> pad_ L = [pdh; pdw] -> kernel_shape_ L = [kh; kw] ->
  0 <= N -> 0 <= H -> 0 <= Wd -> 0 <= PH -> 0 <= PW -> 0 <= kh -> 0 <= kw ->
  kh * kw <= len (data_ (gauss_kernel_ L)) ->
  count b1 <= len (data_ b1) ->
  count t1 <= len (data_ t1) ->
  count t2 <= len (data_ t2) ->
  count (orientation_map_ L) <= len (data_ (orientation_map_ L)) ->
  count (intermediate_kernel_alphas_ L) <= len (data_ (intermediate_kernel_alphas_ L)) ->
  vec_at (blobs_ L) 0 = Ok W ->
  (bias_term_ L = true -> vec_at (blobs_ L) 1 = Ok B) ->
  num_spatial_axes_ L = 2 -> output_shape_ L = [PH; PW] ->
  num_rotations_ L = 4 ->
  intermediate_kernels_ L = i0 :: i1 :: i2 :: i3 :: irest ->
  0 <= num_ L -> 0 <= bottom_dim_ L -> 0 <= top_dim_ L ->
  top_dim_ L <= num_output_ L * (PH * PW) ->
  num_ L * bottom_dim_ L <= len (data_ b0) ->
  num_ L * top_dim_ L <= len (data_ t0) ->
  (forall o a input weight,
     len (forward_cpu_gemm (set_forward_buffers L o a) input weight) = top_dim_ L) ->
  (forall o a out bias, len out = top_dim_ L ->
     len (forward_cpu_bias (set_forward_buffers L o a) out bias) = top_dim_ L) ->
  exists smooth orientation sincos alphas conv,
    Forward_cpu scale_sketch L (b0 :: b1 :: brest) (t0 :: t1 :: t2 :: trest)
    = Ok (set_forward_buffers L orientation alphas,
          set_data t0 conv :: set_data t1 sincos :: set_data t2 smooth :: trest) /\
    (forall n ph pw, 0 <= n < N -> 0 <= ph < PH -> 0 <= pw < PW ->
       let gx := gauss_cell (data_ (gauss_kernel_ L)) (data_ b1) (offset b1 n 0 0 0)
                   H Wd kh kw sh sw pdh pdw ph pw in
       let gy := gauss_cell (data_ (gauss_kernel_ L)) (data_ b1) (offset b1 n 1 0 0)
                   H Wd kh kw sh sw pdh pdw ph pw in
       let angle := m_atan2 gy gx in
       rd smooth (offset t2 n 0 ph pw) = Ok gx /\
       rd smooth (offset t2 n 1 ph pw) = Ok gy /\
       rd orientation (offset (orientation_map_ L) n 0 ph pw) = Ok angle /\
       rd sincos (offset t1 n 0 ph pw) = Ok (m_sin angle) /\
       rd sincos (offset t1 n 1 ph pw) = Ok (m_cos angle) /\
       exists a0 a1 a2 a3 c0 c1 c2 c3,
         rd (data_ (intermediate_kernel_alphas_ L))
            (offset (intermediate_kernel_alphas_ L) n 0 ph pw) = Ok a0 /\
         rd (data_ (intermediate_kernel_alphas_ L))
            (offset (intermediate_kernel_alphas_ L) n 1 ph pw) = Ok a1 /\
         rd (data_ (intermediate_kernel_alphas_ L))
            (offset (intermediate_kernel_alphas_ L) n 2 ph pw) = Ok a2 /\
         rd (data_ (intermediate_kernel_alphas_ L))
            (offset (intermediate_kernel_alphas_ L) n 3 ph pw) = Ok a3 /\
         rd alphas (offset (intermediate_kernel_alphas_ L) n 0 ph pw) = Ok c0 /\
         rd alphas (offset (intermediate_kernel_alphas_ L) n 1 ph pw) = Ok c1 /\
         rd alphas (offset (intermediate_kernel_alphas_ L) n 2 ph pw) = Ok c2 /\
         rd alphas (offset (intermediate_kernel_alphas_ L) n 3 ph pw) = Ok c3 /\
         alpha_cell (ddiv (dmul (of_lit (180 # 1)) angle) M_PI) [a0; a1; a2; a3] 0 1 2 3
         = Ok [c0; c1; c2; c3]) /\
    len conv = len (data_ t0) /\
    (forall n j, 0 <= n < num_ L -> 0 <= j < top_dim_ L ->
       rd conv (n * top_dim_ L + j)
       = rd (convolved (set_forward_buffers L orientation alphas)
               (data_ b0) (data_ W) (data_ B) n) j) /\
    (forall j, num_ L * top_dim_ L <= j -> rd conv j = rd (data_ t0) j).
Proof.
  intros Hch Hb1 Ht1 Ht2 Hom Hal Hs Hp Hk HN HH HW HPH HPW Hkh Hkw HG Hcb1 Hct1 Hct2
         Hco Hca HWb HBb Hnsa Hos Hnr Hik Hnum Hbd Htd Htdo Hlb Hlt Hgemm Hbias.
  rewrite (count_4 _ Ht1) in Hct1. rewrite (count_4 _ Hom) in Hco.
  rewrite (count_4 _ Hal) in Hca.
  destruct (@GaussConvolveHelper_spec D ops L b1 t2 N H Wd PH PW kh kw sh sw pdh pdw)
    as (smooth & Hgauss & Hlsm & Hcells & _); try assumption; try (rewrite Hch; assumption);
    try (rewrite Hch; lia).
  assert (Hlsm' : N * (2 * (PH * PW)) <= len smooth).
  { rewrite Hlsm. rewrite (count_4 _ Ht2) in Hct2. lia. }
  destruct (@Forward_orientation_spec D libm L (set_data t2 smooth) N PH PW)
    as (o & Ho & Hlo & Hor); try assumption; try lia.
  destruct (@Forward_sincos_spec D libm L o t1 (set_data t2 smooth) N PH PW)
    as (sc & Hsc & Hlsc & Hsin); try assumption; try lia.
  destruct (@Forward_alphas_spec D ops L o (data_ (intermediate_kernel_alphas_ L)) N PH PW)
    as (al & Hfa & Hlal & Hcell & _); try assumption; try lia.
  destruct (@Forward_convolve_spec D ops base scale_sketch (set_forward_buffers L o al)
              b0 al (data_ t0) W B i0 i1 i2 i3 irest PH PW)
    as (conv & Hconv & Hlc & Hcv & Hrest); try assumption.
  { apply Hgemm. }
  { apply Hbias. }
  exists smooth, o, sc, al, conv.
  split.
  - unfold Forward_cpu, vec_at. rewrite rd_1, rd_2. cbn [bind].
    rewrite Hgauss. cbn [bind]. rewrite wr_2. cbn [bind].
    rewrite Ho. cbn [bind]. rewrite rd_1. cbn [bind]. rewrite Hsc. cbn [bind].
    rewrite wr_1. cbn [bind]. rewrite Hfa. cbn [bind]. rewrite !rd_0. cbn [bind].
    unfold vec_at in Hconv. rewrite Hconv. cbn [bind]. rewrite wr_0. reflexivity.
  - split; [ | split; [exact Hlc | split; [exact Hcv | exact Hrest]]].
    intros n ph pw Hn Hph Hpw. cbv zeta.
    pose proof (spatial_index Hph Hpw) as Hsp.
    destruct (shape_of t2 Ht2) as (_ & _ & _ & _ & _ & Hoff2).
    destruct (shape_of t1 Ht1) as (_ & _ & _ & _ & _ & Hoff1).
    destruct (shape_of (orientation_map_ L) Hom) as (_ & _ & _ & _ & _ & Hoffo).
    assert (Hgx := Hcells n 0 ph pw Hn ltac:(lia) Hph Hpw).
    assert (Hgy := Hcells n 1 ph pw Hn ltac:(lia) Hph Hpw).
    destruct (Hor n (ph * PW + pw) Hn Hsp) as (gy & gx & Hry & Hrx & Hro).
    destruct (Hsin n (ph * PW + pw) Hn Hsp) as (a & Ha & Hsi & Hcs).
    cbn [data_ set_data] in Hry, Hrx.
    rewrite Hoff2 in Hgx, Hgy. rewrite !Hoff2, !Hoff1, !Hoffo.
    replace (((n * 2 + 0) * PH + ph) * PW + pw)
      with (n * (2 * (PH * PW)) + (ph * PW + pw)) in * by ring.
    replace (((n * 2 + 1) * PH + ph) * PW + pw)
      with (n * (2 * (PH * PW)) + PH * PW + (ph * PW + pw)) in * by ring.
    replace (((n * 1 + 0) * PH + ph) * PW + pw)
      with (n * (PH * PW) + (ph * PW + pw)) in * by ring.
    rewrite Hgx in Hrx. rewrite Hgy in Hry. injection Hrx as <-. injection Hry as <-.
    rewrite Hro in Ha. injection Ha as <-.
    split; [exact Hgx | ]. split; [exact Hgy | ]. split; [exact Hro | ].
    split; [exact Hsi | ]. split; [exact Hcs | ].
    destruct (Hcell n ph pw Hn Hph Hpw)
      as (o' & a0 & a1 & a2 & a3 & c0 & c1 & c2 & c3 & Ho' & A0 & A1 & A2 & A3
          & C0 & C1 & C2 & C3 & Hac).
    rewrite Hoffo in Ho'.
    replace (((n * 1 + 0) * PH + ph) * PW + pw)
      with (n * (PH * PW) + (ph * PW + pw)) in Ho' by ring.
    rewrite Hro in Ho'. injection Ho' as <-.
    exists a0, a1, a2, a3, c0, c1, c2, c3. repeat split; assumption.
Qed.
End ForwardSpec.

(** ** LayerSetUp, Reshape and Forward_cpu in a row *)

Section Pipeline.
Context {D : Type} {ops : DtypeOps D} {libm : Libm D} {base : BaseConv D}.
Variable scale_sketch : Layer D -> Z -> Z -> list D -> list D -> list D.

Lemma Blob_Reshape_fits (b : Blob D) (shp : list Z) :
  0 <= count_of shp -> count (Blob_Reshape b shp) <= len (data_ (Blob_Reshape b shp)).
Proof.
  intros Hc. unfold count, Blob_Reshape. cbn [shape_ data_].
  destruct (Z.leb_spec (count_of shp) (len (data_ b))); [assumption | ].
  rewrite len_zeros by assumption. lia.
Qed.

Lemma fresh_blobs_cons (ws bs : list Z) (bias : bool) :
  exists B,
    fresh_blobs ws bs bias = fresh_weight ws :: (if bias then [B] else []).
Proof.
  unfold fresh_blobs. destruct bias.
  - eexists. reflexivity.
  - exists Blob_empty. reflexivity.
Qed.

Lemma len_gauss_table (k : Z) : 0 <= k -> len (gauss_table (D := D) k) = k * k.
Proof.
  intros Hk. unfold gauss_table. rewrite len_map. apply len_zrange. nia.
Qed.

(** LayerSetUp, Reshape and Forward_cpu in a row, on a fresh layer. *)
Lemma fresh_pipeline (L0 : Layer D) (b0 b1 t0 t1 t2 : Blob D) (trest : list (Blob D))
    (k s1 s2 p1 p2 n h w : Z) :
  let p := layer_param_ L0 in
  let oh := Z.quot (h + 2 * p1 - k) s1 + 1 in
  let ow := Z.quot (w + 2 * p2 - k) s2 + 1 in
  let C := Z.quot 2 (group p) in
  blobs_ L0 = [] -> intermediate_kernels_ L0 = [] ->
  gauss_kernel_ L0 = Blob_empty -> kernel_w_ L0 = k ->
  axis p = 1 ->
  SetUp_kernel_shape p 2 = Ok [k; k] ->
  SetUp_stride p 2 = Ok [s1; s2] ->
  SetUp_pad p 2 = Ok [p1; p2] ->
  s1 <> 0 -> s2 <> 0 ->
  0 < num_output p -> 0 < group p ->
  Z.rem 2 (group p) = 0 -> Z.rem (num_output p) (group p) = 0 ->
  shape_ b0 = [n; 2; h; w] -> shape_ b1 = [n; 2; h; w] ->
  0 <= n -> 0 <= h -> 0 <= w -> 0 <= oh -> 0 <= ow ->
  count b0 <= len (data_ b0) -> count b1 <= len (data_ b1) ->
  len (weight_filler [num_output p; C; k; k]) = num_output p * C * (k * k) ->
  k * k + k < num_output p * C * (k * k) ->
  (forall L' input weight,
     conv_out_channels_ L' = num_output p -> output_shape_ L' = [oh; ow] ->
     len (forward_cpu_gemm L' input weight) = num_output p * oh * ow) ->
  (forall L' out bias,
     conv_out_channels_ L' = num_output p -> output_shape_ L' = [oh; ow] ->
     len out = num_output p * oh * ow ->
     len (forward_cpu_bias L' out bias) = num_output p * oh * ow) ->
  exists L1 L2 L3 top2 top3,
    LayerSetUp L0 [b0; b1] = Ok L1 /\
    Reshape L1 [b0; b1] (t0 :: t1 :: t2 :: trest) = Ok (L2, top2) /\
    Forward_cpu scale_sketch L2 [b0; b1] top2 = Ok (L3, top3) /\
    map (@shape_ D) top3
    = [n; num_output p; oh; ow] :: [n; 2; oh; ow] :: [n; 2; oh; ow]
      :: map (@shape_ D) trest.
Proof.
  intros p oh ow C Hbl Hik Hgk Hkw Hax Hks Hsd Hpd Hs1 Hs2 Hno Hg Hr1 Hr2 Hsb0 Hsb1
         Hn Hh Hw Hoh How Hcb0 Hcb1 Hwf Hreach Hgemm Hbias.
  assert (Hk : 0 < k).
  { apply SetUp_kernel_shape_spec in Hks. destruct Hks as (k' & Hk' & E & _).
    injection E as ->. exact Hk'. }
  assert (HC : 0 <= C) by (unfold C; apply Z.quot_pos; lia).
  (* LayerSetUp *)
  assert (Hsetup : LayerSetUp L0 [b0; b1] = Ok (Layer_set_up L0 1 k 2 [s1; s2] [p1; p2])).
  { apply LayerSetUp_fresh; try assumption; try (unfold p in *; lia).
    - unfold CanonicalAxisIndex, num_axes. fold p. rewrite Hax, Hsb0. reflexivity.
    - unfold num_axes. rewrite Hsb0. reflexivity.
    - unfold shape. rewrite Hsb0. reflexivity. }
  set (L1 := Layer_set_up L0 1 k 2 [s1; s2] [p1; p2]) in *.
  set (W := fresh_weight (D := D) [num_output p; C; k; k]).
  destruct (fresh_blobs_cons [num_output p; C; k; k]
              (if bias_term p then [num_output p] else []) (bias_term p)) as (B & HB).
  assert (HlenW : len (data_ W) = num_output p * C * (k * k)) by exact Hwf.
  (* Reshape *)
  destruct (shape_of b1 Hsb1) as (E0 & E1 & E2 & E3 & _).
  destruct (@Reshape_complete D ops L1 b0 b1 [] t0 t1 t2 trest W
              (if bias_term p then [B] else []) W W W W []
              n h w k k s1 s2 p1 p2 (num_output p) C k k)
    as (a0 & a1 & a2 & a3 & Hreshape & F0 & F1 & F2 & F3);
    try assumption; try reflexivity; try lia;
    try (unfold L1, Layer_set_up; layer_fields; fold p; lia).
  { unfold L1, Layer_set_up. layer_fields. rewrite Hik. reflexivity. }
  cbv zeta in Hreshape. fold oh ow in Hreshape.
  set (L2 := Layer_after_Reshape L1 n (channels_ L1) h w oh ow
               [set_data W a0; set_data W a1; set_data W a2; set_data W a3]) in *.
  (* Forward_cpu *)
  assert (Hcnt : forall c, 0 <= c -> 0 <= count_of [n; c; oh; ow]).
  { intros c Hc. unfold count_of. cbn [fold_right]. nia. }
  destruct (@Forward_cpu_spec D ops libm base scale_sketch L2 b0 b1 []
              (Blob_Reshape t0 [n; num_output p; oh; ow])
              (Blob_Reshape t1 [n; 2; oh; ow]) (Blob_Reshape t2 [n; 2; oh; ow]) trest
              W B (set_data W a0) (set_data W a1) (set_data W a2) (set_data W a3) []
              n h w oh ow k k s1 s2 p1 p2)
    as (smooth & o & sc & al & conv & Hforward & _);
    try assumption; try reflexivity; try lia.
  - unfold L2, Layer_after_Reshape, L1, Layer_set_up. layer_fields. cbn [data_].
    rewrite len_map, len_gauss_table by lia. lia.
  - apply Blob_Reshape_fits. apply Hcnt. lia.
  - apply Blob_Reshape_fits. apply Hcnt. lia.
  - unfold L2, Layer_after_Reshape. layer_fields. apply Blob_Reshape_fits. apply Hcnt. lia.
  - unfold L2, Layer_after_Reshape. layer_fields. apply Blob_Reshape_fits. apply Hcnt. lia.
  - unfold L2, Layer_after_Reshape, L1, Layer_set_up. layer_fields. fold p C.
    rewrite HB. reflexivity.
  - unfold L2, Layer_after_Reshape, L1, Layer_set_up. layer_fields. fold p C.
    intros Hb. rewrite HB, Hb. reflexivity.
  - unfold L2, Layer_after_Reshape, L1, Layer_set_up. layer_fields. nia.
  - unfold L2, Layer_after_Reshape, L1, Layer_set_up. layer_fields. fold p. nia.
  - unfold L2, Layer_after_Reshape, L1, Layer_set_up. layer_fields. fold p. nia.
  - unfold L2, Layer_after_Reshape, L1, Layer_set_up. layer_fields.
    rewrite (count_4 _ Hsb0) in Hcb0. nia.
  - unfold L2, Layer_after_Reshape, L1, Layer_set_up. layer_fields. fold p.
    assert (Hno' : 0 <= num_output p) by lia.
    pose proof (@Blob_Reshape_fits t0 [n; num_output p; oh; ow] (Hcnt _ Hno')) as Hfit.
    unfold count in Hfit. cbn [shape_ Blob_Reshape] in Hfit.
    unfold count_of in Hfit. cbn [fold_right] in Hfit. nia.
  - intros o a input weight.
    unfold L2, Layer_after_Reshape, L1, Layer_set_up. layer_fields. fold p.
    apply Hgemm; reflexivity.
  - intros o a out bias Hout.
    unfold L2, Layer_after_Reshape, L1, Layer_set_up. layer_fields. fold p.
    apply Hbias; try reflexivity. revert Hout.
    unfold L2, Layer_after_Reshape, L1, Layer_set_up. layer_fields. fold p. auto.
  - exists L1, L2. eexists. eexists. eexists.
    split; [exact Hsetup | ]. split; [exact Hreshape | ]. split; [exact Hforward | ].
    reflexivity.
Qed.
End Pipeline.

(** ** Stored parameter blobs; a zero stride *)

Lemma list_eqb_refl (a : list Z) : list_eqb a a = true.
Proof. induction a as [| x a IH]; simpl; [reflexivity | ]. now rewrite Z.eqb_refl. Qed.

Lemma list_eqb_neq (a b : list Z) : a <> b -> list_eqb a b = false.
Proof.
  intros Hne. destruct (list_eqb a b) eqn:E; [ | reflexivity].
  apply list_eqb_eq in E. contradiction.
Qed.

Section StoredBlobs.
Context {D : Type} {ops : DtypeOps D} {libm : Libm D} {base : BaseConv D}.

(** Lines 150-164: the checks of the stored parameter blobs. *)
Lemma SetUp_blobs_rejects (L : Layer D) (ws bs : list Z) (bias : bool) (n : Z) :
  0 < len (blobs_ L) ->
  len (blobs_ L) <> 1 + (if bias then 1 else 0) \/
  (forall W, vec_at (blobs_ L) 0 = Ok W -> shape_ W <> ws) \/
  (bias = true /\ forall B, vec_at (blobs_ L) 1 = Ok B -> shape_ B <> bs) ->
  exists msg, SetUp_blobs L ws bs bias n = Fatal msg.
Proof.
  intros Hstored Hbad. unfold SetUp_blobs.
  destruct (Z.ltb_spec 0 (len (blobs_ L))) as [_ | ]; [ | lia].
  destruct (Z.eqb_spec (1 + (if bias then 1 else 0)) (len (blobs_ L))) as [Hn | Hn];
    cbn [CHECK bind]; [ | eauto].
  destruct (@rd_in_range (Blob D) (blobs_ L) 0) as (W & HW); [lia | ].
  unfold vec_at in *. rewrite HW. cbn [bind].
  destruct (list_eqb ws (shape_ W)) eqn:EW; cbn [negb bind]; [ | eauto].
  apply list_eqb_eq in EW.
  destruct Hbad as [Hcount | [Hweight | [Hb Hbias]]].
  - lia.
  - exfalso. apply (Hweight W HW). auto.
  - subst bias.
    destruct (@rd_in_range (Blob D) (blobs_ L) 1) as (B & HB); [lia | ].
    rewrite HB. cbn [bind].
    rewrite list_eqb_neq by (intros E; apply (Hbias B HB); auto).
    cbn [negb bind]. eauto.
Qed.

Lemma LayerSetUp_rejects_stored (L : Layer D) (b0 : Blob D) (rest : list (Blob D))
    (ca k c : Z) (sd pd : list Z) :
  let p := layer_param_ L in
  CanonicalAxisIndex b0 (axis p) = Ok ca ->
  num_axes b0 = ca + 3 ->
  SetUp_kernel_shape p 2 = Ok [k; k] ->
  SetUp_stride p 2 = Ok sd ->
  SetUp_pad p 2 = Ok pd ->
  shape b0 ca = Ok c ->
  0 < num_output p ->
  group p <> 0 ->
  Z.rem c (group p) = 0 ->
  Z.rem (num_output p) (group p) = 0 ->
  0 < len (blobs_ L) ->
  len (blobs_ L) <> 1 + (if bias_term p then 1 else 0) \/
  (forall W, vec_at (blobs_ L) 0 = Ok W ->
             shape_ W <> [num_output p; Z.quot c (group p); k; k]) \/
  (bias_term p = true /\
   forall B, vec_at (blobs_ L) 1 = Ok B -> shape_ B <> [num_output p]) ->
  exists msg, LayerSetUp L (b0 :: rest) = Fatal msg.
Proof.
  intros p Hca Hax Hks Hsd Hpd Hc Hno Hg Hr1 Hr2 Hstored Hbad.
  unfold LayerSetUp. fold p. rewrite rd_0. cbn [bind]. rewrite Hca. cbn [bind].
  replace (num_axes b0 - (ca + 1)) with 2 by lia.
  change (0 <=? 2) with true. change (2 =? 2) with true. cbn [CHECK bind].
  rewrite Hks, Hsd, Hpd, Hc. cbn [bind].
  destruct (Z.ltb_spec 0 (num_output p)) as [_ | ]; [ | lia].
  cbn [CHECK bind].
  destruct (Z.eqb_spec (group p) 0) as [ | _]; [contradiction | ].
  cbn [bind]. rewrite Hr1, Hr2. change (0 =? 0) with true. cbn [CHECK bind].
  rewrite for_range_0_2. step. cbn [app].
  destruct (@SetUp_blobs_rejects L [num_output p; Z.quot c (group p); k; k]
              (if bias_term p then [num_output p] else []) (bias_term p) 4 Hstored)
    as (msg & Hmsg).
  { destruct Hbad as [Hn | [Hw | [Hb Hbs]]]; [auto | auto | ].
    right. right. split; [exact Hb | ]. rewrite Hb. exact Hbs. }
  rewrite Hmsg. cbn [bind]. eauto.
Qed.
End StoredBlobs.

Section ZeroStride.
Context {D : Type} {ops : DtypeOps D} {libm : Libm D} {base : BaseConv D}.


End ZeroStride.

(** * Further properties of the layer *)

(** ** LayerSetUp: the configuration blocks *)

(** X1.  Lines 37-64 on two spatial axes: the kernel block returns a
    shape exactly when the configuration names one positive size for both
    axes, either as kernel_h and kernel_w (both given, equal, and no
    kernel_size entry) or as kernel_size given once or twice with equal
    entries; the shape is then [k; k].  Every other configuration aborts
    at one of the checks; no access of the block leaves its vectors. *)
Theorem SetUp_kernel_shape_accepts_square_positive_kernels :
  forall p : ConvolutionParameter,
    (forall ksd,
       SetUp_kernel_shape p 2 = Ok ksd <->
       exists k, 0 < k /\ ksd = [k; k] /\
         (if has (kernel_h p) || has (kernel_w p)
          then kernel_size p = [] /\ kernel_h p = Some k /\ kernel_w p = Some k
          else kernel_size p = [k] \/ kernel_size p = [k; k])) /\
    SetUp_kernel_shape p 2 <> Undefined.
Proof.
  intros p. split.
  - intros ksd. apply SetUp_kernel_shape_spec.
  - apply SetUp_kernel_shape_defined.
Qed.

(** X2.  Lines 66-89 on two spatial axes: with stride_h or stride_w set
    the pair (stride_h(), stride_w()) is stored as it is, with no
    positivity check, provided the repeated field stride is empty.
    Otherwise stride may be absent (both strides are 1), given once (both
    axes) or twice, and each value must be positive.  Every other
    configuration aborts; no access leaves the vectors. *)
Theorem SetUp_stride_checks_the_repeated_field_only :
  forall p : ConvolutionParameter,
    (forall sd,
       SetUp_stride p 2 = Ok sd <->
       exists s1 s2, sd = [s1; s2] /\
         (if has (stride_h p) || has (stride_w p)
          then stride p = [] /\ s1 = get (stride_h p) /\ s2 = get (stride_w p)
          else 0 < s1 /\ 0 < s2 /\
               (stride p = [] /\ s1 = 1 /\ s2 = 1 \/
                stride p = [s1] /\ s2 = s1 \/
                stride p = [s1; s2]))) /\
    SetUp_stride p 2 <> Undefined.
Proof.
  intros p. split.
  - intros sd. apply SetUp_stride_spec.
  - apply SetUp_stride_defined.
Qed.

(** X3.  Lines 90-112 on two spatial axes: with pad_h or pad_w set the
    pair (pad_h(), pad_w()) is stored, provided the repeated field pad is
    empty.  Otherwise pad may be absent (both pads are 0), given once
    (both axes) or twice.  Every other configuration aborts; no access
    leaves the vectors. *)
Theorem SetUp_pad_defaults_to_zero :
  forall p : ConvolutionParameter,
    (forall pd,
       SetUp_pad p 2 = Ok pd <->
       exists p1 p2, pd = [p1; p2] /\
         (if has (pad_h p) || has (pad_w p)
          then pad p = [] /\ p1 = get (pad_h p) /\ p2 = get (pad_w p)
          else pad p = [] /\ p1 = 0 /\ p2 = 0 \/
               pad p = [p1] /\ p2 = p1 \/
               pad p = [p1; p2])) /\
    SetUp_pad p 2 <> Undefined.
Proof.
  intros p. split.
  - intros pd. apply SetUp_pad_spec.
  - apply SetUp_pad_defined.
Qed.

(** ** LayerSetUp: rejected configurations *)

(** X4.  LayerSetUp on a non-empty bottom vector aborts with a message
    (it does not go on, and it does nothing undefined) when the primary
    input does not have exactly two axes after the channel axis, when the
    kernel, stride or pad block rejects the configuration, when
    num_output is not positive, or when a non-zero group count does not
    divide the channel count or num_output. *)
Theorem LayerSetUp_rejects_invalid_configuration :
  forall (D : Type) (ops : DtypeOps D) (libm : Libm D) (base : BaseConv D)
         (L : Layer D) (b0 : Blob D) (rest : list (Blob D)),
    (forall ca, CanonicalAxisIndex b0 (axis (layer_param_ L)) = Ok ca ->
                num_axes b0 - (ca + 1) <> 2) \/
    (forall ksd, SetUp_kernel_shape (layer_param_ L) 2 <> Ok ksd) \/
    (forall sd, SetUp_stride (layer_param_ L) 2 <> Ok sd) \/
    (forall pd, SetUp_pad (layer_param_ L) 2 <> Ok pd) \/
    num_output (layer_param_ L) <= 0 \/
    (group (layer_param_ L) <> 0 /\
     forall ca c, CanonicalAxisIndex b0 (axis (layer_param_ L)) = Ok ca ->
                  shape b0 ca = Ok c -> Z.rem c (group (layer_param_ L)) <> 0) \/
    (group (layer_param_ L) <> 0 /\
     Z.rem (num_output (layer_param_ L)) (group (layer_param_ L)) <> 0) ->
    exists msg, LayerSetUp L (b0 :: rest) = Fatal msg.
Proof. intros. now apply LayerSetUp_rejects. Qed.

(** X4 with num_output = 0. *)
Lemma LayerSetUp_rejects_zero_outputs :
  exists msg,
    LayerSetUp (base := dense_base 0%R) (Layer_new (square_param 2 1 0 0 false) 2 [])
      [shaped [1; 1; 2; 2]] = Fatal msg.
Proof.
  apply (@LayerSetUp_rejects_invalid_configuration R R_ops R_libm (dense_base 0%R)
           (Layer_new (square_param 2 1 0 0 false) 2 []) (shaped [1; 1; 2; 2]) []).
  do 4 right. left. cbn. lia.
Defined.

(** X5.  A group count of zero is not rejected: a configuration that
    passes every check up to num_output > 0 reaches
    [channels_ % group_] (line 126) with a zero divisor. *)
Theorem LayerSetUp_divides_by_a_zero_group :
  forall (D : Type) (ops : DtypeOps D) (libm : Libm D) (base : BaseConv D)
         (L : Layer D) (b0 : Blob D) (rest : list (Blob D))
         (ca : Z) (ksd sd pd : list Z),
    CanonicalAxisIndex b0 (axis (layer_param_ L)) = Ok ca ->
    num_axes b0 - (ca + 1) = 2 ->
    SetUp_kernel_shape (layer_param_ L) 2 = Ok ksd ->
    SetUp_stride (layer_param_ L) 2 = Ok sd ->
    SetUp_pad (layer_param_ L) 2 = Ok pd ->
    0 < num_output (layer_param_ L) ->
    group (layer_param_ L) = 0 ->
    LayerSetUp L (b0 :: rest) = Undefined.
Proof. intros. eapply LayerSetUp_group_zero; eassumption. Qed.

(** X5 on a 2x2 kernel. *)
Lemma LayerSetUp_with_zero_groups :
  LayerSetUp (base := dense_base 0%R) (Layer_new zero_group_param 2 [])
    [shaped [1; 1; 2; 2]] = Undefined.
Proof.
  apply (@LayerSetUp_divides_by_a_zero_group R R_ops R_libm (dense_base 0%R)
           (Layer_new zero_group_param 2 []) (shaped [1; 1; 2; 2]) []
           1 [2; 2] [1; 1] [0; 0]); try reflexivity.
Defined.

(** ** LayerSetUp: what a successful call establishes *)

(** X6.  After a successful LayerSetUp: four rotations; two spatial
    axes, so the primary input has three axes from the channel axis on; a
    square positive kernel; two strides and two pads; channels_ read from
    the primary input; num_output_ positive; a non-zero group count that
    divides channels_ and num_output_; one weight blob of shape
    [num_output_, channels_ / group_, k, k] and, with bias_term_, one bias
    blob of shape [num_output_]; stored parameter blobs are kept as they
    are; one propagate flag per parameter blob; a stencil shaped
    [1, 1, k, k]. *)
Theorem LayerSetUp_establishes_the_geometry :
  forall (D : Type) (ops : DtypeOps D) (libm : Libm D) (base : BaseConv D)
         (L L' : Layer D) (bottom : list (Blob D)),
    LayerSetUp L bottom = Ok L' ->
    exists b0 k s1 s2 p1 p2 W,
      nth_error bottom 0 = Some b0 /\
      layer_param_ L' = layer_param_ L /\
      num_rotations_ L' = 4 /\
      num_spatial_axes_ L' = 2 /\
      0 <= channel_axis_ L' /\
      num_axes b0 = channel_axis_ L' + 3 /\
      kernel_shape_ L' = [k; k] /\ 0 < k /\
      stride_ L' = [s1; s2] /\
      pad_ L' = [p1; p2] /\
      shape b0 (channel_axis_ L') = Ok (channels_ L') /\
      num_output_ L' = num_output (layer_param_ L) /\
      0 < num_output_ L' /\
      group_ L' = group (layer_param_ L) /\
      group_ L' <> 0 /\
      Z.rem (channels_ L') (group_ L') = 0 /\
      Z.rem (num_output_ L') (group_ L') = 0 /\
      conv_out_channels_ L' = num_output_ L' /\
      conv_in_channels_ L' = channels_ L' /\
      bias_term_ L' = bias_term (layer_param_ L) /\
      len (blobs_ L') = (if bias_term_ L' then 2 else 1) /\
      nth_error (blobs_ L') 0 = Some W /\
      shape_ W = [num_output_ L'; Z.quot (channels_ L') (group_ L'); k; k] /\
      (bias_term_ L' = true ->
       exists B, nth_error (blobs_ L') 1 = Some B /\ shape_ B = [num_output_ L']) /\
      (0 < len (blobs_ L) -> blobs_ L' = blobs_ L) /\
      len (param_propagate_down_ L') = len (blobs_ L') /\
      shape_ (gauss_kernel_ L') = [1; 1; k; k].
Proof. intros D ops libm base L L' bottom H. exact (LayerSetUp_post L bottom H). Qed.

(** X6 on two 2x2 filters with bias and one 1x2x2 image. *)
Lemma LayerSetUp_of_two_filters :
  let L := Layer_new (D := R) (square_param 2 1 0 2 true) 2 [] in
  let bottom := [tensor [1; 1; 2; 2] [0; 0; 0; 0]%R;
                 tensor [1; 2; 2; 2] [0; 0; 0; 0; 0; 0; 0; 0]%R] in
  exists L',
    LayerSetUp (base := with_constant_filler 0%R (dense_base 0%R)) L bottom = Ok L' /\
    exists b0 k s1 s2 p1 p2 W,
      nth_error bottom 0 = Some b0 /\
      layer_param_ L' = layer_param_ L /\
      num_rotations_ L' = 4 /\
      num_spatial_axes_ L' = 2 /\
      0 <= channel_axis_ L' /\
      num_axes b0 = channel_axis_ L' + 3 /\
      kernel_shape_ L' = [k; k] /\ 0 < k /\
      stride_ L' = [s1; s2] /\
      pad_ L' = [p1; p2] /\
      shape b0 (channel_axis_ L') = Ok (channels_ L') /\
      num_output_ L' = num_output (layer_param_ L) /\
      0 < num_output_ L' /\
      group_ L' = group (layer_param_ L) /\
      group_ L' <> 0 /\
      Z.rem (channels_ L') (group_ L') = 0 /\
      Z.rem (num_output_ L') (group_ L') = 0 /\
      conv_out_channels_ L' = num_output_ L' /\
      conv_in_channels_ L' = channels_ L' /\
      bias_term_ L' = bias_term (layer_param_ L) /\
      len (blobs_ L') = (if bias_term_ L' then 2 else 1) /\
      nth_error (blobs_ L') 0 = Some W /\
      shape_ W = [num_output_ L'; Z.quot (channels_ L') (group_ L'); k; k] /\
      (bias_term_ L' = true ->
       exists B, nth_error (blobs_ L') 1 = Some B /\ shape_ B = [num_output_ L']) /\
      (0 < len (blobs_ L) -> blobs_ L' = blobs_ L) /\
      len (param_propagate_down_ L') = len (blobs_ L') /\
      shape_ (gauss_kernel_ L') = [1; 1; k; k].
Proof.
  cbv zeta.
  destruct (@Layer_reshaped_is_reached R R_ops R_libm (dense_base 0%R)
              0%R 0%R 0%R 0%R 0%R 0%R) as (L1 & L2 & top & Hrun & _).
  exists L1. split; [exact Hrun | ].
  exact (@LayerSetUp_establishes_the_geometry R R_ops R_libm
           (with_constant_filler 0%R (dense_base 0%R)) _ L1 _ Hrun).
Defined.

(** ** compute_output_shape *)

(** X7.  With positive strides, a kernel no larger than the padded
    input, and operands for which line 405 stays within the range of an
    int ([output_dim_fits], per axis), compute_output_shape gives, per
    axis, an output size out >= 1 such that the last window, starting at
    (out - 1) * stride, lies inside the padded input and one more window
    would not:
    (out - 1) * stride + kernel <= input + 2 * pad < out * stride + kernel.
    pooled_height_ and pooled_width_ are the two sizes, and both are
    ints. *)
Theorem compute_output_shape_windows_fit :
  forall (D : Type) (L : Layer D) (bottom_shape : list Z)
         (kh kw sh sw pdh pdw h w : Z),
    num_spatial_axes_ L = 2 ->
    kernel_shape_ L = [kh; kw] -> stride_ L = [sh; sw] -> pad_ L = [pdh; pdw] ->
    vec_at bottom_shape (channel_axis_ L + 1) = Ok h ->
    vec_at bottom_shape (channel_axis_ L + 2) = Ok w ->
    0 < sh -> 0 < sw -> kh <= h + 2 * pdh -> kw <= w + 2 * pdw ->
    output_dim_fits h pdh kh sh -> output_dim_fits w pdw kw sw ->
    exists oh ow,
      compute_output_shape L bottom_shape = Ok ([oh; ow], oh, ow) /\
      1 <= oh /\ (oh - 1) * sh + kh <= h + 2 * pdh < oh * sh + kh /\
      1 <= ow /\ (ow - 1) * sw + kw <= w + 2 * pdw < ow * sw + kw /\
      fits_int oh /\ fits_int ow.
Proof. intros. eapply compute_output_shape_fit; eassumption. Qed.

(** X7 for kernel 3, stride 2, pad 1 on 5x5 pixels. *)
Lemma compute_output_shape_of_5x5 :
  exists oh ow,
    compute_output_shape stride2_layer [1; 1; 5; 5] = Ok ([oh; ow], oh, ow) /\
    1 <= oh /\ (oh - 1) * 2 + 3 <= 5 + 2 * 1 < oh * 2 + 3 /\
    1 <= ow /\ (ow - 1) * 2 + 3 <= 5 + 2 * 1 < ow * 2 + 3 /\
    fits_int oh /\ fits_int ow.
Proof.
  apply (@compute_output_shape_windows_fit Q stride2_layer [1; 1; 5; 5] 3 3 2 2 1 1 5 5);
    first [ reflexivity | lia
          | unfold output_dim_fits, fits_int; repeat split; vm_compute; discriminate ].
Defined.

(** X8.  The division is the truncating division of C++ ints: when the
    kernel exceeds the padded input by less than the stride on both axes,
    the quotient of the negative numerator is 0 and the output size is 1,
    although no window of the kernel's size fits. *)
Theorem compute_output_shape_truncates_toward_zero :
  forall (D : Type) (L : Layer D) (bottom_shape : list Z)
         (kh kw sh sw pdh pdw h w : Z),
    num_spatial_axes_ L = 2 ->
    kernel_shape_ L = [kh; kw] -> stride_ L = [sh; sw] -> pad_ L = [pdh; pdw] ->
    vec_at bottom_shape (channel_axis_ L + 1) = Ok h ->
    vec_at bottom_shape (channel_axis_ L + 2) = Ok w ->
    0 < sh -> 0 < sw ->
    kh - sh < h + 2 * pdh < kh -> kw - sw < w + 2 * pdw < kw ->
    compute_output_shape L bottom_shape = Ok ([1; 1], 1, 1).
Proof. intros. eapply compute_output_shape_truncates; eassumption. Qed.

(** X8 for kernel 3, stride 4, no padding on one pixel. *)
Lemma compute_output_shape_of_one_pixel :
  compute_output_shape oversized_kernel_layer [1; 1; 1; 1] = Ok ([1; 1], 1, 1).
Proof.
  apply (@compute_output_shape_truncates_toward_zero Q oversized_kernel_layer
           [1; 1; 1; 1] 3 3 4 4 0 0 1 1); first [reflexivity | lia].
Defined.

(** X9.  compute_output_shape divides by the stride without a check
    (lines 405-406): with a zero stride on either axis the division is by
    zero.  The stride block of LayerSetUp lets such a stride through when
    it is given as stride_h or stride_w. *)
Theorem compute_output_shape_divides_by_a_zero_stride :
  forall (D : Type) (L : Layer D) (bottom_shape : list Z)
         (kh kw sh sw pdh pdw h w : Z),
    num_spatial_axes_ L = 2 ->
    kernel_shape_ L = [kh; kw] -> stride_ L = [sh; sw] -> pad_ L = [pdh; pdw] ->
    vec_at bottom_shape (channel_axis_ L + 1) = Ok h ->
    vec_at bottom_shape (channel_axis_ L + 2) = Ok w ->
    sh = 0 \/ sw = 0 ->
    compute_output_shape L bottom_shape = Undefined.
Proof. intros. eapply compute_output_shape_zero_stride; eassumption. Qed.

(** X9 for kernel 2 on 2x2 pixels. *)
Lemma compute_output_shape_with_stride_zero :
  compute_output_shape zero_stride_layer [1; 1; 2; 2] = Undefined.
Proof.
  apply (@compute_output_shape_divides_by_a_zero_stride Q zero_stride_layer
           [1; 1; 2; 2] 2 2 0 0 0 0 2 2); first [reflexivity | left; reflexivity].
Defined.

(** ** Reshape *)

(** X10.  Reshape reads bottom[1] and shapes top[1] and top[2]
    unconditionally: with fewer than MinBottomBlobs() = 2 bottoms or
    fewer than three tops it does not complete.  The class declares
    MinTopBlobs() = 1. *)
Theorem Reshape_needs_two_bottoms_and_three_tops :
  forall (D : Type) (ops : DtypeOps D) (L : Layer D) (bottom top : list (Blob D)),
    len bottom < MinBottomBlobs \/ len top < 3 ->
    (exists msg, Reshape L bottom top = Fatal msg) \/ Reshape L bottom top = Undefined.
Proof.
  intros D ops L bottom top Hlen.
  destruct (Reshape L bottom top) as [r | msg | ] eqn:Hr; [ | eauto | auto].
  apply Reshape_needs_blobs in Hr. unfold MinBottomBlobs in Hlen. lia.
Qed.

(** X10 with the declared minimum of one top. *)
Lemma Reshape_with_one_top :
  len [@Blob_empty Q] = MinTopBlobs /\
  ((exists msg,
      Reshape one_pixel_layer
        [tensor [1; 1; 1; 1] (Qs [5]); tensor [1; 2; 1; 1] (Qs [1; 0])] [Blob_empty]
      = Fatal msg) \/
   Reshape one_pixel_layer
     [tensor [1; 1; 1; 1] (Qs [5]); tensor [1; 2; 1; 1] (Qs [1; 0])] [Blob_empty]
   = Undefined).
Proof.
  split; [reflexivity | ].
  apply (@Reshape_needs_two_bottoms_and_three_tops Q Q_ops one_pixel_layer
           [tensor [1; 1; 1; 1] (Qs [5]); tensor [1; 2; 1; 1] (Qs [1; 0])] [Blob_empty]).
  right. reflexivity.
Defined.

(** X11.  On a layer set up for N x C x H x W inputs (channel axis 1),
    a successful Reshape has checked that the primary input is
    [n, channels_, h, w] and the gradient field [n, 2, h, w]; both strides
    are non-zero; with out_h = (h + 2 pad_h - kernel_h) / stride_h + 1 and
    out_w likewise, top[0] is shaped [n, num_output_, out_h, out_w],
    top[1] and top[2] are shaped [n, 2, out_h, out_w], the orientation map
    [n, 1, out_h, out_w] and the alpha field [n, 4, out_h, out_w], each
    keeping its storage as Blob::Reshape does; num_, bottom_dim_,
    top_dim_, output_shape_ and the pooled sizes are set accordingly; the
    parameter blobs, the stencil and the geometry are left as they
    were. *)
Theorem Reshape_shapes_the_tops_and_members :
  forall (D : Type) (ops : DtypeOps D) (L L' : Layer D)
         (bottom top top' : list (Blob D)) (k1 k2 s1 s2 p1 p2 : Z),
    channel_axis_ L = 1 -> num_spatial_axes_ L = 2 ->
    kernel_shape_ L = [k1; k2] -> stride_ L = [s1; s2] -> pad_ L = [p1; p2] ->
    Reshape L bottom top = Ok (L', top') ->
    exists n c h w b0 b1 brest t0 t1 t2 trest,
      bottom = b0 :: b1 :: brest /\ top = t0 :: t1 :: t2 :: trest /\
      shape_ b0 = [n; c; h; w] /\ c = channels_ L /\
      shape b1 0 = Ok n /\ shape b1 1 = Ok 2 /\ shape b1 2 = Ok h /\ shape b1 3 = Ok w /\
      s1 <> 0 /\ s2 <> 0 /\
      let oh := Z.quot (h + 2 * p1 - k1) s1 + 1 in
      let ow := Z.quot (w + 2 * p2 - k2) s2 + 1 in
      top' = Blob_Reshape t0 [n; num_output_ L; oh; ow]
             :: Blob_Reshape t1 [n; 2; oh; ow]
             :: Blob_Reshape t2 [n; 2; oh; ow] :: trest /\
      num_ L' = n /\
      bottom_shape_ L' = [n; c; h; w] /\
      output_shape_ L' = [oh; ow] /\
      pooled_height_ L' = oh /\ pooled_width_ L' = ow /\
      bottom_dim_ L' = c * h * w /\
      top_dim_ L' = num_output_ L * oh * ow /\
      orientation_map_ L' = Blob_Reshape (orientation_map_ L) [n; 1; oh; ow] /\
      intermediate_kernel_alphas_ L'
      = Blob_Reshape (intermediate_kernel_alphas_ L) [n; 4; oh; ow] /\
      blobs_ L' = blobs_ L /\
      gauss_kernel_ L' = gauss_kernel_ L /\
      kernel_shape_ L' = kernel_shape_ L /\ stride_ L' = stride_ L /\ pad_ L' = pad_ L /\
      channels_ L' = channels_ L /\ num_output_ L' = num_output_ L /\
      bias_term_ L' = bias_term_ L /\
      param_propagate_down_ L' = param_propagate_down_ L.
Proof. intros. eapply Reshape_post; eassumption. Qed.

(** X11 for two 2x2 filters on one 1x2x2 image. *)
Lemma Reshape_of_two_filters :
  let L := two_filter_layer in
  let bottom := [tensor [1; 1; 2; 2] (Qs [1; 0; 0; 0]);
                 tensor [1; 2; 2; 2] (Qs [1; 0; 0; 0; 0; 1; 0; 0])] in
  let top := [@Blob_empty Q; Blob_empty; Blob_empty] in
  exists L' top',
    Reshape L bottom top = Ok (L', top') /\
    exists n c h w b0 b1 brest t0 t1 t2 trest,
      bottom = b0 :: b1 :: brest /\ top = t0 :: t1 :: t2 :: trest /\
      shape_ b0 = [n; c; h; w] /\ c = channels_ L /\
      shape b1 0 = Ok n /\ shape b1 1 = Ok 2 /\ shape b1 2 = Ok h /\ shape b1 3 = Ok w /\
      1 <> 0 /\ 1 <> 0 /\
      let oh := Z.quot (h + 2 * 0 - 2) 1 + 1 in
      let ow := Z.quot (w + 2 * 0 - 2) 1 + 1 in
      top' = Blob_Reshape t0 [n; num_output_ L; oh; ow]
             :: Blob_Reshape t1 [n; 2; oh; ow]
             :: Blob_Reshape t2 [n; 2; oh; ow] :: trest /\
      num_ L' = n /\
      bottom_shape_ L' = [n; c; h; w] /\
      output_shape_ L' = [oh; ow] /\
      pooled_height_ L' = oh /\ pooled_width_ L' = ow /\
      bottom_dim_ L' = c * h * w /\
      top_dim_ L' = num_output_ L * oh * ow /\
      orientation_map_ L' = Blob_Reshape (orientation_map_ L) [n; 1; oh; ow] /\
      intermediate_kernel_alphas_ L'
      = Blob_Reshape (intermediate_kernel_alphas_ L) [n; 4; oh; ow] /\
      blobs_ L' = blobs_ L /\
      gauss_kernel_ L' = gauss_kernel_ L /\
      kernel_shape_ L' = kernel_shape_ L /\ stride_ L' = stride_ L /\ pad_ L' = pad_ L /\
      channels_ L' = channels_ L /\ num_output_ L' = num_output_ L /\
      bias_term_ L' = bias_term_ L /\
      param_propagate_down_ L' = param_propagate_down_ L.
Proof.
  cbv zeta. eexists. eexists. split; [vm_compute; reflexivity | ].
  apply (@Reshape_shapes_the_tops_and_members Q Q_ops two_filter_layer _
           [tensor [1; 1; 2; 2] (Qs [1; 0; 0; 0]);
            tensor [1; 2; 2; 2] (Qs [1; 0; 0; 0; 0; 1; 0; 0])]
           [Blob_empty; Blob_empty; Blob_empty] _ 2 2 1 1 0 0);
    try reflexivity.
Defined.

(** ** GaussConvolveHelper: every output cell *)

(** X12.  When the input and the output have [channels_] channels and
    their storage covers their shapes, GaussConvolveHelper completes, and
    output cell (n, c, ph, pw) holds the sum, in loop order and starting
    from zero, of stencil entry times input pixel over the window of the
    cell clipped to the image ([gauss_cell]); storage of the output beyond
    its shape is left as it was. *)
Theorem GaussConvolveHelper_sums_the_clipped_window :
  forall (D : Type) (ops : DtypeOps D) (L : Layer D) (inb out : Blob D)
         (N H W PH PW kh kw sh sw pdh pdw : Z),
    shape_ inb = [N; channels_ L; H; W] ->
    shape_ out = [N; channels_ L; PH; PW] ->
    stride_ L = [sh; sw] -> pad_ L = [pdh; pdw] -> kernel_shape_ L = [kh; kw] ->
    0 <= N -> 0 <= channels_ L -> 0 <= H -> 0 <= W -> 0 <= PH -> 0 <= PW ->
    0 <= kh -> 0 <= kw ->
    kh * kw <= len (data_ (gauss_kernel_ L)) ->
    count inb <= len (data_ inb) ->
    count out <= len (data_ out) ->
    exists od,
      GaussConvolveHelper L inb out = Ok (set_data out od) /\
      len od = len (data_ out) /\
      (forall n c ph pw,
         0 <= n < N -> 0 <= c < channels_ L -> 0 <= ph < PH -> 0 <= pw < PW ->
         rd od (offset out n c ph pw)
         = Ok (gauss_cell (data_ (gauss_kernel_ L)) (data_ inb) (offset inb n c 0 0)
                 H W kh kw sh sw pdh pdw ph pw)) /\
      (forall j, count out <= j -> rd od j = rd (data_ out) j).
Proof. intros. eapply GaussConvolveHelper_spec; eassumption. Qed.

(** X12 for a 2x2 stencil on two channels of 3x3 pixels. *)
Lemma GaussConvolveHelper_on_3x3 :
  let inb := tensor [1; 2; 3; 3]
               (Qs [1; 2; 3; 4; 5; 6; 7; 8; 9; 9; 8; 7; 6; 5; 4; 3; 2; 1]) in
  let out := Blob_new (D := Q) [1; 2; 2; 2] in
  exists od,
    GaussConvolveHelper smoothing_layer inb out = Ok (set_data out od) /\
    len od = len (data_ out) /\
    (forall n c ph pw,
       0 <= n < 1 -> 0 <= c < channels_ smoothing_layer -> 0 <= ph < 2 -> 0 <= pw < 2 ->
       rd od (offset out n c ph pw)
       = Ok (gauss_cell (data_ (gauss_kernel_ smoothing_layer)) (data_ inb)
               (offset inb n c 0 0) 3 3 2 2 1 1 0 0 ph pw)) /\
    (forall j, count out <= j -> rd od j = rd (data_ out) j).
Proof.
  cbv zeta.
  apply (@GaussConvolveHelper_sums_the_clipped_window Q Q_ops smoothing_layer
           (tensor [1; 2; 3; 3] (Qs [1; 2; 3; 4; 5; 6; 7; 8; 9; 9; 8; 7; 6; 5; 4; 3; 2; 1]))
           (Blob_new [1; 2; 2; 2]) 1 3 3 2 2 2 2 1 1 0 0);
    first [reflexivity | lia | vm_compute; discriminate].
Defined.

(** X13.  The result does not depend on what the output tensor held
    before the call: the helper clears the output (caffe_set, line 369)
    before it accumulates, so two calls that differ only in the previous
    contents of the output return the same tensor. *)
Theorem GaussConvolveHelper_ignores_previous_output :
  forall (D : Type) (ops : DtypeOps D) (L : Layer D) (inb out : Blob D) (d d' : list D)
         (N H W PH PW kh kw sh sw pdh pdw : Z),
    shape_ inb = [N; channels_ L; H; W] ->
    shape_ out = [N; channels_ L; PH; PW] ->
    stride_ L = [sh; sw] -> pad_ L = [pdh; pdw] -> kernel_shape_ L = [kh; kw] ->
    0 <= N -> 0 <= channels_ L -> 0 <= H -> 0 <= W -> 0 <= PH -> 0 <= PW ->
    0 <= kh -> 0 <= kw ->
    kh * kw <= len (data_ (gauss_kernel_ L)) ->
    count inb <= len (data_ inb) ->
    len d = count out -> len d' = count out ->
    exists od,
      GaussConvolveHelper L inb (set_data out d) = Ok (set_data out od) /\
      GaussConvolveHelper L inb (set_data out d') = Ok (set_data out od).
Proof. intros. eapply GaussConvolveHelper_same_output; eassumption. Qed.

(** X13 for outputs that held zeros and nines. *)
Lemma GaussConvolveHelper_over_stale_output :
  let inb := tensor [1; 2; 3; 3]
               (Qs [1; 2; 3; 4; 5; 6; 7; 8; 9; 9; 8; 7; 6; 5; 4; 3; 2; 1]) in
  let out := Blob_new (D := Q) [1; 2; 2; 2] in
  exists od,
    GaussConvolveHelper smoothing_layer inb (set_data out (Qs [0; 0; 0; 0; 0; 0; 0; 0]))
    = Ok (set_data out od) /\
    GaussConvolveHelper smoothing_layer inb (set_data out (Qs [9; 9; 9; 9; 9; 9; 9; 9]))
    = Ok (set_data out od).
Proof.
  cbv zeta.
  apply (@GaussConvolveHelper_ignores_previous_output Q Q_ops smoothing_layer
           (tensor [1; 2; 3; 3] (Qs [1; 2; 3; 4; 5; 6; 7; 8; 9; 9; 8; 7; 6; 5; 4; 3; 2; 1]))
           (Blob_new [1; 2; 2; 2]) (Qs [0; 0; 0; 0; 0; 0; 0; 0]) (Qs [9; 9; 9; 9; 9; 9; 9; 9])
           1 3 3 2 2 2 2 1 1 0 0);
    first [reflexivity | lia | vm_compute; discriminate].
Defined.

(** ** Forward_cpu *)

(** X14.  Forward_cpu starts by reading bottom[1] and top[2] (line 418):
    with fewer than two bottoms or fewer than three tops it indexes a
    vector out of range. *)
Theorem Forward_cpu_needs_two_bottoms_and_three_tops :
  forall (D : Type) (ops : DtypeOps D) (libm : Libm D) (base : BaseConv D)
         (scale_sketch : Layer D -> Z -> Z -> list D -> list D -> list D)
         (L : Layer D) (bottom top : list (Blob D)),
    len bottom < MinBottomBlobs \/ len top < 3 ->
    Forward_cpu scale_sketch L bottom top = Undefined.
Proof. intros. now apply Forward_cpu_needs_blobs. Qed.

(** X14 with two bottoms and the declared minimum of one top. *)
Lemma Forward_cpu_with_one_top :
  len [@Blob_empty R] = MinTopBlobs /\
  Forward_cpu (base := dense_base 0%R) (@no_scaling R) orientation_layer
    [shaped [1; 1; 1; 1]; shaped [1; 2; 1; 1]] [Blob_empty] = Undefined.
Proof.
  split; [reflexivity | ].
  apply (@Forward_cpu_needs_two_bottoms_and_three_tops R R_ops R_libm (dense_base 0%R)
           (@no_scaling R) orientation_layer
           [shaped [1; 1; 1; 1]; shaped [1; 2; 1; 1]] [Blob_empty]).
  right. reflexivity.
Defined.

(** X15.  When the orientation map is shaped [N, 1, H, W], the alpha
    field [N, 4, H, W] and their storage covers the shapes, the alpha fill
    completes and works location by location: at (n, h, w) the four
    channels after the call are what [alpha_cell] makes of the four
    channels before the call and of the angle 180 * orientation / M_PI at
    that location.  No location depends on another one, and storage beyond
    the shape is left as it was. *)
Theorem Forward_alphas_updates_each_location_by_alpha_cell :
  forall (D : Type) (ops : DtypeOps D) (L : Layer D) (orient alphas : list D)
         (N H W : Z),
    shape_ (orientation_map_ L) = [N; 1; H; W] ->
    shape_ (intermediate_kernel_alphas_ L) = [N; 4; H; W] ->
    0 <= N -> 0 <= H -> 0 <= W ->
    N * (H * W) <= len orient ->
    N * (4 * (H * W)) <= len alphas ->
    exists alphas',
      Forward_alphas L orient alphas = Ok alphas' /\
      len alphas' = len alphas /\
      (forall n h w, 0 <= n < N -> 0 <= h < H -> 0 <= w < W ->
         exists o a0 a1 a2 a3 b0 b1 b2 b3,
           rd orient (offset (orientation_map_ L) n 0 h w) = Ok o /\
           rd alphas (offset (intermediate_kernel_alphas_ L) n 0 h w) = Ok a0 /\
           rd alphas (offset (intermediate_kernel_alphas_ L) n 1 h w) = Ok a1 /\
           rd alphas (offset (intermediate_kernel_alphas_ L) n 2 h w) = Ok a2 /\
           rd alphas (offset (intermediate_kernel_alphas_ L) n 3 h w) = Ok a3 /\
           rd alphas' (offset (intermediate_kernel_alphas_ L) n 0 h w) = Ok b0 /\
           rd alphas' (offset (intermediate_kernel_alphas_ L) n 1 h w) = Ok b1 /\
           rd alphas' (offset (intermediate_kernel_alphas_ L) n 2 h w) = Ok b2 /\
           rd alphas' (offset (intermediate_kernel_alphas_ L) n 3 h w) = Ok b3 /\
           alpha_cell (ddiv (dmul (of_lit (180 # 1)) o) M_PI) [a0; a1; a2; a3] 0 1 2 3
           = Ok [b0; b1; b2; b3]) /\
      (forall j, N * (4 * (H * W)) <= j -> rd alphas' j = rd alphas j).
Proof. intros. eapply Forward_alphas_spec; eassumption. Qed.

(** X15 on one pixel. *)
Lemma Forward_alphas_on_one_pixel :
  let L := one_pixel_layer in
  let orient := Qs [1] in
  let alphas := Qs [5; 6; 7; 8] in
  exists alphas',
    Forward_alphas L orient alphas = Ok alphas' /\
    len alphas' = len alphas /\
    (forall n h w, 0 <= n < 1 -> 0 <= h < 1 -> 0 <= w < 1 ->
       exists o a0 a1 a2 a3 b0 b1 b2 b3,
         rd orient (offset (orientation_map_ L) n 0 h w) = Ok o /\
         rd alphas (offset (intermediate_kernel_alphas_ L) n 0 h w) = Ok a0 /\
         rd alphas (offset (intermediate_kernel_alphas_ L) n 1 h w) = Ok a1 /\
         rd alphas (offset (intermediate_kernel_alphas_ L) n 2 h w) = Ok a2 /\
         rd alphas (offset (intermediate_kernel_alphas_ L) n 3 h w) = Ok a3 /\
         rd alphas' (offset (intermediate_kernel_alphas_ L) n 0 h w) = Ok b0 /\
         rd alphas' (offset (intermediate_kernel_alphas_ L) n 1 h w) = Ok b1 /\
         rd alphas' (offset (intermediate_kernel_alphas_ L) n 2 h w) = Ok b2 /\
         rd alphas' (offset (intermediate_kernel_alphas_ L) n 3 h w) = Ok b3 /\
         alpha_cell (ddiv (dmul (of_lit (180 # 1)) o) M_PI) [a0; a1; a2; a3] 0 1 2 3
         = Ok [b0; b1; b2; b3]) /\
    (forall j, 1 * (4 * (1 * 1)) <= j -> rd alphas' j = rd alphas j).
Proof.
  cbv zeta.
  apply (@Forward_alphas_updates_each_location_by_alpha_cell Q Q_ops one_pixel_layer
           (Qs [1]) (Qs [5; 6; 7; 8]) 1 1 1);
    first [reflexivity | lia | vm_compute; discriminate].
Defined.

(** X16.  For an orientation that the arctangent returns, the angle in
    degrees lies in (-180, 180], exactly one bracket of lines 461-484
    applies, and it overwrites two adjacent channels with 1 - w and w for
    a weight w in [0, 1]: channels (2, 3) on [-180, -90), (3, 0) on
    [-90, 0), (0, 1) on [0, 90) and (1, 2) on [90, 180].  The two other
    channels keep the values they had. *)
Theorem alpha_cell_writes_two_adjacent_convex_weights :
  forall y x a0 a1 a2 a3 : R,
    let angle := ddiv (dmul (of_lit (180 # 1)) (m_atan2 y x)) M_PI in
    (-180 < angle <= 180)%R /\
    exists w : R,
      (0 <= w <= 1)%R /\
      ((-180 <= angle < -90)%R /\ w = ((angle + 180) / 90)%R /\
       alpha_cell angle [a0; a1; a2; a3] 0 1 2 3 = Ok [a0; a1; (1 - w)%R; w]
       \/
       (-90 <= angle < 0)%R /\ w = ((angle + 90) / 90)%R /\
       alpha_cell angle [a0; a1; a2; a3] 0 1 2 3 = Ok [w; a1; a2; (1 - w)%R]
       \/
       (0 <= angle < 90)%R /\ w = (angle / 90)%R /\
       alpha_cell angle [a0; a1; a2; a3] 0 1 2 3 = Ok [(1 - w)%R; w; a2; a3]
       \/
       (90 <= angle <= 180)%R /\ w = ((angle - 90) / 90)%R /\
       alpha_cell angle [a0; a1; a2; a3] 0 1 2 3 = Ok [a0; (1 - w)%R; w; a3]).
Proof.
  intros y x a0 a1 a2 a3 angle.
  assert (Hangle : (-180 < angle <= 180)%R).
  { subst angle. cbn [ddiv dmul of_lit M_PI m_atan2 R_ops R_libm].
    replace (Q2R (180 # 1)) with 180%R by (unfold Q2R; simpl; lra).
    apply degrees_of_Ratan2. }
  split; [exact Hangle | ]. apply alpha_cell_R. lra.
Qed.

(** ** Backward_cpu *)

(** X17.  A backward pass that completes has changed gradients only:
    the layer is the one it was with new parameter blobs, the parameter
    blobs and the bottoms keep their number, shapes and data; and it had
    at least as many bottoms as tops to pair. *)
Theorem Backward_cpu_changes_gradients_only :
  forall (D : Type) (base : BaseConv D) (L L' : Layer D) (top : list (Blob D))
         (propagate_down : list bool) (bottom bottom' : list (Blob D)),
    Backward_cpu L top propagate_down bottom = Ok (L', bottom') ->
    L' = set_blobs L (blobs_ L') /\
    map (@shape_ D) (blobs_ L') = map (@shape_ D) (blobs_ L) /\
    map (@data_ D) (blobs_ L') = map (@data_ D) (blobs_ L) /\
    map (@shape_ D) bottom' = map (@shape_ D) bottom /\
    map (@data_ D) bottom' = map (@data_ D) bottom /\
    len top <= len bottom.
Proof. intros. eapply Backward_cpu_frame; eassumption. Qed.

(** X17 for one top paired with the primary input. *)
Lemma Backward_cpu_of_one_top :
  let L := example_layer (Qs [0; 0; 0; 0]) in
  let top := [tensor [1; 1; 1; 1] (Qs [0])] in
  let bottom := [tensor [1; 1; 2; 2] (Qs [1; 0; 0; 0]);
                 tensor [1; 2; 2; 2] (Qs [1; 0; 0; 0; 0; 1; 0; 0])] in
  exists L' bottom',
    Backward_cpu (base := dense_base 0%Q) L top [true] bottom = Ok (L', bottom') /\
    L' = set_blobs L (blobs_ L') /\
    map (@shape_ Q) (blobs_ L') = map (@shape_ Q) (blobs_ L) /\
    map (@data_ Q) (blobs_ L') = map (@data_ Q) (blobs_ L) /\
    map (@shape_ Q) bottom' = map (@shape_ Q) bottom /\
    map (@data_ Q) bottom' = map (@data_ Q) bottom /\
    len top <= len bottom.
Proof.
  cbv zeta. eexists. eexists. split; [vm_compute; reflexivity | ].
  apply (@Backward_cpu_changes_gradients_only Q (dense_base 0%Q)
           (example_layer (Qs [0; 0; 0; 0])) _ [tensor [1; 1; 1; 1] (Qs [0])] [true]
           [tensor [1; 1; 2; 2] (Qs [1; 0; 0; 0]);
            tensor [1; 2; 2; 2] (Qs [1; 0; 0; 0; 0; 1; 0; 0])] _).
  vm_compute. reflexivity.
Defined.

(** ** LayerSetUp on a freshly constructed layer *)



(** ** Reshape: the rotated copies *)

(** X19.  For weights shaped [N, C, K2, K3] whose storage reaches past
    index K2 * K3 + K3, and four copies with room for the weights'
    count, the fill of lines 315-345 completes, and every plane (n, c) of
    the four copies is read from the start of the weights: at row h and
    column w copy 0 holds weights[h * K3 + w], copy 1
    weights[w * K3 + K2 - h], copy 2 weights[(K2 - h) * K3 + K3 - w] and
    copy 3 weights[(K3 - w) * K3 + h], whatever n and c are.  The copies
    keep their length, and their storage beyond the weights' count is
    left as it was. *)
Theorem Reshape_rotate_fills_every_plane_from_the_first_planes :
  forall (D : Type) (w0 : Blob D) (r0 r1 r2 r3 : list D) (N C K2 K3 : Z),
    shape_ w0 = [N; C; K2; K3] ->
    0 <= N -> 0 <= C -> 0 <= K2 -> 0 <= K3 ->
    K2 * K3 + K3 < len (data_ w0) ->
    K3 * K3 + K2 <= len (data_ w0) ->
    N * C * (K2 * K3) <= len r0 -> N * C * (K2 * K3) <= len r1 ->
    N * C * (K2 * K3) <= len r2 -> N * C * (K2 * K3) <= len r3 ->
    exists a0 a1 a2 a3,
      Reshape_rotate w0 [r0; r1; r2; r3] = Ok [a0; a1; a2; a3] /\
      len a0 = len r0 /\ len a1 = len r1 /\ len a2 = len r2 /\ len a3 = len r3 /\
      (forall n c h w, 0 <= n < N -> 0 <= c < C -> 0 <= h < K2 -> 0 <= w < K3 ->
         rd a0 (offset w0 n c h w) = rd (data_ w0) (h * K3 + w) /\
         rd a1 (offset w0 n c h w) = rd (data_ w0) (w * K3 + K2 - h) /\
         rd a2 (offset w0 n c h w) = rd (data_ w0) ((K2 - h) * K3 + K3 - w) /\
         rd a3 (offset w0 n c h w) = rd (data_ w0) ((K3 - w) * K3 + h)) /\
      (forall j, N * C * (K2 * K3) <= j ->
         rd a0 j = rd r0 j /\ rd a1 j = rd r1 j /\ rd a2 j = rd r2 j /\ rd a3 j = rd r3 j).
Proof.
  intros D w0 r0 r1 r2 r3 N C K2 K3 Hs HN HC H2 H3 Hra Hrb Hf0 Hf1 Hf2 Hf3.
  destruct (@Reshape_rotate_spec D w0 r0 r1 r2 r3 N C K2 K3)
    as (a0 & a1 & a2 & a3 & Hrun & (L0 & F0 & U0) & (L1 & F1 & U1) & (L2 & F2 & U2)
        & (L3 & F3 & U3)); try assumption.
  exists a0, a1, a2, a3. repeat (split; [assumption | ]). split.
  - intros n c h w Hn Hc Hh Hw.
    destruct (shape_of w0 Hs) as (_ & _ & _ & _ & _ & Hoff). rewrite Hoff.
    replace (((n * C + c) * K2 + h) * K3 + w)
      with ((n * C + c) * (K2 * K3) + (h * K3 + w)) by ring.
    assert (Hm : 0 <= n * C + c) by nia.
    assert (Hlt : (n * C + c) * (K2 * K3) + (h * K3 + w) < N * C * (K2 * K3)).
    { assert (n * C + c + 1 <= N * C) by nia.
      assert ((n * C + c + 1) * (K2 * K3) <= N * C * (K2 * K3))
        by (apply Z.mul_le_mono_nonneg_r; nia).
      nia. }
    rewrite (F0 _ _ _ Hm Hh Hw Hlt), (F1 _ _ _ Hm Hh Hw Hlt), (F2 _ _ _ Hm Hh Hw Hlt),
      (F3 _ _ _ Hm Hh Hw Hlt).
    repeat split; reflexivity.
  - intros j Hj. auto.
Qed.

(** X19 for two 2x2 planes. *)
Lemma Reshape_rotate_on_two_2x2_planes :
  let w0 := tensor [2; 1; 2; 2] (Qs [1; 2; 3; 4; 5; 6; 7; 8]) in
  let r := Qs [0; 0; 0; 0; 0; 0; 0; 0] in
  exists a0 a1 a2 a3,
    Reshape_rotate w0 [r; r; r; r] = Ok [a0; a1; a2; a3] /\
    len a0 = len r /\ len a1 = len r /\ len a2 = len r /\ len a3 = len r /\
    (forall n c h w, 0 <= n < 2 -> 0 <= c < 1 -> 0 <= h < 2 -> 0 <= w < 2 ->
       rd a0 (offset w0 n c h w) = rd (data_ w0) (h * 2 + w) /\
       rd a1 (offset w0 n c h w) = rd (data_ w0) (w * 2 + 2 - h) /\
       rd a2 (offset w0 n c h w) = rd (data_ w0) ((2 - h) * 2 + 2 - w) /\
       rd a3 (offset w0 n c h w) = rd (data_ w0) ((2 - w) * 2 + h)) /\
    (forall j, 2 * 1 * (2 * 2) <= j ->
       rd a0 j = rd r j /\ rd a1 j = rd r j /\ rd a2 j = rd r j /\ rd a3 j = rd r j).
Proof.
  cbv zeta.
  apply (@Reshape_rotate_fills_every_plane_from_the_first_planes Q
           (tensor [2; 1; 2; 2] (Qs [1; 2; 3; 4; 5; 6; 7; 8]))
           (Qs [0; 0; 0; 0; 0; 0; 0; 0]) (Qs [0; 0; 0; 0; 0; 0; 0; 0])
           (Qs [0; 0; 0; 0; 0; 0; 0; 0]) (Qs [0; 0; 0; 0; 0; 0; 0; 0]) 2 1 2 2);
    first [reflexivity | lia | vm_compute; discriminate].
Defined.

(** ** Reshape on well-shaped inputs *)

(** X20.  On a layer set up for N x C x H x W inputs (channel axis 1,
    two spatial axes, four rotations, non-zero strides and group count),
    with a primary input shaped [n, channels_, h, w], a gradient field
    [n, 2, h, w], three tops, weights shaped [N, C, K2, K3] whose storage
    reaches past index K2 * K3 + K3 and four rotated kernels with room
    for the weights' count, where every extent is at least 1, both
    output sizes are at least 1, and the sizes Reshape computes are ints
    ([output_dim_fits] per axis and [Reshape_sizes_fit]): Reshape
    completes, the layer is [Layer_after_Reshape], the three tops are
    reshaped, and the rotated kernels hold the copies filled as
    [rot_filled] says. *)
Theorem Reshape_completes_on_well_shaped_inputs :
  forall (D : Type) (ops : DtypeOps D) (L : Layer D)
         (b0 b1 : Blob D) (brest : list (Blob D))
         (t0 t1 t2 : Blob D) (trest : list (Blob D))
         (W : Blob D) (wrest : list (Blob D))
         (i0 i1 i2 i3 : Blob D) (irest : list (Blob D))
         (n h w k1 k2 s1 s2 p1 p2 N C K2 K3 : Z),
    let oh := Z.quot (h + 2 * p1 - k1) s1 + 1 in
    let ow := Z.quot (w + 2 * p2 - k2) s2 + 1 in
    channel_axis_ L = 1 -> num_spatial_axes_ L = 2 -> num_rotations_ L = 4 ->
    kernel_shape_ L = [k1; k2] -> stride_ L = [s1; s2] -> pad_ L = [p1; p2] ->
    s1 <> 0 -> s2 <> 0 -> group_ L <> 0 ->
    1 <= n -> 1 <= channels_ L -> 1 <= h -> 1 <= w -> 1 <= num_output_ L ->
    1 <= oh -> 1 <= ow ->
    output_dim_fits h p1 k1 s1 -> output_dim_fits w p2 k2 s2 ->
    Reshape_sizes_fit L n (channels_ L) h w oh ow (C * (K2 * K3)) ->
    shape_ b0 = [n; channels_ L; h; w] ->
    shape b1 0 = Ok n -> shape b1 1 = Ok 2 -> shape b1 2 = Ok h -> shape b1 3 = Ok w ->
    blobs_ L = W :: wrest ->
    shape_ W = [N; C; K2; K3] ->
    1 <= N -> 1 <= C -> 1 <= K2 -> 1 <= K3 ->
    K2 * K3 + K3 < len (data_ W) ->
    K3 * K3 + K2 <= len (data_ W) ->
    intermediate_kernels_ L = i0 :: i1 :: i2 :: i3 :: irest ->
    N * C * (K2 * K3) <= len (data_ i0) -> N * C * (K2 * K3) <= len (data_ i1) ->
    N * C * (K2 * K3) <= len (data_ i2) -> N * C * (K2 * K3) <= len (data_ i3) ->
    exists a0 a1 a2 a3,
      Reshape L (b0 :: b1 :: brest) (t0 :: t1 :: t2 :: trest)
      = Ok (Layer_after_Reshape L n (channels_ L) h w oh ow
              (set_data i0 a0 :: set_data i1 a1 :: set_data i2 a2 :: set_data i3 a3
               :: irest),
            Blob_Reshape t0 [n; num_output_ L; oh; ow]
            :: Blob_Reshape t1 [n; 2; oh; ow]
            :: Blob_Reshape t2 [n; 2; oh; ow] :: trest) /\
      rot_filled (data_ W) K2 K3 0 (N * C * (K2 * K3)) (data_ i0) a0 /\
      rot_filled (data_ W) K2 K3 1 (N * C * (K2 * K3)) (data_ i1) a1 /\
      rot_filled (data_ W) K2 K3 2 (N * C * (K2 * K3)) (data_ i2) a2 /\
      rot_filled (data_ W) K2 K3 3 (N * C * (K2 * K3)) (data_ i3) a3.
Proof.
  intros. subst oh ow.
  eapply (@Reshape_complete D ops L b0 b1 brest t0 t1 t2 trest W wrest i0 i1 i2 i3 irest
            n h w k1 k2 s1 s2 p1 p2 N C K2 K3); first [assumption | lia].
Qed.

(** X20 for two 2x2 filters on one 1x2x2 image. *)
Lemma Reshape_completes_on_two_filters :
  let L := two_filter_layer in
  let b0 := tensor [1; 1; 2; 2] (Qs [1; 0; 0; 0]) in
  let b1 := tensor [1; 2; 2; 2] (Qs [1; 0; 0; 0; 0; 1; 0; 0]) in
  let W := tensor [2; 1; 2; 2] (Qs [1; 2; 3; 4; 5; 6; 7; 8]) in
  exists a0 a1 a2 a3,
    let oh := Z.quot (2 + 2 * 0 - 2) 1 + 1 in
    let ow := Z.quot (2 + 2 * 0 - 2) 1 + 1 in
    Reshape L [b0; b1] [Blob_empty; Blob_empty; Blob_empty]
    = Ok (Layer_after_Reshape L 1 (channels_ L) 2 2 oh ow
            [set_data W a0; set_data W a1; set_data W a2; set_data W a3],
          [Blob_Reshape Blob_empty [1; num_output_ L; oh; ow];
           Blob_Reshape Blob_empty [1; 2; oh; ow];
           Blob_Reshape Blob_empty [1; 2; oh; ow]]) /\
    rot_filled (data_ W) 2 2 0 (2 * 1 * (2 * 2)) (data_ W) a0 /\
    rot_filled (data_ W) 2 2 1 (2 * 1 * (2 * 2)) (data_ W) a1 /\
    rot_filled (data_ W) 2 2 2 (2 * 1 * (2 * 2)) (data_ W) a2 /\
    rot_filled (data_ W) 2 2 3 (2 * 1 * (2 * 2)) (data_ W) a3.
Proof.
  cbv zeta.
  apply (@Reshape_completes_on_well_shaped_inputs Q Q_ops two_filter_layer
           (tensor [1; 1; 2; 2] (Qs [1; 0; 0; 0]))
           (tensor [1; 2; 2; 2] (Qs [1; 0; 0; 0; 0; 1; 0; 0])) []
           Blob_empty Blob_empty Blob_empty []
           (tensor [2; 1; 2; 2] (Qs [1; 2; 3; 4; 5; 6; 7; 8]))
           [tensor [2] (Qs [10; 20])]
           (tensor [2; 1; 2; 2] (Qs [1; 2; 3; 4; 5; 6; 7; 8]))
           (tensor [2; 1; 2; 2] (Qs [1; 2; 3; 4; 5; 6; 7; 8]))
           (tensor [2; 1; 2; 2] (Qs [1; 2; 3; 4; 5; 6; 7; 8]))
           (tensor [2; 1; 2; 2] (Qs [1; 2; 3; 4; 5; 6; 7; 8])) []
           1 2 2 2 2 1 1 0 0 2 1 2 2);
    first [ reflexivity | lia | discriminate | vm_compute; discriminate
          | unfold output_dim_fits, Reshape_sizes_fit, fits_int;
            repeat split; vm_compute; discriminate ].
Defined.

(** X21.  Under the same conditions Reshape is idempotent: a second
    Reshape on the layer and the tops the first one returned, with the
    same bottoms, returns that layer and those tops again.  Shapes are
    recomputed to the same values, storage is kept with its contents, and
    the rotated copies are rewritten with the same values. *)
Theorem Reshape_twice_is_Reshape_once :
  forall (D : Type) (ops : DtypeOps D) (L : Layer D)
         (b0 b1 : Blob D) (brest : list (Blob D))
         (t0 t1 t2 : Blob D) (trest : list (Blob D))
         (W : Blob D) (wrest : list (Blob D))
         (i0 i1 i2 i3 : Blob D) (irest : list (Blob D))
         (n h w k1 k2 s1 s2 p1 p2 N C K2 K3 : Z),
    let oh := Z.quot (h + 2 * p1 - k1) s1 + 1 in
    let ow := Z.quot (w + 2 * p2 - k2) s2 + 1 in
    channel_axis_ L = 1 -> num_spatial_axes_ L = 2 -> num_rotations_ L = 4 ->
    kernel_shape_ L = [k1; k2] -> stride_ L = [s1; s2] -> pad_ L = [p1; p2] ->
    s1 <> 0 -> s2 <> 0 -> group_ L <> 0 ->
    1 <= n -> 1 <= channels_ L -> 1 <= h -> 1 <= w -> 1 <= num_output_ L ->
    1 <= oh -> 1 <= ow ->
    output_dim_fits h p1 k1 s1 -> output_dim_fits w p2 k2 s2 ->
    Reshape_sizes_fit L n (channels_ L) h w oh ow (C * (K2 * K3)) ->
    shape_ b0 = [n; channels_ L; h; w] ->
    shape b1 0 = Ok n -> shape b1 1 = Ok 2 -> shape b1 2 = Ok h -> shape b1 3 = Ok w ->
    blobs_ L = W :: wrest ->
    shape_ W = [N; C; K2; K3] ->
    1 <= N -> 1 <= C -> 1 <= K2 -> 1 <= K3 ->
    K2 * K3 + K3 < len (data_ W) ->
    K3 * K3 + K2 <= len (data_ W) ->
    intermediate_kernels_ L = i0 :: i1 :: i2 :: i3 :: irest ->
    N * C * (K2 * K3) <= len (data_ i0) -> N * C * (K2 * K3) <= len (data_ i1) ->
    N * C * (K2 * K3) <= len (data_ i2) -> N * C * (K2 * K3) <= len (data_ i3) ->
    exists L' top',
      Reshape L (b0 :: b1 :: brest) (t0 :: t1 :: t2 :: trest) = Ok (L', top') /\
      Reshape L' (b0 :: b1 :: brest) top' = Ok (L', top').
Proof.
  intros. subst oh ow.
  eapply (@Reshape_twice D ops L b0 b1 brest t0 t1 t2 trest W wrest i0 i1 i2 i3 irest
            n h w k1 k2 s1 s2 p1 p2 N C K2 K3); first [assumption | lia].
Qed.

(** X21 for two 2x2 filters on one 1x2x2 image. *)
Lemma Reshape_twice_on_two_filters :
  let bottom := [tensor [1; 1; 2; 2] (Qs [1; 0; 0; 0]);
                 tensor [1; 2; 2; 2] (Qs [1; 0; 0; 0; 0; 1; 0; 0])] in
  exists L' top',
    Reshape two_filter_layer bottom [Blob_empty; Blob_empty; Blob_empty] = Ok (L', top') /\
    Reshape L' bottom top' = Ok (L', top').
Proof.
  cbv zeta.
  apply (@Reshape_twice_is_Reshape_once Q Q_ops two_filter_layer
           (tensor [1; 1; 2; 2] (Qs [1; 0; 0; 0]))
           (tensor [1; 2; 2; 2] (Qs [1; 0; 0; 0; 0; 1; 0; 0])) []
           Blob_empty Blob_empty Blob_empty []
           (tensor [2; 1; 2; 2] (Qs [1; 2; 3; 4; 5; 6; 7; 8]))
           [tensor [2] (Qs [10; 20])]
           (tensor [2; 1; 2; 2] (Qs [1; 2; 3; 4; 5; 6; 7; 8]))
           (tensor [2; 1; 2; 2] (Qs [1; 2; 3; 4; 5; 6; 7; 8]))
           (tensor [2; 1; 2; 2] (Qs [1; 2; 3; 4; 5; 6; 7; 8]))
           (tensor [2; 1; 2; 2] (Qs [1; 2; 3; 4; 5; 6; 7; 8])) []
           1 2 2 2 2 1 1 0 0 2 1 2 2);
    first [ reflexivity | lia | discriminate | vm_compute; discriminate
          | unfold output_dim_fits, Reshape_sizes_fit, fits_int;
            repeat split; vm_compute; discriminate ].
Defined.

(** ** Forward_cpu: the primary output and the whole pass *)

(** X22.  When the layer has its weight blob (and with bias_term_ its
    bias blob), four rotated kernels, two output sizes, and the input and
    output storage covers num_ images, and forward_cpu_gemm writes
    top_dim_ values and forward_cpu_bias keeps that length,
    the convolution block completes.  For each image n the top_dim_
    values of the primary output at n * top_dim_ are forward_cpu_gemm of
    the image with the weights of blobs_[0], with the bias added when
    bias_term_ is set ([convolved]): the four rotated convolutions, the
    sketched scaling and the alpha field leave no trace.  The output
    keeps its length and its storage after the num_ images. *)
Theorem Forward_convolve_writes_one_dense_convolution_per_image :
  forall (D : Type) (ops : DtypeOps D) (base : BaseConv D)
         (scale_sketch : Layer D -> Z -> Z -> list D -> list D -> list D)
         (L : Layer D) (bottom0 : Blob D) (alphas top_data : list D)
         (W B : Blob D) (i0 i1 i2 i3 : Blob D) (irest : list (Blob D)) (oh ow : Z),
    vec_at (blobs_ L) 0 = Ok W ->
    (bias_term_ L = true -> vec_at (blobs_ L) 1 = Ok B) ->
    num_spatial_axes_ L = 2 -> output_shape_ L = [oh; ow] ->
    num_rotations_ L = 4 ->
    intermediate_kernels_ L = i0 :: i1 :: i2 :: i3 :: irest ->
    0 <= num_ L -> 0 <= bottom_dim_ L -> 0 <= top_dim_ L ->
    top_dim_ L <= num_output_ L * (oh * ow) ->
    num_ L * bottom_dim_ L <= len (data_ bottom0) ->
    num_ L * top_dim_ L <= len top_data ->
    (forall input weight, len (forward_cpu_gemm L input weight) = top_dim_ L) ->
    (forall out bias, len out = top_dim_ L ->
                      len (forward_cpu_bias L out bias) = top_dim_ L) ->
    exists top',
      Forward_convolve scale_sketch L bottom0 alphas top_data = Ok top' /\
      len top' = len top_data /\
      (forall n j, 0 <= n < num_ L -> 0 <= j < top_dim_ L ->
         rd top' (n * top_dim_ L + j)
         = rd (convolved L (data_ bottom0) (data_ W) (data_ B) n) j) /\
      (forall j, num_ L * top_dim_ L <= j -> rd top' j = rd top_data j).
Proof. intros. eapply Forward_convolve_spec; eassumption. Qed.

(** X22 for one 2x2 filter with bias on one 2x2 image. *)
Lemma Forward_convolve_on_one_image :
  let L := example_layer (Qs [0; 0; 1; 0]) in
  let bottom0 := tensor [1; 1; 2; 2] (Qs [1; 0; 0; 0]) in
  let W := tensor [1; 1; 2; 2] (Qs [1; 2; 3; 4]) in
  let B := tensor [1] (Qs [10]) in
  exists top',
    Forward_convolve (base := dense_base 0%Q) (@no_scaling Q) L bottom0
      (Qs [0; 0; 1; 0]) (Qs [0]) = Ok top' /\
    len top' = len (Qs [0]) /\
    (forall n j, 0 <= n < num_ L -> 0 <= j < top_dim_ L ->
       rd top' (n * top_dim_ L + j)
       = rd (convolved (base := dense_base 0%Q) L (data_ bottom0) (data_ W) (data_ B) n) j) /\
    (forall j, num_ L * top_dim_ L <= j -> rd top' j = rd (Qs [0]) j).
Proof.
  cbv zeta.
  apply (@Forward_convolve_writes_one_dense_convolution_per_image Q Q_ops (dense_base 0%Q)
           (@no_scaling Q) (example_layer (Qs [0; 0; 1; 0]))
           (tensor [1; 1; 2; 2] (Qs [1; 0; 0; 0])) (Qs [0; 0; 1; 0]) (Qs [0])
           (tensor [1; 1; 2; 2] (Qs [1; 2; 3; 4])) (tensor [1] (Qs [10]))
           (tensor [1; 1; 2; 2] (Qs [1; 2; 3; 4])) (tensor [1; 1; 2; 2] (Qs [2; 4; 1; 3]))
           (tensor [1; 1; 2; 2] (Qs [4; 3; 2; 1])) (tensor [1; 1; 2; 2] (Qs [3; 1; 4; 2]))
           [] 1 1);
    first [reflexivity | lia | vm_compute; discriminate | intros; reflexivity ].
Defined.

(** X23.  The whole forward pass on a layer with two primary channels
    and tensors shaped as Reshape shapes them (gradient field
    [N, 2, H, W]; top[1], top[2] [N, 2, PH, PW]; orientation map
    [N, 1, PH, PW]; alpha field [N, 4, PH, PW]; storage covering the
    shapes) completes, and at every location (n, ph, pw): top[2] holds
    the clipped stencil sums gx and gy of the two gradient channels; the
    orientation map holds atan2(gy, gx); top[1] holds its sine and
    cosine; the four alpha channels are the bracket cascade applied to
    their previous values and the angle in degrees.  top[0] holds, image
    by image, the dense convolution with the weights of blobs_[0] plus
    bias, which does not depend on the orientation.  The layer changes in
    its orientation map and alpha field only. *)
Theorem Forward_cpu_computes_every_output :
  forall (D : Type) (ops : DtypeOps D) (libm : Libm D) (base : BaseConv D)
         (scale_sketch : Layer D -> Z -> Z -> list D -> list D -> list D)
         (L : Layer D) (b0 b1 : Blob D) (brest : list (Blob D))
         (t0 t1 t2 : Blob D) (trest : list (Blob D))
         (W B : Blob D) (i0 i1 i2 i3 : Blob D) (irest : list (Blob D))
         (N H Wd PH PW kh kw sh sw pdh pdw : Z),
    channels_ L = 2 ->
    shape_ b1 = [N; 2; H; Wd] ->
    shape_ t1 = [N; 2; PH; PW] ->
    shape_ t2 = [N; 2; PH; PW] ->
    shape_ (orientation_map_ L) = [N; 1; PH; PW] ->
    shape_ (intermediate_kernel_alphas_ L) = [N; 4; PH; PW] ->
    stride_ L = [sh; sw] -> pad_ L = [pdh; pdw] -> kernel_shape_ L = [kh; kw] ->
    0 <= N -> 0 <= H -> 0 <= Wd -> 0 <= PH -> 0 <= PW -> 0 <= kh -> 0 <= kw ->
    kh * kw <= len (data_ (gauss_kernel_ L)) ->
    count b1 <= len (data_ b1) ->
    count t1 <= len (data_ t1) ->
    count t2 <= len (data_ t2) ->
    count (orientation_map_ L) <= len (data_ (orientation_map_ L)) ->
    count (intermediate_kernel_alphas_ L) <= len (data_ (intermediate_kernel_alphas_ L)) ->
    vec_at (blobs_ L) 0 = Ok W ->
    (bias_term_ L = true -> vec_at (blobs_ L) 1 = Ok B) ->
    num_spatial_axes_ L = 2 -> output_shape_ L = [PH; PW] ->
    num_rotations_ L = 4 ->
    intermediate_kernels_ L = i0 :: i1 :: i2 :: i3 :: irest ->
    0 <= num_ L -> 0 <= bottom_dim_ L -> 0 <= top_dim_ L ->
    top_dim_ L <= num_output_ L * (PH * PW) ->
    num_ L * bottom_dim_ L <= len (data_ b0) ->
    num_ L * top_dim_ L <= len (data_ t0) ->
    (forall o a input weight,
       len (forward_cpu_gemm (set_forward_buffers L o a) input weight) = top_dim_ L) ->
    (forall o a out bias, len out = top_dim_ L ->
       len (forward_cpu_bias (set_forward_buffers L o a) out bias) = top_dim_ L) ->
    exists smooth orientation sincos alphas conv,
      Forward_cpu scale_sketch L (b0 :: b1 :: brest) (t0 :: t1 :: t2 :: trest)
      = Ok (set_forward_buffers L orientation alphas,
            set_data t0 conv :: set_data t1 sincos :: set_data t2 smooth :: trest) /\
      (forall n ph pw, 0 <= n < N -> 0 <= ph < PH -> 0 <= pw < PW ->
         let gx := gauss_cell (data_ (gauss_kernel_ L)) (data_ b1) (offset b1 n 0 0 0)
                     H Wd kh kw sh sw pdh pdw ph pw in
         let gy := gauss_cell (data_ (gauss_kernel_ L)) (data_ b1) (offset b1 n 1 0 0)
                     H Wd kh kw sh sw pdh pdw ph pw in
         let angle := m_atan2 gy gx in
         rd smooth (offset t2 n 0 ph pw) = Ok gx /\
         rd smooth (offset t2 n 1 ph pw) = Ok gy /\
         rd orientation (offset (orientation_map_ L) n 0 ph pw) = Ok angle /\
         rd sincos (offset t1 n 0 ph pw) = Ok (m_sin angle) /\
         rd sincos (offset t1 n 1 ph pw) = Ok (m_cos angle) /\
         exists a0 a1 a2 a3 c0 c1 c2 c3,
           rd (data_ (intermediate_kernel_alphas_ L))
              (offset (intermediate_kernel_alphas_ L) n 0 ph pw) = Ok a0 /\
           rd (data_ (intermediate_kernel_alphas_ L))
              (offset (intermediate_kernel_alphas_ L) n 1 ph pw) = Ok a1 /\
           rd (data_ (intermediate_kernel_alphas_ L))
              (offset (intermediate_kernel_alphas_ L) n 2 ph pw) = Ok a2 /\
           rd (data_ (intermediate_kernel_alphas_ L))
              (offset (intermediate_kernel_alphas_ L) n 3 ph pw) = Ok a3 /\
           rd alphas (offset (intermediate_kernel_alphas_ L) n 0 ph pw) = Ok c0 /\
           rd alphas (offset (intermediate_kernel_alphas_ L) n 1 ph pw) = Ok c1 /\
           rd alphas (offset (intermediate_kernel_alphas_ L) n 2 ph pw) = Ok c2 /\
           rd alphas (offset (intermediate_kernel_alphas_ L) n 3 ph pw) = Ok c3 /\
           alpha_cell (ddiv (dmul (of_lit (180 # 1)) angle) M_PI) [a0; a1; a2; a3] 0 1 2 3
           = Ok [c0; c1; c2; c3]) /\
      len conv = len (data_ t0) /\
      (forall n j, 0 <= n < num_ L -> 0 <= j < top_dim_ L ->
         rd conv (n * top_dim_ L + j)
         = rd (convolved (set_forward_buffers L orientation alphas)
                 (data_ b0) (data_ W) (data_ B) n) j) /\
      (forall j, num_ L * top_dim_ L <= j -> rd conv j = rd (data_ t0) j).
Proof. intros. eapply Forward_cpu_spec; eassumption. Qed.

(** X23 for one two-channel 2x2 image and one 2x2 filter with bias. *)
Lemma Forward_cpu_on_one_image :
  let L := two_channel_layer in
  let b0 := tensor [1; 2; 2; 2] [1; 0; 0; 0; 0; 0; 0; 0]%R in
  let b1 := tensor [1; 2; 2; 2] [1; 0; 0; 0; 0; 1; 0; 0]%R in
  let t0 := Blob_new (D := R) [1; 1; 1; 1] in
  let t1 := Blob_new (D := R) [1; 2; 1; 1] in
  let t2 := Blob_new (D := R) [1; 2; 1; 1] in
  let W := tensor [1; 2; 2; 2] [1; 2; 3; 4; 5; 6; 7; 8]%R in
  let B := tensor [1] [10]%R in
  exists smooth orientation sincos alphas conv,
    Forward_cpu (base := dense_base 0%R) (@no_scaling R) L [b0; b1] [t0; t1; t2]
    = Ok (set_forward_buffers L orientation alphas,
          [set_data t0 conv; set_data t1 sincos; set_data t2 smooth]) /\
    (forall n ph pw, 0 <= n < 1 -> 0 <= ph < 1 -> 0 <= pw < 1 ->
       let gx := gauss_cell (data_ (gauss_kernel_ L)) (data_ b1) (offset b1 n 0 0 0)
                   2 2 2 2 1 1 0 0 ph pw in
       let gy := gauss_cell (data_ (gauss_kernel_ L)) (data_ b1) (offset b1 n 1 0 0)
                   2 2 2 2 1 1 0 0 ph pw in
       let angle := m_atan2 gy gx in
       rd smooth (offset t2 n 0 ph pw) = Ok gx /\
       rd smooth (offset t2 n 1 ph pw) = Ok gy /\
       rd orientation (offset (orientation_map_ L) n 0 ph pw) = Ok angle /\
       rd sincos (offset t1 n 0 ph pw) = Ok (m_sin angle) /\
       rd sincos (offset t1 n 1 ph pw) = Ok (m_cos angle) /\
       exists a0 a1 a2 a3 c0 c1 c2 c3,
         rd (data_ (intermediate_kernel_alphas_ L))
            (offset (intermediate_kernel_alphas_ L) n 0 ph pw) = Ok a0 /\
         rd (data_ (intermediate_kernel_alphas_ L))
            (offset (intermediate_kernel_alphas_ L) n 1 ph pw) = Ok a1 /\
         rd (data_ (intermediate_kernel_alphas_ L))
            (offset (intermediate_kernel_alphas_ L) n 2 ph pw) = Ok a2 /\
         rd (data_ (intermediate_kernel_alphas_ L))
            (offset (intermediate_kernel_alphas_ L) n 3 ph pw) = Ok a3 /\
         rd alphas (offset (intermediate_kernel_alphas_ L) n 0 ph pw) = Ok c0 /\
         rd alphas (offset (intermediate_kernel_alphas_ L) n 1 ph pw) = Ok c1 /\
         rd alphas (offset (intermediate_kernel_alphas_ L) n 2 ph pw) = Ok c2 /\
         rd alphas (offset (intermediate_kernel_alphas_ L) n 3 ph pw) = Ok c3 /\
         alpha_cell (ddiv (dmul (of_lit (180 # 1)) angle) M_PI) [a0; a1; a2; a3] 0 1 2 3
         = Ok [c0; c1; c2; c3]) /\
    len conv = len (data_ t0) /\
    (forall n j, 0 <= n < num_ L -> 0 <= j < top_dim_ L ->
       rd conv (n * top_dim_ L + j)
       = rd (convolved (base := dense_base 0%R) (set_forward_buffers L orientation alphas)
               (data_ b0) (data_ W) (data_ B) n) j) /\
    (forall j, num_ L * top_dim_ L <= j -> rd conv j = rd (data_ t0) j).
Proof.
  cbv zeta.
  apply (@Forward_cpu_computes_every_output R R_ops R_libm (dense_base 0%R) (@no_scaling R)
           two_channel_layer
           (tensor [1; 2; 2; 2] [1; 0; 0; 0; 0; 0; 0; 0]%R)
           (tensor [1; 2; 2; 2] [1; 0; 0; 0; 0; 1; 0; 0]%R) []
           (Blob_new [1; 1; 1; 1]) (Blob_new [1; 2; 1; 1]) (Blob_new [1; 2; 1; 1]) []
           (tensor [1; 2; 2; 2] [1; 2; 3; 4; 5; 6; 7; 8]%R) (tensor [1] [10]%R)
           (tensor [1; 2; 2; 2] [1; 2; 3; 4; 5; 6; 7; 8]%R)
           (tensor [1; 2; 2; 2] [1; 2; 3; 4; 5; 6; 7; 8]%R)
           (tensor [1; 2; 2; 2] [1; 2; 3; 4; 5; 6; 7; 8]%R)
           (tensor [1; 2; 2; 2] [1; 2; 3; 4; 5; 6; 7; 8]%R) []
           1 2 2 1 1 2 2 1 1 0 0);
    first [ reflexivity | lia | intros; reflexivity
          | unfold len, count, count_of; simpl; lia ].
Defined.

(** ** LayerSetUp, Reshape and Forward_cpu in a row *)

(** X24.  On a freshly constructed layer (no stored blobs, no rotated
    kernels, empty stencil), with channel axis 1, an accepted square
    kernel k, accepted non-zero strides and pads, a positive num_output,
    a positive group count dividing 2 and num_output, a primary input and
    a gradient field both shaped [n, 2, h, w] with n, h and w at least 1
    and storage covering the shape, output sizes of at least 1, sizes
    that are ints ([output_dim_fits] per axis, the weight count, and
    [Reshape_sizes_fit]), a weight filler that fills the whole weight
    blob, weights that reach past index k * k + k, and forward primitives
    that write one image of output: LayerSetUp, then Reshape on any three
    or more tops, then Forward_cpu all complete, and the tops come out
    shaped [n, num_output, oh, ow], [n, 2, oh, ow] and [n, 2, oh, ow]. *)
Theorem LayerSetUp_Reshape_Forward_cpu_complete_on_a_fresh_layer :
  forall (D : Type) (ops : DtypeOps D) (libm : Libm D) (base : BaseConv D)
         (scale_sketch : Layer D -> Z -> Z -> list D -> list D -> list D)
         (L0 : Layer D) (b0 b1 t0 t1 t2 : Blob D) (trest : list (Blob D))
         (k s1 s2 p1 p2 n h w : Z),
    let p := layer_param_ L0 in
    let oh := Z.quot (h + 2 * p1 - k) s1 + 1 in
    let ow := Z.quot (w + 2 * p2 - k) s2 + 1 in
    let C := Z.quot 2 (group p) in
    blobs_ L0 = [] -> intermediate_kernels_ L0 = [] ->
    gauss_kernel_ L0 = Blob_empty -> kernel_w_ L0 = k ->
    axis p = 1 ->
    SetUp_kernel_shape p 2 = Ok [k; k] ->
    SetUp_stride p 2 = Ok [s1; s2] ->
    SetUp_pad p 2 = Ok [p1; p2] ->
    s1 <> 0 -> s2 <> 0 ->
    0 < num_output p -> 0 < group p ->
    Z.rem 2 (group p) = 0 -> Z.rem (num_output p) (group p) = 0 ->
    shape_ b0 = [n; 2; h; w] -> shape_ b1 = [n; 2; h; w] ->
    1 <= n -> 1 <= h -> 1 <= w -> 1 <= oh -> 1 <= ow ->
    output_dim_fits h p1 k s1 -> output_dim_fits w p2 k s2 ->
    fits_int (num_output p * (C * (k * k))) ->
    Reshape_sizes_fit (Layer_set_up L0 1 k 2 [s1; s2] [p1; p2]) n 2 h w oh ow
      (C * (k * k)) ->
    count b0 <= len (data_ b0) -> count b1 <= len (data_ b1) ->
    len (weight_filler [num_output p; C; k; k]) = num_output p * C * (k * k) ->
    k * k + k < num_output p * C * (k * k) ->
    (forall L' input weight,
       conv_out_channels_ L' = num_output p -> output_shape_ L' = [oh; ow] ->
       len (forward_cpu_gemm L' input weight) = num_output p * oh * ow) ->
    (forall L' out bias,
       conv_out_channels_ L' = num_output p -> output_shape_ L' = [oh; ow] ->
       len out = num_output p * oh * ow ->
       len (forward_cpu_bias L' out bias) = num_output p * oh * ow) ->
    exists L1 L2 L3 top2 top3,
      LayerSetUp L0 [b0; b1] = Ok L1 /\
      Reshape L1 [b0; b1] (t0 :: t1 :: t2 :: trest) = Ok (L2, top2) /\
      Forward_cpu scale_sketch L2 [b0; b1] top2 = Ok (L3, top3) /\
      map (@shape_ D) top3
      = [n; num_output p; oh; ow] :: [n; 2; oh; ow] :: [n; 2; oh; ow]
        :: map (@shape_ D) trest.
Proof.
  intros. subst p oh ow C.
  eapply (@fresh_pipeline D ops libm base scale_sketch L0 b0 b1 t0 t1 t2 trest
            k s1 s2 p1 p2 n h w); first [assumption | lia].
Qed.

(** X24 for one 2x2 filter with bias on one two-channel 2x2 image. *)
Lemma LayerSetUp_Reshape_Forward_cpu_on_one_image :
  let L0 := Layer_new (D := R) (square_param 2 1 0 1 true) 2 [] in
  let b0 := tensor [1; 2; 2; 2] [1; 0; 0; 0; 0; 0; 0; 0]%R in
  let b1 := tensor [1; 2; 2; 2] [1; 0; 0; 0; 0; 1; 0; 0]%R in
  exists L1 L2 L3 top2 top3,
    LayerSetUp (base := dense_base 1%R) L0 [b0; b1] = Ok L1 /\
    Reshape L1 [b0; b1] [Blob_empty; Blob_empty; Blob_empty] = Ok (L2, top2) /\
    Forward_cpu (base := dense_base 1%R) (@no_scaling R) L2 [b0; b1] top2 = Ok (L3, top3) /\
    map (@shape_ R) top3 = [[1; 1; 1; 1]; [1; 2; 1; 1]; [1; 2; 1; 1]].
Proof.
  cbv zeta.
  apply (@LayerSetUp_Reshape_Forward_cpu_complete_on_a_fresh_layer R R_ops R_libm
           (dense_base 1%R) (@no_scaling R)
           (Layer_new (square_param 2 1 0 1 true) 2 [])
           (tensor [1; 2; 2; 2] [1; 0; 0; 0; 0; 0; 0; 0]%R)
           (tensor [1; 2; 2; 2] [1; 0; 0; 0; 0; 1; 0; 0]%R)
           Blob_empty Blob_empty Blob_empty [] 2 1 1 0 0 1 2 2);
    first [ reflexivity | lia | discriminate
          | unfold len, count, count_of; simpl; lia
          | unfold output_dim_fits, fits_int; repeat split; vm_compute; discriminate
          | unfold Reshape_sizes_fit, Layer_set_up, fits_int; layer_fields;
            repeat split; vm_compute; discriminate
          | intros L' input weight Hc Ho; cbn [forward_cpu_gemm dense_base];
            unfold dense_conv; rewrite Hc, Ho; reflexivity
          | intros L' out bias Hc Ho Hout; cbn [forward_cpu_bias dense_base];
            unfold dense_bias; rewrite Hc, Ho; reflexivity ].
Defined.

(** ** LayerSetUp with stored parameter blobs *)

(** X25.  On a configuration that passes the checks of lines 24-128, a
    layer that comes with stored parameter blobs is rejected with a
    message (lines 150-164) when their number is not 1 + bias_term, when
    the first one is not shaped [num_output, channels / group, k, k], or
    when bias_term is set and the second one is not shaped
    [num_output]. *)
Theorem LayerSetUp_rejects_mismatched_stored_blobs :
  forall (D : Type) (ops : DtypeOps D) (libm : Libm D) (base : BaseConv D)
         (L : Layer D) (b0 : Blob D) (rest : list (Blob D))
         (ca k c : Z) (sd pd : list Z),
    let p := layer_param_ L in
    CanonicalAxisIndex b0 (axis p) = Ok ca ->
    num_axes b0 = ca + 3 ->
    SetUp_kernel_shape p 2 = Ok [k; k] ->
    SetUp_stride p 2 = Ok sd ->
    SetUp_pad p 2 = Ok pd ->
    shape b0 ca = Ok c ->
    0 < num_output p ->
    group p <> 0 ->
    Z.rem c (group p) = 0 ->
    Z.rem (num_output p) (group p) = 0 ->
    0 < len (blobs_ L) ->
    len (blobs_ L) <> 1 + (if bias_term p then 1 else 0) \/
    (forall W, vec_at (blobs_ L) 0 = Ok W ->
               shape_ W <> [num_output p; Z.quot c (group p); k; k]) \/
    (bias_term p = true /\
     forall B, vec_at (blobs_ L) 1 = Ok B -> shape_ B <> [num_output p]) ->
    exists msg, LayerSetUp L (b0 :: rest) = Fatal msg.
Proof. intros. eapply LayerSetUp_rejects_stored; eassumption. Qed.

(** X25 for a stored weight blob without the bias blob the
    configuration asks for. *)
Lemma LayerSetUp_rejects_a_missing_bias_blob :
  exists msg,
    LayerSetUp (base := dense_base 0%R)
      (Layer_new (square_param 2 1 0 2 true) 2 [shaped [2; 1; 2; 2]])
      [shaped [1; 1; 2; 2]] = Fatal msg.
Proof.
  apply (@LayerSetUp_rejects_mismatched_stored_blobs R R_ops R_libm (dense_base 0%R)
           (Layer_new (square_param 2 1 0 2 true) 2 [shaped [2; 1; 2; 2]])
           (shaped [1; 1; 2; 2]) [] 1 2 1 [1; 1] [0; 0]);
    first [reflexivity | lia | discriminate | left; cbn; lia].
Defined.

(** ** A zero stride from LayerSetUp to Reshape *)



(** ** Forward_cpu: the orientation of every pass that completes *)

Lemma for_range_preserves (S : Type) (P : S -> Prop) (body : Z -> S -> outcome S)
    (lo hi : Z) :
  (forall i s s', P s -> body i s = Ok s' -> P s') ->
  forall s s', P s -> for_range lo hi body s = Ok s' -> P s'.
Proof.
  intros Hb s s' Hs Hf. unfold for_range in Hf.
  exact (for_nat_preserves P body _ Hb _ _ Hs Hf).
Qed.

Section GaussKeeps.
Context {D : Type} {ops : DtypeOps D}.

(** GaussConvolveHelper writes into the storage of [out] and changes
    neither its shape nor its length, whatever the channel count. *)
Lemma GaussConvolveHelper_keeps (L : Layer D) (inb out out' : Blob D) :
  GaussConvolveHelper L inb out = Ok out' ->
  exists od, out' = set_data out od /\ len od = len (data_ out).
Proof.
  unfold GaussConvolveHelper. intros H.
  bind_inv H as N HN. bind_inv H as Hh HH. bind_inv H as Ww HW.
  bind_inv H as PH HPH. bind_inv H as PW HPW.
  bind_inv H as sh Hsh. bind_inv H as sw Hsw. bind_inv H as pdh Hpdh.
  bind_inv H as pdw Hpdw. bind_inv H as kh Hkh. bind_inv H as kw Hkw.
  bind_inv H as od0 Hset.
  assert (Hl0 : len od0 = len (data_ out)).
  { unfold caffe_set in Hset.
    eapply (@for_range_preserves _ (fun y => len y = len (data_ out)));
      [ | | exact Hset]; [ | reflexivity].
    intros i y y' Hy Hw. apply wr_Ok_len in Hw. lia. }
  bind_inv H as st Hst. destruct st as [[od ib] ob].
  inversion H; subst out'. exists od. split; [reflexivity | ].
  change (len (fst (fst (od, ib, ob))) = len (data_ out)).
  eapply (@for_range_preserves _
            (fun st : list D * Z * Z => len (fst (fst st)) = len (data_ out)));
    [ | | exact Hst]; [ | exact Hl0].
  intros n s s'.
  apply (@for_range_preserves _
           (fun st : list D * Z * Z => len (fst (fst st)) = len (data_ out))).
  intros c [[o1 i1] b1] [[o2 i2] b2] Hs Hb. cbn [fst] in *.
  bind_inv Hb as o3 Ho3. inversion Hb; subst.
  eapply (@for_range_preserves _ (fun y => len y = len (data_ out)));
    [ | | exact Ho3]; [ | exact Hs].
  intros ph y y'. apply (@for_range_preserves _ (fun y : list D => len y = len (data_ out))).
  intros pw y1 y1'. cbv zeta. apply (@for_range_preserves _ (fun y : list D => len y = len (data_ out))).
  intros h y2 y2'. apply (@for_range_preserves _ (fun y : list D => len y = len (data_ out))).
  intros w y3 y3' Hy3 Hw.
  bind_inv Hw as o Ho. bind_inv Hw as g Hg. bind_inv Hw as x Hx.
  apply wr_Ok_len in Hw. lia.
Qed.
End GaussKeeps.

Section CompletedPass.
Variable base : BaseConv R.
Variable scale_sketch : Layer R -> Z -> Z -> list R -> list R -> list R.

(** Lines 417-443 of any pass that completes, on tops and an orientation
    map shaped as Reshape shapes them. *)
Lemma Forward_cpu_completed_orientation (L L' : Layer R) (bottom top' : list (Blob R))
    (t0 t1 t2 : Blob R) (trest : list (Blob R)) (N PH PW : Z) :
  0 <= N -> 0 <= PH -> 0 <= PW ->
  shape_ t1 = [N; 2; PH; PW] ->
  shape_ t2 = [N; 2; PH; PW] ->
  shape_ (orientation_map_ L) = [N; 1; PH; PW] ->
  count t1 <= len (data_ t1) ->
  count t2 <= len (data_ t2) ->
  count (orientation_map_ L) <= len (data_ (orientation_map_ L)) ->
  Forward_cpu scale_sketch L bottom (t0 :: t1 :: t2 :: trest) = Ok (L', top') ->
  exists conv sincos smooth orientation,
    top' = set_data t0 conv :: set_data t1 sincos :: set_data t2 smooth :: trest /\
    orientation_map_ L' = set_data (orientation_map_ L) orientation /\
    forall n ph pw, 0 <= n < N -> 0 <= ph < PH -> 0 <= pw < PW ->
      exists gx gy angle,
        rd smooth (offset t2 n 0 ph pw) = Ok gx /\
        rd smooth (offset t2 n 1 ph pw) = Ok gy /\
        rd orientation (offset (orientation_map_ L) n 0 ph pw) = Ok angle /\
        angle = Ratan2 gy gx /\
        (- PI < angle <= PI)%R /\
        (gy = 0 -> 0 < gx -> angle = 0)%R /\
        (0 < gy -> gx = 0 -> angle = PI / 2)%R /\
        (gy = 0 -> gx < 0 -> angle = PI)%R /\
        (gy < 0 -> gx = 0 -> angle = - (PI / 2))%R /\
        rd sincos (offset t1 n 0 ph pw) = Ok (sin angle) /\
        rd sincos (offset t1 n 1 ph pw) = Ok (cos angle).
Proof.
  intros HN HPH HPW Ht1 Ht2 Hom Hc1 Hc2 Hco H.
  rewrite (count_4 _ Ht1) in Hc1. rewrite (count_4 _ Ht2) in Hc2.
  rewrite (count_4 _ Hom) in Hco.
  unfold Forward_cpu in H.
  bind_inv H as b1 Hb1. unfold vec_at at 1 in H. rewrite rd_2 in H. cbn [bind] in H.
  bind_inv H as t2' Hg.
  destruct (GaussConvolveHelper_keeps _ _ _ Hg) as (smooth & -> & Hls).
  rewrite wr_2 in H. cbn [bind] in H.
  destruct (@Forward_orientation_spec R R_libm L (set_data t2 smooth) N PH PW)
    as (o & Ho & Hlo & Hor); try assumption; try (cbn [data_ set_data]; lia).
  rewrite Ho in H. cbn [bind] in H.
  unfold vec_at at 1 in H. rewrite rd_1 in H. cbn [bind] in H.
  destruct (@Forward_sincos_spec R R_libm L o t1 (set_data t2 smooth) N PH PW)
    as (sc & Hsc & _ & Hsin); try assumption; try lia.
  rewrite Hsc in H. cbn [bind] in H. rewrite wr_1 in H. cbn [bind] in H.
  bind_inv H as al Hal. bind_inv H as b0 Hb0.
  unfold vec_at at 1 in H. rewrite rd_0 in H. cbn [bind] in H.
  bind_inv H as conv Hconv. rewrite wr_0 in H. cbn [bind] in H.
  injection H as <- <-.
  exists conv, sc, smooth, o.
  split; [reflexivity | ]. split; [reflexivity | ].
  intros n ph pw Hn Hph Hpw.
  pose proof (spatial_index Hph Hpw) as Hsp.
  destruct (shape_of t2 Ht2) as (_ & _ & _ & _ & _ & Hoff2).
  destruct (shape_of t1 Ht1) as (_ & _ & _ & _ & _ & Hoff1).
  destruct (shape_of (orientation_map_ L) Hom) as (_ & _ & _ & _ & _ & Hoffo).
  rewrite !Hoff2, !Hoff1, !Hoffo.
  destruct (Hor n (ph * PW + pw) Hn Hsp) as (gy & gx & Hgy & Hgx & Hro).
  destruct (Hsin n (ph * PW + pw) Hn Hsp) as (a & Ha & Hsi & Hcs).
  cbn [data_ set_data] in Hgy, Hgx.
  assert (a = Ratan2 gy gx) by (simpl in Hro; congruence). subst a.
  exists gx, gy, (Ratan2 gy gx).
  replace (((n * 2 + 0) * PH + ph) * PW + pw)
    with (n * (2 * (PH * PW)) + (ph * PW + pw)) by ring.
  replace (((n * 2 + 1) * PH + ph) * PW + pw)
    with (n * (2 * (PH * PW)) + PH * PW + (ph * PW + pw)) by ring.
  replace (((n * 1 + 0) * PH + ph) * PW + pw) with (n * (PH * PW) + (ph * PW + pw)) by ring.
  destruct Ratan2_axes as (A0 & A1 & A2 & A3).
  split; [exact Hgx | ]. split; [exact Hgy | ]. split; [exact Hro | ].
  split; [reflexivity | ]. split; [apply Ratan2_range | ].
  split; [intros -> Hx; now apply A0 | ].
  split; [intros Hy ->; now apply A1 | ].
  split; [intros -> Hx; now apply A2 | ].
  split; [intros Hy ->; now apply A3 | ].
  split; [exact Hsi | exact Hcs].
Qed.

(** With two primary channels the pass completes, and what it leaves in
    top[2] is the smoothed gradient field. *)
Lemma Forward_cpu_smooths (L : Layer R) (b0 b1 : Blob R) (brest : list (Blob R))
    (t0 t1 t2 : Blob R) (trest : list (Blob R))
    (W B : Blob R) (i0 i1 i2 i3 : Blob R) (irest : list (Blob R))
    (N H Wd PH PW kh kw sh sw pdh pdw : Z) :
  channels_ L = 2 ->
  shape_ b1 = [N; 2; H; Wd] ->
  shape_ t1 = [N; 2; PH; PW] ->
  shape_ t2 = [N; 2; PH; PW] ->
  shape_ (orientation_map_ L) = [N; 1; PH; PW] ->
  shape_ (intermediate_kernel_alphas_ L) = [N; 4; PH; PW] ->
  stride_ L = [sh; sw] -> pad_ L = [pdh; pdw] -> kernel_shape_ L = [kh; kw] ->
  0 <= N -> 0 <= H -> 0 <= Wd -> 0 <= PH -> 0 <= PW -> 0 <= kh -> 0 <= kw ->
  kh * kw <= len (data_ (gauss_kernel_ L)) ->
  count b1 <= len (data_ b1) ->
  count t1 <= len (data_ t1) ->
  count t2 <= len (data_ t2) ->
  count (orientation_map_ L) <= len (data_ (orientation_map_ L)) ->
  count (intermediate_kernel_alphas_ L) <= len (data_ (intermediate_kernel_alphas_ L)) ->
  vec_at (blobs_ L) 0 = Ok W ->
  (bias_term_ L = true -> vec_at (blobs_ L) 1 = Ok B) ->
  num_spatial_axes_ L = 2 -> output_shape_ L = [PH; PW] ->
  num_rotations_ L = 4 ->
  intermediate_kernels_ L = i0 :: i1 :: i2 :: i3 :: irest ->
  0 <= num_ L -> 0 <= bottom_dim_ L -> 0 <= top_dim_ L ->
  top_dim_ L <= num_output_ L * (PH * PW) ->
  num_ L * bottom_dim_ L <= len (data_ b0) ->
  num_ L * top_dim_ L <= len (data_ t0) ->
  (forall o a input weight,
     len (forward_cpu_gemm (set_forward_buffers L o a) input weight) = top_dim_ L) ->
  (forall o a out bias, len out = top_dim_ L ->
     len (forward_cpu_bias (set_forward_buffers L o a) out bias) = top_dim_ L) ->
  exists L' top' smooth,
    Forward_cpu scale_sketch L (b0 :: b1 :: brest) (t0 :: t1 :: t2 :: trest)
    = Ok (L', top') /\
    vec_at top' 2 = Ok (set_data t2 smooth) /\
    forall n ph pw, 0 <= n < N -> 0 <= ph < PH -> 0 <= pw < PW ->
      rd smooth (offset t2 n 0 ph pw)
      = Ok (gauss_cell (data_ (gauss_kernel_ L)) (data_ b1) (offset b1 n 0 0 0)
              H Wd kh kw sh sw pdh pdw ph pw) /\
      rd smooth (offset t2 n 1 ph pw)
      = Ok (gauss_cell (data_ (gauss_kernel_ L)) (data_ b1) (offset b1 n 1 0 0)
              H Wd kh kw sh sw pdh pdw ph pw).
Proof.
  intros.
  destruct (@Forward_cpu_spec R R_ops R_libm base scale_sketch L b0 b1 brest t0 t1 t2 trest
              W B i0 i1 i2 i3 irest N H Wd PH PW kh kw sh sw pdh pdw)
    as (smooth & o & sc & al & conv & Hf & Hcells & _); try assumption.
  eexists. eexists. exists smooth. split; [exact Hf | ].
  split; [unfold vec_at; rewrite rd_2; reflexivity | ].
  intros n ph pw Hn Hph Hpw.
  destruct (Hcells n ph pw Hn Hph Hpw) as (Hx & Hy & _).
  split; [exact Hx | exact Hy].
Qed.
End CompletedPass.

(** C7.  On tops and an orientation map shaped as Reshape shapes them
    ([N, 2, PH, PW] and [N, 1, PH, PW], storage covering the shapes):
    (1) after every forward pass that completes, at every output
    location (n, ph, pw), the orientation map holds the four-quadrant
    arctangent of (channel 1, channel 0) of the smoothed gradient field
    the pass left in top[2]; the angle lies in (-pi, pi]; it is 0 when
    the field points along the positive horizontal axis, pi/2 along the
    positive vertical axis, pi along the negative horizontal axis and
    -pi/2 along the negative vertical axis; and top[1] holds the sine of
    the angle in channel 0 and its cosine in channel 1.
    (2) With two primary channels, a gradient field [N, 2, H, W] and a
    layer as Reshape leaves it, the pass completes, and top[2] holds at
    every location the clipped stencil sums of the two gradient
    channels. *)
Theorem Forward_cpu_orientation_is_atan2_with_sine_and_cosine :
  forall (base : BaseConv R)
         (scale_sketch : Layer R -> Z -> Z -> list R -> list R -> list R)
         (L : Layer R) (bottom : list (Blob R))
         (t0 t1 t2 : Blob R) (trest : list (Blob R)) (N PH PW : Z),
    0 <= N -> 0 <= PH -> 0 <= PW ->
    shape_ t1 = [N; 2; PH; PW] ->
    shape_ t2 = [N; 2; PH; PW] ->
    shape_ (orientation_map_ L) = [N; 1; PH; PW] ->
    count t1 <= len (data_ t1) ->
    count t2 <= len (data_ t2) ->
    count (orientation_map_ L) <= len (data_ (orientation_map_ L)) ->
    (forall L' top',
       Forward_cpu scale_sketch L bottom (t0 :: t1 :: t2 :: trest) = Ok (L', top') ->
       exists conv sincos smooth orientation,
         top' = set_data t0 conv :: set_data t1 sincos :: set_data t2 smooth :: trest /\
         orientation_map_ L' = set_data (orientation_map_ L) orientation /\
         forall n ph pw, 0 <= n < N -> 0 <= ph < PH -> 0 <= pw < PW ->
           exists gx gy angle,
             rd smooth (offset t2 n 0 ph pw) = Ok gx /\
             rd smooth (offset t2 n 1 ph pw) = Ok gy /\
             rd orientation (offset (orientation_map_ L) n 0 ph pw) = Ok angle /\
             angle = Ratan2 gy gx /\
             (- PI < angle <= PI)%R /\
             (gy = 0 -> 0 < gx -> angle = 0)%R /\
             (0 < gy -> gx = 0 -> angle = PI / 2)%R /\
             (gy = 0 -> gx < 0 -> angle = PI)%R /\
             (gy < 0 -> gx = 0 -> angle = - (PI / 2))%R /\
             rd sincos (offset t1 n 0 ph pw) = Ok (sin angle) /\
             rd sincos (offset t1 n 1 ph pw) = Ok (cos angle)) /\
    (forall (b0 b1 : Blob R) (brest : list (Blob R))
            (W B : Blob R) (i0 i1 i2 i3 : Blob R) (irest : list (Blob R))
            (H Wd kh kw sh sw pdh pdw : Z),
       bottom = b0 :: b1 :: brest ->
       channels_ L = 2 ->
       shape_ b1 = [N; 2; H; Wd] ->
       shape_ (intermediate_kernel_alphas_ L) = [N; 4; PH; PW] ->
       stride_ L = [sh; sw] -> pad_ L = [pdh; pdw] -> kernel_shape_ L = [kh; kw] ->
       0 <= H -> 0 <= Wd -> 0 <= kh -> 0 <= kw ->
       kh * kw <= len (data_ (gauss_kernel_ L)) ->
       count b1 <= len (data_ b1) ->
       count (intermediate_kernel_alphas_ L)
       <= len (data_ (intermediate_kernel_alphas_ L)) ->
       vec_at (blobs_ L) 0 = Ok W ->
       (bias_term_ L = true -> vec_at (blobs_ L) 1 = Ok B) ->
       num_spatial_axes_ L = 2 -> output_shape_ L = [PH; PW] ->
       num_rotations_ L = 4 ->
       intermediate_kernels_ L = i0 :: i1 :: i2 :: i3 :: irest ->
       0 <= num_ L -> 0 <= bottom_dim_ L -> 0 <= top_dim_ L ->
       top_dim_ L <= num_output_ L * (PH * PW) ->
       num_ L * bottom_dim_ L <= len (data_ b0) ->
       num_ L * top_dim_ L <= len (data_ t0) ->
       (forall o a input weight,
          len (forward_cpu_gemm (set_forward_buffers L o a) input weight) = top_dim_ L) ->
       (forall o a out bias, len out = top_dim_ L ->
          len (forward_cpu_bias (set_forward_buffers L o a) out bias) = top_dim_ L) ->
       exists L' top' smooth,
         Forward_cpu scale_sketch L bottom (t0 :: t1 :: t2 :: trest) = Ok (L', top') /\
         vec_at top' 2 = Ok (set_data t2 smooth) /\
         forall n ph pw, 0 <= n < N -> 0 <= ph < PH -> 0 <= pw < PW ->
           rd smooth (offset t2 n 0 ph pw)
           = Ok (gauss_cell (data_ (gauss_kernel_ L)) (data_ b1) (offset b1 n 0 0 0)
                   H Wd kh kw sh sw pdh pdw ph pw) /\
           rd smooth (offset t2 n 1 ph pw)
           = Ok (gauss_cell (data_ (gauss_kernel_ L)) (data_ b1) (offset b1 n 1 0 0)
                   H Wd kh kw sh sw pdh pdw ph pw)).
Proof.
  intros base scale_sketch L bottom t0 t1 t2 trest N PH PW HN HPH HPW Ht1 Ht2 Hom
         Hc1 Hc2 Hco.
  split.
  - intros L' top' Hrun.
    eapply Forward_cpu_completed_orientation; eassumption.
  - intros b0 b1 brest W B i0 i1 i2 i3 irest H Wd kh kw sh sw pdh pdw ->.
    intros. eapply Forward_cpu_smooths; eassumption.
Qed.

(** C7 for one two-channel 2x2 image, one 2x2 filter with bias and
    outputs of one pixel: the pass completes, and what it leaves is as
    the theorem says. *)
Lemma Forward_cpu_orientation_on_one_image :
  let L := two_channel_layer in
  let b0 := tensor [1; 2; 2; 2] [1; 0; 0; 0; 0; 0; 0; 0]%R in
  let b1 := tensor [1; 2; 2; 2] [1; 0; 0; 0; 0; 1; 0; 0]%R in
  let t0 := Blob_new (D := R) [1; 1; 1; 1] in
  let t1 := Blob_new (D := R) [1; 2; 1; 1] in
  let t2 := Blob_new (D := R) [1; 2; 1; 1] in
  exists L' conv sincos smooth orientation,
    Forward_cpu (base := dense_base 0%R) (@no_scaling R) L [b0; b1] [t0; t1; t2]
    = Ok (L', [set_data t0 conv; set_data t1 sincos; set_data t2 smooth]) /\
    orientation_map_ L' = set_data (orientation_map_ L) orientation /\
    forall n ph pw, 0 <= n < 1 -> 0 <= ph < 1 -> 0 <= pw < 1 ->
      exists gx gy angle,
        gx = gauss_cell (data_ (gauss_kernel_ L)) (data_ b1) (offset b1 n 0 0 0)
               2 2 2 2 1 1 0 0 ph pw /\
        gy = gauss_cell (data_ (gauss_kernel_ L)) (data_ b1) (offset b1 n 1 0 0)
               2 2 2 2 1 1 0 0 ph pw /\
        rd smooth (offset t2 n 0 ph pw) = Ok gx /\
        rd smooth (offset t2 n 1 ph pw) = Ok gy /\
        rd orientation (offset (orientation_map_ L) n 0 ph pw) = Ok angle /\
        angle = Ratan2 gy gx /\
        (- PI < angle <= PI)%R /\
        (gy = 0 -> 0 < gx -> angle = 0)%R /\
        (0 < gy -> gx = 0 -> angle = PI / 2)%R /\
        (gy = 0 -> gx < 0 -> angle = PI)%R /\
        (gy < 0 -> gx = 0 -> angle = - (PI / 2))%R /\
        rd sincos (offset t1 n 0 ph pw) = Ok (sin angle) /\
        rd sincos (offset t1 n 1 ph pw) = Ok (cos angle).
Proof.
  cbv zeta.
  destruct (@Forward_cpu_orientation_is_atan2_with_sine_and_cosine (dense_base 0%R)
              (@no_scaling R) two_channel_layer
              [tensor [1; 2; 2; 2] [1; 0; 0; 0; 0; 0; 0; 0]%R;
               tensor [1; 2; 2; 2] [1; 0; 0; 0; 0; 1; 0; 0]%R]
              (Blob_new [1; 1; 1; 1]) (Blob_new [1; 2; 1; 1]) (Blob_new [1; 2; 1; 1]) []
              1 1 1) as [Hall Hrun];
    [ first [ reflexivity | lia | unfold len, count, count_of; simpl; lia ] .. | ].
  destruct (Hrun (tensor [1; 2; 2; 2] [1; 0; 0; 0; 0; 0; 0; 0]%R)
              (tensor [1; 2; 2; 2] [1; 0; 0; 0; 0; 1; 0; 0]%R) []
              (tensor [1; 2; 2; 2] [1; 2; 3; 4; 5; 6; 7; 8]%R) (tensor [1] [10]%R)
              (tensor [1; 2; 2; 2] [1; 2; 3; 4; 5; 6; 7; 8]%R)
              (tensor [1; 2; 2; 2] [1; 2; 3; 4; 5; 6; 7; 8]%R)
              (tensor [1; 2; 2; 2] [1; 2; 3; 4; 5; 6; 7; 8]%R)
              (tensor [1; 2; 2; 2] [1; 2; 3; 4; 5; 6; 7; 8]%R) []
              2 2 2 2 1 1 0 0)
    as (L' & top' & smooth & Hf & Ht2 & Hcells);
    [ first [ reflexivity | lia | intros; reflexivity
            | unfold len, count, count_of; simpl; lia ] .. | ].
  destruct (Hall L' top' Hf) as (conv & sc & sm & o & -> & Hom & Hloc).
  unfold vec_at in Ht2. rewrite rd_2 in Ht2.
  assert (sm = smooth) by (injection Ht2; auto). subst sm.
  exists L', conv, sc, smooth, o.
  split; [exact Hf | ]. split; [exact Hom | ].
  intros n ph pw Hn Hph Hpw.
  destruct (Hloc n ph pw Hn Hph Hpw)
    as (gx & gy & angle & Hgx & Hgy & Ho & Ha & Hr & A0 & A1 & A2 & A3 & Hs & Hc).
  destruct (Hcells n ph pw Hn Hph Hpw) as (Gx & Gy).
  exists gx, gy, angle.
  split; [congruence | ]. split; [congruence | ].
  repeat (split; [assumption | ]). assumption.
Defined.
